(** * Arrow foreign-data engine of pg-strom: a shallow embedding of
      [next/arrow_fdw.c] and the properties of its specification.

    The development follows the source file top to bottom:
    - machine integers, alignment macros and the [elog(ERROR)] result type;
    - the Arrow schema types and the record-batch field state;
    - the type binder ([arrowFieldGetPGTypeHint],
      [__assignRecordBatchFieldStateBuffer], [__buildRecordBatchFieldState]);
    - the min/max statistics binder;
    - the shared metadata cache (slab allocator, hash slots, LRU list);
    - the file-state builder and the file-set resolver. *)

From Stdlib Require Import ZArith String Ascii List Lia Bool.
From stdpp Require Import base option list gmap strings.

Set Warnings "-register-all".
Set Default Proof Using "Type".
Open Scope Z_scope.

(* ================================================================== *)
(** ** Machine integers and PostgreSQL macros *)
(* ================================================================== *)

(** Conversion of a C integer to [size_t] / [uintptr_t] (64 bit). *)
Definition to_u64 (z : Z) : Z := z mod 2 ^ 64.

(** Conversion to a signed [int16] ([Int16GetDatum]). *)
Definition to_i16 (z : Z) : Z := (z + 2 ^ 15) mod 2 ^ 16 - 2 ^ 15.

(** [MAXALIGN(LEN)] of PostgreSQL's c.h:
    [TYPEALIGN(MAXIMUM_ALIGNOF, LEN)], that is
    [((uintptr_t)(LEN) + (8 - 1)) & ~((uintptr_t)(8 - 1))]. *)
Definition MAXIMUM_ALIGNOF : Z := 8.

Definition MAXALIGN (len : Z) : Z :=
  Z.land (to_u64 (to_u64 len + (MAXIMUM_ALIGNOF - 1)))
         (to_u64 (Z.lnot (MAXIMUM_ALIGNOF - 1))).

(** Modelled from the spec: the macro [BITMAPLEN] lives in a header that
    is not part of the sources at hand; section 4.4 of the specification
    gives the nullmap length as [ceil(row_count / 8)].  C division
    truncates, hence [Z.quot]. *)
Definition BITMAPLEN (nitems : Z) : Z := Z.quot (nitems + 7) 8.

Definition InvalidOid : Z := 0.
Definition OidIsValid (oid : Z) : bool := negb (oid =? InvalidOid).

(** Catalog constants of PostgreSQL (pg_type_d.h, pg_namespace_d.h). *)
Definition PG_CATALOG_NAMESPACE : Z := 11.
Definition BOOLOID : Z := 16.
Definition BYTEAOID : Z := 17.
Definition INT8OID : Z := 20.
Definition INT2OID : Z := 21.
Definition INT4OID : Z := 23.
Definition TEXTOID : Z := 25.
Definition FLOAT4OID : Z := 700.
Definition FLOAT8OID : Z := 701.
Definition MACADDROID : Z := 829.
Definition INETOID : Z := 869.
Definition DATEOID : Z := 1082.
Definition TIMEOID : Z := 1083.
Definition TIMESTAMPOID : Z := 1114.
Definition TIMESTAMPTZOID : Z := 1184.
Definition INTERVALOID : Z := 1186.
Definition NUMERICOID : Z := 1700.
Definition VARHDRSZ : Z := 4.
Definition BLCKSZ : Z := 8192.

(* ================================================================== *)
(** ** [elog(ERROR, ...)] as a result type *)
(* ================================================================== *)

(** The error kinds of section 7 of the specification. *)
Inductive ErrorKind :=
| OptionError
| FileCorrupt
| UnsupportedFeature
| UnsupportedType
| UnsupportedNesting
| NoCompatibleComposite
| SchemaMismatch
| RecordBatchCorrupt
| SystemError.

(** Outcome of a routine that may leave through [elog(ERROR, msg)]. *)
Inductive result (A : Type) :=
| Ok (a : A)
| Error (kind : ErrorKind) (msg : string).
Arguments Ok {A} a.
Arguments Error {A} kind msg.

#[global] Instance result_ret : MRet result := fun A a => Ok a.

#[global] Instance result_bind : MBind result := fun A B k r =>
  match r with
  | Ok a => k a
  | Error kind msg => Error kind msg
  end.

Definition is_error {A} (r : result A) : bool :=
  match r with Ok _ => false | Error _ _ => true end.

Definition error_kind {A} (r : result A) : option ErrorKind :=
  match r with Ok _ => None | Error k _ => Some k end.

(* ================================================================== *)
(** ** Arrow schema (arrow_defs.h) *)
(* ================================================================== *)

(** Enumerations read from the file carry an [_unknown] case for the
    values the [default:] branches of the source deal with. *)
Inductive ArrowPrecision :=
| ArrowPrecision__Half
| ArrowPrecision__Single
| ArrowPrecision__Double
| ArrowPrecision__unknown (raw : Z).

Inductive ArrowDateUnit :=
| ArrowDateUnit__Day
| ArrowDateUnit__MilliSecond
| ArrowDateUnit__unknown (raw : Z).

Inductive ArrowTimeUnit :=
| ArrowTimeUnit__Second
| ArrowTimeUnit__MilliSecond
| ArrowTimeUnit__MicroSecond
| ArrowTimeUnit__NanoSecond
| ArrowTimeUnit__unknown (raw : Z).

Inductive ArrowIntervalUnit :=
| ArrowIntervalUnit__Year_Month
| ArrowIntervalUnit__Day_Time
| ArrowIntervalUnit__unknown (raw : Z).

(** [ArrowType]: the tagged union [t->node.tag] with the members the
    binder reads. *)
Inductive ArrowType :=
| ArrowNodeTag__Int (bitWidth : Z) (is_signed : bool)
| ArrowNodeTag__FloatingPoint (precision : ArrowPrecision)
| ArrowNodeTag__Bool
| ArrowNodeTag__Decimal (precision scale bitWidth : Z)
| ArrowNodeTag__Date (unit : ArrowDateUnit)
| ArrowNodeTag__Time (unit : ArrowTimeUnit)
| ArrowNodeTag__Timestamp (unit : ArrowTimeUnit) (timezone : option string)
| ArrowNodeTag__Interval (unit : ArrowIntervalUnit)
| ArrowNodeTag__FixedSizeBinary (byteWidth : Z)
| ArrowNodeTag__Utf8
| ArrowNodeTag__LargeUtf8
| ArrowNodeTag__Binary
| ArrowNodeTag__LargeBinary
| ArrowNodeTag__List
| ArrowNodeTag__LargeList
| ArrowNodeTag__Struct
| ArrowNodeTag__other (tagName : string).

Record ArrowKeyValue := mkArrowKeyValue {
  key : string;
  value : string
}.

Inductive ArrowField := mkArrowField {
  field_name : string;
  field_type : ArrowType;
  custom_metadata : list ArrowKeyValue;
  field_children : list ArrowField
}.

Record ArrowFieldNode := mkArrowFieldNode {
  fnode_length : Z;
  fnode_null_count : Z
}.

Record ArrowBuffer := mkArrowBuffer {
  buf_offset : Z;
  buf_length : Z
}.

(* ================================================================== *)
(** ** Record-batch field state *)
(* ================================================================== *)

Inductive ArrowTypeTag :=
| ArrowType__Null
| ArrowType__Int
| ArrowType__FloatingPoint
| ArrowType__Bool
| ArrowType__Decimal
| ArrowType__Date
| ArrowType__Time
| ArrowType__Timestamp
| ArrowType__Interval
| ArrowType__FixedSizeBinary
| ArrowType__Utf8
| ArrowType__LargeUtf8
| ArrowType__Binary
| ArrowType__LargeBinary
| ArrowType__List
| ArrowType__LargeList
| ArrowType__Struct.

(** The union part of [ArrowTypeOptions]; [opt_unset] is the all-zero
    union the binder leaves behind when it writes no member. *)
Inductive ArrowTypeOptionsUnion :=
| opt_unset
| opt_integer (bitWidth : Z) (is_signed : bool)
| opt_floating_point (precision : ArrowPrecision)
| opt_decimal (precision scale bitWidth : Z)
| opt_date (unit : ArrowDateUnit)
| opt_time (unit : ArrowTimeUnit)
| opt_timestamp (unit : ArrowTimeUnit)
| opt_fixed_size_binary (byteWidth : Z).

Record ArrowTypeOptions := mkArrowTypeOptions {
  tag : ArrowTypeTag;
  unitsz : Z;
  opts : ArrowTypeOptionsUnion
}.

(** [SQLstat__datum]: the 16 raw bytes of a statistics slot, read as a
    little-endian unsigned number. *)
Definition SQLstat__datum := Z.

Inductive RecordBatchFieldState := mkRecordBatchFieldState {
  atttypid : Z;
  atttypmod : Z;
  attopts : ArrowTypeOptions;
  nitems : Z;
  null_count : Z;
  nullmap_offset : Z;
  nullmap_length : Z;
  values_offset : Z;
  values_length : Z;
  extra_offset : Z;
  extra_length : Z;
  stat_min : SQLstat__datum;
  stat_max : SQLstat__datum;
  stat_isnull : bool;
  num_children : Z;
  children : list RecordBatchFieldState
}.

(** A field state as [palloc0] hands it out. *)
Definition attopts0 : ArrowTypeOptions := mkArrowTypeOptions ArrowType__Null 0 opt_unset.

Definition fstate0 : RecordBatchFieldState :=
  mkRecordBatchFieldState 0 0 attopts0 0 0 0 0 0 0 0 0 0 0 false 0 [].

Definition set_atttypid (v : Z) (f : RecordBatchFieldState) :=
  mkRecordBatchFieldState v (atttypmod f) (attopts f) (nitems f) (null_count f)
    (nullmap_offset f) (nullmap_length f) (values_offset f) (values_length f)
    (extra_offset f) (extra_length f) (stat_min f) (stat_max f) (stat_isnull f)
    (num_children f) (children f).

Definition set_atttypmod (v : Z) (f : RecordBatchFieldState) :=
  mkRecordBatchFieldState (atttypid f) v (attopts f) (nitems f) (null_count f)
    (nullmap_offset f) (nullmap_length f) (values_offset f) (values_length f)
    (extra_offset f) (extra_length f) (stat_min f) (stat_max f) (stat_isnull f)
    (num_children f) (children f).

Definition set_attopts (v : ArrowTypeOptions) (f : RecordBatchFieldState) :=
  mkRecordBatchFieldState (atttypid f) (atttypmod f) v (nitems f) (null_count f)
    (nullmap_offset f) (nullmap_length f) (values_offset f) (values_length f)
    (extra_offset f) (extra_length f) (stat_min f) (stat_max f) (stat_isnull f)
    (num_children f) (children f).

Definition set_nullmap (off len : Z) (f : RecordBatchFieldState) :=
  mkRecordBatchFieldState (atttypid f) (atttypmod f) (attopts f) (nitems f)
    (null_count f) off len (values_offset f) (values_length f)
    (extra_offset f) (extra_length f) (stat_min f) (stat_max f) (stat_isnull f)
    (num_children f) (children f).

Definition set_values (off len : Z) (f : RecordBatchFieldState) :=
  mkRecordBatchFieldState (atttypid f) (atttypmod f) (attopts f) (nitems f)
    (null_count f) (nullmap_offset f) (nullmap_length f) off len
    (extra_offset f) (extra_length f) (stat_min f) (stat_max f) (stat_isnull f)
    (num_children f) (children f).

Definition set_extra (off len : Z) (f : RecordBatchFieldState) :=
  mkRecordBatchFieldState (atttypid f) (atttypmod f) (attopts f) (nitems f)
    (null_count f) (nullmap_offset f) (nullmap_length f) (values_offset f)
    (values_length f) off len (stat_min f) (stat_max f) (stat_isnull f)
    (num_children f) (children f).

Definition set_stat (smin smax : SQLstat__datum) (isnull : bool)
    (f : RecordBatchFieldState) :=
  mkRecordBatchFieldState (atttypid f) (atttypmod f) (attopts f) (nitems f)
    (null_count f) (nullmap_offset f) (nullmap_length f) (values_offset f)
    (values_length f) (extra_offset f) (extra_length f) smin smax isnull
    (num_children f) (children f).

Definition set_children (n : Z) (cs : list RecordBatchFieldState)
    (f : RecordBatchFieldState) :=
  mkRecordBatchFieldState (atttypid f) (atttypmod f) (attopts f) (nitems f)
    (null_count f) (nullmap_offset f) (nullmap_length f) (values_offset f)
    (values_length f) (extra_offset f) (extra_length f) (stat_min f) (stat_max f)
    (stat_isnull f) n cs.

(** [setupRecordBatchContext]: the two cursors; each list holds what lies
    between [*_curr] and [*_tail]. *)
Record setupRecordBatchContext := mkContext {
  buffers : list ArrowBuffer;
  fnodes : list ArrowFieldNode
}.

(* ================================================================== *)
(** ** Type binder: buffers of one field *)
(* ================================================================== *)

(** [buffer_curr = con->buffer_curr++; if (buffer_curr >= con->buffer_tail)
    elog(ERROR, ...)]. *)
Definition next_buffer (con : setupRecordBatchContext)
    : result (ArrowBuffer * setupRecordBatchContext) :=
  match buffers con with
  | [] => Error RecordBatchCorrupt "RecordBatch has less buffers than expected"
  | b :: rest => Ok (b, mkContext rest (fnodes con))
  end.

(** The least length of the values buffer, as [size_t]. *)
Definition least_length (fstate : RecordBatchFieldState) (has_extra : bool) : Z :=
  if unitsz (attopts fstate) <? 0 then to_u64 (BITMAPLEN (nitems fstate))
  else if negb has_extra then to_u64 (unitsz (attopts fstate) * nitems fstate)
  else to_u64 (unitsz (attopts fstate) * (nitems fstate + 1)).

Definition is_maxaligned (offset : Z) : bool :=
  to_u64 offset =? MAXALIGN offset.

Definition assign_nullmap (fstate : RecordBatchFieldState)
    (con : setupRecordBatchContext)
    : result (RecordBatchFieldState * setupRecordBatchContext) :=
  '(b, con) ← next_buffer con;
  if 0 <? null_count fstate then
    let fstate := set_nullmap (buf_offset b) (to_u64 (buf_length b)) fstate in
    if nullmap_length fstate <? to_u64 (BITMAPLEN (nitems fstate)) then
      Error RecordBatchCorrupt "nullmap length is smaller than expected"
    else if negb (is_maxaligned (nullmap_offset fstate)) then
      Error RecordBatchCorrupt "nullmap is not aligned well"
    else Ok (fstate, con)
  else Ok (fstate, con).

Definition assign_values (fstate : RecordBatchFieldState)
    (con : setupRecordBatchContext) (has_extra : bool)
    : result (RecordBatchFieldState * setupRecordBatchContext) :=
  if unitsz (attopts fstate) =? 0 then Ok (fstate, con)
  else
    '(b, con) ← next_buffer con;
    let fstate := set_values (buf_offset b) (to_u64 (buf_length b)) fstate in
    if values_length fstate <? MAXALIGN (least_length fstate has_extra) then
      Error RecordBatchCorrupt "values array is smaller than expected"
    else if negb (is_maxaligned (values_offset fstate)) then
      Error RecordBatchCorrupt "values array is not aligned well"
    else Ok (fstate, con).

Definition assign_extra (fstate : RecordBatchFieldState)
    (con : setupRecordBatchContext) (has_extra : bool)
    : result (RecordBatchFieldState * setupRecordBatchContext) :=
  if has_extra then
    '(b, con) ← next_buffer con;
    let fstate := set_extra (buf_offset b) (to_u64 (buf_length b)) fstate in
    if negb (is_maxaligned (extra_offset fstate)) then
      Error RecordBatchCorrupt "extra buffer is not aligned well"
    else Ok (fstate, con)
  else Ok (fstate, con).

(** [__assignRecordBatchFieldStateBuffer]: the nullmap, values and extra
    blocks of the function body, in that order. *)
Definition __assignRecordBatchFieldStateBuffer (fstate : RecordBatchFieldState)
    (con : setupRecordBatchContext) (has_extra : bool)
    : result (RecordBatchFieldState * setupRecordBatchContext) :=
  '(fstate, con) ← assign_nullmap fstate con;
  '(fstate, con) ← assign_values fstate con has_extra;
  assign_extra fstate con has_extra.

(* ================================================================== *)
(** ** Type binder: the host catalog and the [pg_type] hint *)
(* ================================================================== *)

(** What the binder asks of the host database.  Each member stands for
    the PostgreSQL routine of the same name, with the arguments the
    source passes to it. *)
Record HostCatalog := mkHostCatalog {
  (** [get_namespace_oid(name, true)]: [InvalidOid] when missing. *)
  get_namespace_oid : string -> Z;
  (** [SearchSysCache2(TYPENAMENSP, name, namespace)]: the [oid] column
      of the tuple, if there is one. *)
  SearchSysCache2_TYPENAMENSP : string -> Z -> option Z;
  (** [get_array_type(typid)]: [InvalidOid] when there is none. *)
  get_array_type : Z -> Z;
  (** [pg_type_aclcheck(oid, GetUserId(), ACL_USAGE) == ACLCHECK_OK]. *)
  pg_type_aclcheck_ok : Z -> bool;
  (** [lookup_rowtype_tupdesc_noerror(oid, -1, true)]: the attribute
      types of the row type, if [oid] is a composite type. *)
  lookup_rowtype_tupdesc_noerror : Z -> option (list Z);
  (** The catalog scan of [__assignRecordBatchFieldStateComposite]:
      composite relations with [relnatts] attributes, the hinted one
      left out when the hint is valid; in scan order. *)
  systable_composite_scan : Z -> Z -> list Z
}.

(** [GetSysCacheOid2(TYPENAMENSP, Anum_pg_type_oid, name, namespace)]. *)
Definition GetSysCacheOid2_TYPENAMENSP (cat : HostCatalog) (name : string)
    (namespace : Z) : Z :=
  default InvalidOid (SearchSysCache2_TYPENAMENSP cat name namespace).

(** [pos = strchr(s, c)] followed by [*pos++ = '\0']: the text before the
    first [c] and the text after it. *)
Fixpoint strchr_split (c : ascii) (s : string) : option (string * string) :=
  match s with
  | EmptyString => None
  | String a s' =>
      if Ascii.eqb a c then Some (EmptyString, s')
      else match strchr_split c s' with
           | Some (p, q) => Some (String a p, q)
           | None => None
           end
  end.

(** The loop body of [arrowFieldGetPGTypeHint] over the remaining
    custom-metadata entries. *)
Fixpoint pg_type_hint_loop (cat : HostCatalog) (kvs : list ArrowKeyValue) : Z :=
  match kvs with
  | [] => InvalidOid
  | kv :: rest =>
      if negb (String.eqb (key kv) "pg_type") then pg_type_hint_loop cat rest
      else
        match strchr_split "." (value kv) with
        | Some (nspname, typname) =>
            let namespace_oid := get_namespace_oid cat nspname in
            if negb (OidIsValid namespace_oid) then pg_type_hint_loop cat rest
            else
              match SearchSysCache2_TYPENAMENSP cat typname namespace_oid with
              | Some hint => hint
              | None => pg_type_hint_loop cat rest
              end
        | None =>
            match SearchSysCache2_TYPENAMENSP cat (value kv) PG_CATALOG_NAMESPACE with
            | Some hint => hint
            | None => pg_type_hint_loop cat rest
            end
        end
  end.

Definition arrowFieldGetPGTypeHint (cat : HostCatalog) (field : ArrowField) : Z :=
  pg_type_hint_loop cat (custom_metadata field).

(* ================================================================== *)
(** ** Type binder: [__buildRecordBatchFieldState] *)
(* ================================================================== *)

(** Does the row type [attrs] fit the children of the field state?
    ([tupdesc->natts == fstate->num_children] and the loop over [j].) *)
Fixpoint attrs_match (attrs : list Z) (cs : list RecordBatchFieldState) : bool :=
  match attrs, cs with
  | [], [] => true
  | a :: attrs', c :: cs' => (a =? atttypid c) && attrs_match attrs' cs'
  | _, _ => false
  end.

Definition composite_matches (cat : HostCatalog) (fstate : RecordBatchFieldState)
    (comp_oid : Z) : bool :=
  if negb (pg_type_aclcheck_ok cat comp_oid) then false
  else match lookup_rowtype_tupdesc_noerror cat comp_oid with
       | None => false
       | Some attrs =>
           (Z.of_nat (length attrs) =? num_children fstate)
           && attrs_match attrs (children fstate)
       end.

(** The candidates the [for (;;)] loop visits: the hint first, then the
    rows of the catalog scan. *)
Definition composite_candidates (cat : HostCatalog) (fstate : RecordBatchFieldState)
    (hint_oid : Z) : list Z :=
  (if OidIsValid hint_oid then [hint_oid] else [])
  ++ systable_composite_scan cat (to_i16 (num_children fstate)) hint_oid.

Definition __assignRecordBatchFieldStateComposite (cat : HostCatalog)
    (fstate : RecordBatchFieldState) (hint_oid : Z)
    : result RecordBatchFieldState :=
  match List.find (composite_matches cat fstate)
                  (composite_candidates cat fstate hint_oid) with
  | Some comp_oid => Ok (set_atttypid comp_oid fstate)
  | None => Error NoCompatibleComposite
              "arrow_fdw: didn't find out compatible composite type"
  end.

(** The head of [__buildRecordBatchFieldState]: one field node is taken
    and the five members are set on the zeroed field state. *)
Definition next_fnode (con : setupRecordBatchContext)
    : result (ArrowFieldNode * setupRecordBatchContext) :=
  match fnodes con with
  | [] => Error RecordBatchCorrupt
            "RecordBatch has less ArrowFieldNode than expected"
  | n :: rest => Ok (n, mkContext (buffers con) rest)
  end.

Definition init_fstate (fnode : ArrowFieldNode) : RecordBatchFieldState :=
  mkRecordBatchFieldState InvalidOid (-1) attopts0
    (fnode_length fnode) (fnode_null_count fnode)
    0 0 0 0 0 0 0 0 true 0 [].

(** A branch of the switch that sets [attopts] and [atttypid] and then
    assigns the buffers. *)
Definition bind_buffers (fstate : RecordBatchFieldState)
    (con : setupRecordBatchContext) (o : ArrowTypeOptions) (typid : Z)
    (has_extra : bool) :=
  __assignRecordBatchFieldStateBuffer
    (set_atttypid typid (set_attopts o fstate)) con has_extra.

(** The [for (j = 0; j < field->_num_children; j++)] loop of the
    [Struct] branch of [__buildRecordBatchFieldState]; [build] is the
    recursive call. *)
Fixpoint build_children
    (build : setupRecordBatchContext -> ArrowField ->
             result (RecordBatchFieldState * setupRecordBatchContext))
    (fs : list ArrowField) (con : setupRecordBatchContext)
    : result (list RecordBatchFieldState * setupRecordBatchContext) :=
  match fs with
  | [] => Ok ([], con)
  | f :: fs' =>
      '(c, con) ← build con f;
      '(cs, con) ← build_children build fs' con;
      Ok (c :: cs, con)
  end.

Fixpoint __buildRecordBatchFieldState (cat : HostCatalog)
    (con : setupRecordBatchContext) (field : ArrowField) (depth : Z)
    {struct field}
    : result (RecordBatchFieldState * setupRecordBatchContext) :=
  match field with
  | mkArrowField _ t metadata fchildren =>
  let hint_oid := pg_type_hint_loop cat metadata in
  '(fnode, con) ← next_fnode con;
  let fstate := init_fstate fnode in
  match t with
  | ArrowNodeTag__Int bitWidth is_signed =>
      let o sz := mkArrowTypeOptions ArrowType__Int sz (opt_integer bitWidth is_signed) in
      if bitWidth =? 8 then
        bind_buffers fstate con (o 1)
          (GetSysCacheOid2_TYPENAMENSP cat "int1" PG_CATALOG_NAMESPACE) false
      else if bitWidth =? 16 then bind_buffers fstate con (o 2) INT2OID false
      else if bitWidth =? 32 then bind_buffers fstate con (o 4) INT4OID false
      else if bitWidth =? 64 then bind_buffers fstate con (o 8) INT8OID false
      else Error UnsupportedType "Arrow::Int bitWidth is not supported"
  | ArrowNodeTag__FloatingPoint precision =>
      let o sz := mkArrowTypeOptions ArrowType__FloatingPoint sz
                    (opt_floating_point precision) in
      match precision with
      | ArrowPrecision__Half =>
          bind_buffers fstate con (o 2)
            (GetSysCacheOid2_TYPENAMENSP cat "float2" PG_CATALOG_NAMESPACE) false
      | ArrowPrecision__Single => bind_buffers fstate con (o 4) FLOAT4OID false
      | ArrowPrecision__Double => bind_buffers fstate con (o 8) FLOAT8OID false
      | ArrowPrecision__unknown _ =>
          Error UnsupportedType "Arrow::FloatingPoint unknown precision"
      end
  | ArrowNodeTag__Bool =>
      bind_buffers fstate con
        (mkArrowTypeOptions ArrowType__Bool (-1) opt_unset) BOOLOID false
  | ArrowNodeTag__Decimal precision scale bitWidth =>
      if negb (bitWidth =? 128) then
        Error UnsupportedType "Arrow::Decimal is not supported"
      else
        bind_buffers fstate con
          (mkArrowTypeOptions ArrowType__Decimal 16
             (opt_decimal precision scale bitWidth)) NUMERICOID false
  | ArrowNodeTag__Date unit =>
      let o sz := mkArrowTypeOptions ArrowType__Date sz (opt_date unit) in
      match unit with
      | ArrowDateUnit__Day => bind_buffers fstate con (o 4) DATEOID false
      | ArrowDateUnit__MilliSecond => bind_buffers fstate con (o 4) DATEOID false
      | ArrowDateUnit__unknown _ =>
          Error UnsupportedType "Arrow::Date unknown unit"
      end
  | ArrowNodeTag__Time unit =>
      let o sz := mkArrowTypeOptions ArrowType__Time sz (opt_time unit) in
      match unit with
      | ArrowTimeUnit__Second
      | ArrowTimeUnit__MilliSecond => bind_buffers fstate con (o 4) TIMEOID false
      | ArrowTimeUnit__MicroSecond
      | ArrowTimeUnit__NanoSecond => bind_buffers fstate con (o 8) TIMEOID false
      | ArrowTimeUnit__unknown _ => Error UnsupportedType "unknown Time::unit"
      end
  | ArrowNodeTag__Timestamp unit timezone =>
      match unit with
      | ArrowTimeUnit__unknown _ => Error UnsupportedType "unknown Timestamp::unit"
      | _ =>
          bind_buffers fstate con
            (mkArrowTypeOptions ArrowType__Timestamp 8 (opt_timestamp unit))
            (match timezone with Some _ => TIMESTAMPTZOID | None => TIMESTAMPOID end)
            false
      end
  | ArrowNodeTag__Interval unit =>
      let o sz := mkArrowTypeOptions ArrowType__Interval sz opt_unset in
      match unit with
      | ArrowIntervalUnit__Year_Month => bind_buffers fstate con (o 4) INTERVALOID false
      | ArrowIntervalUnit__Day_Time => bind_buffers fstate con (o 8) INTERVALOID false
      | ArrowIntervalUnit__unknown _ => Error UnsupportedType "unknown Interval::unit"
      end
  | ArrowNodeTag__FixedSizeBinary byteWidth =>
      let o := mkArrowTypeOptions ArrowType__FixedSizeBinary byteWidth
                 (opt_fixed_size_binary byteWidth) in
      if (byteWidth <=? 0) || (BLCKSZ <? byteWidth) then
        Error UnsupportedType "arrow_fdw: FixedSizeBinary byteWidth is not supported"
      else if (hint_oid =? MACADDROID) && (byteWidth =? 6) then
        bind_buffers fstate con o MACADDROID false
      else if (hint_oid =? INETOID) && ((byteWidth =? 4) || (byteWidth =? 16)) then
        bind_buffers fstate con o INETOID false
      else
        bind_buffers (set_atttypmod (VARHDRSZ + byteWidth) fstate) con o BYTEAOID false
  | ArrowNodeTag__Utf8 =>
      bind_buffers fstate con
        (mkArrowTypeOptions ArrowType__Utf8 4 opt_unset) TEXTOID true
  | ArrowNodeTag__LargeUtf8 =>
      bind_buffers fstate con
        (mkArrowTypeOptions ArrowType__LargeUtf8 8 opt_unset) TEXTOID true
  | ArrowNodeTag__Binary =>
      bind_buffers fstate con
        (mkArrowTypeOptions ArrowType__Binary 4 opt_unset) BYTEAOID true
  | ArrowNodeTag__LargeBinary =>
      bind_buffers fstate con
        (mkArrowTypeOptions ArrowType__LargeBinary 8 opt_unset) BYTEAOID true
  | ArrowNodeTag__List | ArrowNodeTag__LargeList =>
      match fchildren with
      | [child] =>
          if 0 <? depth then
            Error UnsupportedNesting "nested array type is not supported"
          else
            let o := match t with
                     | ArrowNodeTag__List =>
                         mkArrowTypeOptions ArrowType__List 4 opt_unset
                     | _ => mkArrowTypeOptions ArrowType__LargeList 8 opt_unset
                     end in
            '(fstate, con) ←
              __assignRecordBatchFieldStateBuffer (set_attopts o fstate) con false;
            '(cstate, con) ← __buildRecordBatchFieldState cat con child (depth + 1);
            let fstate := set_children 1 [cstate] fstate in
            let fstate := set_atttypid (get_array_type cat (atttypid cstate)) fstate in
            if negb (OidIsValid (atttypid fstate)) then
              Error UnsupportedType "type has no array type"
            else Ok (fstate, con)
      | _ => Error FileCorrupt "Bug? List of arrow type is corrupted"
      end
  | ArrowNodeTag__Struct =>
      if 0 <? depth then
        Error UnsupportedNesting "nested composite type is not supported"
      else
        let o := mkArrowTypeOptions ArrowType__Struct 0 opt_unset in
        '(fstate, con) ←
          __assignRecordBatchFieldStateBuffer (set_attopts o fstate) con false;
        '(cstates, con) ←
          build_children
            (fun con f => __buildRecordBatchFieldState cat con f (depth + 1))
            fchildren con;
        let fstate := set_children (Z.of_nat (length fchildren)) cstates fstate in
        fstate ← __assignRecordBatchFieldStateComposite cat fstate hint_oid;
        Ok (fstate, con)
  | ArrowNodeTag__other _ =>
      Error UnsupportedType "Bug? ArrowSchema contains unsupported types"
  end
  end.

(* ================================================================== *)
(** ** Type binder: the wording of the specification *)
(* ================================================================== *)

(** Modelled from the spec: the least length of the values buffer as
    section 4.4 words it, [unit_size * row_count], or
    [unit_size * (row_count + 1)] for variable-length offsets, or the
    bitmap length for bitmap-valued fields. *)
Definition spec_least_length (fstate : RecordBatchFieldState) (has_extra : bool) : Z :=
  if unitsz (attopts fstate) <? 0 then BITMAPLEN (nitems fstate)
  else if has_extra then unitsz (attopts fstate) * (nitems fstate + 1)
  else unitsz (attopts fstate) * nitems fstate.

(** Modelled from the spec: a values buffer violates section 4.4 when it
    is shorter than the least length or its offset is not a multiple of
    the maximum alignment. *)
Definition spec_values_buffer_rejected (fstate : RecordBatchFieldState)
    (b : ArrowBuffer) (has_extra : bool) : bool :=
  (buf_length b <? spec_least_length fstate has_extra)
  || negb (buf_offset b mod MAXIMUM_ALIGNOF =? 0).

(** Modelled from the spec: the unit-size column of the table of
    section 4.2. *)
Definition spec_unit_size (t : ArrowType) : option Z :=
  match t with
  | ArrowNodeTag__Int bitWidth _ =>
      if (bitWidth =? 8) || (bitWidth =? 16) || (bitWidth =? 32) || (bitWidth =? 64)
      then Some (bitWidth / 8) else None
  | ArrowNodeTag__FloatingPoint ArrowPrecision__Half => Some 2
  | ArrowNodeTag__FloatingPoint ArrowPrecision__Single => Some 4
  | ArrowNodeTag__FloatingPoint ArrowPrecision__Double => Some 8
  | ArrowNodeTag__Bool => Some (-1)
  | ArrowNodeTag__Decimal _ _ 128 => Some 16
  | ArrowNodeTag__Date ArrowDateUnit__Day => Some 4
  | ArrowNodeTag__Date ArrowDateUnit__MilliSecond => Some 8
  | ArrowNodeTag__Time ArrowTimeUnit__Second => Some 4
  | ArrowNodeTag__Time ArrowTimeUnit__MilliSecond => Some 4
  | ArrowNodeTag__Time ArrowTimeUnit__MicroSecond => Some 8
  | ArrowNodeTag__Time ArrowTimeUnit__NanoSecond => Some 8
  | ArrowNodeTag__Timestamp (ArrowTimeUnit__unknown _) _ => None
  | ArrowNodeTag__Timestamp _ _ => Some 8
  | ArrowNodeTag__Interval ArrowIntervalUnit__Year_Month => Some 4
  | ArrowNodeTag__Interval ArrowIntervalUnit__Day_Time => Some 8
  | ArrowNodeTag__FixedSizeBinary byteWidth => Some byteWidth
  | ArrowNodeTag__Utf8 | ArrowNodeTag__Binary => Some 4
  | ArrowNodeTag__LargeUtf8 | ArrowNodeTag__LargeBinary => Some 8
  | ArrowNodeTag__List => Some 4
  | ArrowNodeTag__LargeList => Some 8
  | ArrowNodeTag__Struct => Some 0
  | _ => None
  end.

(** Modelled from the spec: a hinted host type is "compatible (same
    length)" with a field when its [typlen] is the unit size of the
    field's Arrow type. *)
Definition spec_pg_type_hint_compatible (typlen : Z -> Z) (field : ArrowField)
    (hint : Z) : Prop :=
  spec_unit_size (field_type field) = Some (typlen hint).

(* ================================================================== *)
(** ** Type binder: concrete inputs *)
(* ================================================================== *)

Definition UUIDOID : Z := 2950.

(** A small host catalog: the schemas [pg_catalog] and [public], a few
    base types, their array types, and one composite type [public.pt]
    (oid 16400) made of two [int4] columns. *)
Definition demo_catalog : HostCatalog := {|
  get_namespace_oid nspname :=
    if String.eqb nspname "pg_catalog" then PG_CATALOG_NAMESPACE
    else if String.eqb nspname "public" then 2200
    else InvalidOid;
  SearchSysCache2_TYPENAMENSP typname nsp :=
    if nsp =? PG_CATALOG_NAMESPACE then
      if String.eqb typname "int4" then Some INT4OID
      else if String.eqb typname "uuid" then Some UUIDOID
      else if String.eqb typname "macaddr" then Some MACADDROID
      else if String.eqb typname "inet" then Some INETOID
      else if String.eqb typname "date" then Some DATEOID
      else None
    else if nsp =? 2200 then
      if String.eqb typname "pt" then Some 16400 else None
    else None;
  get_array_type typid :=
    if typid =? INT4OID then 1007
    else if typid =? DATEOID then 1182
    else if typid =? BYTEAOID then 1001
    else InvalidOid;
  pg_type_aclcheck_ok _ := true;
  lookup_rowtype_tupdesc_noerror oid :=
    if oid =? 16400 then Some [INT4OID; INT4OID] else None;
  systable_composite_scan natts excluded :=
    if (natts =? 2) && negb (excluded =? 16400) then [16400] else []
|}.

(** Modelled from the spec: [pg_type.typlen] of the demo types
    ([uuid] is a fixed 16-byte type). *)
Definition demo_typlen (oid : Z) : Z :=
  if oid =? UUIDOID then 16
  else if oid =? INT4OID then 4
  else if oid =? MACADDROID then 6
  else -1.

Definition int32_fstate : RecordBatchFieldState :=
  set_attopts (mkArrowTypeOptions ArrowType__Int 4 (opt_integer 32 true))
    (init_fstate (mkArrowFieldNode 1 0)).

Definition date_ms_field : ArrowField :=
  mkArrowField "d" (ArrowNodeTag__Date ArrowDateUnit__MilliSecond) [] [].

Definition uuid_field : ArrowField :=
  mkArrowField "id" (ArrowNodeTag__FixedSizeBinary 16)
    [mkArrowKeyValue "pg_type" "uuid"] [].

Definition macaddr_field : ArrowField :=
  mkArrowField "mac" (ArrowNodeTag__FixedSizeBinary 6)
    [mkArrowKeyValue "pg_type" "pg_catalog.macaddr"] [].

Definition struct_field : ArrowField :=
  mkArrowField "p" ArrowNodeTag__Struct
    [mkArrowKeyValue "pg_type" "public.pt"]
    [mkArrowField "x" (ArrowNodeTag__Int 32 true) [] [];
     mkArrowField "y" (ArrowNodeTag__Int 32 true) [] []].

(* ================================================================== *)
(** ** Statistics binder *)
(* ================================================================== *)

(** Wrap-around of a signed 128-bit integer. *)
Definition to_i128 (z : Z) : Z := (z + 2 ^ 127) mod 2 ^ 128 - 2 ^ 127.

Definition isdigit (c : ascii) : bool :=
  (48 <=? Z.of_nat (nat_of_ascii c)) && (Z.of_nat (nat_of_ascii c) <=? 57).

(** The [while (isdigit( *tok))] loop of [__atoi128]: the accumulated
    value and the text left at [tok]. *)
Fixpoint atoi128_digits (tok : string) (ival : Z) : Z * string :=
  match tok with
  | String c rest =>
      if isdigit c
      then atoi128_digits rest (to_i128 (10 * ival + (Z.of_nat (nat_of_ascii c) - 48)))
      else (ival, tok)
  | EmptyString => (ival, tok)
  end.

(** [__atoi128(tok, &isnull)]: the value, and the flag as the call
    leaves it (the call only ever raises the flag). *)
Definition __atoi128 (tok : string) (p_isnull : bool) : Z * bool :=
  let '(is_minus, tok) :=
    match tok with
    | String "-"%char rest => (true, rest)
    | _ => (false, tok)
    end in
  let '(ival, tok) := atoi128_digits tok 0 in
  let p_isnull := match tok with EmptyString => p_isnull | _ => true end in
  if is_minus then
    (to_i128 (- ival), if ival =? 0 then true else p_isnull)
  else (ival, p_isnull).

(** The tokens that successive [strtok_r(.., delim, ..)] calls return:
    the maximal non-empty runs of characters other than [delim]. *)
Fixpoint strtok_run (delim : ascii) (s : string) : string * string :=
  match s with
  | EmptyString => (EmptyString, EmptyString)
  | String c rest =>
      if Ascii.eqb c delim then (EmptyString, rest)
      else let '(tok, rest') := strtok_run delim rest in (String c tok, rest')
  end.

Fixpoint strtok_tokens_fuel (fuel : nat) (delim : ascii) (s : string) : list string :=
  match fuel with
  | O => []
  | S fuel' =>
      match s with
      | EmptyString => []
      | String c rest =>
          if Ascii.eqb c delim then strtok_tokens_fuel fuel' delim rest
          else let '(tok, rest') := strtok_run delim s in
               tok :: strtok_tokens_fuel fuel' delim rest'
      end
  end.

Definition strtok_tokens (delim : ascii) (s : string) : list string :=
  strtok_tokens_fuel (S (String.length s)) delim s.

(** [memcpy(dst, &value, unitsz)] on a little-endian machine: the low
    [unitsz] bytes of [dst] are replaced by those of [value]. *)
Definition memcpy_datum (unitsz : Z) (dst value : Z) : Z :=
  (dst / 2 ^ (8 * unitsz)) * 2 ^ (8 * unitsz) + value mod 2 ^ (8 * unitsz).

Inductive arrowFieldStatsBinary := mkArrowFieldStatsBinary {
  nrooms : Z;
  bs_unitsz : Z;
  bs_isnull : option (list bool);
  bs_min_values : option (list Z);
  bs_max_values : option (list Z);
  bs_nfields : Z;
  subfields : list arrowFieldStatsBinary
}.

Record arrowStatsBinary := mkArrowStatsBinary {
  sb_nitems : Z;
  sb_nfields : Z;
  sb_fields : list arrowFieldStatsBinary
}.

(** The unit size of a statistics datum: the switch that opens
    [__parseArrowFieldStatsBinary]; [None] is its [return false]. *)
Definition stats_unitsz (t : ArrowType) : option Z :=
  match t with
  | ArrowNodeTag__Int bitWidth _ =>
      if bitWidth =? 8 then Some 1
      else if bitWidth =? 16 then Some 2
      else if bitWidth =? 32 then Some 4
      else if bitWidth =? 64 then Some 8
      else None
  | ArrowNodeTag__FloatingPoint ArrowPrecision__Half => Some 2
  | ArrowNodeTag__FloatingPoint ArrowPrecision__Single => Some 4
  | ArrowNodeTag__FloatingPoint ArrowPrecision__Double => Some 8
  | ArrowNodeTag__FloatingPoint (ArrowPrecision__unknown _) => None
  | ArrowNodeTag__Decimal _ _ _ => Some 16
  | ArrowNodeTag__Date ArrowDateUnit__Day => Some 4
  | ArrowNodeTag__Date ArrowDateUnit__MilliSecond => Some 8
  | ArrowNodeTag__Date (ArrowDateUnit__unknown _) => None
  | ArrowNodeTag__Time ArrowTimeUnit__Second => Some 4
  | ArrowNodeTag__Time ArrowTimeUnit__MilliSecond => Some 4
  | ArrowNodeTag__Time ArrowTimeUnit__MicroSecond => Some 8
  | ArrowNodeTag__Time ArrowTimeUnit__NanoSecond => Some 8
  | ArrowNodeTag__Time (ArrowTimeUnit__unknown _) => None
  | ArrowNodeTag__Timestamp (ArrowTimeUnit__unknown _) _ => None
  | ArrowNodeTag__Timestamp _ _ => Some 8
  | _ => None
  end.

Section StatsBinder.

(** [__trim] comes from a header that is not among the sources; the
    binder is parametric in it. *)
Variable __trim : string -> string.

(** The [for] loop of [__parseArrowFieldStatsBinary].  [toks1] and
    [toks2] start at the current tokens [tok1] and [tok2]; the result is
    what is left of them when the loop ends, the index, and the three
    arrays. *)
Fixpoint parse_stats_loop (unitsz nrooms : Z) (toks1 toks2 : list string)
    (index : Z) (isnull : list bool) (min_values max_values : list Z)
    : list string * list string * Z * list bool * list Z * list Z :=
  match toks1, toks2 with
  | tok1 :: toks1', tok2 :: toks2' =>
      if index <? nrooms then
        let '(__min, __isnull) := __atoi128 (__trim tok1) false in
        let '(__max, __isnull) := __atoi128 (__trim tok2) __isnull in
        let i := Z.to_nat index in
        if __isnull then
          parse_stats_loop unitsz nrooms toks1' toks2' (index + 1)
            (<[i := true]> isnull) min_values max_values
        else
          parse_stats_loop unitsz nrooms toks1' toks2' (index + 1) isnull
            (<[i := __min mod 2 ^ (8 * unitsz)]> min_values)
            (<[i := __max mod 2 ^ (8 * unitsz)]> max_values)
      else (toks1, toks2, index, isnull, min_values, max_values)
  | _, _ => (toks1, toks2, index, isnull, min_values, max_values)
  end.

(** [__parseArrowFieldStatsBinary]: [Some] of the updated [bstats] is
    its [return true]. *)
Definition __parseArrowFieldStatsBinary (bstats : arrowFieldStatsBinary)
    (field : ArrowField) (min_tokens max_tokens : string)
    : option arrowFieldStatsBinary :=
  match stats_unitsz (field_type field) with
  | None => None
  | Some unitsz =>
      let n := Z.to_nat (nrooms bstats) in
      let '(toks1, toks2, index, isnull, min_values, max_values) :=
        parse_stats_loop unitsz (nrooms bstats)
          (strtok_tokens "," min_tokens) (strtok_tokens "," max_tokens) 0
          (replicate n false) (replicate n 0) (replicate n 0) in
      match toks1, toks2 with
      | [], [] =>
          if index =? nrooms bstats then
            Some (mkArrowFieldStatsBinary (nrooms bstats) unitsz (Some isnull)
                    (Some min_values) (Some max_values)
                    (bs_nfields bstats) (subfields bstats))
          else None
      | _, _ => None
      end
  end.

(** The loop over the custom metadata: the last [min_values] and the
    last [max_values] entry win. *)
Fixpoint find_stats_tokens (kvs : list ArrowKeyValue)
    (min_tokens max_tokens : option string) : option string * option string :=
  match kvs with
  | [] => (min_tokens, max_tokens)
  | kv :: rest =>
      if String.eqb (key kv) "min_values"
      then find_stats_tokens rest (Some (value kv)) max_tokens
      else if String.eqb (key kv) "max_values"
      then find_stats_tokens rest min_tokens (Some (value kv))
      else find_stats_tokens rest min_tokens max_tokens
  end.

(** A zeroed [arrowFieldStatsBinary] ([palloc0]). *)
Definition bstats0 : arrowFieldStatsBinary :=
  mkArrowFieldStatsBinary 0 0 None None None 0 [].

(** [__buildArrowFieldStatsBinary] on a zeroed [bstats]: the return
    value and the filled [bstats]. *)
Fixpoint __buildArrowFieldStatsBinary (field : ArrowField)
    (numRecordBatches : Z) {struct field} : bool * arrowFieldStatsBinary :=
  match field with
  | mkArrowField _ _ metadata fchildren =>
      let '(min_tokens, max_tokens) := find_stats_tokens metadata None None in
      let bstats := mkArrowFieldStatsBinary numRecordBatches (-1) None None None 0 [] in
      let '(retval, bstats) :=
        match min_tokens, max_tokens with
        | Some min_tokens, Some max_tokens =>
            match __parseArrowFieldStatsBinary bstats field min_tokens max_tokens with
            | Some bstats' => (true, bstats')
            | None => (false, bstats)
            end
        | _, _ => (false, bstats)
        end in
      match fchildren with
      | [] => (retval, bstats)
      | _ :: _ =>
          let subs :=
            (fix build_subfields (fs : list ArrowField) : list (bool * arrowFieldStatsBinary) :=
               match fs with
               | [] => []
               | f :: fs' => __buildArrowFieldStatsBinary f numRecordBatches
                             :: build_subfields fs'
               end) fchildren in
          (retval || existsb fst subs,
           mkArrowFieldStatsBinary (nrooms bstats) (bs_unitsz bstats) (bs_isnull bstats)
             (bs_min_values bstats) (bs_max_values bstats)
             (Z.of_nat (length fchildren)) (map snd subs))
      end
  end.

(** [buildArrowStatsBinary]: [None] is the [NULL] returned when no field
    of the schema has usable statistics. *)
Definition buildArrowStatsBinary (schema_fields : list ArrowField)
    (_num_recordBatches : Z) : option arrowStatsBinary :=
  let built := map (fun f => __buildArrowFieldStatsBinary f _num_recordBatches)
                   schema_fields in
  if existsb fst built
  then Some (mkArrowStatsBinary _num_recordBatches
               (Z.of_nat (length schema_fields)) (map snd built))
  else None.

End StatsBinder.

(** The [for (j = 0; j < fstate->num_children; j++)] loop of
    [__applyArrowFieldStatsBinary]; [apply] is the recursive call. *)
Fixpoint apply_children
    (apply : RecordBatchFieldState -> arrowFieldStatsBinary -> RecordBatchFieldState)
    (cs : list RecordBatchFieldState) (bs : list arrowFieldStatsBinary)
    : list RecordBatchFieldState :=
  match cs, bs with
  | c :: cs', b :: bs' => apply c b :: apply_children apply cs' bs'
  | _, _ => cs
  end.

(** [__applyArrowFieldStatsBinary].  The children are walked together
    with the sub-fields ([Assert(fstate->num_children == bstats->nfields)]). *)
Fixpoint __applyArrowFieldStatsBinary (fstate : RecordBatchFieldState)
    (bstats : arrowFieldStatsBinary) (rb_index : Z) {struct fstate}
    : RecordBatchFieldState :=
  match fstate with
  | mkRecordBatchFieldState typid typmod o n nc no nl vo vl eo el smin smax snull nch cs =>
      let '(smin, smax, snull) :=
        match bs_isnull bstats, bs_min_values bstats, bs_max_values bstats with
        | Some _, Some min_values, Some max_values =>
            if 0 <? bs_unitsz bstats then
              let i := Z.to_nat rb_index in
              (memcpy_datum (bs_unitsz bstats) smin (min_values !!! i),
               memcpy_datum (bs_unitsz bstats) smax (max_values !!! i),
               false)
            else (0, 0, true)
        | _, _, _ => (0, 0, true)
        end in
      let cs' :=
        apply_children (fun c b => __applyArrowFieldStatsBinary c b rb_index)
          cs (subfields bstats) in
      mkRecordBatchFieldState typid typmod o n nc no nl vo vl eo el smin smax snull nch cs'
  end.

(** Does the pair of tokens of one slot parse?  (The flag [__isnull] of
    the loop body stays down.) *)
Definition token_pair_ok (__trim : string -> string) (tok1 tok2 : string) : bool :=
  negb (snd (__atoi128 (__trim tok2) (snd (__atoi128 (__trim tok1) false)))).

(** The value a token contributes to its slot. *)
Definition token_value (__trim : string -> string) (tok : string) : Z :=
  fst (__atoi128 (__trim tok) false).

(** A stand-in for [__trim] on concrete inputs: leading and trailing
    blanks are dropped. *)
Fixpoint skip_blanks (s : string) : string :=
  match s with
  | String " "%char rest => skip_blanks rest
  | _ => s
  end.

Fixpoint drop_trailing_blanks (s : string) : string :=
  match s with
  | EmptyString => EmptyString
  | String c rest =>
      match drop_trailing_blanks rest with
      | EmptyString => if Ascii.eqb c " " then EmptyString else String c EmptyString
      | rest' => String c rest'
      end
  end.

Definition trim_blanks (s : string) : string := drop_trailing_blanks (skip_blanks s).

Definition stats_field (min_values max_values : string) : ArrowField :=
  mkArrowField "c" (ArrowNodeTag__Int 32 true)
    [mkArrowKeyValue "min_values" min_values;
     mkArrowKeyValue "max_values" max_values] [].

(* ================================================================== *)
(** ** File-set resolver: [arrowFdwExtractFilesList] *)
(* ================================================================== *)

(** One [DefElem] of the options list: [defname] and [strVal(arg)]. *)
Record DefElem := mkDefElem {
  defname : string;
  arg : string
}.

(** What the resolver asks of the operating system. *)
Record FileSystem := mkFileSystem {
  (** [access(path, R_OK) == 0]. *)
  access_R_OK : string -> bool;
  (** The names [ReadDir] returns for [AllocateDir(path)], in
      enumeration order; [None] when the directory cannot be opened,
      which [ReadDir] reports with [ereport(ERROR)]. *)
  ReadDir : string -> option (list string)
}.

(** Effects of the resolver that are visible from outside. *)
Inductive fs_event :=
| EvAccess (path : string)
| EvReadDir (path : string)
| EvDebug1 (msg : string).

(** Outcome of the resolver: it returns, leaves through [elog(ERROR)],
    or is still running when the fuel of the model is used up.  The
    trace holds the effects up to that point. *)
Inductive fl_outcome (A : Type) :=
| FlReturn (trace : list fs_event) (a : A)
| FlError (trace : list fs_event) (kind : ErrorKind) (msg : string)
| FlOutOfFuel.
Arguments FlReturn {A} trace a.
Arguments FlError {A} trace kind msg.
Arguments FlOutOfFuel {A}.

(** [strtok_r(str, delim, &saveptr)] with a non-NULL [str]: leading
    delimiters are skipped; at the end of the string the call returns
    NULL ([None]); otherwise it returns the token and writes a NUL over
    the delimiter that ends it, so that the C string at [str] becomes
    the skipped delimiters followed by the token.  The result is the
    skipped prefix and the token. *)
Fixpoint strtok_r_first (delim : ascii) (str : string) : option (string * string) :=
  match str with
  | EmptyString => None
  | String c rest =>
      if Ascii.eqb c delim then
        match strtok_r_first delim rest with
        | Some (skipped, tok) => Some (String c skipped, tok)
        | None => None
        end
      else Some (EmptyString, fst (strtok_run delim str))
  end.

(** [strrchr(s, c)] followed by [pos + 1]: the text after the last [c]. *)
Fixpoint strrchr_after (c : ascii) (s : string) : option string :=
  match s with
  | EmptyString => None
  | String a rest =>
      match strrchr_after c rest with
      | Some tail => Some tail
      | None => if Ascii.eqb a c then Some rest else None
      end
  end.

Section FileSetResolver.

(** [__trim] is not among the sources.  It is a C routine that works in
    place: [__trim tok] is the string it returns, [__trim_inplace tok]
    the string it leaves at the address of [tok]. *)
Variable __trim : string -> string.
Variable __trim_inplace : string -> string.

(** [atoi] of the C library. *)
Variable atoi : string -> Z.

Variable fs : FileSystem.

(** The [while ((tok = strtok_r(temp, ",", &saveptr)) != NULL)] loop of
    the [files] option.  [temp] is the C string at the address [temp];
    every turn calls [strtok_r] on [temp] itself. *)
Fixpoint files_option_loop (fuel : nat) (temp : string) (trace : list fs_event)
    (filesList : list string) : fl_outcome (list string) :=
  match fuel with
  | O => FlOutOfFuel
  | S fuel' =>
      match strtok_r_first "," temp with
      | None => FlReturn trace filesList
      | Some (skipped, tok) =>
          let path := __trim tok in
          let temp := (skipped ++ __trim_inplace tok)%string in
          let trace := trace ++ [EvAccess path] in
          if negb (access_R_OK fs path) then
            FlError trace OptionError "arrow_fdw: unable to access"
          else files_option_loop fuel' temp trace (filesList ++ [path])
      end
  end.

(** The local variables of [arrowFdwExtractFilesList]. *)
Record resolver_state := mkResolverState {
  rs_trace : list fs_event;
  filesList : list string;
  dir_path : option string;
  dir_suffix : option string;
  parallel_nworkers : Z
}.

(** The [foreach (lc, options_list)] loop. *)
Fixpoint options_loop (fuel : nat) (options_list : list DefElem)
    (st : resolver_state) : fl_outcome resolver_state :=
  match options_list with
  | [] => FlReturn (rs_trace st) st
  | defel :: rest =>
      if String.eqb (defname defel) "file" then
        let temp := arg defel in
        let trace := rs_trace st ++ [EvAccess temp] in
        if negb (access_R_OK fs temp) then
          FlError trace OptionError "arrow_fdw: unable to access"
        else
          options_loop fuel rest
            (mkResolverState trace (filesList st ++ [temp]) (dir_path st)
               (dir_suffix st) (parallel_nworkers st))
      else if String.eqb (defname defel) "files" then
        match files_option_loop fuel (arg defel) (rs_trace st) (filesList st) with
        | FlReturn trace files =>
            options_loop fuel rest
              (mkResolverState trace files (dir_path st) (dir_suffix st)
                 (parallel_nworkers st))
        | FlError trace kind msg => FlError trace kind msg
        | FlOutOfFuel => FlOutOfFuel
        end
      else if String.eqb (defname defel) "dir" then
        options_loop fuel rest
          (mkResolverState (rs_trace st) (filesList st) (Some (arg defel))
             (dir_suffix st) (parallel_nworkers st))
      else if String.eqb (defname defel) "suffix" then
        options_loop fuel rest
          (mkResolverState (rs_trace st) (filesList st) (dir_path st)
             (Some (arg defel)) (parallel_nworkers st))
      else if String.eqb (defname defel) "parallel_workers" then
        if 0 <=? parallel_nworkers st then
          FlError (rs_trace st) OptionError "'parallel_workers' appeared twice"
        else
          options_loop fuel rest
            (mkResolverState (rs_trace st) (filesList st) (dir_path st)
               (dir_suffix st) (atoi (arg defel)))
      else FlError (rs_trace st) OptionError "arrow: unknown option"
  end.

(** Is the directory entry kept by the [suffix] test? *)
Definition suffix_matches (dir_suffix : option string) (d_name : string) : bool :=
  match dir_suffix with
  | None => true
  | Some suffix =>
      match strrchr_after "." d_name with
      | Some ext => String.eqb ext suffix
      | None => false
      end
  end.

(** The [while ((dentry = ReadDir(dir, dir_path)) != NULL)] loop. *)
Fixpoint dir_loop (dir_path : string) (dir_suffix : option string)
    (entries : list string) (trace : list fs_event) (filesList : list string)
    : list fs_event * list string :=
  match entries with
  | [] => (trace, filesList)
  | d_name :: rest =>
      if String.eqb d_name "." || String.eqb d_name ".." then
        dir_loop dir_path dir_suffix rest trace filesList
      else if negb (suffix_matches dir_suffix d_name) then
        dir_loop dir_path dir_suffix rest trace filesList
      else
        let temp := (dir_path ++ "/" ++ d_name)%string in
        let trace := trace ++ [EvAccess temp] in
        if negb (access_R_OK fs temp) then
          dir_loop dir_path dir_suffix rest
            (trace ++ [EvDebug1 ("arrow_fdw: unable to read '" ++ temp ++ "', so skipped")%string])
            filesList
        else dir_loop dir_path dir_suffix rest trace (filesList ++ [temp])
  end.

(** [arrowFdwExtractFilesList]: the files list and [*p_parallel_nworkers]. *)
Definition arrowFdwExtractFilesList (fuel : nat) (options_list : list DefElem)
    : fl_outcome (list string * Z) :=
  match options_loop fuel options_list (mkResolverState [] [] None None (-1)) with
  | FlOutOfFuel => FlOutOfFuel
  | FlError trace kind msg => FlError trace kind msg
  | FlReturn _ st =>
      match dir_suffix st, dir_path st with
      | Some _, None =>
          FlError (rs_trace st) OptionError
            "arrow: cannot use 'suffix' option without 'dir'"
      | _, None => FlReturn (rs_trace st) (filesList st, parallel_nworkers st)
      | _, Some path =>
          let trace := rs_trace st ++ [EvReadDir path] in
          match ReadDir fs path with
          | None => FlError trace SystemError "could not open directory"
          | Some entries =>
              let '(trace, files) :=
                dir_loop path (dir_suffix st) entries trace (filesList st) in
              FlReturn trace (files, parallel_nworkers st)
          end
      end
  end.

End FileSetResolver.

(** Concrete inputs: a file system in which every path is readable and
    the directory [/arr] holds four entries. *)
Definition demo_fs : FileSystem := {|
  access_R_OK path := negb (String.eqb path "/arr/locked.arrow");
  ReadDir path :=
    if String.eqb path "/arr"
    then Some ["."; ".."; "a.arrow"; "notes.txt"; "locked.arrow"; "b.arrow"]%string
    else None
|}.

Definition demo_atoi (s : string) : Z := fst (__atoi128 s false).

(** Modelled from the spec: the literal paths of the [file] options, in
    source order (section 4.6, item 3). *)
Definition spec_literal_files (options_list : list DefElem) : list string :=
  map arg (List.filter (fun d => String.eqb (defname d) "file") options_list).

(** Modelled from the spec: the directory entries the resolver keeps
    (section 4.6, item 2), as paths, in enumeration order. *)
Definition spec_kept_entries (fs : FileSystem) (dir : string)
    (suffix : option string) (entries : list string) : list string :=
  List.filter (access_R_OK fs)
    (map (fun d_name => (dir ++ "/" ++ d_name)%string)
       (List.filter (fun d_name =>
                       negb (String.eqb d_name "." || String.eqb d_name "..")
                       && suffix_matches suffix d_name) entries)).

(** The value of the last option called [name], if any. *)
Definition last_option (name : string) (options_list : list DefElem) : option string :=
  fold_left (fun acc d => if String.eqb (defname d) name then Some (arg d) else acc)
            options_list None.

Definition has_option (name : string) (options_list : list DefElem) : bool :=
  existsb (fun d => String.eqb (defname d) name) options_list.

Definition is_EvReadDir (e : fs_event) : bool :=
  match e with EvReadDir _ => true | _ => false end.

(* ================================================================== *)
(** ** Metadata cache: data *)
(* ================================================================== *)

Record timespec := mkTimespec {
  tv_sec : Z;
  tv_nsec : Z
}.

(** [struct timeval] (the members carry a prefix, [tv_sec] being taken
    by [timespec]). *)
Record timeval := mkTimeval {
  tvl_sec : Z;
  tvl_usec : Z
}.

(** [struct stat], the members the engine reads. *)
Record stat := mkStat {
  st_dev : Z;
  st_ino : Z;
  st_size : Z;
  st_mtim : timespec
}.

Definition stat0 : stat := mkStat 0 0 0 (mkTimespec 0 0).

Definition ARROW_METADATA_BLOCKSZ : Z := 128 * 1024.
Definition ARROW_METADATA_CACHE_FREE_MAGIC : Z := 0xdeadbeaf.
Definition ARROW_METADATA_CACHE_ACTIVE_MAGIC : Z := 0xcafebabe.
Definition ARROW_METADATA_HASH_NSLOTS : Z := 2000.

(** [offsetof(arrowMetadataCacheBlock, data)]: a [dlist_node] and two
    [int32_t]. *)
Definition offsetof_block_data : Z := 24.

(** A slab item is named by the index of its block in the arena and its
    index in the block: the item [(b, k)] of a block carved with unit
    size [u] lies at [b * ARROW_METADATA_BLOCKSZ + 24 + k * u]. *)
Definition slot_id : Type := Z * Z.

(** [arrowMetadataCacheBlock]; the [chain] member is the membership in
    [free_blocks]. *)
Record arrowMetadataCacheBlock := mkBlock {
  blk_unitsz : Z;
  n_actives : Z
}.

(** [arrowMetadataFieldCache]; [chain] is the membership in the free
    list or in the [children] or [fields] list that holds the item. *)
Record arrowMetadataFieldCache := mkFieldCache {
  fc_owner : Z;
  fc_atttypid : Z;
  fc_atttypmod : Z;
  fc_attopts : ArrowTypeOptions;
  fc_nitems : Z;
  fc_null_count : Z;
  fc_nullmap_offset : Z;
  fc_nullmap_length : Z;
  fc_values_offset : Z;
  fc_values_length : Z;
  fc_extra_offset : Z;
  fc_extra_length : Z;
  fc_stat_min : SQLstat__datum;
  fc_stat_max : SQLstat__datum;
  fc_stat_isnull : bool;
  fc_num_children : Z;
  fc_children : list slot_id;
  fc_magic : Z
}.

(** [arrowMetadataCache], its members with the prefix [mc_] (the record
    batch state has members of the same names); [chain] is the
    membership in the free list or in a hash slot, [lru_chain] the
    membership in [lru_list]. *)
Record arrowMetadataCache := mkCache {
  mc_owner : Z;
  mc_lru_tv : timeval;
  mc_next : option slot_id;
  mc_stat_buf : stat;
  mc_rb_index : Z;
  mc_rb_offset : Z;
  mc_rb_length : Z;
  mc_rb_nitems : Z;
  mc_nfields : Z;
  mc_fields : list slot_id;
  mc_magic : Z
}.

(** Memory that was never written reads as zeroes. *)
Definition block0 : arrowMetadataCacheBlock := mkBlock 0 0.

Definition fcache0 : arrowMetadataFieldCache :=
  mkFieldCache 0 0 0 attopts0 0 0 0 0 0 0 0 0 0 0 false 0 [] 0.

Definition mcache0 : arrowMetadataCache :=
  mkCache 0 (mkTimeval 0 0) None stat0 0 0 0 0 0 [] 0.

(** [arrowMetadataCacheHead] together with the arena behind it.  The
    locks are left out: every routine below runs with the lock its
    caller holds.  [ticks] counts the calls of [gettimeofday]. *)
Record arrowMetadataCacheHead := mkHead {
  ticks : nat;
  lru_list : list slot_id;
  free_blocks : list Z;
  free_mcaches : list slot_id;
  free_fcaches : list slot_id;
  hash_slots : gmap Z (list slot_id);
  blocks : gmap Z arrowMetadataCacheBlock;
  mcaches : gmap slot_id arrowMetadataCache;
  fcaches : gmap slot_id arrowMetadataFieldCache
}.

Definition set_ticks v (c : arrowMetadataCacheHead) :=
  mkHead v (lru_list c) (free_blocks c) (free_mcaches c) (free_fcaches c)
    (hash_slots c) (blocks c) (mcaches c) (fcaches c).
Definition set_lru_list v (c : arrowMetadataCacheHead) :=
  mkHead (ticks c) v (free_blocks c) (free_mcaches c) (free_fcaches c)
    (hash_slots c) (blocks c) (mcaches c) (fcaches c).
Definition set_free_blocks v (c : arrowMetadataCacheHead) :=
  mkHead (ticks c) (lru_list c) v (free_mcaches c) (free_fcaches c)
    (hash_slots c) (blocks c) (mcaches c) (fcaches c).
Definition set_free_mcaches v (c : arrowMetadataCacheHead) :=
  mkHead (ticks c) (lru_list c) (free_blocks c) v (free_fcaches c)
    (hash_slots c) (blocks c) (mcaches c) (fcaches c).
Definition set_free_fcaches v (c : arrowMetadataCacheHead) :=
  mkHead (ticks c) (lru_list c) (free_blocks c) (free_mcaches c) v
    (hash_slots c) (blocks c) (mcaches c) (fcaches c).
Definition set_hash_slots v (c : arrowMetadataCacheHead) :=
  mkHead (ticks c) (lru_list c) (free_blocks c) (free_mcaches c) (free_fcaches c)
    v (blocks c) (mcaches c) (fcaches c).
Definition set_blocks v (c : arrowMetadataCacheHead) :=
  mkHead (ticks c) (lru_list c) (free_blocks c) (free_mcaches c) (free_fcaches c)
    (hash_slots c) v (mcaches c) (fcaches c).
Definition set_mcaches v (c : arrowMetadataCacheHead) :=
  mkHead (ticks c) (lru_list c) (free_blocks c) (free_mcaches c) (free_fcaches c)
    (hash_slots c) (blocks c) v (fcaches c).
Definition set_fcaches v (c : arrowMetadataCacheHead) :=
  mkHead (ticks c) (lru_list c) (free_blocks c) (free_mcaches c) (free_fcaches c)
    (hash_slots c) (blocks c) (mcaches c) v.

(** Dereferencing a pointer into the arena. *)
Definition block_at (c : arrowMetadataCacheHead) (b : Z) : arrowMetadataCacheBlock :=
  default block0 (blocks c !! b).
Definition mcache_at (c : arrowMetadataCacheHead) (m : slot_id) : arrowMetadataCache :=
  default mcache0 (mcaches c !! m).
Definition fcache_at (c : arrowMetadataCacheHead) (f : slot_id) : arrowMetadataFieldCache :=
  default fcache0 (fcaches c !! f).
Definition hash_slot_at (c : arrowMetadataCacheHead) (hindex : Z) : list slot_id :=
  default [] (hash_slots c !! hindex).

Definition write_block (b : Z) (v : arrowMetadataCacheBlock) (c : arrowMetadataCacheHead) :=
  set_blocks (<[b := v]> (blocks c)) c.
Definition write_mcache (m : slot_id) (v : arrowMetadataCache) (c : arrowMetadataCacheHead) :=
  set_mcaches (<[m := v]> (mcaches c)) c.
Definition write_fcache (f : slot_id) (v : arrowMetadataFieldCache) (c : arrowMetadataCacheHead) :=
  set_fcaches (<[f := v]> (fcaches c)) c.

Definition set_fc_magic (v : Z) (e : arrowMetadataFieldCache) :=
  mkFieldCache (fc_owner e) (fc_atttypid e) (fc_atttypmod e) (fc_attopts e)
    (fc_nitems e) (fc_null_count e) (fc_nullmap_offset e) (fc_nullmap_length e)
    (fc_values_offset e) (fc_values_length e) (fc_extra_offset e) (fc_extra_length e)
    (fc_stat_min e) (fc_stat_max e) (fc_stat_isnull e) (fc_num_children e)
    (fc_children e) v.
Definition set_fc_owner (v : Z) (e : arrowMetadataFieldCache) :=
  mkFieldCache v (fc_atttypid e) (fc_atttypmod e) (fc_attopts e)
    (fc_nitems e) (fc_null_count e) (fc_nullmap_offset e) (fc_nullmap_length e)
    (fc_values_offset e) (fc_values_length e) (fc_extra_offset e) (fc_extra_length e)
    (fc_stat_min e) (fc_stat_max e) (fc_stat_isnull e) (fc_num_children e)
    (fc_children e) (fc_magic e).
Definition set_fc_children (v : list slot_id) (e : arrowMetadataFieldCache) :=
  mkFieldCache (fc_owner e) (fc_atttypid e) (fc_atttypmod e) (fc_attopts e)
    (fc_nitems e) (fc_null_count e) (fc_nullmap_offset e) (fc_nullmap_length e)
    (fc_values_offset e) (fc_values_length e) (fc_extra_offset e) (fc_extra_length e)
    (fc_stat_min e) (fc_stat_max e) (fc_stat_isnull e) (fc_num_children e)
    v (fc_magic e).

Definition set_mc_magic (v : Z) (e : arrowMetadataCache) :=
  mkCache (mc_owner e) (mc_lru_tv e) (mc_next e) (mc_stat_buf e) (mc_rb_index e) (mc_rb_offset e)
    (mc_rb_length e) (mc_rb_nitems e) (mc_nfields e) (mc_fields e) v.
Definition set_mc_owner (v : Z) (e : arrowMetadataCache) :=
  mkCache v (mc_lru_tv e) (mc_next e) (mc_stat_buf e) (mc_rb_index e) (mc_rb_offset e)
    (mc_rb_length e) (mc_rb_nitems e) (mc_nfields e) (mc_fields e) (mc_magic e).
Definition set_mc_fields (v : list slot_id) (e : arrowMetadataCache) :=
  mkCache (mc_owner e) (mc_lru_tv e) (mc_next e) (mc_stat_buf e) (mc_rb_index e) (mc_rb_offset e)
    (mc_rb_length e) (mc_rb_nitems e) (mc_nfields e) v (mc_magic e).
Definition set_mc_lru_tv (v : timeval) (e : arrowMetadataCache) :=
  mkCache (mc_owner e) v (mc_next e) (mc_stat_buf e) (mc_rb_index e) (mc_rb_offset e)
    (mc_rb_length e) (mc_rb_nitems e) (mc_nfields e) (mc_fields e) (mc_magic e).
Definition set_mc_next (v : option slot_id) (e : arrowMetadataCache) :=
  mkCache (mc_owner e) (mc_lru_tv e) v (mc_stat_buf e) (mc_rb_index e) (mc_rb_offset e)
    (mc_rb_length e) (mc_rb_nitems e) (mc_nfields e) (mc_fields e) (mc_magic e).

(** Intrusive lists ([dlist_*] of PostgreSQL's ilist.h) as lists of the
    items they link. *)
Definition dlist_push_tail {A} (l : list A) (x : A) : list A := l ++ [x].
Definition dlist_push_head {A} (l : list A) (x : A) : list A := x :: l.
Definition dlist_delete `{EqDecision A} (l : list A) (x : A) : list A :=
  List.filter (fun y => negb (bool_decide (y = x))) l.
Definition dlist_move_head `{EqDecision A} (l : list A) (x : A) : list A :=
  x :: dlist_delete l x.

(** The items of a block carved with unit size [unitsz]: the positions
    [pos] with [pos + unitsz <= end]. *)
Definition slots_of_block (b : Z) (unitsz : Z) : list slot_id :=
  map (fun k => (b, k))
      (seqZ 0 ((ARROW_METADATA_BLOCKSZ - offsetof_block_data) / unitsz)).

(** Outcome of a routine that works on the cache: it returns, leaves
    through [elog(ERROR)], dies on a memory fault, or is still running
    when the fuel of the model is used up. *)
Inductive run (A : Type) :=
| Done (a : A)
| Raise (kind : ErrorKind) (msg : string)
| Fault (why : string)
| OutOfFuel.
Arguments Done {A} a.
Arguments Raise {A} kind msg.
Arguments Fault {A} why.
Arguments OutOfFuel {A}.

#[global] Instance run_ret : MRet run := fun A a => Done a.

#[global] Instance run_bind : MBind run := fun A B k r =>
  match r with
  | Done a => k a
  | Raise kind msg => Raise kind msg
  | Fault why => Fault why
  | OutOfFuel => OutOfFuel
  end.

Definition run_of_result {A} (r : result A) : run A :=
  match r with
  | Ok a => Done a
  | Error kind msg => Raise kind msg
  end.

(* ================================================================== *)
(** ** Metadata cache: slab allocator, reclaim, lookup *)
(* ================================================================== *)

Section MetadataCache.

(** [sizeof(arrowMetadataCache)] and [sizeof(arrowMetadataFieldCache)]
    depend on the platform ([struct stat], [ArrowTypeOptions]). *)
Variable sizeof_arrowMetadataCache : Z.
Variable sizeof_arrowMetadataFieldCache : Z.

(** The clock: [gettimeofday n] is what the [n]-th call reads. *)
Variable gettimeofday : nat -> timeval.

(** [hash_bytes] of PostgreSQL on the key [(st_dev, st_ino)]. *)
Variable hash_bytes : Z -> Z -> Z.

Definition mcache_unitsz : Z := MAXALIGN sizeof_arrowMetadataCache.
Definition fcache_unitsz : Z := MAXALIGN sizeof_arrowMetadataFieldCache.

(** The block goes back to [free_blocks] once its last item is free:
    every item of the block is unlinked from the free list first. *)
Definition back_fcache_block (c : arrowMetadataCacheHead) (mc_block : Z)
    : arrowMetadataCacheHead :=
  let blk := block_at c mc_block in
  let blk := mkBlock (blk_unitsz blk) (n_actives blk - 1) in
  let c := write_block mc_block blk c in
  if n_actives blk =? 0 then
    let c := set_free_fcaches
               (foldl dlist_delete (free_fcaches c)
                  (slots_of_block mc_block (blk_unitsz blk))) c in
    set_free_blocks (dlist_push_tail (free_blocks c) mc_block) c
  else c.

Definition back_mcache_block (c : arrowMetadataCacheHead) (mc_block : Z)
    : arrowMetadataCacheHead :=
  let blk := block_at c mc_block in
  let blk := mkBlock (blk_unitsz blk) (n_actives blk - 1) in
  let c := write_block mc_block blk c in
  if n_actives blk =? 0 then
    let c := set_free_mcaches
               (foldl dlist_delete (free_mcaches c)
                  (slots_of_block mc_block (blk_unitsz blk))) c in
    set_free_blocks (dlist_push_tail (free_blocks c) mc_block) c
  else c.

(** [__releaseMetadataFieldCache].  [release_children] is its [while]
    loop, which pops the head of [fcache->children] and releases it. *)
Fixpoint __releaseMetadataFieldCache (fuel : nat) (c : arrowMetadataCacheHead)
    (fcache : slot_id) {struct fuel} : run arrowMetadataCacheHead :=
  match fuel with
  | O => OutOfFuel
  | S fuel' =>
      let mc_block := fc_owner (fcache_at c fcache) in
      c ← release_children fuel' c fcache;
      let c := write_fcache fcache
                 (set_fc_magic ARROW_METADATA_CACHE_FREE_MAGIC (fcache_at c fcache)) c in
      let c := set_free_fcaches (dlist_push_tail (free_fcaches c) fcache) c in
      Done (back_fcache_block c mc_block)
  end
with release_children (fuel : nat) (c : arrowMetadataCacheHead)
    (fcache : slot_id) {struct fuel} : run arrowMetadataCacheHead :=
  match fuel with
  | O => OutOfFuel
  | S fuel' =>
      match fc_children (fcache_at c fcache) with
      | [] => Done c
      | __fcache :: rest =>
          let c := write_fcache fcache (set_fc_children rest (fcache_at c fcache)) c in
          c ← __releaseMetadataFieldCache fuel' c __fcache;
          release_children fuel' c fcache
      end
  end.

(** The [while (!dlist_is_empty(&mcache->fields))] loop of
    [__releaseMetadataCache]. *)
Fixpoint release_fields (fuel : nat) (c : arrowMetadataCacheHead)
    (mcache : slot_id) : run arrowMetadataCacheHead :=
  match fuel with
  | O => OutOfFuel
  | S fuel' =>
      match mc_fields (mcache_at c mcache) with
      | [] => Done c
      | fcache :: rest =>
          let c := write_mcache mcache (set_mc_fields rest (mcache_at c mcache)) c in
          c ← __releaseMetadataFieldCache fuel' c fcache;
          release_fields fuel' c mcache
      end
  end.

(** [__releaseMetadataCache]: the [while (mcache)] loop along [next]. *)
Fixpoint __releaseMetadataCache (fuel : nat) (c : arrowMetadataCacheHead)
    (mcache : option slot_id) : run arrowMetadataCacheHead :=
  match mcache with
  | None => Done c
  | Some m =>
      match fuel with
      | O => OutOfFuel
      | S fuel' =>
          let mc_block := mc_owner (mcache_at c m) in
          let __mcache_next := mc_next (mcache_at c m) in
          c ← release_fields fuel' c m;
          let c := write_mcache m
                     (set_mc_magic ARROW_METADATA_CACHE_FREE_MAGIC (mcache_at c m)) c in
          let c := set_free_mcaches (dlist_push_tail (free_mcaches c) m) c in
          let c := back_mcache_block c mc_block in
          __releaseMetadataCache fuel' c __mcache_next
      end
  end.

(** [dlist_delete(&mcache->chain)] for an item chained into a hash slot:
    the item leaves the slot that holds it. *)
Definition unlink_from_hash (c : arrowMetadataCacheHead) (m : slot_id)
    : arrowMetadataCacheHead :=
  set_hash_slots ((fun l => dlist_delete l m) <$> hash_slots c) c.

(** [elapsed > 30000000UL]: the comparison is unsigned. *)
Definition lru_elapsed (curr_tv lru : timeval) : Z :=
  (tvl_sec curr_tv - tvl_sec lru) * 1000000 + (tvl_usec curr_tv - tvl_usec lru).

(** [__reclaimMetadataCache]. *)
Definition __reclaimMetadataCache (fuel : nat) (c : arrowMetadataCacheHead)
    : run (bool * arrowMetadataCacheHead) :=
  match last (lru_list c) with
  | None => Done (false, c)
  | Some mcache =>
      let curr_tv := gettimeofday (ticks c) in
      let c := set_ticks (S (ticks c)) c in
      if 30000000 <? to_u64 (lru_elapsed curr_tv (mc_lru_tv (mcache_at c mcache))) then
        let c := set_lru_list (dlist_delete (lru_list c) mcache) c in
        let c := unlink_from_hash c mcache in
        c ← __releaseMetadataCache fuel c (Some mcache);
        Done (true, c)
      else Done (false, c)
  end.

(** [while (dlist_is_empty(&free_blocks)) if (!__reclaimMetadataCache())
    return NULL;] -- [false] stands for the [return NULL]. *)
Fixpoint wait_free_block (fuel : nat) (c : arrowMetadataCacheHead)
    : run (bool * arrowMetadataCacheHead) :=
  match fuel with
  | O => OutOfFuel
  | S fuel' =>
      match free_blocks c with
      | _ :: _ => Done (true, c)
      | [] =>
          '(reclaimed, c) ← __reclaimMetadataCache fuel' c;
          if reclaimed : bool then wait_free_block fuel' c else Done (false, c)
      end
  end.

(** The [for (pos = mc_block->data; ...)] loops that carve a block. *)
Definition carve_fcache_block (c : arrowMetadataCacheHead) (mc_block : Z)
    : arrowMetadataCacheHead :=
  let c := write_block mc_block (mkBlock fcache_unitsz 0) c in
  foldl (fun c fcache =>
           let c := write_fcache fcache
                      (set_fc_magic ARROW_METADATA_CACHE_FREE_MAGIC
                         (set_fc_owner mc_block (fcache_at c fcache))) c in
           set_free_fcaches (dlist_push_tail (free_fcaches c) fcache) c)
        c (slots_of_block mc_block fcache_unitsz).

Definition carve_mcache_block (c : arrowMetadataCacheHead) (mc_block : Z)
    : arrowMetadataCacheHead :=
  let c := write_block mc_block (mkBlock mcache_unitsz 0) c in
  foldl (fun c mcache =>
           let c := write_mcache mcache
                      (set_mc_magic ARROW_METADATA_CACHE_FREE_MAGIC
                         (set_mc_owner mc_block (mcache_at c mcache))) c in
           set_free_mcaches (dlist_push_tail (free_mcaches c) mcache) c)
        c (slots_of_block mc_block mcache_unitsz).

(** The [while (dlist_is_empty(&free_fcaches))] loop of
    [__allocMetadataFieldCache]. *)
Fixpoint refill_free_fcaches (fuel : nat) (c : arrowMetadataCacheHead)
    : run (bool * arrowMetadataCacheHead) :=
  match fuel with
  | O => OutOfFuel
  | S fuel' =>
      match free_fcaches c with
      | _ :: _ => Done (true, c)
      | [] =>
          '(got_block, c) ← wait_free_block fuel' c;
          if got_block : bool then
            match free_blocks c with
            | mc_block :: rest =>
                refill_free_fcaches fuel'
                  (carve_fcache_block (set_free_blocks rest c) mc_block)
            | [] => Fault "dlist_pop_head_node on an empty list"
            end
          else Done (false, c)
      end
  end.

(** [__allocMetadataFieldCache]: [None] is the [NULL] it returns.  The
    [memset] clears the item from [chain] up to [magic]; [owner] stays. *)
Definition __allocMetadataFieldCache (fuel : nat) (c : arrowMetadataCacheHead)
    : run (option slot_id * arrowMetadataCacheHead) :=
  '(refilled, c) ← refill_free_fcaches fuel c;
  if refilled : bool then
    match free_fcaches c with
    | fcache :: rest =>
        let c := set_free_fcaches rest c in
        let owner := fc_owner (fcache_at c fcache) in
        let blk := block_at c owner in
        let c := write_block owner (mkBlock (blk_unitsz blk) (n_actives blk + 1)) c in
        let c := write_fcache fcache
                   (set_fc_magic ARROW_METADATA_CACHE_ACTIVE_MAGIC
                      (set_fc_owner owner fcache0)) c in
        Done (Some fcache, c)
    | [] => Fault "dlist_pop_head_node on an empty list"
    end
  else Done (None, c).

(** [__allocMetadataCache]: [None] is the [NULL] it returns.  After the
    item is popped, the source runs
    [memset(&mcache, 0, offsetof(.., magic) - offsetof(.., chain))]:
    the address is that of the local pointer [mcache], not that of
    [mcache->chain] as in [__allocMetadataFieldCache].  The call clears
    the pointer (and the stack behind it), and the next statement,
    [mcache->magic = ARROW_METADATA_CACHE_ACTIVE_MAGIC], stores through
    a null pointer. *)
Definition __allocMetadataCache (fuel : nat) (c : arrowMetadataCacheHead)
    : run (option slot_id * arrowMetadataCacheHead) :=
  '(got_item, c) ←
    match free_mcaches c with
    | _ :: _ => Done (true, c)
    | [] =>
        '(got_block, c) ← wait_free_block fuel c;
        if got_block : bool then
          match free_blocks c with
          | mc_block :: rest =>
              Done (true, carve_mcache_block (set_free_blocks rest c) mc_block)
          | [] => Fault "dlist_pop_head_node on an empty list"
          end
        else Done (false, c)
    end;
  if got_item : bool then
    match free_mcaches c with
    | mcache :: rest =>
        let c := set_free_mcaches rest c in
        let owner := mc_owner (mcache_at c mcache) in
        let blk := block_at c owner in
        let c := write_block owner (mkBlock (blk_unitsz blk) (n_actives blk + 1)) c in
        (* memset(&mcache, 0, ...): mcache = NULL *)
        Fault "mcache->magic: store through a null pointer"
    | [] => Fault "dlist_pop_head_node on an empty list"
    end
  else Done (None, c).

(** [arrowMetadataHashIndex]. *)
Definition arrowMetadataHashIndex (stat_buf : stat) : Z :=
  hash_bytes (st_dev stat_buf) (st_ino stat_buf) mod ARROW_METADATA_HASH_NSLOTS.

(** The validity test of [lookupArrowMetadataCache]: the [mtime] of the
    file is not after the cached one. *)
Definition mtime_not_after (file cached : timespec) : bool :=
  (tv_sec file <? tv_sec cached)
  || ((tv_sec file =? tv_sec cached) && (tv_nsec file <=? tv_nsec cached)).

(** *** The iterator of [lookupArrowMetadataCache]

    The walk over the hash slot is a [dlist_foreach].  When it releases
    a stale entry, the node under the cursor leaves the hash slot and is
    linked into [free_mcaches] by [__releaseMetadataCache]; the source
    has no [break] or [return] there, so the loop goes on with
    [iter.cur = iter.cur->next] from that node.  From then on the
    cursor runs over the ring of [free_mcaches]: the items of the list
    and the list head in [arrowMetadataCacheHead].  The end marker of
    the loop is the head of the hash slot, which is not on that ring. *)

(** A node of the ring of [free_mcaches]: the list head, or the [chain]
    member of an item. *)
Inductive chain_ref :=
| RingHead
| RingItem (mcache : slot_id).

(** [node->next] of the item [x] while it is linked in the list [l]. *)
Fixpoint dlist_next (l : list slot_id) (x : slot_id) : chain_ref :=
  match l with
  | [] => RingHead
  | y :: l' =>
      if bool_decide (y = x) then
        match l' with
        | z :: _ => RingItem z
        | [] => RingHead
        end
      else dlist_next l' x
  end.

(** The loop of [__releaseMetadataCache] that unlinks the items of a
    block from [free_mcaches], in address order.  [dlist_delete] leaves
    the [next] pointer of the node it unlinks as it is: [links] records
    that pointer for every item unlinked. *)
Definition unlink_block_links (l : list slot_id) (links : gmap slot_id chain_ref)
    (items : list slot_id) : gmap slot_id chain_ref :=
  snd (foldl (fun '(l, links) x =>
                (dlist_delete l x,
                 if bool_decide (x ∈ l) then <[x := dlist_next l x]> links else links))
             (l, links) items).

(** [__releaseMetadataCache], together with the [next] pointers it
    leaves in the items it unlinks from [free_mcaches].  The cache it
    returns is that of [__releaseMetadataCache]. *)
Fixpoint release_with_links (fuel : nat) (c : arrowMetadataCacheHead)
    (mcache : option slot_id) (links : gmap slot_id chain_ref)
    : run (arrowMetadataCacheHead * gmap slot_id chain_ref) :=
  match mcache with
  | None => Done (c, links)
  | Some m =>
      match fuel with
      | O => OutOfFuel
      | S fuel' =>
          let mc_block := mc_owner (mcache_at c m) in
          let __mcache_next := mc_next (mcache_at c m) in
          c ← release_fields fuel' c m;
          let c := write_mcache m
                     (set_mc_magic ARROW_METADATA_CACHE_FREE_MAGIC (mcache_at c m)) c in
          let c := set_free_mcaches (dlist_push_tail (free_mcaches c) m) c in
          (* [m] is linked again: its [next] is that of the list *)
          let links := delete m links in
          let blk := block_at c mc_block in
          let links :=
            if n_actives blk - 1 =? 0 then
              unlink_block_links (free_mcaches c) links
                (slots_of_block mc_block (blk_unitsz blk))
            else links in
          let c := back_mcache_block c mc_block in
          release_with_links fuel' c __mcache_next links
      end
  end.

(** [node->next] of an item: that of the list while the item is linked
    in [free_mcaches], the pointer left behind otherwise. *)
Definition chain_next (c : arrowMetadataCacheHead) (links : gmap slot_id chain_ref)
    (x : slot_id) : chain_ref :=
  if bool_decide (x ∈ free_mcaches c) then dlist_next (free_mcaches c) x
  else default RingHead (links !! x).

(** Outcome of [lookupArrowMetadataCache]: the entry it returns, the
    [NULL] it returns, or no return at all (the call dies, or is still
    running when the fuel of the model is used up). *)
Inductive lookup_outcome :=
| LookupFound (mcache : slot_id) (c : arrowMetadataCacheHead)
| LookupNotFound (c : arrowMetadataCacheHead)
| LookupRaise (kind : ErrorKind) (msg : string)
| LookupFault (why : string)
| LookupOutOfFuel.

(** Does the call return to its caller? *)
Definition lookup_returns (r : lookup_outcome) : bool :=
  match r with
  | LookupFound _ _ | LookupNotFound _ => true
  | _ => false
  end.

(** The [dlist_foreach] once the cursor is on the ring of
    [free_mcaches].
    - At the list head, [dlist_container] yields no entry: the bytes
      the test reads as [st_dev] and [st_ino] are list pointers of
      [arrowMetadataCacheHead], addresses of the shared segment; they
      match no file and the cursor moves on to the first item.
    - An item of the ring is a released entry.  When it is one of the
      file, both branches of the loop body go through its [lru_chain]
      ([dlist_move_head], [dlist_delete]), which was cleared when the
      entry left the LRU list: the call stores through a null pointer.
    - Otherwise the cursor moves on.  The loop has no other exit. *)
Fixpoint walk_free_ring (fuel : nat) (c : arrowMetadataCacheHead)
    (links : gmap slot_id chain_ref) (stat_buf : stat) (cur : chain_ref)
    : lookup_outcome :=
  match fuel with
  | O => LookupOutOfFuel
  | S fuel' =>
      match cur with
      | RingHead =>
          walk_free_ring fuel' c links stat_buf
            (match free_mcaches c with
             | x :: _ => RingItem x
             | [] => RingHead
             end)
      | RingItem x =>
          let e := mcache_at c x in
          if (st_dev stat_buf =? st_dev (mc_stat_buf e))
             && (st_ino stat_buf =? st_ino (mc_stat_buf e)) then
            LookupFault "mcache->lru_chain: unlink through a null pointer"
          else walk_free_ring fuel' c links stat_buf (chain_next c links x)
      end
  end.

(** The [dlist_foreach] walk over what is left of the hash slot. *)
Fixpoint lookup_walk (fuel : nat) (c : arrowMetadataCacheHead) (stat_buf : stat)
    (has_exclusive : bool) (slot : list slot_id) : lookup_outcome :=
  match slot with
  | [] => LookupNotFound c
  | mcache :: rest =>
      let e := mcache_at c mcache in
      if (st_dev stat_buf =? st_dev (mc_stat_buf e))
         && (st_ino stat_buf =? st_ino (mc_stat_buf e)) then
        if mtime_not_after (st_mtim stat_buf) (st_mtim (mc_stat_buf e)) then
          let tv := gettimeofday (ticks c) in
          let c := set_ticks (S (ticks c)) c in
          let c := write_mcache mcache (set_mc_lru_tv tv (mcache_at c mcache)) c in
          let c := set_lru_list (dlist_move_head (lru_list c) mcache) c in
          LookupFound mcache c
        else if has_exclusive then
          let c := set_lru_list (dlist_delete (lru_list c) mcache) c in
          let c := unlink_from_hash c mcache in
          match release_with_links fuel c (Some mcache) ∅ with
          | Done (c, links) =>
              (* no [break]: [iter.cur = iter.cur->next] *)
              walk_free_ring fuel c links stat_buf (chain_next c links mcache)
          | Raise kind msg => LookupRaise kind msg
          | Fault why => LookupFault why
          | OutOfFuel => LookupOutOfFuel
          end
        else lookup_walk fuel c stat_buf has_exclusive rest
      else lookup_walk fuel c stat_buf has_exclusive rest
  end.

Definition lookupArrowMetadataCache (fuel : nat) (c : arrowMetadataCacheHead)
    (stat_buf : stat) (has_exclusive : bool) : lookup_outcome :=
  lookup_walk fuel c stat_buf has_exclusive
    (hash_slot_at c (arrowMetadataHashIndex stat_buf)).


(* ================================================================== *)
(** ** File state: from the cache, from the raw file, into the cache *)
(* ================================================================== *)

Record RecordBatchState := mkRecordBatchState {
  rb_index : Z;
  rb_offset : Z;
  rb_length : Z;
  rb_nitems : Z;
  nfields : Z;
  fields : list RecordBatchFieldState
}.

(** [ArrowFileState]; the file handle and the device hints are left out. *)
Record ArrowFileState := mkArrowFileState {
  filename : string;
  stat_buf : stat;
  rb_list : list RecordBatchState
}.

(** The [dlist_foreach] over [fcache->children] of
    [__buildRecordBatchFieldStateByCache]; [by_cache] is the recursive
    call.  The [children] array has [num_children] elements: a longer
    list overruns it, a shorter one leaves zeroed elements behind. *)
Fixpoint children_by_cache (by_cache : slot_id -> run RecordBatchFieldState)
    (num_children : Z) (l : list slot_id) (j : Z)
    : run (list RecordBatchFieldState) :=
  match l with
  | [] => Done (replicate (Z.to_nat (num_children - j)) fstate0)
  | __fcache :: l' =>
      if num_children <=? j then
        Fault "rb_field->children[j++]: past the end of the array"
      else
        child ← by_cache __fcache;
        cs ← children_by_cache by_cache num_children l' (j + 1);
        Done (child :: cs)
  end.

(** [__buildRecordBatchFieldStateByCache] into a zeroed field state. *)
Fixpoint __buildRecordBatchFieldStateByCache (fuel : nat)
    (c : arrowMetadataCacheHead) (fcache : slot_id) {struct fuel}
    : run RecordBatchFieldState :=
  match fuel with
  | O => OutOfFuel
  | S fuel' =>
      let e := fcache_at c fcache in
      let rb_field :=
        mkRecordBatchFieldState (fc_atttypid e) (fc_atttypmod e) (fc_attopts e)
          (fc_nitems e) (fc_null_count e) (fc_nullmap_offset e) (fc_nullmap_length e)
          (fc_values_offset e) (fc_values_length e) (fc_extra_offset e)
          (fc_extra_length e) (fc_stat_min e) (fc_stat_max e) (fc_stat_isnull e)
          0 [] in
      if 0 <? fc_num_children e then
        cs ← children_by_cache (__buildRecordBatchFieldStateByCache fuel' c)
                (fc_num_children e) (fc_children e) 0;
        Done (set_children (fc_num_children e) cs rb_field)
      else Done rb_field
  end.

(** The [dlist_foreach] over [mcache->fields] of
    [__buildArrowFileStateByCache]. *)
Fixpoint fields_by_cache (fuel : nat) (c : arrowMetadataCacheHead)
    (nfields : Z) (l : list slot_id) (j : Z) : run (list RecordBatchFieldState) :=
  match l with
  | [] => Done (replicate (Z.to_nat (nfields - j)) fstate0)
  | fcache :: l' =>
      if nfields <=? j then
        Fault "rb_state->fields[j++]: past the end of the array"
      else
        f ← __buildRecordBatchFieldStateByCache fuel c fcache;
        fs ← fields_by_cache fuel c nfields l' (j + 1);
        Done (f :: fs)
  end.

(** The [while (mcache)] loop of [__buildArrowFileStateByCache]. *)
Fixpoint batches_by_cache (fuel : nat) (c : arrowMetadataCacheHead)
    (mcache : option slot_id) : run (list RecordBatchState) :=
  match mcache with
  | None => Done []
  | Some m =>
      match fuel with
      | O => OutOfFuel
      | S fuel' =>
          let e := mcache_at c m in
          fs ← fields_by_cache fuel' c (mc_nfields e) (mc_fields e) 0;
          rest ← batches_by_cache fuel' c (mc_next e);
          Done (mkRecordBatchState (mc_rb_index e) (mc_rb_offset e) (mc_rb_length e)
                  (mc_rb_nitems e) (mc_nfields e) fs :: rest)
      end
  end.

Definition __buildArrowFileStateByCache (fuel : nat) (c : arrowMetadataCacheHead)
    (filename : string) (mcache : slot_id) : run ArrowFileState :=
  rbs ← batches_by_cache fuel c (Some mcache);
  Done (mkArrowFileState filename (mc_stat_buf (mcache_at c mcache)) rbs).

(** *** Raw file *)

Record ArrowBlock := mkArrowBlock {
  blk_offset : Z;
  metaDataLength : Z;
  bodyLength : Z
}.

Record ArrowRecordBatch := mkArrowRecordBatch {
  rbatch_length : Z;
  rbatch_nodes : list ArrowFieldNode;
  rbatch_buffers : list ArrowBuffer;
  rbatch_compression : bool
}.

(** [ArrowFileInfo] as [readArrowFileDesc] fills it: the schema and the
    block descriptors of the footer, and the two arrays that are [NULL]
    when the file holds no message of that kind. *)
Record ArrowFileInfo := mkArrowFileInfo {
  af_stat_buf : stat;
  footer_schema_fields : list ArrowField;
  footer_recordBatches : list ArrowBlock;
  af_dictionaries : option (list ArrowBlock);
  af_recordBatches : option (list ArrowRecordBatch)
}.

(** [PathNameOpenFile] followed by [readArrowFileDesc]. *)
Inductive open_outcome :=
| OpenFailed (errno_is_ENOENT : bool)
| OpenRead (r : result ArrowFileInfo).

(** The foreign table: its name and the types of its columns. *)
Record Relation := mkRelation {
  relname : string;
  tupdesc_atttypid : list Z
}.

(** What the builder asks of the operating system and the reader. *)
Record ArrowFiles := mkArrowFiles {
  (** [stat(filename, &stat_buf) == 0] and the buffer it fills. *)
  stat_file : string -> option stat;
  open_arrow_file : string -> open_outcome
}.

Variable __trim : string -> string.
Variable cat : HostCatalog.
Variable files : ArrowFiles.

(** The loop of [__buildRecordBatchStateOne] over the columns. *)
Fixpoint build_fields (con : setupRecordBatchContext) (fs : list ArrowField)
    : result (list RecordBatchFieldState * setupRecordBatchContext) :=
  match fs with
  | [] => Ok ([], con)
  | field :: fs' =>
      '(fstate, con) ← __buildRecordBatchFieldState cat con field 0;
      '(fstates, con) ← build_fields con fs';
      Ok (fstate :: fstates, con)
  end.

Definition __buildRecordBatchStateOne (schema_fields : list ArrowField)
    (rb_index : Z) (block : ArrowBlock) (rbatch : ArrowRecordBatch)
    : result RecordBatchState :=
  if rbatch_compression rbatch then
    Error UnsupportedFeature
      "arrow_fdw: right now, compressed record-batche is not supported"
  else
    '(fstates, con) ←
      build_fields (mkContext (rbatch_buffers rbatch) (rbatch_nodes rbatch))
        schema_fields;
    match buffers con, fnodes con with
    | [], [] =>
        (* [rb_state->nfields] is never assigned: [palloc0] leaves 0 *)
        Ok (mkRecordBatchState rb_index (blk_offset block + metaDataLength block)
              (bodyLength block) (rbatch_length rbatch) 0 fstates)
    | _, _ => Error RecordBatchCorrupt "arrow_fdw: RecordBatch may be corrupted"
    end.

(** The [for (int j=0; j < rb_state->nfields; j++)] loop of
    [applyArrowStatsBinary]; [fs] and [bs] hold [rb_state->fields] and
    [arrow_bstats->fields] from index [j] on.  An array shorter than
    [nfields] would be read past its end; the walk stops there. *)
Fixpoint apply_fields (nfields : Z) (j : Z) (fs : list RecordBatchFieldState)
    (bs : list arrowFieldStatsBinary) (rb_index : Z) {struct fs}
    : list RecordBatchFieldState :=
  if j <? nfields then
    match fs, bs with
    | f :: fs', b :: bs' =>
        __applyArrowFieldStatsBinary f b rb_index
        :: apply_fields nfields (j + 1) fs' bs' rb_index
    | _, _ => fs
    end
  else fs.

(** [applyArrowStatsBinary]. *)
Definition applyArrowStatsBinary (rb_state : RecordBatchState)
    (arrow_bstats : arrowStatsBinary) : RecordBatchState :=
  mkRecordBatchState (rb_index rb_state) (rb_offset rb_state) (rb_length rb_state)
    (rb_nitems rb_state) (nfields rb_state)
    (apply_fields (nfields rb_state) 0 (fields rb_state) (sb_fields arrow_bstats)
       (rb_index rb_state)).

(** The loop of [__buildArrowFileStateByFile] over the record batches:
    [blocks] and [rbatches] are the two arrays from index [i] on. *)
Fixpoint build_batches (schema_fields : list ArrowField)
    (arrow_bstats : option arrowStatsBinary) (i : Z) (blocks : list ArrowBlock)
    (rbatches : list ArrowRecordBatch) : result (list RecordBatchState) :=
  match blocks with
  | [] => Ok []
  | block :: blocks' =>
      match rbatches with
      | [] => Error FileCorrupt "record batch message is missing"
      | rbatch :: rbatches' =>
          rb_state ← __buildRecordBatchStateOne schema_fields i block rbatch;
          let rb_state := match arrow_bstats with
                          | Some bstats => applyArrowStatsBinary rb_state bstats
                          | None => rb_state
                          end in
          rest ← build_batches schema_fields arrow_bstats (i + 1) blocks' rbatches';
          Ok (rb_state :: rest)
      end
  end.

(** Notes written with [elog(DEBUG2, ...)]. *)
Definition debug_notes : Type := list string.

(** [__buildArrowFileStateByFile]: [None] is the [NULL] it returns. *)
Definition __buildArrowFileStateByFile (filename : string)
    : result (option ArrowFileState * debug_notes) :=
  match open_arrow_file files filename with
  | OpenFailed errno_is_ENOENT =>
      if negb errno_is_ENOENT then Error SystemError "failed to open"
      else Ok (None, ["failed to open"%string])
  | OpenRead r =>
      af_info ← r;
      match af_dictionaries af_info with
      | Some _ => Error UnsupportedFeature "DictionaryBatch is not supported"
      | None =>
          match af_recordBatches af_info with
          | None => Ok (None, ["arrow file contains no RecordBatch"%string])
          | Some rbatches =>
              let arrow_bstats :=
                buildArrowStatsBinary __trim (footer_schema_fields af_info)
                  (Z.of_nat (length (footer_recordBatches af_info))) in
              rbs ← build_batches (footer_schema_fields af_info) arrow_bstats 0
                      (footer_recordBatches af_info) rbatches;
              Ok (Some (mkArrowFileState filename (af_stat_buf af_info) rbs), [])
          end
      end
  end.

(** *** Into the cache *)

(** The [for (j = 0; j < fstate->num_children; j++)] loop of
    [__buildArrowMetadataFieldCache]; [build] is the recursive call and
    [cs] holds [fstate->children] from index [j] on. *)
Fixpoint cache_children
    (build : arrowMetadataCacheHead -> RecordBatchFieldState ->
             run (option slot_id * arrowMetadataCacheHead))
    (fuel : nat) (fcache : slot_id) (num_children : Z)
    (cs : list RecordBatchFieldState) (j : Z) (c : arrowMetadataCacheHead)
    {struct cs} : run (option slot_id * arrowMetadataCacheHead) :=
  if j <? num_children then
    match cs with
    | [] => Fault "fstate->children[j]: past the end of the array"
    | child :: cs' =>
        '(r, c) ← build c child;
        match r with
        | None =>
            c ← __releaseMetadataFieldCache fuel c fcache;
            Done (None, c)
        | Some __fcache =>
            let e := fcache_at c fcache in
            let c := write_fcache fcache
                       (set_fc_children (dlist_push_tail (fc_children e) __fcache) e) c in
            cache_children build fuel fcache num_children cs' (j + 1) c
        end
    end
  else Done (Some fcache, c).

(** [__buildArrowMetadataFieldCache]: [None] is the [NULL] it returns. *)
Fixpoint __buildArrowMetadataFieldCache (fuel : nat) (c : arrowMetadataCacheHead)
    (fstate : RecordBatchFieldState) {struct fstate}
    : run (option slot_id * arrowMetadataCacheHead) :=
  match fstate with
  | mkRecordBatchFieldState typid typmod o n nc no nl vo vl eo el smin smax snull nch cs =>
      '(r, c) ← __allocMetadataFieldCache fuel c;
      match r with
      | None => Done (None, c)
      | Some fcache =>
          let e := fcache_at c fcache in
          let c := write_fcache fcache
                     (mkFieldCache (fc_owner e) typid typmod o n nc no nl vo vl eo el
                        smin smax snull nch [] (fc_magic e)) c in
          cache_children (fun c child => __buildArrowMetadataFieldCache fuel c child)
            fuel fcache nch cs 0 c
      end
  end.

(** The loop of [__buildArrowMetadataCacheNoLock] over the fields of one
    record batch; [false] stands for the early [return]. *)
Fixpoint cache_fields (fuel : nat) (c : arrowMetadataCacheHead)
    (mcache_head : option slot_id) (mcache : slot_id) (nfields : Z)
    (fs : list RecordBatchFieldState) (j : Z)
    : run (bool * arrowMetadataCacheHead) :=
  if j <? nfields then
    match fs with
    | [] => Fault "rb_state->fields[j]: past the end of the array"
    | fstate :: fs' =>
        '(r, c) ← __buildArrowMetadataFieldCache fuel c fstate;
        match r with
        | None =>
            c ← __releaseMetadataCache fuel c mcache_head;
            Done (false, c)
        | Some fcache =>
            let e := mcache_at c mcache in
            let c := write_mcache mcache
                       (set_mc_fields (dlist_push_tail (mc_fields e) fcache) e) c in
            cache_fields fuel c mcache_head mcache nfields fs' (j + 1)
        end
    end
  else Done (true, c).

(** The [foreach (lc, af_state->rb_list)] loop; the result is
    [mcache_head] when the loop runs to its end, [None] on the early
    [return]. *)
Fixpoint cache_batches (fuel : nat) (c : arrowMetadataCacheHead)
    (file_stat : stat) (rbs : list RecordBatchState)
    (mcache_head mcache_prev : option slot_id)
    : run (option (option slot_id) * arrowMetadataCacheHead) :=
  match rbs with
  | [] => Done (Some mcache_head, c)
  | rb_state :: rbs' =>
      '(r, c) ← __allocMetadataCache fuel c;
      match r with
      | None =>
          c ← __releaseMetadataCache fuel c mcache_head;
          Done (None, c)
      | Some mcache =>
          let e := mcache_at c mcache in
          let c := write_mcache mcache
                     (mkCache (mc_owner e) (mc_lru_tv e) (mc_next e) file_stat
                        (rb_index rb_state) (rb_offset rb_state) (rb_length rb_state)
                        (rb_nitems rb_state) (nfields rb_state) [] (mc_magic e)) c in
          let '(mcache_head, c) :=
            match mcache_head, mcache_prev with
            | None, _ => (Some mcache, c)
            | Some _, Some prev =>
                (mcache_head,
                 write_mcache prev (set_mc_next (Some mcache) (mcache_at c prev)) c)
            | Some _, None => (mcache_head, c)
            end in
          '(ok, c) ← cache_fields fuel c mcache_head mcache (nfields rb_state)
                       (fields rb_state) 0;
          if ok : bool then cache_batches fuel c file_stat rbs' mcache_head (Some mcache)
          else Done (None, c)
      end
  end.

(** [__buildArrowMetadataCacheNoLock]. *)
Definition __buildArrowMetadataCacheNoLock (fuel : nat) (c : arrowMetadataCacheHead)
    (af_state : ArrowFileState) : run arrowMetadataCacheHead :=
  '(r, c) ← cache_batches fuel c (stat_buf af_state) (rb_list af_state) None None;
  match r with
  | None => Done c
  | Some None => Fault "&mcache_head->chain: mcache_head is a null pointer"
  | Some (Some mcache_head) =>
      let hindex := arrowMetadataHashIndex (stat_buf af_state) in
      let c := set_hash_slots
                 (<[hindex := dlist_push_tail (hash_slot_at c hindex) mcache_head]>
                    (hash_slots c)) c in
      let tv := gettimeofday (ticks c) in
      let c := set_ticks (S (ticks c)) c in
      let c := write_mcache mcache_head
                 (set_mc_lru_tv tv (mcache_at c mcache_head)) c in
      Done (set_lru_list (dlist_push_head (lru_list c) mcache_head) c)
  end.

(** The compatibility checks at the end of [BuildArrowFileState]. *)
Fixpoint columns_match (atts : list Z) (fs : list RecordBatchFieldState) : bool :=
  match atts, fs with
  | [], _ => true
  | a :: atts', f :: fs' => (a =? atttypid f) && columns_match atts' fs'
  | _ :: _, [] => false
  end.

Definition check_compatible (frel : Relation) (af_state : ArrowFileState)
    : run unit :=
  match rb_list af_state with
  | [] => Fault "linitial(af_state->rb_list): the list is empty"
  | rb_state :: _ =>
      if negb (Z.of_nat (length (tupdesc_atttypid frel)) =? nfields rb_state) then
        Raise SchemaMismatch "arrow_fdw: foreign table is not compatible"
      else if negb (columns_match (tupdesc_atttypid frel) (fields rb_state)) then
        Raise SchemaMismatch "arrow_fdw: foreign table column is not compatible"
      else Done ()
  end.

(** [BuildArrowFileState]: [None] is the [NULL] it returns for a file
    that is skipped. *)
Definition BuildArrowFileState (fuel : nat) (c : arrowMetadataCacheHead)
    (frel : Relation) (filename : string)
    : run (option ArrowFileState * debug_notes * arrowMetadataCacheHead) :=
  match stat_file files filename with
  | None => Raise SystemError "failed on stat"
  | Some file_stat =>
      match lookupArrowMetadataCache fuel c file_stat false with
      | LookupRaise kind msg => Raise kind msg
      | LookupFault why => Fault why
      | LookupOutOfFuel => OutOfFuel
      | LookupFound mcache c =>
          af_state ← __buildArrowFileStateByCache fuel c filename mcache;
          _ ← check_compatible frel af_state;
          Done (Some af_state, [], c)
      | LookupNotFound c =>
          r ← run_of_result (__buildArrowFileStateByFile filename);
          match r with
          | (None, notes) => Done (None, notes, c)
          | (Some af_state, notes) =>
              c ← match lookupArrowMetadataCache fuel c (stat_buf af_state) true with
                  | LookupFound _ c => Done c
                  | LookupNotFound c => __buildArrowMetadataCacheNoLock fuel c af_state
                  | LookupRaise kind msg => Raise kind msg
                  | LookupFault why => Fault why
                  | LookupOutOfFuel => OutOfFuel
                  end;
              _ ← check_compatible frel af_state;
              Done (Some af_state, notes, c)
          end
      end
  end.

End MetadataCache.

(** [ArrowIterateForeignScan]: the body is [return NULL], the end of the
    scan. *)
Definition ArrowIterateForeignScan : option unit := None.

(* ================================================================== *)
(** ** Metadata cache: start-up and concrete inputs *)
(* ================================================================== *)

(** [pgstrom_startup_arrow_fdw]: every list is empty, every block of the
    arena is on [free_blocks]. *)
Definition pgstrom_startup_arrow_fdw (arrow_metadata_cache_size_kb : Z)
    : arrowMetadataCacheHead :=
  let sz := (arrow_metadata_cache_size_kb * 1024 + ARROW_METADATA_BLOCKSZ - 1)
            / ARROW_METADATA_BLOCKSZ * ARROW_METADATA_BLOCKSZ in
  let n := sz / ARROW_METADATA_BLOCKSZ in
  mkHead 0 [] (seqZ 0 n) [] [] ∅ ∅ ∅ ∅.

(** Modelled from the spec: "cached mtime >= current mtime" on
    [struct timespec], seconds first. *)
Definition spec_mtime_ge (cached current : timespec) : Prop :=
  tv_sec current < tv_sec cached
  \/ (tv_sec current = tv_sec cached /\ tv_nsec current <= tv_nsec cached).

(** Does the cache entry belong to the file ([st_dev] and [st_ino])? *)
Definition same_file (file_stat : stat) (e : arrowMetadataCache) : bool :=
  (st_dev file_stat =? st_dev (mc_stat_buf e))
  && (st_ino file_stat =? st_ino (mc_stat_buf e)).

(** The [next] chain that starts at an entry ends after [n] entries. *)
Fixpoint next_chain_ends (c : arrowMetadataCacheHead) (n : nat)
    (mcache : option slot_id) : Prop :=
  match mcache with
  | None => True
  | Some m =>
      match n with
      | O => False
      | S n' => next_chain_ends c n' (mc_next (mcache_at c m))
      end
  end.

(** The number of links held by the [children] and [fields] lists of
    the arena. *)
Definition links (c : arrowMetadataCacheHead) : nat :=
  map_fold (fun _ e acc => (length (fc_children e) + acc)%nat) 0%nat (fcaches c)
  + map_fold (fun _ e acc => (length (mc_fields e) + acc)%nat) 0%nat (mcaches c).

Definition demo_hash_bytes (dev ino : Z) : Z := (dev * 31 + ino) mod 2 ^ 32.

Definition demo_gettimeofday (n : nat) : timeval := mkTimeval (1000 + Z.of_nat n) 0.

(** A cache that holds one leader entry for the file (dev 8, inode 42),
    last modified at second 500. *)
Definition demo_stat (mtime_sec : Z) : stat := mkStat 8 42 4096 (mkTimespec mtime_sec 0).

Definition demo_entry : arrowMetadataCache :=
  mkCache 0 (mkTimeval 990 0) None (demo_stat 500) 0 512 4096 100 0 []
    ARROW_METADATA_CACHE_ACTIVE_MAGIC.

Definition demo_cache : arrowMetadataCacheHead :=
  mkHead 0 [(0, 0)] [1; 2; 3] [(0, 1); (0, 2)] []
    {[ (demo_hash_bytes 8 42 mod ARROW_METADATA_HASH_NSLOTS) := [(0, 0)] ]}
    {[ 0 := mkBlock 256 1 ]}
    {[ (0, 0) := demo_entry;
       (0, 1) := set_mc_magic ARROW_METADATA_CACHE_FREE_MAGIC mcache0;
       (0, 2) := set_mc_magic ARROW_METADATA_CACHE_FREE_MAGIC mcache0 ]}
    ∅.

(** A file state with one record batch and one [int4] column. *)
Definition demo_fstate : RecordBatchFieldState :=
  mkRecordBatchFieldState INT4OID (-1)
    (mkArrowTypeOptions ArrowType__Int 4 (opt_integer 32 true))
    100 0 0 0 64 400 0 0 1 99 false 0 [].

Definition demo_af_state : ArrowFileState :=
  mkArrowFileState "/arr/a.arrow" (demo_stat 500)
    [mkRecordBatchState 0 512 4096 100 1 [demo_fstate]].

(** A reader that knows one file, which parses and holds no record
    batch. *)
Definition demo_files : ArrowFiles := {|
  stat_file name :=
    if String.eqb name "/arr/empty.arrow" then Some (mkStat 8 77 512 (mkTimespec 600 0))
    else None;
  open_arrow_file name :=
    if String.eqb name "/arr/empty.arrow"
    then OpenRead (Ok (mkArrowFileInfo (mkStat 8 77 512 (mkTimespec 600 0))
                         [mkArrowField "c" (ArrowNodeTag__Int 32 true) [] []]
                         [] None None))
    else OpenFailed true
|}.

(* ================================================================== *)
(** ** Field states and caches the round trip is stated for *)
(* ================================================================== *)

(** In a field state of the record-batch state builder, [num_children]
    is the number of elements of [children], at every level. *)
Fixpoint fstate_wf (fstate : RecordBatchFieldState) : bool :=
  match fstate with
  | mkRecordBatchFieldState _ _ _ _ _ _ _ _ _ _ _ _ _ _ nch cs =>
      (nch =? Z.of_nat (length cs)) && forallb fstate_wf cs
  end.

(** The height of a field state. *)
Fixpoint fstate_depth (fstate : RecordBatchFieldState) : nat :=
  match fstate with
  | mkRecordBatchFieldState _ _ _ _ _ _ _ _ _ _ _ _ _ _ _ cs =>
      S (foldr (fun c acc => Nat.max (fstate_depth c) acc) 0%nat cs)
  end.

(** No entry of the cache is old enough to be reclaimed, whenever the
    clock is read. *)
Definition no_eviction (gettimeofday : nat -> timeval)
    (c : arrowMetadataCacheHead) : Prop :=
  match last (lru_list c) with
  | None => True
  | Some mcache =>
      forall n, (30000000 <? to_u64 (lru_elapsed (gettimeofday n)
                                        (mc_lru_tv (mcache_at c mcache)))) = false
  end.

(** The free lists of the slab allocator are in order with respect to
    the field entries [live] that are in use: no item is on
    [free_fcaches] twice, no item in use is on it, no block is on
    [free_blocks] twice, and no item of a free block is in use or on the
    free list. *)
Definition slab_wf (c : arrowMetadataCacheHead) (live : list slot_id) : Prop :=
  NoDup (free_fcaches c)
  /\ (forall y, y ∈ live -> y ∉ free_fcaches c)
  /\ NoDup (free_blocks c)
  /\ (forall b y, b ∈ free_blocks c -> fst y = b ->
        (y ∉ live) /\ (y ∉ free_fcaches c)).

(** A cache in which building a field entry evicts nothing. *)
Definition cache_quiet (gettimeofday : nat -> timeval)
    (c : arrowMetadataCacheHead) : Prop :=
  no_eviction gettimeofday c /\ slab_wf c [].

(** A list field with one [int4] element, as the raw builder binds it. *)
Definition list_field : ArrowField :=
  mkArrowField "xs" ArrowNodeTag__List []
    [mkArrowField "item" (ArrowNodeTag__Int 32 true) [] []].

Definition list_batch : setupRecordBatchContext :=
  mkContext
    [mkArrowBuffer 0 0; mkArrowBuffer 0 16; mkArrowBuffer 16 8; mkArrowBuffer 24 40]
    [mkArrowFieldNode 3 0; mkArrowFieldNode 10 2].

(** The entry [x] of the cache [c] and the entries below it, all of them
    among [T], hold the field state: whatever else changes in the
    arena, the copy out of the cache gives [fstate] back (with fuel for
    the height of [fstate]). *)
Definition reads_back (c : arrowMetadataCacheHead) (x : slot_id)
    (fstate : RecordBatchFieldState) (T : list slot_id) : Prop :=
  forall c',
    (forall y, y ∈ T -> fcache_at c' y = fcache_at c y) ->
    forall fuel, (fstate_depth fstate <= fuel)%nat ->
      __buildRecordBatchFieldStateByCache fuel c' x = Done fstate.

(** What building the cache entry of [fstate] achieves, from any cache
    whose entries in use are [A]: the new entries [T] are disjoint from
    [A], the entries of [A] stay as they are, and the entry returned
    reads back as [fstate]. *)
Definition field_cached (sizeof_arrowMetadataFieldCache : Z)
    (gettimeofday : nat -> timeval) (fstate : RecordBatchFieldState) : Prop :=
  forall fuel c A x c',
    no_eviction gettimeofday c -> slab_wf c A -> fstate_wf fstate = true ->
    __buildArrowMetadataFieldCache sizeof_arrowMetadataFieldCache gettimeofday
      fuel c fstate = Done (Some x, c') ->
    exists T,
      x ∈ T /\ (forall y, y ∈ T -> y ∉ A)
      /\ no_eviction gettimeofday c' /\ slab_wf c' (T ++ A)
      /\ (forall y, y ∈ A -> fcache_at c' y = fcache_at c y)
      /\ reads_back c' x fstate T.

(** A reader that knows one file, with one record batch of the column
    [xs]. *)
Definition list_files : ArrowFiles := {|
  stat_file name :=
    if String.eqb name "/arr/xs.arrow" then Some (mkStat 8 78 1024 (mkTimespec 700 0))
    else None;
  open_arrow_file name :=
    if String.eqb name "/arr/xs.arrow"
    then OpenRead (Ok (mkArrowFileInfo (mkStat 8 78 1024 (mkTimespec 700 0))
                         [list_field]
                         [mkArrowBlock 8 256 64]
                         None
                         (Some [mkArrowRecordBatch 3 (fnodes list_batch)
                                  (buffers list_batch) false])))
    else OpenFailed true
|}.

(** The file state of that file: the column [xs] and its element. *)
Definition list_item_fstate : RecordBatchFieldState :=
  mkRecordBatchFieldState INT4OID (-1)
    (mkArrowTypeOptions ArrowType__Int 4 (opt_integer 32 true))
    10 2 16 8 24 40 0 0 0 0 true 0 [].

Definition list_fstate : RecordBatchFieldState :=
  mkRecordBatchFieldState 1007 (-1)
    (mkArrowTypeOptions ArrowType__List 4 opt_unset)
    3 0 0 0 0 16 0 0 0 0 true 1 [list_item_fstate].

Definition list_rb_state : RecordBatchState :=
  mkRecordBatchState 0 264 64 3 0 [list_fstate].

Definition list_af_state : ArrowFileState :=
  mkArrowFileState "/arr/xs.arrow" (mkStat 8 78 1024 (mkTimespec 700 0))
    [list_rb_state].

(* ================================================================== *)
(** * Frames: what a routine leaves alone *)
(* ================================================================== *)

(** The members of the field state that the buffer assignment leaves
    alone. *)
Definition same_binding (f f' : RecordBatchFieldState) : Prop :=
  atttypid f' = atttypid f /\ atttypmod f' = atttypmod f
  /\ attopts f' = attopts f /\ nitems f' = nitems f
  /\ null_count f' = null_count f /\ children f' = children f
  /\ num_children f' = num_children f.

(** What the release of field entries leaves alone: the LRU list, the
    hash slots and the batch entries. *)
Definition field_release_frame (c c' : arrowMetadataCacheHead) : Prop :=
  lru_list c' = lru_list c /\ hash_slots c' = hash_slots c
  /\ mcaches c' = mcaches c /\ ticks c' = ticks c.

(** What the release of batch entries leaves alone: the LRU list and
    the hash slots; the only magic it writes is [FREE]; [next] and
    [stat_buf] stay. *)
Definition batch_release_frame (c c' : arrowMetadataCacheHead) : Prop :=
  lru_list c' = lru_list c /\ hash_slots c' = hash_slots c /\ ticks c' = ticks c
  /\ forall m,
       (mc_magic (mcache_at c' m) = mc_magic (mcache_at c m)
        \/ mc_magic (mcache_at c' m) = ARROW_METADATA_CACHE_FREE_MAGIC)
       /\ mc_next (mcache_at c' m) = mc_next (mcache_at c m)
       /\ mc_stat_buf (mcache_at c' m) = mc_stat_buf (mcache_at c m).

(* ================================================================== *)
(** * Layout of a record batch *)
(* ================================================================== *)

(** The Arrow types whose sub-fields [__buildRecordBatchFieldState]
    visits. *)
Definition has_subfields (t : ArrowType) : bool :=
  match t with
  | ArrowNodeTag__List | ArrowNodeTag__LargeList | ArrowNodeTag__Struct => true
  | _ => false
  end.

(** The buffers of the field itself in the Arrow columnar layout:
    nullmap and values; nullmap, offsets and data for the
    variable-length types; the nullmap alone for a [Struct]. *)
Definition own_buffers (t : ArrowType) : nat :=
  match t with
  | ArrowNodeTag__Utf8 | ArrowNodeTag__LargeUtf8
  | ArrowNodeTag__Binary | ArrowNodeTag__LargeBinary => 3
  | ArrowNodeTag__Struct => 1
  | _ => 2
  end.

(** The field nodes and the buffers of a field and the sub-fields below
    it. *)
Fixpoint layout_nodes (field : ArrowField) : nat :=
  match field with
  | mkArrowField _ t _ fchildren =>
      S (if has_subfields t
         then foldr (fun f acc => (layout_nodes f + acc)%nat) 0%nat fchildren
         else 0%nat)
  end.

Fixpoint layout_buffers (field : ArrowField) : nat :=
  match field with
  | mkArrowField _ t _ fchildren =>
      (own_buffers t
       + (if has_subfields t
          then foldr (fun f acc => (layout_buffers f + acc)%nat) 0%nat fchildren
          else 0%nat))%nat
  end.

(** The three offsets of a field state and of every field state below
    it are multiples of the maximum alignment. *)
Fixpoint fstate_aligned (fstate : RecordBatchFieldState) : bool :=
  match fstate with
  | mkRecordBatchFieldState _ _ _ _ _ no _ vo _ eo _ _ _ _ _ cs =>
      (no mod MAXIMUM_ALIGNOF =? 0) && (vo mod MAXIMUM_ALIGNOF =? 0)
      && (eo mod MAXIMUM_ALIGNOF =? 0) && forallb fstate_aligned cs
  end.

(** No statistics at any level of the field state: the flag is up and
    the two slots hold zeroes. *)
Fixpoint fstate_no_stats (fstate : RecordBatchFieldState) : bool :=
  match fstate with
  | mkRecordBatchFieldState _ _ _ _ _ _ _ _ _ _ _ smin smax snull _ cs =>
      snull && (smin =? 0) && (smax =? 0) && forallb fstate_no_stats cs
  end.

(** What a successful run of [__buildRecordBatchFieldState] on [field]
    at [depth] has done, from the context [con] to the context [con']
    and the field state [fstate]: it took the field nodes and the
    buffers of the layout of [field] from the front of the two cursors,
    the first node giving [nitems] and [null_count]; the offsets are
    aligned; no statistics are set; and below the top level the field
    state has no children. *)
Definition bound_from (con : setupRecordBatchContext) (field : ArrowField)
    (depth : Z) (fstate : RecordBatchFieldState)
    (con' : setupRecordBatchContext) : Prop :=
  (exists n ns bs,
      fnodes con = n :: ns ++ fnodes con'
      /\ buffers con = bs ++ buffers con'
      /\ S (length ns) = layout_nodes field
      /\ length bs = layout_buffers field
      /\ nitems fstate = fnode_length n
      /\ null_count fstate = fnode_null_count n)
  /\ fstate_aligned fstate = true
  /\ fstate_no_stats fstate = true
  /\ (0 < depth -> children fstate = [] /\ num_children fstate = 0).

(** Does the field, or a sub-field at any level, carry both a
    [min_values] and a [max_values] entry in its custom metadata? *)
Fixpoint carries_stats_keys (field : ArrowField) : bool :=
  match field with
  | mkArrowField _ _ metadata fchildren =>
      match find_stats_tokens metadata None None with
      | (Some _, Some _) => true
      | _ => false
      end
      || existsb carries_stats_keys fchildren
  end.

(* ================================================================== *)
(** * File-set resolver: the options it accepts *)
(* ================================================================== *)

(** The option names [arrowFdwExtractFilesList] knows, [files] apart. *)
Definition option_known (d : DefElem) : bool :=
  String.eqb (defname d) "file" || String.eqb (defname d) "dir"
  || String.eqb (defname d) "suffix" || String.eqb (defname d) "parallel_workers".

(** The values of the [parallel_workers] options, in source order. *)
Definition parallel_values (options_list : list DefElem) : list string :=
  map arg (List.filter (fun d => String.eqb (defname d) "parallel_workers") options_list).

(** The options the resolver takes to its end: every name is known,
    every [file] path is readable, every [parallel_workers] value but
    the last reads as a negative number, a [suffix] comes with a [dir],
    and the last [dir] can be opened. *)
Definition options_accepted (atoi : string -> Z) (fs : FileSystem)
    (options_list : list DefElem) : bool :=
  forallb option_known options_list
  && forallb (access_R_OK fs) (spec_literal_files options_list)
  && forallb (fun v => atoi v <? 0) (removelast (parallel_values options_list))
  && match last_option "dir" options_list with
     | Some dir => match ReadDir fs dir with Some _ => true | None => false end
     | None => negb (has_option "suffix" options_list)
     end.

(** [*p_parallel_nworkers] after the options loop. *)
Definition resolved_workers (atoi : string -> Z) (options_list : list DefElem) : Z :=
  match last (parallel_values options_list) with
  | Some v => atoi v
  | None => -1
  end.

(* ================================================================== *)
(** * What the type binder decides for a field *)
(* ================================================================== *)

(** The members of a field state that the type binder decides: the host
    type, its modifier, the type options and the number of sub-fields,
    at every level.  The row counts, the buffers and the statistics are
    left out. *)
Inductive field_binding :=
  mkFieldBinding (typid typmod : Z) (opts : ArrowTypeOptions) (nch : Z)
    (subs : list field_binding).

Fixpoint fstate_binding (fstate : RecordBatchFieldState) : field_binding :=
  match fstate with
  | mkRecordBatchFieldState typid typmod o _ _ _ _ _ _ _ _ _ _ _ nch cs =>
      mkFieldBinding typid typmod o nch (map fstate_binding cs)
  end.

(* ================================================================== *)
(** * Metadata cache: the entries of one file *)
(* ================================================================== *)

(** The [next] chain that starts at [mcache] runs through the entries
    [ms], in that order, and ends there. *)
Fixpoint next_chain (c : arrowMetadataCacheHead) (mcache : option slot_id)
    (ms : list slot_id) : Prop :=
  match ms with
  | [] => mcache = None
  | m :: ms' => mcache = Some m /\ next_chain c (mc_next (mcache_at c m)) ms'
  end.

(** The record-batch state that carries the numbers of the entry [m]
    and the field states [fs]. *)
Definition batch_of_entry (c : arrowMetadataCacheHead) (m : slot_id)
    (fs : list RecordBatchFieldState) : RecordBatchState :=
  let e := mcache_at c m in
  mkRecordBatchState (mc_rb_index e) (mc_rb_offset e) (mc_rb_length e)
    (mc_rb_nitems e) (mc_nfields e) fs.

(** The field entry [x] of the cache reads as the field state [fstate],
    given fuel for its height. *)
Definition field_reads (c : arrowMetadataCacheHead) (x : slot_id)
    (fstate : RecordBatchFieldState) : Prop :=
  forall fuel, (fstate_depth fstate <= fuel)%nat ->
    __buildRecordBatchFieldStateByCache fuel c x = Done fstate.

(** The entry [m] holds the field states [fs]: [nfields] is their
    number and its field entries read as them, one by one. *)
Definition entry_holds (c : arrowMetadataCacheHead) (m : slot_id)
    (fs : list RecordBatchFieldState) : Prop :=
  mc_nfields (mcache_at c m) = Z.of_nat (length fs)
  /\ Forall2 (field_reads c) (mc_fields (mcache_at c m)) fs.

(** A cache that holds two chained entries of the file (dev 8, inode
    42), each with one [int4] column. *)
Definition chain_fcache (nitems : Z) : arrowMetadataFieldCache :=
  mkFieldCache 1 INT4OID (-1)
    (mkArrowTypeOptions ArrowType__Int 4 (opt_integer 32 true))
    nitems 0 0 0 64 (4 * nitems) 0 0 0 0 true 0 []
    ARROW_METADATA_CACHE_ACTIVE_MAGIC.

Definition chain_fstate (nitems : Z) : RecordBatchFieldState :=
  mkRecordBatchFieldState INT4OID (-1)
    (mkArrowTypeOptions ArrowType__Int 4 (opt_integer 32 true))
    nitems 0 0 0 64 (4 * nitems) 0 0 0 0 true 0 [].

Definition chain_cache : arrowMetadataCacheHead :=
  mkHead 0 [(0, 0)] [2; 3] [] []
    {[ (demo_hash_bytes 8 42 mod ARROW_METADATA_HASH_NSLOTS) := [(0, 0)] ]}
    {[ 0 := mkBlock 256 2; 1 := mkBlock 200 2 ]}
    {[ (0, 0) := mkCache 0 (mkTimeval 990 0) (Some (0, 1)) (demo_stat 500)
                   0 512 4096 100 1 [(1, 0)] ARROW_METADATA_CACHE_ACTIVE_MAGIC;
       (0, 1) := mkCache 0 (mkTimeval 0 0) None (demo_stat 500)
                   1 4608 2048 50 1 [(1, 1)] ARROW_METADATA_CACHE_ACTIVE_MAGIC ]}
    {[ (1, 0) := chain_fcache 100; (1, 1) := chain_fcache 50 ]}.

(** A reader for which the file of those entries has the cached
    modification time; it cannot be opened. *)
Definition chain_files : ArrowFiles := {|
  stat_file name :=
    if String.eqb name "/arr/a.arrow" then Some (demo_stat 500) else None;
  open_arrow_file name := OpenFailed true
|}.

(** The file state those two entries read as. *)
Definition chain_af_state : ArrowFileState :=
  mkArrowFileState "/arr/a.arrow" (demo_stat 500)
    [mkRecordBatchState 0 512 4096 100 1 [chain_fstate 100];
     mkRecordBatchState 1 4608 2048 50 1 [chain_fstate 50]].

(** A reader that knows one file with two record batches of one [int4]
    column: ten rows without nulls, then five rows with one null. *)
Definition pair_files : ArrowFiles := {|
  stat_file name :=
    if String.eqb name "/arr/pair.arrow" then Some (mkStat 8 79 2048 (mkTimespec 800 0))
    else None;
  open_arrow_file name :=
    if String.eqb name "/arr/pair.arrow"
    then OpenRead (Ok (mkArrowFileInfo (mkStat 8 79 2048 (mkTimespec 800 0))
                         [mkArrowField "c" (ArrowNodeTag__Int 32 true) [] []]
                         [mkArrowBlock 8 256 64; mkArrowBlock 328 256 32]
                         None
                         (Some [mkArrowRecordBatch 10 [mkArrowFieldNode 10 0]
                                  [mkArrowBuffer 0 0; mkArrowBuffer 0 40] false;
                                mkArrowRecordBatch 5 [mkArrowFieldNode 5 1]
                                  [mkArrowBuffer 0 8; mkArrowBuffer 8 24] false])))
    else OpenFailed true
|}.

(** The file state of that file, and a foreign table with the one
    [int4] column. *)
Definition pair_rb0 : RecordBatchState :=
  mkRecordBatchState 0 264 64 10 0
    [mkRecordBatchFieldState INT4OID (-1)
       (mkArrowTypeOptions ArrowType__Int 4 (opt_integer 32 true))
       10 0 0 0 0 40 0 0 0 0 true 0 []].

Definition pair_rb1 : RecordBatchState :=
  mkRecordBatchState 1 584 32 5 0
    [mkRecordBatchFieldState INT4OID (-1)
       (mkArrowTypeOptions ArrowType__Int 4 (opt_integer 32 true))
       5 1 0 8 8 24 0 0 0 0 true 0 []].

Definition pair_af_state : ArrowFileState :=
  mkArrowFileState "/arr/pair.arrow" (mkStat 8 79 2048 (mkTimespec 800 0))
    [pair_rb0; pair_rb1].

Definition pair_rel : Relation := mkRelation "pair" [INT4OID].

(** The same file under another name, its column carrying the two
    statistics lists: the second [min_values] token is not a number. *)
Definition stats_af_info : ArrowFileInfo :=
  mkArrowFileInfo (mkStat 8 80 2048 (mkTimespec 800 0))
    [stats_field "1,x" "2,3"]
    [mkArrowBlock 8 256 64; mkArrowBlock 328 256 32]
    None
    (Some [mkArrowRecordBatch 10 [mkArrowFieldNode 10 0]
             [mkArrowBuffer 0 0; mkArrowBuffer 0 40] false;
           mkArrowRecordBatch 5 [mkArrowFieldNode 5 1]
             [mkArrowBuffer 0 8; mkArrowBuffer 8 24] false]).

Definition stats_files : ArrowFiles := {|
  stat_file name :=
    if String.eqb name "/arr/stats.arrow" then Some (mkStat 8 80 2048 (mkTimespec 800 0))
    else None;
  open_arrow_file name :=
    if String.eqb name "/arr/stats.arrow" then OpenRead (Ok stats_af_info)
    else OpenFailed true
|}.

(* ================================================================== *)
(** * Planner: the length of a column in a record batch *)
(* ================================================================== *)

(** The [for (int j=0; j < fstate->num_children; j++)] loop of
    [__recordBatchFieldLength]; [len_of] is the recursive call, [cs]
    holds [fstate->children] from index [j] on, and [len] is a
    [size_t]. *)
Fixpoint children_length (len_of : RecordBatchFieldState -> run Z)
    (num_children : Z) (cs : list RecordBatchFieldState) (j : Z) (len : Z)
    {struct cs} : run Z :=
  if j <? num_children then
    match cs with
    | [] => Fault "fstate->children[j]: past the end of the array"
    | c :: cs' =>
        l ← len_of c;
        children_length len_of num_children cs' (j + 1) (to_u64 (len + l))
    end
  else Done len.

(** [__recordBatchFieldLength]. *)
Fixpoint __recordBatchFieldLength (fstate : RecordBatchFieldState) : run Z :=
  match fstate with
  | mkRecordBatchFieldState _ _ _ _ nc _ nl _ vl _ el _ _ _ nch cs =>
      let len := 0 in
      let len := if 0 <? nc then to_u64 (len + nl) else len in
      let len := to_u64 (len + to_u64 (vl + el)) in
      children_length (fun c => __recordBatchFieldLength c) nch cs 0 len
  end.

(** The lengths [__assignRecordBatchFieldStateBuffer] reads from a run
    of buffers, added up. *)
Definition buffers_length (bs : list ArrowBuffer) : Z :=
  foldr (fun b acc => to_u64 (buf_length b) + acc) 0 bs.

(** The bytes of a field state that a scan of the column reads: the
    values and the extra buffer, the null bitmap when the field has
    nulls, and the same of the sub-fields; added up as integers. *)
Fixpoint fstate_span (fstate : RecordBatchFieldState) : Z :=
  match fstate with
  | mkRecordBatchFieldState _ _ _ _ nc _ nl _ vl _ el _ _ _ _ cs =>
      (if 0 <? nc then nl else 0) + vl + el
      + foldr (fun c acc => fstate_span c + acc) 0 cs
  end.

(** No length of the field state is negative, at any level. *)
Fixpoint lengths_nonneg (fstate : RecordBatchFieldState) : bool :=
  match fstate with
  | mkRecordBatchFieldState _ _ _ _ _ _ nl _ vl _ el _ _ _ _ cs =>
      (0 <=? nl) && (0 <=? vl) && (0 <=? el) && forallb lengths_nonneg cs
  end.


(* ================================================================== *)
(** * Alignment arithmetic *)
(* ================================================================== *)

Lemma to_u64_range z : 0 <= to_u64 z < 2 ^ 64.
Proof. unfold to_u64. apply Z.mod_pos_bound. lia. Qed.

Lemma to_u64_small z : 0 <= z < 2 ^ 64 -> to_u64 z = z.
Proof. intros H. unfold to_u64. apply Z.mod_small. exact H. Qed.

Lemma land_align_mask a : 0 <= a < 2 ^ 64 -> Z.land a (2 ^ 64 - 8) = a - a mod 8.
Proof.
  intros Ha.
  assert (Hm : 2 ^ 64 - 8 = Z.lor (2 ^ 64 - 8) 0) by (rewrite Z.lor_0_r; reflexivity).
  assert (H1 : Z.land a (2 ^ 64 - 8) = Z.ldiff a 7).
  { apply Z.bits_inj'. intros n Hn.
    rewrite Z.land_spec, Z.ldiff_spec.
    destruct (Z.ltb_spec n 64) as [Hlt | Hge].
    - assert (Hb : Z.testbit (2 ^ 64 - 8) n = negb (Z.testbit 7 n)).
      { replace (2 ^ 64 - 8) with (Z.ldiff (Z.ones 64) 7) by reflexivity.
        rewrite Z.ldiff_spec, Z.ones_spec_low by lia. reflexivity. }
      rewrite Hb. reflexivity.
    - assert (Hz : Z.testbit a n = false).
      { destruct (Z.eq_dec a 0) as [-> | Hne]; [apply Z.bits_0 |].
        apply Z.bits_above_log2; [lia |].
        assert (Z.log2 a < 64) by (apply Z.log2_lt_pow2; lia). lia. }
      rewrite Hz. reflexivity. }
  rewrite H1.
  assert (H2 : Z.land a 7 = a mod 8).
  { change 7 with (Z.ones 3). rewrite Z.land_ones by lia. reflexivity. }
  pose proof (Z.ldiff_land a 7) as H3.
  pose proof (Z.lor_ldiff_and a 7) as H4.
  pose proof (Z.add_lor_land (Z.ldiff a 7) (Z.land a 7)) as H5.
  rewrite H4 in H5.
  assert (H6 : Z.land (Z.ldiff a 7) (Z.land a 7) = 0).
  { apply Z.bits_inj'. intros n Hn.
    rewrite !Z.land_spec, Z.ldiff_spec, Z.bits_0.
    destruct (Z.testbit a n), (Z.testbit 7 n); reflexivity. }
  rewrite H6 in H5. lia.
Qed.

Lemma MAXALIGN_eq len :
  MAXALIGN len =
  (to_u64 (to_u64 len + 7)) - (to_u64 (to_u64 len + 7)) mod 8.
Proof.
  unfold MAXALIGN, MAXIMUM_ALIGNOF.
  replace (to_u64 (Z.lnot (8 - 1))) with (2 ^ 64 - 8) by reflexivity.
  replace (8 - 1) with 7 by reflexivity.
  apply land_align_mask, to_u64_range.
Qed.

Lemma MAXALIGN_ge len :
  to_u64 len <= 2 ^ 64 - 8 -> to_u64 len <= MAXALIGN len < to_u64 len + 8.
Proof.
  intros H. rewrite MAXALIGN_eq.
  pose proof (to_u64_range len) as Hr.
  rewrite (to_u64_small (to_u64 len + 7)) by lia.
  pose proof (Z.mod_pos_bound (to_u64 len + 7) 8 ltac:(lia)). lia.
Qed.

(** An offset passes the alignment test of the source exactly when it is
    a multiple of eight. *)
Lemma is_maxaligned_spec offset :
  is_maxaligned offset = true <-> offset mod 8 = 0.
Proof.
  unfold is_maxaligned. rewrite Z.eqb_eq, MAXALIGN_eq.
  pose proof (to_u64_range offset) as Hr.
  assert (Hm : to_u64 offset mod 8 = offset mod 8).
  { unfold to_u64. apply Z.mod_mod_divide.
    exists (2 ^ 61). reflexivity. }
  rewrite <- Hm.
  set (u := to_u64 offset) in *.
  destruct (Z_le_gt_dec u (2 ^ 64 - 8)) as [Hle | Hgt].
  - rewrite (to_u64_small (u + 7)) by lia.
    pose proof (Z.mod_pos_bound u 8 ltac:(lia)) as Hb.
    pose proof (Z.div_mod u 8 ltac:(lia)) as Hd.
    assert (Hk : (u + 7) mod 8 = (u mod 8 + 7) mod 8)
      by (symmetry; apply Zplus_mod_idemp_l).
    assert (Hc : u mod 8 = 0 \/ u mod 8 = 1 \/ u mod 8 = 2 \/ u mod 8 = 3 \/
                 u mod 8 = 4 \/ u mod 8 = 5 \/ u mod 8 = 6 \/ u mod 8 = 7) by lia.
    destruct Hc as [E|[E|[E|[E|[E|[E|[E|E]]]]]]];
      rewrite E in Hk;
      match type of Hk with
      | _ = ?rhs => let v := eval vm_compute in rhs in change rhs with v in Hk
      end; rewrite E; lia.
  - assert (Hw : to_u64 (u + 7) = u + 7 - 2 ^ 64).
    { unfold to_u64. symmetry. apply (Z.mod_unique _ _ 1); lia. }
    rewrite Hw.
    pose proof (Z.mod_pos_bound (u + 7 - 2 ^ 64) 8 ltac:(lia)) as Hb.
    split; intros H; [lia |].
    exfalso.
    pose proof (Z.div_mod u 8 ltac:(lia)) as Hd. rewrite H in Hd. lia.
Qed.

(* ================================================================== *)
(** * Buffers of one field *)
(* ================================================================== *)

Lemma next_buffer_cons b rest fn :
  next_buffer (mkContext (b :: rest) fn) = Ok (b, mkContext rest fn).
Proof. reflexivity. Qed.

Ltac case_result H :=
  repeat match type of H with
         | context [match buffers ?c with _ => _ end] =>
             destruct (buffers c); simpl in H
         | context [if ?c then _ else _] => destruct c; simpl in H
         end.

Lemma assign_nullmap_error_kind fstate con k msg :
  assign_nullmap fstate con = Error k msg -> k = RecordBatchCorrupt.
Proof.
  unfold assign_nullmap, next_buffer, mbind, result_bind. intros H.
  case_result H; congruence.
Qed.

Lemma assign_values_error_kind fstate con has_extra k msg :
  assign_values fstate con has_extra = Error k msg -> k = RecordBatchCorrupt.
Proof.
  unfold assign_values, next_buffer, mbind, result_bind. intros H.
  case_result H; congruence.
Qed.

Lemma assign_extra_error_kind fstate con has_extra k msg :
  assign_extra fstate con has_extra = Error k msg -> k = RecordBatchCorrupt.
Proof.
  unfold assign_extra, next_buffer, mbind, result_bind. intros H.
  case_result H; congruence.
Qed.

(** Every failure of the buffer assignment is a [RecordBatchCorrupt]. *)
Lemma assign_buffer_error_kind fstate con has_extra k msg :
  __assignRecordBatchFieldStateBuffer fstate con has_extra = Error k msg ->
  k = RecordBatchCorrupt.
Proof.
  unfold __assignRecordBatchFieldStateBuffer. intros H.
  destruct (assign_nullmap fstate con) as [[f1 c1] | k1 m1] eqn:E1; simpl in H.
  - destruct (assign_values f1 c1 has_extra) as [[f2 c2] | k2 m2] eqn:E2; simpl in H.
    + eapply assign_extra_error_kind; exact H.
    + inversion H; subst. eapply assign_values_error_kind; exact E2.
  - inversion H; subst. eapply assign_nullmap_error_kind; exact E1.
Qed.

Lemma same_binding_refl f : same_binding f f.
Proof. repeat split. Qed.

Lemma same_binding_trans f1 f2 f3 :
  same_binding f1 f2 -> same_binding f2 f3 -> same_binding f1 f3.
Proof.
  unfold same_binding. intros (?&?&?&?&?&?&?) (?&?&?&?&?&?&?).
  repeat split; congruence.
Qed.

Lemma assign_nullmap_keeps fstate con fstate' con' :
  assign_nullmap fstate con = Ok (fstate', con') -> same_binding fstate fstate'.
Proof.
  unfold assign_nullmap, next_buffer, mbind, result_bind. intros H.
  case_result H; try discriminate; inversion H; subst; repeat split.
Qed.

Lemma assign_values_keeps fstate con has_extra fstate' con' :
  assign_values fstate con has_extra = Ok (fstate', con') -> same_binding fstate fstate'.
Proof.
  unfold assign_values, next_buffer, mbind, result_bind. intros H.
  case_result H; try discriminate; inversion H; subst; repeat split.
Qed.

Lemma assign_extra_keeps fstate con has_extra fstate' con' :
  assign_extra fstate con has_extra = Ok (fstate', con') -> same_binding fstate fstate'.
Proof.
  unfold assign_extra, next_buffer, mbind, result_bind. intros H.
  case_result H; try discriminate; inversion H; subst; repeat split.
Qed.

Lemma assign_buffer_keeps fstate con has_extra fstate' con' :
  __assignRecordBatchFieldStateBuffer fstate con has_extra = Ok (fstate', con') ->
  same_binding fstate fstate'.
Proof.
  unfold __assignRecordBatchFieldStateBuffer. intros H.
  destruct (assign_nullmap fstate con) as [[f1 c1] | k1 m1] eqn:E1; simpl in H;
    [| discriminate].
  destruct (assign_values f1 c1 has_extra) as [[f2 c2] | k2 m2] eqn:E2; simpl in H;
    [| discriminate].
  eapply same_binding_trans; [eapply assign_nullmap_keeps; exact E1 |].
  eapply same_binding_trans; [eapply assign_values_keeps; exact E2 |].
  eapply assign_extra_keeps; exact H.
Qed.

Lemma bind_buffers_keeps fstate con o typid has_extra fstate' con' :
  bind_buffers fstate con o typid has_extra = Ok (fstate', con') ->
  atttypid fstate' = typid /\ attopts fstate' = o
  /\ atttypmod fstate' = atttypmod fstate.
Proof.
  unfold bind_buffers. intros H. apply assign_buffer_keeps in H.
  destruct H as (A & B & C & _). simpl in *. auto.
Qed.

(** C6: an Arrow [Date] field with unit [MilliSecond] is bound to the
    host [date] type with a per-element unit size of 4 bytes, not 8: a
    two-row batch whose values buffer holds only 8 bytes is accepted. *)
Theorem C6_date_millisecond_unit_size :
  exists fstate con',
    __buildRecordBatchFieldState demo_catalog
      (mkContext [mkArrowBuffer 0 0; mkArrowBuffer 64 8] [mkArrowFieldNode 2 0])
      date_ms_field 0 = Ok (fstate, con')
    /\ atttypid fstate = DATEOID
    /\ unitsz (attopts fstate) = 4
    /\ spec_unit_size (field_type date_ms_field) = Some 8.
Proof. eexists _, _. repeat split; vm_compute; reflexivity. Qed.

(** Whatever the batch, a bound [Date] field has unit size 4. *)
Lemma date_unit_size_always_4 cat con name unit md ch depth fstate con' :
  __buildRecordBatchFieldState cat con
    (mkArrowField name (ArrowNodeTag__Date unit) md ch) depth = Ok (fstate, con') ->
  unitsz (attopts fstate) = 4 /\ atttypid fstate = DATEOID.
Proof.
  simpl. unfold next_fnode.
  destruct (fnodes con) as [|fnode fns]; simpl; [discriminate |].
  destruct unit; [| | discriminate]; intros H;
    apply bind_buffers_keeps in H as (A & B & _); rewrite A, B; split; reflexivity.
Qed.

(** C4, as the claim words it, fails: a 4-byte values buffer for one
    row of a 4-byte unit satisfies the length and alignment rule of the
    claim, and the builder rejects it. *)
Lemma C4_counterexample :
  spec_values_buffer_rejected int32_fstate (mkArrowBuffer 64 4) false = false
  /\ __assignRecordBatchFieldStateBuffer int32_fstate
       (mkContext [mkArrowBuffer 0 0; mkArrowBuffer 64 4] []) false
     = Error RecordBatchCorrupt "values array is smaller than expected".
Proof. split; vm_compute; reflexivity. Qed.

(** C4 (amended): for a field with a values buffer whose nullmap buffer
    is in order (and whose extra buffer, if any, is aligned), the builder
    fails with [RecordBatchCorrupt] exactly when the length of the values
    buffer is below the least length rounded up to the maximum alignment,
    or its offset is not a multiple of the maximum alignment; otherwise
    the offset and the length of the buffer are recorded. *)
Theorem C4_values_buffer_check fstate b0 b1 rest fn has_extra :
  unitsz (attopts fstate) <> 0 ->
  (null_count fstate <= 0 \/
   (to_u64 (BITMAPLEN (nitems fstate)) <= to_u64 (buf_length b0)
    /\ buf_offset b0 mod 8 = 0)) ->
  (has_extra = true -> exists b2 rest', rest = b2 :: rest' /\ buf_offset b2 mod 8 = 0) ->
  let r := __assignRecordBatchFieldStateBuffer fstate
             (mkContext (b0 :: b1 :: rest) fn) has_extra in
  if (to_u64 (buf_length b1) <? MAXALIGN (least_length fstate has_extra))
     || negb (buf_offset b1 mod 8 =? 0)
  then error_kind r = Some RecordBatchCorrupt
  else exists fstate' con',
         r = Ok (fstate', con')
         /\ values_offset fstate' = buf_offset b1
         /\ values_length fstate' = to_u64 (buf_length b1).
Proof.
  intros Hu Hnull Hextra r. subst r.
  unfold __assignRecordBatchFieldStateBuffer.
  (* the nullmap block succeeds and leaves unit size and row count alone *)
  assert (Hn : exists f1, assign_nullmap fstate (mkContext (b0 :: b1 :: rest) fn)
                          = Ok (f1, mkContext (b1 :: rest) fn)
                          /\ attopts f1 = attopts fstate /\ nitems f1 = nitems fstate).
  { unfold assign_nullmap. rewrite next_buffer_cons. simpl.
    destruct (Z.ltb_spec 0 (null_count fstate)) as [Hpos | Hle].
    - destruct Hnull as [? | [Hlen Hal]]; [lia |].
      apply is_maxaligned_spec in Hal. rewrite Hal. simpl.
      destruct (Z.ltb_spec (to_u64 (buf_length b0)) (to_u64 (BITMAPLEN (nitems fstate))));
        [lia |]. eexists. split; [reflexivity | split; reflexivity].
    - eexists. split; [reflexivity | split; reflexivity]. }
  destruct Hn as (f1 & -> & Ho & Hi). simpl.
  assert (Hll : least_length (set_values (buf_offset b1) (to_u64 (buf_length b1)) f1) has_extra
                = least_length fstate has_extra).
  { unfold least_length. simpl. rewrite Ho, Hi. reflexivity. }
  unfold assign_values. rewrite Ho.
  destruct (Z.eqb_spec (unitsz (attopts fstate)) 0) as [? | _]; [contradiction |].
  rewrite next_buffer_cons. simpl. rewrite Hll.
  destruct (Z.ltb_spec (to_u64 (buf_length b1)) (MAXALIGN (least_length fstate has_extra)))
    as [Hshort | Hlong]; simpl; [reflexivity |].
  destruct (is_maxaligned (buf_offset b1)) eqn:Hal.
  - apply is_maxaligned_spec in Hal. rewrite Hal. simpl.
    unfold assign_extra. destruct has_extra.
    + destruct (Hextra eq_refl) as (b2 & rest' & -> & Hal2).
      rewrite next_buffer_cons. simpl.
      apply is_maxaligned_spec in Hal2. rewrite Hal2. simpl.
      eexists _, _. split; [reflexivity | split; reflexivity].
    + eexists _, _. split; [reflexivity | split; reflexivity].
  - assert (Hne : buf_offset b1 mod 8 <> 0).
    { intros E. apply is_maxaligned_spec in E. congruence. }
    apply Z.eqb_neq in Hne. rewrite Hne. simpl. reflexivity.
Qed.

Lemma C4_values_buffer_check_witness :
  exists fstate' con',
    __assignRecordBatchFieldStateBuffer int32_fstate
      (mkContext [mkArrowBuffer 0 0; mkArrowBuffer 64 8] []) false
    = Ok (fstate', con')
    /\ values_offset fstate' = 64 /\ values_length fstate' = to_u64 8.
Proof.
  apply (C4_values_buffer_check int32_fstate (mkArrowBuffer 0 0)
           (mkArrowBuffer 64 8) [] [] false).
  - vm_compute. discriminate.
  - left. vm_compute. discriminate.
  - discriminate.
Defined.

(* ================================================================== *)
(** * The [pg_type] hint *)
(* ================================================================== *)

Lemma composite_matches_set_atttypid cat fstate v oid :
  composite_matches cat (set_atttypid v fstate) oid = composite_matches cat fstate oid.
Proof. reflexivity. Qed.

(** C7, as the claim words it, fails: a 16-byte [FixedSizeBinary] field
    hinted as [uuid], an existing host type of the same length, is bound
    to [bytea]. *)
Lemma C7_counterexample :
  arrowFieldGetPGTypeHint demo_catalog uuid_field = UUIDOID
  /\ spec_pg_type_hint_compatible demo_typlen uuid_field UUIDOID
  /\ exists fstate con',
       __buildRecordBatchFieldState demo_catalog
         (mkContext [mkArrowBuffer 0 0; mkArrowBuffer 0 16] [mkArrowFieldNode 1 0])
         uuid_field 0 = Ok (fstate, con')
       /\ atttypid fstate = BYTEAOID
       /\ atttypid fstate <> UUIDOID.
Proof.
  split; [reflexivity |]. split; [reflexivity |].
  eexists _, _. split; [vm_compute; reflexivity |].
  split; [reflexivity | vm_compute; discriminate].
Qed.

(** C7 (amended): the binder honours the [pg_type] hint for two Arrow
    tags only.  A [FixedSizeBinary] field is bound to [macaddr] when the
    hint is [macaddr] and the width is 6, to [inet] when the hint is
    [inet] and the width is 4 or 16, and to [bytea] otherwise.  A
    [Struct] field is bound to the hinted type when that type passes the
    composite test (usage permitted, a row type with as many attributes
    as the field has children, attribute types equal to the children's
    host types).  For every other tag the binding does not depend on the
    custom metadata of the field at all. *)
Theorem C7_pg_type_hint_binding cat con field depth fstate con' :
  __buildRecordBatchFieldState cat con field depth = Ok (fstate, con') ->
  let hint := arrowFieldGetPGTypeHint cat field in
  match field_type field with
  | ArrowNodeTag__FixedSizeBinary bw =>
      atttypid fstate =
        if (hint =? MACADDROID) && (bw =? 6) then MACADDROID
        else if (hint =? INETOID) && ((bw =? 4) || (bw =? 16)) then INETOID
        else BYTEAOID
  | ArrowNodeTag__Struct =>
      OidIsValid hint = true -> composite_matches cat fstate hint = true ->
      atttypid fstate = hint
  | t =>
      forall metadata',
        __buildRecordBatchFieldState cat con
          (mkArrowField (field_name field) t metadata' (field_children field)) depth
        = Ok (fstate, con')
  end.
Proof.
  intros H hint. subst hint. unfold arrowFieldGetPGTypeHint.
  destruct field as [name t md ch]. simpl field_type. simpl field_name.
  simpl field_children. simpl custom_metadata.
  destruct t; try (intros md'; exact H).
  - (* FixedSizeBinary *)
    simpl in H. unfold next_fnode in H.
    destruct (fnodes con) as [|fnode fns]; simpl in H; [discriminate |].
    destruct ((byteWidth <=? 0) || (BLCKSZ <? byteWidth)); [discriminate |].
    destruct ((pg_type_hint_loop cat md =? MACADDROID) && (byteWidth =? 6));
      [| destruct ((pg_type_hint_loop cat md =? INETOID)
                   && ((byteWidth =? 4) || (byteWidth =? 16)))];
      apply bind_buffers_keeps in H as (A & _); exact A.
  - (* Struct *)
    intros Hvalid Hmatch.
    simpl in H. unfold next_fnode in H.
    destruct (fnodes con) as [|fnode fns]; simpl in H; [discriminate |].
    destruct (0 <? depth); [discriminate |].
    match type of H with
    | context [__assignRecordBatchFieldStateBuffer ?f ?c ?e] =>
        destruct (__assignRecordBatchFieldStateBuffer f c e) as [[f1 c1] | ? ?];
          simpl in H; [| discriminate]
    end.
    match type of H with
    | context [mbind _ (?bc ch c1)] =>
        destruct (bc ch c1) as [[cs c2] | ? ?]; simpl in H; [| discriminate]
    end.
    unfold __assignRecordBatchFieldStateComposite, composite_candidates in H.
    rewrite Hvalid in H.
    match type of H with
    | context [List.find ?p (?a ++ ?b)] => destruct (List.find p (a ++ b)) as [oid|] eqn:Hfind
    end; simpl in H; [| discriminate].
    inversion H; subst. clear H.
    rewrite composite_matches_set_atttypid in Hmatch.
    simpl in Hfind. rewrite Hmatch in Hfind. inversion Hfind. reflexivity.
Qed.

Lemma C7_pg_type_hint_binding_witness :
  atttypid
    (set_atttypid MACADDROID
       (set_attopts (mkArrowTypeOptions ArrowType__FixedSizeBinary 6
                       (opt_fixed_size_binary 6))
          (set_values 0 (to_u64 8) (init_fstate (mkArrowFieldNode 1 0)))))
  = MACADDROID.
Proof.
  exact (C7_pg_type_hint_binding demo_catalog
           (mkContext [mkArrowBuffer 0 0; mkArrowBuffer 0 8] [mkArrowFieldNode 1 0])
           macaddr_field 0 _ _ eq_refl).
Defined.


(* ================================================================== *)
(** * Statistics binder *)
(* ================================================================== *)

Example atoi128_plain : __atoi128 "1234" false = (1234, false).
Proof. reflexivity. Qed.

Example atoi128_minus : __atoi128 "-15" false = (-15, false).
Proof. reflexivity. Qed.

Example atoi128_junk : snd (__atoi128 "12x" false) = true.
Proof. reflexivity. Qed.

Example atoi128_minus_zero : snd (__atoi128 "-0" false) = true.
Proof. reflexivity. Qed.

Example strtok_tokens_skips_empty : strtok_tokens "," "1,,5, 10," = ["1"; "5"; " 10"]%string.
Proof. reflexivity. Qed.

Section StatsProofs.

Variable __trim : string -> string.

Lemma atoi128_value_flag tok b : fst (__atoi128 tok b) = fst (__atoi128 tok false).
Proof.
  unfold __atoi128.
  destruct tok as [|c rest]; simpl.
  - reflexivity.
  - destruct (Ascii.eqb_spec c "-"%char) as [-> | Hne].
    + destruct (atoi128_digits rest 0) as [ival tok']. reflexivity.
    + assert (E : forall (X : Type) (a b : X),
                 match c with "-"%char => a | _ => b end = b).
      { intros X a b'. destruct c as [[] [] [] [] [] [] [] []]; try reflexivity.
        exfalso. apply Hne. reflexivity. }
      rewrite !E. destruct (atoi128_digits (String c rest) 0). reflexivity.
Qed.

(** The loop consumes the two token lists in step and stops at
    [nrooms]; it ends with both lists exhausted and [index = nrooms]
    exactly when both lists hold [nrooms - index] tokens. *)
Lemma parse_stats_loop_exact u n toks1 : forall toks2 index isn mn mx r1 r2 idx isn' mn' mx',
  index <= n ->
  parse_stats_loop __trim u n toks1 toks2 index isn mn mx = (r1, r2, idx, isn', mn', mx') ->
  (r1 = [] /\ r2 = [] /\ idx = n) <->
  (Z.of_nat (length toks1) = n - index /\ Z.of_nat (length toks2) = n - index).
Proof.
  induction toks1 as [|tok1 toks1 IH]; intros toks2 index isn mn mx r1 r2 idx isn' mn' mx' Hle H.
  - simpl in H. inversion H; subst. simpl. split.
    + intros (_ & -> & <-). simpl. lia.
    + intros (E1 & E2). destruct r2; simpl in E2; [| lia]. repeat split. lia.
  - destruct toks2 as [|tok2 toks2].
    + simpl in H. inversion H; subst. simpl. split; [intros (? & _); discriminate | lia].
    + simpl in H. destruct (Z.ltb_spec index n) as [Hlt | Hge].
      * destruct (__atoi128 (__trim tok1) false) as [vmin b1].
        destruct (__atoi128 (__trim tok2) b1) as [vmax b2].
        destruct b2; apply IH in H; try lia; rewrite H; simpl length; lia.
      * inversion H; subst. simpl length. split; [intros (? & _); discriminate | lia].
Qed.

(** What the loop leaves in the arrays: slots below [index] are not
    touched again; the slot of a malformed pair is flagged and keeps its
    zeroes; the slot of a well-formed pair receives the two values. *)
Lemma parse_stats_loop_slots u n toks1 : forall toks2 index isn mn mx r1 r2 idx isn' mn' mx',
  0 <= index ->
  Z.of_nat (length toks1) = n - index -> Z.of_nat (length toks2) = n - index ->
  length isn = Z.to_nat n -> length mn = Z.to_nat n -> length mx = Z.to_nat n ->
  parse_stats_loop __trim u n toks1 toks2 index isn mn mx = (r1, r2, idx, isn', mn', mx') ->
  (length isn' = Z.to_nat n /\ length mn' = Z.to_nat n /\ length mx' = Z.to_nat n) /\
  (forall k, (k < Z.to_nat index)%nat ->
     isn' !! k = isn !! k /\ mn' !! k = mn !! k /\ mx' !! k = mx !! k) /\
  (forall k tok1 tok2, toks1 !! k = Some tok1 -> toks2 !! k = Some tok2 ->
     let i := (Z.to_nat index + k)%nat in
     if token_pair_ok __trim tok1 tok2
     then isn' !! i = isn !! i
          /\ mn' !! i = Some (token_value __trim tok1 mod 2 ^ (8 * u))
          /\ mx' !! i = Some (token_value __trim tok2 mod 2 ^ (8 * u))
     else isn' !! i = Some true /\ mn' !! i = mn !! i /\ mx' !! i = mx !! i).
Proof.
  induction toks1 as [|tok1 toks1 IH];
    intros toks2 index isn mn mx r1 r2 idx isn' mn' mx' H0 Hl1 Hl2 Hi Hm Hx H.
  - simpl in H. inversion H; subst. split; [auto |]. split; [auto |].
    intros k tok1 tok2 Hk. rewrite lookup_nil in Hk. discriminate.
  - destruct toks2 as [|tok2 toks2]; [simpl in Hl1, Hl2; lia |].
    simpl in H. simpl length in Hl1, Hl2.
    destruct (Z.ltb_spec index n) as [Hlt | Hge]; [| lia].
    assert (Hidx : (Z.to_nat index < Z.to_nat n)%nat) by lia.
    assert (Hnext : Z.to_nat (index + 1) = S (Z.to_nat index)) by lia.
    destruct (__atoi128 (__trim tok1) false) as [vmin b1] eqn:E1.
    destruct (__atoi128 (__trim tok2) b1) as [vmax b2] eqn:E2.
    assert (Hok : token_pair_ok __trim tok1 tok2 = negb b2).
    { unfold token_pair_ok. rewrite E1. simpl. rewrite E2. reflexivity. }
    assert (Hv1 : token_value __trim tok1 = vmin) by (unfold token_value; rewrite E1; reflexivity).
    assert (Hv2 : token_value __trim tok2 = vmax).
    { unfold token_value. rewrite <- (atoi128_value_flag _ b1), E2. reflexivity. }
    destruct b2.
    + apply IH in H; try lia; try (rewrite length_insert; assumption).
      destruct H as (Hlen & Hlow & Hslots). split; [exact Hlen |]. split.
      * intros k Hk. destruct (Hlow k ltac:(lia)) as (A & B & C).
        rewrite A, B, C. rewrite list_lookup_insert_ne by lia. auto.
      * intros [|k] t1 t2 Ht1 Ht2; simpl in Ht1, Ht2.
        -- inversion Ht1; inversion Ht2; subst t1 t2. simpl. rewrite Hok. simpl.
           rewrite Nat.add_0_r.
           destruct (Hlow (Z.to_nat index) ltac:(lia)) as (A & B & C).
           rewrite A, B, C. rewrite list_lookup_insert_eq by lia. auto.
        -- specialize (Hslots k t1 t2 Ht1 Ht2). simpl in Hslots. simpl.
           rewrite Hnext in Hslots.
           replace (Z.to_nat index + S k)%nat with (S (Z.to_nat index) + k)%nat by lia.
           destruct (token_pair_ok __trim t1 t2).
           ++ destruct Hslots as (A & B & C). rewrite A.
              rewrite list_lookup_insert_ne by lia. auto.
           ++ destruct Hslots as (A & B & C). auto.
    + apply IH in H; try lia; try (rewrite length_insert; assumption).
      destruct H as (Hlen & Hlow & Hslots). split; [exact Hlen |]. split.
      * intros k Hk. destruct (Hlow k ltac:(lia)) as (A & B & C).
        rewrite A, B, C. rewrite !list_lookup_insert_ne by lia. auto.
      * intros [|k] t1 t2 Ht1 Ht2; simpl in Ht1, Ht2.
        -- inversion Ht1; inversion Ht2; subst t1 t2. simpl. rewrite Hok. simpl.
           rewrite Nat.add_0_r.
           destruct (Hlow (Z.to_nat index) ltac:(lia)) as (A & B & C).
           rewrite A, B, C. rewrite !list_lookup_insert_eq by lia.
           rewrite Hv1, Hv2. auto.
        -- specialize (Hslots k t1 t2 Ht1 Ht2). simpl in Hslots. simpl.
           rewrite Hnext in Hslots.
           replace (Z.to_nat index + S k)%nat with (S (Z.to_nat index) + k)%nat by lia.
           destruct (token_pair_ok __trim t1 t2).
           ++ destruct Hslots as (A & B & C). auto.
           ++ destruct Hslots as (A & B & C). rewrite B, C.
              rewrite !list_lookup_insert_ne by lia. auto.
Qed.


(** The statistics of the field itself, as [__buildArrowFieldStatsBinary]
    leaves them: those of the parser when it accepts, the disabled ones
    otherwise.  The sub-fields do not bear on them. *)
Lemma build_stats_own field n :
  let bstats := snd (__buildArrowFieldStatsBinary __trim field n) in
  let off := mkArrowFieldStatsBinary n (-1) None None None 0 [] in
  let own b := (bs_unitsz b, bs_isnull b, bs_min_values b, bs_max_values b) in
  own bstats =
  match find_stats_tokens (custom_metadata field) None None with
  | (Some min_tokens, Some max_tokens) =>
      match __parseArrowFieldStatsBinary __trim off field min_tokens max_tokens with
      | Some b' => own b'
      | None => own off
      end
  | _ => own off
  end.
Proof.
  destruct field as [name t md ch]. simpl.
  destruct (find_stats_tokens md None None) as [[mt|] [xt|]];
    try (destruct ch; reflexivity).
  destruct (__parseArrowFieldStatsBinary __trim _ _ mt xt); destruct ch; reflexivity.
Qed.

Lemma apply_stats_own fstate bstats rb_index :
  let f' := __applyArrowFieldStatsBinary fstate bstats rb_index in
  match bs_isnull bstats, bs_min_values bstats, bs_max_values bstats with
  | Some _, Some min_values, Some max_values =>
      if 0 <? bs_unitsz bstats then
        stat_isnull f' = false
        /\ stat_min f' = memcpy_datum (bs_unitsz bstats) (stat_min fstate)
                           (min_values !!! Z.to_nat rb_index)
        /\ stat_max f' = memcpy_datum (bs_unitsz bstats) (stat_max fstate)
                           (max_values !!! Z.to_nat rb_index)
      else stat_isnull f' = true
  | _, _, _ => stat_isnull f' = true
  end.
Proof.
  destruct fstate. simpl.
  destruct (bs_isnull bstats), (bs_min_values bstats), (bs_max_values bstats);
    try reflexivity.
  destruct (0 <? bs_unitsz bstats); simpl; auto.
Qed.

Lemma stats_unitsz_pos t u : stats_unitsz t = Some u -> 0 < u.
Proof.
  destruct t; simpl; try discriminate;
    repeat match goal with
           | |- context [match ?x with _ => _ end] => destruct x
           | |- context [if ?x then _ else _] => destruct x
           end; intros H; inversion H; lia.
Qed.

(** The two routines of the statistics binder, called on a field state
    directly, for a field carrying [min_values] and [max_values]:
    - when the Arrow type has no statistics unit, or one of the two lists
      does not hold exactly one token per record batch, the parser
      refuses and the field state gets [stat_isnull = true] for every
      record-batch index;
    - a field state gets [stat_isnull = false] only when the type is
      supported and both lists hold exactly one token per record batch;
    - with one token per record batch in both lists, the parsed
      statistics flag exactly the slots with a malformed token, and
      [__applyArrowFieldStatsBinary], which does not read that flag,
      gives a slot whose two tokens parse the two parsed values.
    [applyArrowStatsBinary] reaches [__applyArrowFieldStatsBinary] for
    the columns below [nfields] only. *)
Lemma field_stats_called_directly field n min_tokens max_tokens :
  0 <= n ->
  find_stats_tokens (custom_metadata field) None None = (Some min_tokens, Some max_tokens) ->
  let toks1 := strtok_tokens "," min_tokens in
  let toks2 := strtok_tokens "," max_tokens in
  let counts_match := Z.of_nat (length toks1) = n /\ Z.of_nat (length toks2) = n in
  let bstats := snd (__buildArrowFieldStatsBinary __trim field n) in
  (stats_unitsz (field_type field) = None \/ ~ counts_match ->
   forall fstate rb_index,
     stat_isnull (__applyArrowFieldStatsBinary fstate bstats rb_index) = true)
  /\
  (forall fstate rb_index,
     stat_isnull (__applyArrowFieldStatsBinary fstate bstats rb_index) = false ->
     stats_unitsz (field_type field) <> None /\ counts_match)
  /\
  (forall u, stats_unitsz (field_type field) = Some u -> counts_match ->
   exists flags,
     bs_isnull bstats = Some flags /\
     forall i tok1 tok2, toks1 !! i = Some tok1 -> toks2 !! i = Some tok2 ->
       flags !! i = Some (negb (token_pair_ok __trim tok1 tok2)) /\
       (token_pair_ok __trim tok1 tok2 = true ->
        forall fstate,
          let f' := __applyArrowFieldStatsBinary fstate bstats (Z.of_nat i) in
          stat_isnull f' = false
          /\ stat_min f' = memcpy_datum u (stat_min fstate) (token_value __trim tok1)
          /\ stat_max f' = memcpy_datum u (stat_max fstate) (token_value __trim tok2))).
Proof.
  intros Hn Htok toks1 toks2 counts_match bstats.
  pose proof (build_stats_own field n) as Hown. simpl in Hown.
  fold bstats in Hown. rewrite Htok in Hown.
  unfold __parseArrowFieldStatsBinary in Hown. simpl nrooms in Hown.
  fold toks1 toks2 in Hown.
  (* the case where the parser refuses *)
  assert (Hoff : (bs_unitsz bstats, bs_isnull bstats, bs_min_values bstats,
                  bs_max_values bstats) = (-1, None, None, None) ->
                 forall fstate rb_index,
                   stat_isnull (__applyArrowFieldStatsBinary fstate bstats rb_index) = true).
  { intros E fstate rb_index. inversion E as [[E1 E2 E3 E4]].
    pose proof (apply_stats_own fstate bstats rb_index) as Ha. simpl in Ha.
    rewrite E2 in Ha. exact Ha. }
  destruct (stats_unitsz (field_type field)) as [u|] eqn:Hu.
  2:{ split; [intros _; apply Hoff; exact Hown |]. split.
      - intros fstate rb_index Hf. rewrite (Hoff Hown) in Hf. discriminate.
      - intros u' Hu'. discriminate. }
  pose proof (stats_unitsz_pos _ _ Hu) as Hupos.
  destruct (parse_stats_loop __trim u n toks1 toks2 0
              (replicate (Z.to_nat n) false) (replicate (Z.to_nat n) 0)
              (replicate (Z.to_nat n) 0))
    as [[[[[r1 r2] idx] isn'] mn'] mx'] eqn:Hloop.
  pose proof (parse_stats_loop_exact u n toks1 toks2 0 _ _ _ _ _ _ _ _ _ Hn Hloop)
    as Hexact. rewrite Z.sub_0_r in Hexact.
  assert (Hdec : counts_match \/ ~ counts_match).
  { unfold counts_match.
    destruct (Z.eq_dec (Z.of_nat (length toks1)) n), (Z.eq_dec (Z.of_nat (length toks2)) n);
      tauto. }
  destruct Hdec as [Hcm | Hncm].
  - (* one token per batch in both lists: the parser accepts *)
    destruct (proj2 Hexact Hcm) as (-> & -> & ->).
    rewrite Z.eqb_refl in Hown. simpl in Hown. injection Hown as E1 E2 E3 E4.
    destruct Hcm as [Hc1 Hc2].
    pose proof (parse_stats_loop_slots u n toks1 toks2 0 _ _ _ _ _ _ _ _ _
                  ltac:(lia) ltac:(lia) ltac:(lia)
                  (length_replicate _ _) (length_replicate _ _) (length_replicate _ _)
                  Hloop) as (Hlen & _ & Hslots).
    split; [intros [? | Hc]; [discriminate | exfalso; apply Hc; split; assumption] |].
    split; [intros; split; [discriminate | split; assumption] |].
    intros u' Hu' _. inversion Hu'; subst u'.
    exists isn'. split; [exact E2 |].
    intros i tok1 tok2 Ht1 Ht2.
    specialize (Hslots i tok1 tok2 Ht1 Ht2). simpl in Hslots.
    assert (Hi : (i < Z.to_nat n)%nat).
    { apply lookup_lt_Some in Ht1. lia. }
    destruct (token_pair_ok __trim tok1 tok2) eqn:Hok.
    + destruct Hslots as (A & B & C). split.
      * rewrite A. simpl. apply lookup_replicate_2. exact Hi.
      * intros _ fstate.
        pose proof (apply_stats_own fstate bstats (Z.of_nat i)) as Ha. simpl in Ha.
        rewrite E1, E2, E3, E4 in Ha.
        destruct (Z.ltb_spec 0 u); [| lia].
        rewrite Nat2Z.id in Ha.
        rewrite (list_lookup_total_correct _ _ _ B) in Ha.
        rewrite (list_lookup_total_correct _ _ _ C) in Ha.
        unfold memcpy_datum in *. rewrite !Z.mod_mod in Ha by lia. exact Ha.
    + destruct Hslots as (A & _). split; [exact A | discriminate].
  - (* a list with another number of tokens: the parser refuses *)
    assert (Hrej : (bs_unitsz bstats, bs_isnull bstats, bs_min_values bstats,
                    bs_max_values bstats) = (-1, None, None, None)).
    { rewrite Hown. destruct r1; [destruct r2 |]; try reflexivity.
      destruct (Z.eqb_spec idx n) as [-> | Hne]; [| reflexivity].
      exfalso. apply Hncm. apply Hexact. auto. }
    split; [intros _; apply Hoff; exact Hrej |]. split.
    + intros fstate rb_index Hf. rewrite (Hoff Hrej) in Hf. discriminate.
    + intros u' _ Hc. contradiction.
Qed.

End StatsProofs.


(* ================================================================== *)
(** * File-set resolver *)
(* ================================================================== *)

Example strtok_r_first_ex :
  strtok_r_first "," ",,a.arrow,b.arrow" = Some (",,", "a.arrow")%string.
Proof. reflexivity. Qed.

Example strrchr_after_ex : strrchr_after "." "x.tar.arrow" = Some "arrow"%string.
Proof. reflexivity. Qed.

Section ResolverProofs.

Variable __trim : string -> string.
Variable __trim_inplace : string -> string.
Variable atoi : string -> Z.
Variable fs : FileSystem.

Local Abbreviation files_option_loop' := (files_option_loop __trim __trim_inplace fs).
Local Abbreviation options_loop' := (options_loop __trim __trim_inplace atoi fs).
Local Abbreviation arrowFdwExtractFilesList' := (arrowFdwExtractFilesList __trim __trim_inplace atoi fs).

(** Once the C string at [temp] is a single readable token that
    [__trim] leaves alone, every turn of the [files] loop finds that
    token again: the loop does not end. *)
Lemma files_option_loop_stuck tok :
  strtok_r_first "," tok = Some (EmptyString, tok) ->
  __trim_inplace tok = tok ->
  access_R_OK fs (__trim tok) = true ->
  forall fuel trace files, files_option_loop' fuel tok trace files = FlOutOfFuel.
Proof.
  intros Htok Hin Hacc. induction fuel as [|fuel IH]; intros trace files.
  - reflexivity.
  - simpl. rewrite Htok, Hacc, Hin. simpl. apply IH.
Qed.

(** Without a [files] option the fuel plays no part. *)
Lemma options_loop_fuel_irrelevant options_list :
  has_option "files" options_list = false ->
  forall fuel fuel' st, options_loop' fuel options_list st = options_loop' fuel' options_list st.
Proof.
  induction options_list as [|d rest IH]; intros Hno fuel fuel' st.
  - reflexivity.
  - simpl in Hno. apply orb_false_iff in Hno as [Hd Hrest].
    simpl. rewrite Hd.
    repeat match goal with
           | |- context [if ?c then _ else _] => destruct c
           end; auto.
Qed.

(** The members of the resolver state after the options loop, without a
    [files] option: the trace holds no directory scan, the files are the
    literal [file] paths in source order, and [dir] and [suffix] are the
    last ones given. *)
Lemma options_loop_returns options_list : forall fuel st trace st',
  has_option "files" options_list = false ->
  options_loop' fuel options_list st = FlReturn trace st' ->
  filesList st' = filesList st ++ spec_literal_files options_list
  /\ dir_path st' = fold_left (fun acc d => if String.eqb (defname d) "dir"
                                           then Some (arg d) else acc)
                      options_list (dir_path st)
  /\ dir_suffix st' = fold_left (fun acc d => if String.eqb (defname d) "suffix"
                                             then Some (arg d) else acc)
                        options_list (dir_suffix st)
  /\ (forallb (fun e => negb (is_EvReadDir e)) (rs_trace st) = true ->
      forallb (fun e => negb (is_EvReadDir e)) (rs_trace st') = true).
Proof.
  induction options_list as [|d rest IH]; intros fuel st trace st' Hno H.
  - simpl in H. inversion H; subst. unfold spec_literal_files. simpl.
    rewrite app_nil_r. auto.
  - simpl in Hno. apply orb_false_iff in Hno as [Hd Hrest].
    simpl in H. rewrite Hd in H. unfold spec_literal_files. simpl.
    destruct (String.eqb_spec (defname d) "file") as [Ef | Nf].
    + destruct (access_R_OK fs (arg d)); simpl in H; [| discriminate].
      apply IH in H; [| exact Hrest]. simpl in H.
      destruct H as (A & B & C & D). rewrite A, <- app_assoc. simpl.
      rewrite Ef in *. simpl.
      repeat split; auto.
      intros Ht. apply D. rewrite forallb_app, Ht. reflexivity.
    + destruct (String.eqb_spec (defname d) "dir") as [Ed | Nd].
      * apply IH in H; [| exact Hrest]. simpl in H.
        rewrite Ed in *. simpl. exact H.
      * destruct (String.eqb_spec (defname d) "suffix") as [Es | Ns].
        -- apply IH in H; [| exact Hrest]. simpl in H.
           rewrite Es in *. simpl. exact H.
        -- destruct (String.eqb (defname d) "parallel_workers"); [| discriminate].
           destruct (0 <=? parallel_nworkers st); [discriminate |].
           apply IH in H; [| exact Hrest]. simpl in H. exact H.
Qed.

(** An error of the options loop carries a trace without directory scan
    and the kind [OptionError]. *)
Lemma options_loop_error options_list : forall fuel st trace kind msg,
  has_option "files" options_list = false ->
  forallb (fun e => negb (is_EvReadDir e)) (rs_trace st) = true ->
  options_loop' fuel options_list st = FlError trace kind msg ->
  kind = OptionError /\ forallb (fun e => negb (is_EvReadDir e)) trace = true.
Proof.
  induction options_list as [|d rest IH]; intros fuel st trace kind msg Hno Ht H.
  - discriminate.
  - simpl in Hno. apply orb_false_iff in Hno as [Hd Hrest].
    simpl in H. rewrite Hd in H.
    destruct (String.eqb (defname d) "file").
    + destruct (access_R_OK fs (arg d)); simpl in H.
      * apply IH in H; auto. simpl. rewrite forallb_app, Ht. reflexivity.
      * inversion H; subst. split; [reflexivity |].
        rewrite forallb_app, Ht. reflexivity.
    + destruct (String.eqb (defname d) "dir"); [apply IH in H; auto |].
      destruct (String.eqb (defname d) "suffix"); [apply IH in H; auto |].
      destruct (String.eqb (defname d) "parallel_workers").
      * destruct (0 <=? parallel_nworkers st).
        -- inversion H; subst. auto.
        -- apply IH in H; auto.
      * inversion H; subst. auto.
Qed.

Lemma options_loop_no_fuel options_list : forall fuel st,
  has_option "files" options_list = false ->
  options_loop' fuel options_list st <> FlOutOfFuel.
Proof.
  induction options_list as [|d rest IH]; intros fuel st Hno.
  - discriminate.
  - simpl in Hno. apply orb_false_iff in Hno as [Hd Hrest].
    simpl. rewrite Hd.
    repeat match goal with
           | |- context [if ?c then _ else _] => destruct c
           end; auto; discriminate.
Qed.

Lemma fold_left_some_sticky name options_list : forall v,
  exists w, fold_left (fun acc d => if String.eqb (defname d) name
                                    then Some (arg d) else acc)
                      options_list (Some v) = Some w.
Proof.
  induction options_list as [|d rest IH]; intros v; simpl.
  - eauto.
  - destruct (String.eqb (defname d) name); apply IH.
Qed.

Lemma fold_left_has_option name options_list :
  has_option name options_list = true ->
  exists w, fold_left (fun acc d => if String.eqb (defname d) name
                                    then Some (arg d) else acc)
                      options_list None = Some w.
Proof.
  induction options_list as [|d rest IH]; simpl; [discriminate |].
  destruct (String.eqb (defname d) name); simpl.
  - intros _. apply fold_left_some_sticky.
  - exact IH.
Qed.

Lemma fold_left_no_option name options_list :
  has_option name options_list = false ->
  fold_left (fun acc d => if String.eqb (defname d) name
                          then Some (arg d) else acc)
            options_list None = None.
Proof.
  induction options_list as [|d rest IH]; simpl; [reflexivity |].
  destruct (String.eqb (defname d) name); simpl; [discriminate | exact IH].
Qed.

(** The suffix rule where the [files] defect is out of the way: with a
    [suffix] and no [dir] (and no [files] option) the resolver leaves
    through an [OptionError] before any directory is scanned. *)
Lemma suffix_without_dir_is_an_error fuel options_list :
  has_option "files" options_list = false ->
  has_option "suffix" options_list = true ->
  has_option "dir" options_list = false ->
  exists trace msg,
    arrowFdwExtractFilesList' fuel options_list = FlError trace OptionError msg
    /\ forallb (fun e => negb (is_EvReadDir e)) trace = true.
Proof.
  intros Hfiles Hsuffix Hdir. unfold arrowFdwExtractFilesList.
  destruct (options_loop' fuel options_list (mkResolverState [] [] None None (-1)))
    as [trace st | trace kind msg |] eqn:Hloop.
  - apply options_loop_returns in Hloop as (_ & Hd & Hs & Ht); [| exact Hfiles].
    simpl in Hd, Hs, Ht.
    rewrite (fold_left_no_option _ _ Hdir) in Hd.
    destruct (fold_left_has_option _ _ Hsuffix) as (w & Hw). rewrite Hw in Hs.
    rewrite Hd, Hs. eexists _, _. split; [reflexivity | auto].
  - apply options_loop_error in Hloop as (-> & Ht); auto. eauto.
  - exfalso. eapply options_loop_no_fuel; eauto.
Qed.

Lemma dir_loop_spec dir suffix entries : forall trace files,
  snd (dir_loop fs dir suffix entries trace files)
  = files ++ spec_kept_entries fs dir suffix entries.
Proof.
  unfold spec_kept_entries.
  induction entries as [|d rest IH]; intros trace files; simpl.
  - rewrite app_nil_r. reflexivity.
  - destruct (String.eqb d "." || String.eqb d "..")%bool; simpl; [apply IH |].
    destruct (suffix_matches suffix d); simpl; [| apply IH].
    destruct (access_R_OK fs (dir ++ "/" ++ d)); simpl.
    + rewrite IH, <- app_assoc. reflexivity.
    + apply IH.
Qed.

(** The order rule where the [files] defect is out of the way: when the
    resolver returns on options without a [files] option, the list holds
    the literal [file] paths in source order, then the kept entries of
    the directory in enumeration order. *)
Lemma resolved_list_without_files fuel options_list trace files nworkers :
  has_option "files" options_list = false ->
  arrowFdwExtractFilesList' fuel options_list = FlReturn trace (files, nworkers) ->
  files = spec_literal_files options_list ++
          match last_option "dir" options_list with
          | None => []
          | Some dir =>
              match ReadDir fs dir with
              | Some entries =>
                  spec_kept_entries fs dir (last_option "suffix" options_list) entries
              | None => []
              end
          end.
Proof.
  intros Hfiles. unfold arrowFdwExtractFilesList, last_option.
  destruct (options_loop' fuel options_list (mkResolverState [] [] None None (-1)))
    as [trace0 st | |] eqn:Hloop; try discriminate.
  apply options_loop_returns in Hloop as (Hf & Hd & Hs & _); [| exact Hfiles].
  simpl in Hf, Hd, Hs. rewrite <- Hd, <- Hs.
  destruct (dir_suffix st), (dir_path st) as [dir|]; try discriminate.
  - destruct (ReadDir fs dir) as [entries|]; [| discriminate].
    pose proof (dir_loop_spec dir (Some s) entries (rs_trace st ++ [EvReadDir dir])
                  (filesList st)) as Hdl.
    destruct (dir_loop fs dir (Some s) entries _ _) as [t f]. simpl in Hdl.
    intros H. inversion H; subst. rewrite Hf. reflexivity.
  - destruct (ReadDir fs dir) as [entries|]; [| discriminate].
    pose proof (dir_loop_spec dir None entries (rs_trace st ++ [EvReadDir dir])
                  (filesList st)) as Hdl.
    destruct (dir_loop fs dir None entries _ _) as [t f]. simpl in Hdl.
    intros H. inversion H; subst. rewrite Hf. reflexivity.
  - intros H. inversion H; subst. rewrite Hf, app_nil_r. reflexivity.
Qed.

End ResolverProofs.

(** C9: on the single option [files = "/arr/a.arrow,/arr/b.arrow"], both
    files readable, the resolver never returns a list: whatever the fuel,
    the [files] loop is still running. *)
Theorem C9_files_option_never_returns :
  forall fuel,
    arrowFdwExtractFilesList trim_blanks drop_trailing_blanks demo_atoi demo_fs
      fuel [mkDefElem "files" "/arr/a.arrow,/arr/b.arrow"] = FlOutOfFuel.
Proof.
  intros fuel. unfold arrowFdwExtractFilesList. simpl.
  destruct fuel as [|fuel]; [reflexivity |].
  simpl.
  rewrite (files_option_loop_stuck trim_blanks drop_trailing_blanks demo_fs
             "/arr/a.arrow" eq_refl eq_refl eq_refl).
  reflexivity.
Qed.

(** C10: on the options [files = "/arr/a.arrow"], [suffix = "arrow"],
    without [dir], the resolver raises no error: whatever the fuel, the
    [files] loop is still running and the suffix test is never reached. *)
Theorem C10_suffix_check_not_reached :
  forall fuel,
    arrowFdwExtractFilesList trim_blanks drop_trailing_blanks demo_atoi demo_fs
      fuel [mkDefElem "files" "/arr/a.arrow"; mkDefElem "suffix" "arrow"]
    = FlOutOfFuel.
Proof.
  intros fuel. unfold arrowFdwExtractFilesList. simpl.
  rewrite (files_option_loop_stuck trim_blanks drop_trailing_blanks demo_fs
             "/arr/a.arrow" eq_refl eq_refl eq_refl).
  reflexivity.
Qed.

Example resolver_dir_suffix :
  arrowFdwExtractFilesList trim_blanks drop_trailing_blanks demo_atoi demo_fs 0
    [mkDefElem "file" "/data/x.arrow"; mkDefElem "dir" "/arr";
     mkDefElem "suffix" "arrow"]
  = FlReturn
      [EvAccess "/data/x.arrow"; EvReadDir "/arr"; EvAccess "/arr/a.arrow";
       EvAccess "/arr/locked.arrow";
       EvDebug1 "arrow_fdw: unable to read '/arr/locked.arrow', so skipped";
       EvAccess "/arr/b.arrow"]
      (["/data/x.arrow"; "/arr/a.arrow"; "/arr/b.arrow"]%string, -1).
Proof. reflexivity. Qed.

Example resolver_suffix_without_dir :
  arrowFdwExtractFilesList trim_blanks drop_trailing_blanks demo_atoi demo_fs 0
    [mkDefElem "file" "/data/x.arrow"; mkDefElem "suffix" "arrow"]
  = FlError [EvAccess "/data/x.arrow"] OptionError
      "arrow: cannot use 'suffix' option without 'dir'".
Proof. reflexivity. Qed.


(* ================================================================== *)
(** * Metadata cache: insert *)
(* ================================================================== *)

Section InsertProofs.

Variable sizeof_arrowMetadataCache : Z.
Variable sizeof_arrowMetadataFieldCache : Z.
Variable gettimeofday : nat -> timeval.
Variable hash_bytes : Z -> Z -> Z.

Lemma release_mcache_null fuel c : __releaseMetadataCache fuel c None = Done c.
Proof. destruct fuel; reflexivity. Qed.

(** [__allocMetadataCache] never hands out an item: it returns [NULL]
    or dies on the store through the cleared pointer. *)
Lemma alloc_mcache_never_returns_item fuel c r c' :
  __allocMetadataCache sizeof_arrowMetadataCache gettimeofday fuel c = Done (r, c') ->
  r = None.
Proof.
  unfold __allocMetadataCache. intros H.
  destruct (free_mcaches c) as [|m rest] eqn:Hfree; simpl in H.
  - destruct (wait_free_block gettimeofday fuel c) as [[got c1] | | |]; simpl in H;
      try discriminate.
    destruct got.
    + destruct (free_blocks c1) as [|b bs]; simpl in H; [discriminate |].
      destruct (free_mcaches (carve_mcache_block _ _ _)); discriminate.
    + simpl in H. inversion H. reflexivity.
  - rewrite Hfree in H. discriminate.
Qed.

(** The loop over the record batches never reaches its end with a
    leader in hand. *)
Lemma cache_batches_never_completes fuel rbs : forall c file_stat r c',
  rbs <> [] ->
  cache_batches sizeof_arrowMetadataCache sizeof_arrowMetadataFieldCache gettimeofday
    fuel c file_stat rbs None None = Done (r, c') ->
  r = None.
Proof.
  destruct rbs as [|rb rbs]; intros c file_stat r c' Hne H; [contradiction |].
  simpl in H.
  destruct (__allocMetadataCache sizeof_arrowMetadataCache gettimeofday fuel c)
    as [[r1 c1] | | |] eqn:Halloc; simpl in H; try discriminate.
  apply alloc_mcache_never_returns_item in Halloc. subst r1.
  rewrite release_mcache_null in H. simpl in H. inversion H. reflexivity.
Qed.

(** No insert of a file with at least one record batch chains a leader:
    when [__buildArrowMetadataCacheNoLock] returns at all, it has left
    through the early [return] of a failed allocation, and neither the
    hash slots nor the LRU list have changed. *)
Lemma insert_never_chains_leader fuel c af_state c' :
  rb_list af_state <> [] ->
  __buildArrowMetadataCacheNoLock sizeof_arrowMetadataCache
    sizeof_arrowMetadataFieldCache gettimeofday hash_bytes fuel c af_state = Done c' ->
  exists c1, __allocMetadataCache sizeof_arrowMetadataCache gettimeofday fuel c
             = Done (None, c1) /\ c' = c1.
Proof.
  intros Hne. unfold __buildArrowMetadataCacheNoLock.
  destruct (rb_list af_state) as [|rb rbs]; [contradiction |]. simpl.
  destruct (__allocMetadataCache sizeof_arrowMetadataCache gettimeofday fuel c)
    as [[r1 c1] | | |] eqn:Halloc; simpl; try discriminate.
  pose proof (alloc_mcache_never_returns_item _ _ _ _ Halloc) as ->.
  rewrite release_mcache_null. simpl. intros H. inversion H. eauto.
Qed.

End InsertProofs.

(** C2: inserting the metadata of a file with one record batch into the
    cache as it is after start-up (32 MB, 256 free blocks) builds no
    leader: the first [__allocMetadataCache] carves a block, pops an
    item and dies on the store through the cleared pointer. *)
Theorem C2_insert_dies_in_alloc :
  __buildArrowMetadataCacheNoLock 280 200 demo_gettimeofday demo_hash_bytes
    100 (pgstrom_startup_arrow_fdw (32 * 1024)) demo_af_state
  = Fault "mcache->magic: store through a null pointer".
Proof. vm_compute. reflexivity. Qed.

(* ================================================================== *)
(** * File state of a file without record batch *)
(* ================================================================== *)

(** C8, as the claim words it, fails: for a file that parses and holds
    no record batch the builder returns [NULL], not a file state with an
    empty batch list. *)
Lemma C8_counterexample :
  __buildArrowFileStateByFile trim_blanks demo_catalog demo_files "/arr/empty.arrow"
  = Ok (None, ["arrow file contains no RecordBatch"%string]).
Proof. reflexivity. Qed.

(** C8 (amended): for every Arrow file that parses (no dictionary batch)
    and holds no record batch, [__buildArrowFileStateByFile] builds no
    file state: it leaves a debug note and returns [NULL] without error;
    on a cache miss [BuildArrowFileState] returns [NULL] as well and
    leaves the cache as it is, so that the file is skipped; and the scan
    iterator returns the end of the scan at once. *)
Theorem C8_file_without_record_batch
    (sz_m sz_f : Z) (tod : nat -> timeval) (hash : Z -> Z -> Z)
    (trim : string -> string) (cat : HostCatalog) (files : ArrowFiles)
    (filename : string) (af_info : ArrowFileInfo) :
  open_arrow_file files filename = OpenRead (Ok af_info) ->
  af_dictionaries af_info = None ->
  af_recordBatches af_info = None ->
  __buildArrowFileStateByFile trim cat files filename
  = Ok (None, ["arrow file contains no RecordBatch"%string])
  /\ (forall fuel c frel file_stat,
        stat_file files filename = Some file_stat ->
        lookupArrowMetadataCache tod hash fuel c file_stat false = LookupNotFound c ->
        BuildArrowFileState sz_m sz_f tod hash trim cat files fuel c frel filename
        = Done (None, ["arrow file contains no RecordBatch"%string], c))
  /\ ArrowIterateForeignScan = None.
Proof.
  intros Hopen Hdict Hrb.
  assert (Hfile : __buildArrowFileStateByFile trim cat files filename
                  = Ok (None, ["arrow file contains no RecordBatch"%string])).
  { unfold __buildArrowFileStateByFile. rewrite Hopen. simpl.
    rewrite Hdict, Hrb. reflexivity. }
  split; [exact Hfile |]. split; [| reflexivity].
  intros fuel c frel file_stat Hstat Hlookup.
  unfold BuildArrowFileState. rewrite Hstat, Hlookup, Hfile. reflexivity.
Qed.

Lemma C8_file_without_record_batch_witness :
  __buildArrowFileStateByFile trim_blanks demo_catalog demo_files "/arr/empty.arrow"
  = Ok (None, ["arrow file contains no RecordBatch"%string])
  /\ BuildArrowFileState 280 200 demo_gettimeofday demo_hash_bytes trim_blanks
       demo_catalog demo_files 10 (pgstrom_startup_arrow_fdw (32 * 1024))
       (mkRelation "t" [INT4OID]) "/arr/empty.arrow"
     = Done (None, ["arrow file contains no RecordBatch"%string],
             pgstrom_startup_arrow_fdw (32 * 1024)).
Proof.
  destruct (C8_file_without_record_batch 280 200 demo_gettimeofday demo_hash_bytes
              trim_blanks demo_catalog demo_files "/arr/empty.arrow" _
              eq_refl eq_refl eq_refl) as (H1 & H2 & _).
  split; [exact H1 |].
  apply (H2 10%nat _ _ (mkStat 8 77 512 (mkTimespec 600 0))); reflexivity.
Defined.


(* ================================================================== *)
(** * Metadata cache: release and lookup *)
(* ================================================================== *)

Lemma mcache_at_write_eq c m v : mcache_at (write_mcache m v c) m = v.
Proof. unfold mcache_at, write_mcache. simpl. rewrite lookup_insert_eq. reflexivity. Qed.

Lemma mcache_at_write_ne c m m' v :
  m <> m' -> mcache_at (write_mcache m v c) m' = mcache_at c m'.
Proof.
  intros H. unfold mcache_at, write_mcache. simpl.
  rewrite lookup_insert_ne by exact H. reflexivity.
Qed.

Lemma elem_of_dlist_delete {A} `{EqDecision A} (l : list A) (x y : A) :
  y ∈ dlist_delete l x <-> y ∈ l /\ y <> x.
Proof.
  unfold dlist_delete. rewrite list_elem_of_In, filter_In, <- list_elem_of_In.
  rewrite negb_true_iff, bool_decide_eq_false. reflexivity.
Qed.

Lemma not_elem_of_dlist_delete {A} `{EqDecision A} (l : list A) (x : A) :
  x ∉ dlist_delete l x.
Proof. rewrite elem_of_dlist_delete. tauto. Qed.

Lemma unlink_from_hash_not_elem c m h : m ∉ hash_slot_at (unlink_from_hash c m) h.
Proof.
  unfold hash_slot_at, unlink_from_hash. simpl. rewrite lookup_fmap.
  destruct (hash_slots c !! h) as [l|]; simpl.
  - apply not_elem_of_dlist_delete.
  - apply not_elem_of_nil.
Qed.

Lemma field_release_frame_refl c : field_release_frame c c.
Proof. repeat split. Qed.

Lemma field_release_frame_trans c1 c2 c3 :
  field_release_frame c1 c2 -> field_release_frame c2 c3 -> field_release_frame c1 c3.
Proof. unfold field_release_frame. intros (?&?&?&?) (?&?&?&?). repeat split; congruence. Qed.

Lemma back_fcache_block_frame c b : field_release_frame c (back_fcache_block c b).
Proof.
  unfold back_fcache_block. simpl.
  destruct (n_actives (block_at c b) - 1 =? 0); repeat split.
Qed.

Lemma release_field_frame fuel :
  (forall c x c', __releaseMetadataFieldCache fuel c x = Done c' -> field_release_frame c c')
  /\ (forall c x c', release_children fuel c x = Done c' -> field_release_frame c c').
Proof.
  induction fuel as [|fuel [IH1 IH2]]; [split; intros; discriminate |].
  split; intros c x c' H; simpl in H.
  - destruct (release_children fuel c x) as [c1 | | |] eqn:Hc; simpl in H; try discriminate.
    inversion H; subst. clear H.
    eapply field_release_frame_trans; [apply (IH2 _ _ _ Hc) |].
    eapply field_release_frame_trans; [| apply back_fcache_block_frame].
    repeat split.
  - destruct (fc_children (fcache_at c x)) as [|ch rest]; [inversion H; subst; apply field_release_frame_refl |].
    match type of H with
    | context [__releaseMetadataFieldCache fuel ?c0 ch] =>
        destruct (__releaseMetadataFieldCache fuel c0 ch) as [c1 | | |] eqn:Hc;
          simpl in H; try discriminate
    end.
    eapply field_release_frame_trans; [| apply (IH2 _ _ _ H)].
    eapply field_release_frame_trans; [| apply (IH1 _ _ _ Hc)].
    repeat split.
Qed.

Lemma batch_release_frame_refl c : batch_release_frame c c.
Proof. repeat split; auto. Qed.

Lemma batch_release_frame_trans c1 c2 c3 :
  batch_release_frame c1 c2 -> batch_release_frame c2 c3 -> batch_release_frame c1 c3.
Proof.
  intros (A1 & B1 & T1 & C1) (A2 & B2 & T2 & C2).
  split; [congruence |]. split; [congruence |]. split; [congruence |].
  intros m. destruct (C1 m) as (M1 & N1 & S1), (C2 m) as (M2 & N2 & S2).
  split; [| split; congruence].
  destruct M2 as [M2 | M2]; [| right; exact M2].
  destruct M1 as [M1 | M1]; [left | right]; congruence.
Qed.

Lemma field_frame_batch_frame c c' : field_release_frame c c' -> batch_release_frame c c'.
Proof.
  intros (A & B & C & T). split; [exact A |]. split; [exact B |]. split; [exact T |].
  intros m. unfold mcache_at. rewrite C. auto.
Qed.

Lemma write_mcache_frame c m v :
  (mc_magic v = mc_magic (mcache_at c m) \/ mc_magic v = ARROW_METADATA_CACHE_FREE_MAGIC) ->
  mc_next v = mc_next (mcache_at c m) ->
  mc_stat_buf v = mc_stat_buf (mcache_at c m) ->
  batch_release_frame c (write_mcache m v c).
Proof.
  intros Hm Hn Hs. split; [reflexivity |]. split; [reflexivity |]. split; [reflexivity |].
  intros m'. destruct (decide (m = m')) as [<- | Hne].
  - rewrite mcache_at_write_eq. auto.
  - rewrite mcache_at_write_ne by exact Hne. auto.
Qed.

Lemma back_mcache_block_frame c b : batch_release_frame c (back_mcache_block c b).
Proof.
  unfold back_mcache_block. simpl.
  destruct (n_actives (block_at c b) - 1 =? 0); repeat split; auto.
Qed.

Lemma release_fields_frame fuel : forall c m c',
  release_fields fuel c m = Done c' -> batch_release_frame c c'.
Proof.
  induction fuel as [|fuel IH]; intros c m c' H; [discriminate |].
  simpl in H.
  destruct (mc_fields (mcache_at c m)) as [|f rest];
    [inversion H; subst; apply batch_release_frame_refl |].
  match type of H with
  | context [__releaseMetadataFieldCache fuel ?c0 f] =>
      destruct (__releaseMetadataFieldCache fuel c0 f) as [c1 | | |] eqn:Hc;
        simpl in H; try discriminate
  end.
  eapply batch_release_frame_trans; [| apply (IH _ _ _ H)].
  eapply batch_release_frame_trans;
    [| apply field_frame_batch_frame, (proj1 (release_field_frame fuel) _ _ _ Hc)].
  apply write_mcache_frame; auto.
Qed.

Lemma set_free_mcaches_at c l m : mcache_at (set_free_mcaches l c) m = mcache_at c m.
Proof. reflexivity. Qed.

(** [__releaseMetadataCache] on an entry: the LRU list and the hash
    slots stay as they are, and the entry carries the [FREE] magic. *)
Lemma release_mcache_frame fuel : forall c mo c',
  __releaseMetadataCache fuel c mo = Done c' ->
  batch_release_frame c c'
  /\ forall m, mo = Some m ->
       mc_magic (mcache_at c' m) = ARROW_METADATA_CACHE_FREE_MAGIC.
Proof.
  induction fuel as [|fuel IH]; intros c mo c' H.
  - destruct mo; [discriminate |]. inversion H; subst.
    split; [apply batch_release_frame_refl | intros; discriminate].
  - destruct mo as [m|]; simpl in H;
      [| inversion H; subst; split; [apply batch_release_frame_refl | intros; discriminate]].
    destruct (release_fields fuel c m) as [c1 | | |] eqn:Hf; simpl in H; try discriminate.
    apply release_fields_frame in Hf.
    apply IH in H as [Hframe _].
    set (c2 := write_mcache m (set_mc_magic ARROW_METADATA_CACHE_FREE_MAGIC (mcache_at c1 m)) c1) in *.
    assert (H12 : batch_release_frame c1 c2) by (apply write_mcache_frame; auto).
    set (c3 := set_free_mcaches (dlist_push_tail (free_mcaches c2) m) c2) in *.
    assert (H23 : batch_release_frame c2 c3) by (repeat split; auto).
    pose proof (back_mcache_block_frame c3 (mc_owner (mcache_at c m))) as H34.
    split.
    + eapply batch_release_frame_trans; [exact Hf |].
      eapply batch_release_frame_trans; [exact H12 |].
      eapply batch_release_frame_trans; [exact H23 |].
      eapply batch_release_frame_trans; [exact H34 | exact Hframe].
    + intros m' Hm'. inversion Hm'; subst m'.
      assert (Hfree : mc_magic (mcache_at c2 m) = ARROW_METADATA_CACHE_FREE_MAGIC).
      { unfold c2. rewrite mcache_at_write_eq. reflexivity. }
      pose proof (batch_release_frame_trans _ _ _ H23
                    (batch_release_frame_trans _ _ _ H34 Hframe)) as (_ & _ & _ & Hall).
      destruct (Hall m) as ([E | E] & _); congruence.
Qed.

(** ** Termination of the release *)

Lemma msum_insert `{Countable K} {A} (f : A -> nat) (m : gmap K A) (k : K) (e' : A) :
  (map_fold (fun _ x acc => f x + acc) 0 (<[k := e']> m)
   + from_option f 0 (m !! k)
   = map_fold (fun _ x acc => f x + acc) 0 m + f e')%nat.
Proof.
  destruct (m !! k) as [e|] eqn:Hk; simpl.
  - rewrite (map_fold_delete_L _ _ k e m) by (first [exact Hk | intros; simpl; lia]).
    rewrite <- (insert_delete_eq m).
    rewrite map_fold_insert_L by (first [apply lookup_delete_eq | intros; simpl; lia]).
    lia.
  - rewrite map_fold_insert_L by (first [exact Hk | intros; simpl; lia]). lia.
Qed.

Lemma links_write_fcache c x v :
  (links (write_fcache x v c) + length (fc_children (fcache_at c x))
   = links c + length (fc_children v))%nat.
Proof.
  unfold links, write_fcache, fcache_at. simpl.
  pose proof (msum_insert (fun e => length (fc_children e)) (fcaches c) x v) as H.
  destruct (fcaches c !! x); simpl in *; lia.
Qed.

Lemma links_write_mcache c m v :
  (links (write_mcache m v c) + length (mc_fields (mcache_at c m))
   = links c + length (mc_fields v))%nat.
Proof.
  unfold links, write_mcache, mcache_at. simpl.
  pose proof (msum_insert (fun e => length (mc_fields e)) (mcaches c) m v) as H.
  destruct (mcaches c !! m); simpl in *; lia.
Qed.

Lemma links_set_free_fcaches l c : links (set_free_fcaches l c) = links c.
Proof. reflexivity. Qed.

Lemma links_set_free_mcaches l c : links (set_free_mcaches l c) = links c.
Proof. reflexivity. Qed.

Lemma links_back_fcache_block c b : links (back_fcache_block c b) = links c.
Proof.
  unfold back_fcache_block. simpl.
  destruct (n_actives (block_at c b) - 1 =? 0); reflexivity.
Qed.

Lemma links_back_mcache_block c b : links (back_mcache_block c b) = links c.
Proof.
  unfold back_mcache_block. simpl.
  destruct (n_actives (block_at c b) - 1 =? 0); reflexivity.
Qed.

(** Every turn of the release loops takes one link out of the arena, so
    that fuel in proportion to the number of links is enough. *)
Lemma release_field_terminates fuel :
  (forall c x, (2 * links c + 2 <= fuel)%nat ->
     exists c', __releaseMetadataFieldCache fuel c x = Done c'
                /\ (links c' <= links c)%nat)
  /\ (forall c x, (2 * links c + 1 <= fuel)%nat ->
        exists c', release_children fuel c x = Done c' /\ (links c' <= links c)%nat).
Proof.
  induction fuel as [|fuel [IH1 IH2]]; [split; intros; lia |].
  split; intros c x Hfuel; simpl.
  - destruct (IH2 c x ltac:(lia)) as (c1 & Hrc & Hl). rewrite Hrc.
    set (c2 := write_fcache x
                 (set_fc_magic ARROW_METADATA_CACHE_FREE_MAGIC (fcache_at c1 x)) c1).
    exists (back_fcache_block
              (set_free_fcaches (dlist_push_tail (free_fcaches c2) x) c2)
              (fc_owner (fcache_at c x))).
    split; [reflexivity |].
    rewrite links_back_fcache_block, links_set_free_fcaches.
    pose proof (links_write_fcache c1 x
                  (set_fc_magic ARROW_METADATA_CACHE_FREE_MAGIC (fcache_at c1 x))) as Hw.
    simpl in Hw. fold c2 in Hw. lia.
  - destruct (fc_children (fcache_at c x)) as [|ch rest] eqn:Hch; [eauto |].
    pose proof (links_write_fcache c x (set_fc_children rest (fcache_at c x))) as Hw.
    rewrite Hch in Hw. simpl in Hw.
    destruct (IH1 (write_fcache x (set_fc_children rest (fcache_at c x)) c) ch
                ltac:(lia)) as (c1 & -> & Hl1). simpl.
    destruct (IH2 c1 x ltac:(lia)) as (c2 & -> & Hl2).
    eexists. split; [reflexivity | lia].
Qed.

Lemma release_fields_terminates fuel : forall c m,
  (2 * links c + 1 <= fuel)%nat ->
  exists c', release_fields fuel c m = Done c' /\ (links c' <= links c)%nat.
Proof.
  induction fuel as [|fuel IH]; intros c m Hfuel; [lia |]. simpl.
  destruct (mc_fields (mcache_at c m)) as [|f rest] eqn:Hf; [eauto |].
  pose proof (links_write_mcache c m (set_mc_fields rest (mcache_at c m))) as Hw.
  rewrite Hf in Hw. simpl in Hw.
  destruct (proj1 (release_field_terminates fuel)
              (write_mcache m (set_mc_fields rest (mcache_at c m)) c) f ltac:(lia))
    as (c1 & -> & Hl1). simpl.
  destruct (IH c1 m ltac:(lia)) as (c2 & -> & Hl2).
  eexists. split; [reflexivity | lia].
Qed.

Lemma next_chain_ends_frame c c' n : forall mo,
  (forall m, mc_next (mcache_at c' m) = mc_next (mcache_at c m)) ->
  next_chain_ends c n mo -> next_chain_ends c' n mo.
Proof.
  induction n as [|n IH]; intros [m|] Hnext H; simpl in *; auto.
  rewrite Hnext. apply IH; assumption.
Qed.

(** [__releaseMetadataCache] returns when the [next] chain ends and the
    fuel covers its length and the links of the arena. *)
Lemma release_mcache_terminates fuel : forall c mo n,
  next_chain_ends c n mo ->
  (n + 2 * links c + 2 <= fuel)%nat ->
  exists c', __releaseMetadataCache fuel c mo = Done c'.
Proof.
  induction fuel as [|fuel IH]; intros c mo n Hchain Hfuel; [lia |].
  destruct mo as [m|]; [| simpl; eauto].
  destruct n as [|n]; [contradiction |]. simpl in Hchain. simpl.
  destruct (release_fields_terminates fuel c m ltac:(lia)) as (c1 & Hrf & Hl1).
  rewrite Hrf. simpl.
  pose proof (release_fields_frame _ _ _ _ Hrf) as (_ & _ & _ & Hall).
  set (c2 := write_mcache m (set_mc_magic ARROW_METADATA_CACHE_FREE_MAGIC (mcache_at c1 m)) c1).
  set (c3 := set_free_mcaches (dlist_push_tail (free_mcaches c2) m) c2).
  assert (Hl3 : links (back_mcache_block c3 (mc_owner (mcache_at c m))) = links c1).
  { rewrite links_back_mcache_block.
    pose proof (links_write_mcache c1 m
                  (set_mc_magic ARROW_METADATA_CACHE_FREE_MAGIC (mcache_at c1 m))) as Hw.
    simpl in Hw. assert (H32 : links c3 = links c2) by reflexivity.
    fold c2 in Hw. lia. }
  apply (IH (back_mcache_block c3 (mc_owner (mcache_at c m))) _ n); [| lia].
  apply (next_chain_ends_frame c).
  - intros m'.
    pose proof (back_mcache_block_frame c3 (mc_owner (mcache_at c m))) as (_ & _ & _ & H4).
    destruct (H4 m') as (_ & -> & _).
    assert (H3 : mc_next (mcache_at c3 m') = mc_next (mcache_at c1 m')).
    { unfold c3. rewrite set_free_mcaches_at. unfold c2.
      destruct (decide (m = m')) as [<- | Hne].
      - rewrite mcache_at_write_eq. reflexivity.
      - rewrite mcache_at_write_ne by exact Hne. reflexivity. }
    rewrite H3. apply Hall.
  - exact Hchain.
Qed.

Lemma mtime_not_after_spec file cached :
  mtime_not_after file cached = true <-> spec_mtime_ge cached file.
Proof.
  unfold mtime_not_after, spec_mtime_ge.
  rewrite orb_true_iff, andb_true_iff, Z.ltb_lt, Z.eqb_eq, Z.leb_le. reflexivity.
Qed.

Section LookupProofs.

Variable gettimeofday : nat -> timeval.
Variable hash_bytes : Z -> Z -> Z.

(** Entries of another file are passed over. *)
Lemma lookup_walk_skip fuel c file_stat has_exclusive pre : forall rest,
  (forall m, m ∈ pre -> same_file file_stat (mcache_at c m) = false) ->
  lookup_walk gettimeofday fuel c file_stat has_exclusive (pre ++ rest)
  = lookup_walk gettimeofday fuel c file_stat has_exclusive rest.
Proof.
  induction pre as [|m pre IH]; intros rest Hpre; [reflexivity |].
  simpl. pose proof (Hpre m ltac:(left)) as Hm. unfold same_file in Hm.
  rewrite Hm. apply IH. intros m' Hm'. apply Hpre. right. exact Hm'.
Qed.

(** The cache [release_with_links] returns is that of
    [__releaseMetadataCache]. *)
Lemma release_with_links_state fuel : forall c mo links,
  (release_with_links fuel c mo links ≫= fun r => Done (fst r))
  = __releaseMetadataCache fuel c mo.
Proof.
  induction fuel as [|fuel IH]; intros c [m|] links; simpl; try reflexivity.
  destruct (release_fields fuel c m) as [c1 | | |]; simpl; try reflexivity.
  apply IH.
Qed.

(** Once the cursor is on the ring of [free_mcaches] the call does not
    return: the end marker of the loop is not on the ring. *)
Lemma walk_free_ring_no_return fuel : forall c links stat_buf cur,
  lookup_returns (walk_free_ring fuel c links stat_buf cur) = false.
Proof.
  induction fuel as [|fuel IH]; intros c links stat_buf cur; [reflexivity |].
  simpl. destruct cur as [|x]; [apply IH |].
  destruct (_ && _); [reflexivity | apply IH].
Qed.

(** On an empty ring the cursor stays on the list head. *)
Lemma walk_free_ring_empty fuel : forall c links stat_buf,
  free_mcaches c = [] ->
  walk_free_ring fuel c links stat_buf RingHead = LookupOutOfFuel.
Proof.
  induction fuel as [|fuel IH]; intros c links stat_buf H; [reflexivity |].
  simpl. rewrite H. apply IH. exact H.
Qed.

(** The walk at a stale entry of the file, under the exclusive lock. *)
Lemma lookup_walk_stale_exclusive fuel c file_stat e post :
  same_file file_stat (mcache_at c e) = true ->
  mtime_not_after (st_mtim file_stat) (st_mtim (mc_stat_buf (mcache_at c e))) = false ->
  lookup_walk gettimeofday fuel c file_stat true (e :: post)
  = match release_with_links fuel
            (unlink_from_hash (set_lru_list (dlist_delete (lru_list c) e) c) e)
            (Some e) ∅ with
    | Done (c', links) => walk_free_ring fuel c' links file_stat (chain_next c' links e)
    | Raise kind msg => LookupRaise kind msg
    | Fault why => LookupFault why
    | OutOfFuel => LookupOutOfFuel
    end.
Proof.
  intros Hsame Hm. simpl. unfold same_file in Hsame. rewrite Hsame, Hm. reflexivity.
Qed.

(** The rule of the lookup, for a file whose hash slot holds one entry
    [e] for that file (same device and inode):
    - the lookup returns the entry if and only if the cached mtime is
      greater than or equal to the mtime of the file, and it returns no
      other entry;
    - when the cached mtime is strictly older and the caller does not
      hold the exclusive lock, the lookup returns not-found and the cache
      is left as it was;
    - when the cached mtime is strictly older and the caller holds the
      exclusive lock, the lookup does not return. *)
Lemma lookup_mtime_rule fuel c file_stat has_exclusive pre e post :
  hash_slot_at c (arrowMetadataHashIndex hash_bytes file_stat) = pre ++ e :: post ->
  same_file file_stat (mcache_at c e) = true ->
  (forall m, m ∈ pre ++ post -> same_file file_stat (mcache_at c m) = false) ->
  let cached := st_mtim (mc_stat_buf (mcache_at c e)) in
  let r := lookupArrowMetadataCache gettimeofday hash_bytes fuel c file_stat has_exclusive in
  ((exists c', r = LookupFound e c') <-> spec_mtime_ge cached (st_mtim file_stat))
  /\ (forall m c', r = LookupFound m c' -> m = e)
  /\ (~ spec_mtime_ge cached (st_mtim file_stat) ->
      if has_exclusive then lookup_returns r = false else r = LookupNotFound c).
Proof.
  intros Hslot Hsame Hothers cached r.
  assert (Hpre : forall m, m ∈ pre -> same_file file_stat (mcache_at c m) = false).
  { intros m Hm. apply Hothers, elem_of_app. left. exact Hm. }
  assert (Hpost : forall m, m ∈ post -> same_file file_stat (mcache_at c m) = false).
  { intros m Hm. apply Hothers, elem_of_app. right. exact Hm. }
  assert (Hr : r = lookup_walk gettimeofday fuel c file_stat has_exclusive (e :: post)).
  { unfold r, lookupArrowMetadataCache. rewrite Hslot. apply lookup_walk_skip. exact Hpre. }
  destruct (mtime_not_after (st_mtim file_stat) cached) eqn:Hm.
  - (* the entry is valid *)
    simpl in Hr. unfold same_file in Hsame. rewrite Hsame in Hr.
    fold cached in Hr. rewrite Hm in Hr.
    pose proof (proj1 (mtime_not_after_spec _ _) Hm) as Hge.
    split; [split; [intros _; exact Hge | intros _; eexists; exact Hr] |].
    split; [intros m c' E; rewrite E in Hr; inversion Hr; reflexivity |].
    intros Hn. contradiction.
  - (* the entry is stale *)
    assert (Hnge : ~ spec_mtime_ge cached (st_mtim file_stat)).
    { intros Hge. apply mtime_not_after_spec in Hge. congruence. }
    destruct has_exclusive.
    + assert (Hno : lookup_returns r = false).
      { rewrite Hr, (lookup_walk_stale_exclusive _ _ _ _ _ Hsame Hm).
        destruct (release_with_links _ _ _ _) as [[c' links] | | |]; try reflexivity.
        apply walk_free_ring_no_return. }
      split; [split; [intros [c' E]; rewrite E in Hno; discriminate | intros; contradiction] |].
      split; [intros m c' E; rewrite E in Hno; discriminate |].
      intros _. exact Hno.
    + assert (Hnf : r = LookupNotFound c).
      { rewrite Hr. simpl. unfold same_file in Hsame. rewrite Hsame.
        fold cached. rewrite Hm.
        rewrite <- (app_nil_r post). rewrite lookup_walk_skip by exact Hpost.
        reflexivity. }
      split; [split; [intros [c' E]; rewrite E in Hnf; discriminate | intros; contradiction] |].
      split; [intros m c' E; rewrite E in Hnf; discriminate |].
      intros _. exact Hnf.
Qed.

End LookupProofs.

(** C1: the lookup of the file (dev 8, inode 42) in a cache that holds
    one entry of that file, cached with mtime 500.
    - With the file at mtime 500 the entry is returned, with or without
      the exclusive lock.
    - With the file at mtime 600 and without the exclusive lock the
      lookup returns not-found and leaves the cache as it was.
    - With the file at mtime 600 and under the exclusive lock the lookup
      never returns.  The entry is unlinked from the LRU list and from
      its hash slot and released; its block goes back to [free_blocks]
      and [free_mcaches] is left empty.  The loop then goes on from the
      released node: the cursor moves to the head of [free_mcaches] and
      stays there, since the list is empty and the end marker of the
      loop is the head of the hash slot.  Whatever the fuel, the call is
      still running. *)
Theorem C1_stale_entry_under_exclusive_lock :
  (forall fuel has_exclusive,
     exists c',
       lookupArrowMetadataCache demo_gettimeofday demo_hash_bytes fuel demo_cache
         (demo_stat 500) has_exclusive = LookupFound (0, 0) c')
  /\ (forall fuel,
        lookupArrowMetadataCache demo_gettimeofday demo_hash_bytes fuel demo_cache
          (demo_stat 600) false = LookupNotFound demo_cache)
  /\ (exists c',
        __releaseMetadataCache 2
          (unlink_from_hash
             (set_lru_list (dlist_delete (lru_list demo_cache) (0, 0)) demo_cache) (0, 0))
          (Some (0, 0)) = Done c'
        /\ lru_list c' = []
        /\ hash_slot_at c' (arrowMetadataHashIndex demo_hash_bytes (demo_stat 600)) = []
        /\ mc_magic (mcache_at c' (0, 0)) = ARROW_METADATA_CACHE_FREE_MAGIC
        /\ free_mcaches c' = []
        /\ free_blocks c' = [1; 2; 3; 0])
  /\ (forall fuel,
        lookupArrowMetadataCache demo_gettimeofday demo_hash_bytes fuel demo_cache
          (demo_stat 600) true = LookupOutOfFuel).
Proof.
  split; [intros fuel has_exclusive; destruct fuel, has_exclusive; eexists;
          vm_compute; reflexivity |].
  split; [intros fuel; destruct fuel; vm_compute; reflexivity |].
  split; [eexists; split; [vm_compute; reflexivity | vm_compute; repeat split] |].
  intros fuel. unfold lookupArrowMetadataCache.
  assert (Hslot : hash_slot_at demo_cache
                    (arrowMetadataHashIndex demo_hash_bytes (demo_stat 600)) = [(0, 0)])
    by (vm_compute; reflexivity).
  rewrite Hslot.
  etransitivity;
    [exact (lookup_walk_stale_exclusive demo_gettimeofday fuel demo_cache (demo_stat 600)
              (0, 0) [] eq_refl eq_refl) |].
  set (c1 := unlink_from_hash
               (set_lru_list (dlist_delete (lru_list demo_cache) (0, 0)) demo_cache) (0, 0)).
  destruct fuel as [|[|fuel]]; [reflexivity | reflexivity |].
  match goal with
  | |- context [release_with_links ?f ?c ?m ?l] =>
      change (release_with_links f c m l) with (release_with_links 2 c m l);
      assert (B : match release_with_links 2 c m l with
                  | Done (c', links) =>
                      bool_decide (free_mcaches c' = [])
                      && bool_decide (free_blocks c' = [1; 2; 3; 0])
                      && match chain_next c' links (0, 0) with
                         | RingHead => true
                         | RingItem _ => false
                         end
                  | _ => false
                  end = true) by (vm_compute; reflexivity);
      destruct (release_with_links 2 c m l) as [[c' links] | | |];
        try discriminate B
  end.
  apply andb_true_iff in B as [B Hcur]. apply andb_true_iff in B as [Hfree _].
  apply bool_decide_eq_true in Hfree.
  destruct (chain_next c' links (0, 0)); [| discriminate Hcur].
  apply walk_free_ring_empty. exact Hfree.
Qed.


(* ================================================================== *)
(** * Field entries: into the cache and back *)
(* ================================================================== *)

Lemma fcache_at_write_eq c x v : fcache_at (write_fcache x v c) x = v.
Proof. unfold fcache_at, write_fcache. simpl. rewrite lookup_insert_eq. reflexivity. Qed.

Lemma fcache_at_write_ne c x y v :
  x <> y -> fcache_at (write_fcache x v c) y = fcache_at c y.
Proof.
  intros H. unfold fcache_at, write_fcache. simpl.
  rewrite lookup_insert_ne by exact H. reflexivity.
Qed.

Lemma set_ticks_same c : set_ticks (ticks c) c = c.
Proof. destruct c. reflexivity. Qed.

Lemma slab_wf_equiv c A A' :
  (forall y, y ∈ A <-> y ∈ A') -> slab_wf c A -> slab_wf c A'.
Proof.
  intros Heq (H1 & H2 & H3 & H4). split; [exact H1 |]. split; [| split; [exact H3 |]].
  - intros y Hy. apply H2, Heq, Hy.
  - intros b y Hb Hy. destruct (H4 b y Hb Hy) as [Ha Hf]. split; [| exact Hf].
    intros Hin. apply Ha, Heq, Hin.
Qed.

Lemma slab_wf_weaken c A A' :
  (forall y, y ∈ A' -> y ∈ A) -> slab_wf c A -> slab_wf c A'.
Proof.
  intros Hsub (H1 & H2 & H3 & H4). split; [exact H1 |]. split; [| split; [exact H3 |]].
  - intros y Hy. apply H2, Hsub, Hy.
  - intros b y Hb Hy. destruct (H4 b y Hb Hy) as [Ha Hf]. split; [| exact Hf].
    intros Hin. apply Ha, Hsub, Hin.
Qed.

Lemma slots_of_block_fst b u y : y ∈ slots_of_block b u -> fst y = b.
Proof.
  unfold slots_of_block. rewrite list_elem_of_fmap. intros (k & -> & _). reflexivity.
Qed.

Lemma slots_of_block_NoDup b u : NoDup (slots_of_block b u).
Proof.
  unfold slots_of_block. apply NoDup_fmap_2; [| apply NoDup_seqZ].
  intros k1 k2 H. inversion H. reflexivity.
Qed.

Section RoundTrip.

Variable sizeof_arrowMetadataFieldCache : Z.
Variable gettimeofday : nat -> timeval.

Local Abbreviation quiet := (no_eviction gettimeofday).

(** With no entry old enough, [__reclaimMetadataCache] gives up; it has
    at most read the clock. *)
Lemma reclaim_quiet fuel c :
  quiet c ->
  exists t, __reclaimMetadataCache gettimeofday fuel c = Done (false, set_ticks t c).
Proof.
  unfold no_eviction, __reclaimMetadataCache.
  destruct (last (lru_list c)) as [m|]; intros H.
  - exists (S (ticks c)).
    change (mcache_at (set_ticks (S (ticks c)) c) m) with (mcache_at c m).
    rewrite H. reflexivity.
  - exists (ticks c). rewrite set_ticks_same. reflexivity.
Qed.

Lemma wait_free_block_quiet fuel c r c' :
  quiet c ->
  wait_free_block gettimeofday fuel c = Done (r, c') ->
  exists t, c' = set_ticks t c /\ (r = true -> free_blocks c <> []).
Proof.
  intros Hq. destruct fuel as [|fuel]; simpl; [discriminate |].
  destruct (free_blocks c) as [|b rest] eqn:Hfb.
  - destruct (reclaim_quiet fuel c Hq) as (t & ->). simpl.
    intros H. inversion H; subst. exists t. split; [reflexivity | discriminate].
  - intros H. inversion H; subst. exists (ticks c').
    rewrite set_ticks_same. split; [reflexivity | discriminate].
Qed.

(** Carving a block appends its items to [free_fcaches] and writes
    nothing else than these items and the header of the block. *)
Lemma carve_items l : forall c b,
  let c' := foldl (fun c fcache =>
                     let c := write_fcache fcache
                                (set_fc_magic ARROW_METADATA_CACHE_FREE_MAGIC
                                   (set_fc_owner b (fcache_at c fcache))) c in
                     set_free_fcaches (dlist_push_tail (free_fcaches c) fcache) c) c l in
  free_fcaches c' = free_fcaches c ++ l
  /\ free_blocks c' = free_blocks c /\ lru_list c' = lru_list c
  /\ mcaches c' = mcaches c /\ blocks c' = blocks c
  /\ (forall y, y ∉ l -> fcache_at c' y = fcache_at c y).
Proof.
  induction l as [|x l IH]; intros c b; simpl.
  - rewrite app_nil_r. repeat split; auto.
  - match goal with
    | |- context [foldl ?f ?c0 l] => destruct (IH c0 b) as (A & B & C & D & E & F)
    end.
    simpl in *. rewrite A, B, C, D, E. unfold dlist_push_tail. simpl.
    rewrite <- app_assoc. repeat split; auto.
    intros y Hy. rewrite F by (intros Hin; apply Hy; right; exact Hin).
    change (fcache_at (set_free_fcaches ?l0 ?c0) y) with (fcache_at c0 y).
    apply fcache_at_write_ne. intros ->. apply Hy. left.
Qed.

Lemma carve_fcache_block_spec c b :
  let c' := carve_fcache_block sizeof_arrowMetadataFieldCache c b in
  let slots := slots_of_block b (fcache_unitsz sizeof_arrowMetadataFieldCache) in
  free_fcaches c' = free_fcaches c ++ slots
  /\ free_blocks c' = free_blocks c /\ lru_list c' = lru_list c
  /\ mcaches c' = mcaches c
  /\ (forall y, y ∉ slots -> fcache_at c' y = fcache_at c y).
Proof.
  unfold carve_fcache_block.
  destruct (carve_items (slots_of_block b (fcache_unitsz sizeof_arrowMetadataFieldCache))
              (write_block b (mkBlock (fcache_unitsz sizeof_arrowMetadataFieldCache) 0) c) b)
    as (A & B & C & D & _ & F).
  simpl. repeat split; auto.
Qed.

Lemma quiet_same c c' :
  lru_list c' = lru_list c -> mcaches c' = mcaches c -> quiet c -> quiet c'.
Proof.
  unfold no_eviction, mcache_at. intros -> ->. auto.
Qed.

(** The refill loop keeps the free lists in order and leaves the
    entries in use alone. *)
Lemma refill_spec fuel : forall c A r c',
  quiet c -> slab_wf c A ->
  refill_free_fcaches sizeof_arrowMetadataFieldCache gettimeofday fuel c = Done (r, c') ->
  quiet c' /\ slab_wf c' A
  /\ (forall y, y ∈ A -> fcache_at c' y = fcache_at c y)
  /\ (r = true -> free_fcaches c' <> []).
Proof.
  induction fuel as [|fuel IH]; intros c A r c' Hq Hwf H; [discriminate |].
  simpl in H. destruct (free_fcaches c) as [|f0 fs] eqn:Hff.
  2:{ inversion H; subst. rewrite Hff.
      split; [exact Hq |]. split; [exact Hwf |]. split; [reflexivity |].
      intros _ E. discriminate E. }
  destruct (wait_free_block gettimeofday fuel c) as [[got c1] | | |] eqn:Hw;
    simpl in H; try discriminate.
  destruct (wait_free_block_quiet _ _ _ _ Hq Hw) as (t & -> & Hgot).
  destruct got.
  2:{ inversion H; subst.
      split; [exact Hq |]. split; [exact Hwf |]. split; [reflexivity |].
      intros E. discriminate E. }
  change (free_blocks (set_ticks t c)) with (free_blocks c) in H.
  destruct (free_blocks c) as [|b rest] eqn:Hfb; [discriminate |].
  destruct Hwf as (W1 & W2 & W3 & W4).
  set (c0 := set_free_blocks rest (set_ticks t c)) in *.
  destruct (carve_fcache_block_spec c0 b) as (A1 & A2 & A3 & A4 & A5).
  simpl in A1, A2, A3, A4.
  change (free_fcaches c0) with (free_fcaches c) in A1. rewrite Hff in A1. simpl in A1.
  rewrite Hfb in W3. apply NoDup_cons in W3 as [Hb Hrest].
  assert (HA : forall y, y ∈ A ->
            y ∉ slots_of_block b (fcache_unitsz sizeof_arrowMetadataFieldCache)).
  { intros y Hy Hin. apply slots_of_block_fst in Hin.
    destruct (W4 b y ltac:(rewrite Hfb; left) Hin) as [Hn _]. contradiction. }
  apply IH with (A := A) in H.
  - destruct H as (Q & W & F & R). split; [exact Q |]. split; [exact W |].
    split; [| exact R].
    intros y Hy. rewrite (F y Hy). rewrite A5 by (apply HA; exact Hy). reflexivity.
  - apply (quiet_same c); [rewrite A3; reflexivity | rewrite A4; reflexivity | exact Hq].
  - split; [rewrite A1; apply slots_of_block_NoDup |].
    split; [intros y Hy; rewrite A1; apply HA; exact Hy |].
    split; [rewrite A2; exact Hrest |].
    intros b' y Hb' Hy. rewrite A2 in Hb'. simpl in Hb'.
    destruct (W4 b' y ltac:(rewrite Hfb; right; exact Hb') Hy) as [Hn _].
    split; [exact Hn |]. rewrite A1. intros Hin.
    apply slots_of_block_fst in Hin. apply Hb. rewrite <- Hin, Hy. exact Hb'.
Qed.

(** [__allocMetadataFieldCache] hands out an item that is not in use,
    and leaves the entries in use alone. *)
Lemma alloc_field_spec fuel c A x c' :
  quiet c -> slab_wf c A ->
  __allocMetadataFieldCache sizeof_arrowMetadataFieldCache gettimeofday fuel c
  = Done (Some x, c') ->
  (x ∉ A) /\ quiet c' /\ slab_wf c' (x :: A)
  /\ (forall y, y ∈ A -> fcache_at c' y = fcache_at c y).
Proof.
  intros Hq Hwf. unfold __allocMetadataFieldCache.
  destruct (refill_free_fcaches sizeof_arrowMetadataFieldCache gettimeofday fuel c)
    as [[refilled c1] | | |] eqn:Hr; simpl; try discriminate.
  destruct (refill_spec _ _ _ _ _ Hq Hwf Hr) as (Q1 & (W1 & W2 & W3 & W4) & F1 & _).
  destruct refilled; [| discriminate].
  destruct (free_fcaches c1) as [|f0 rest] eqn:Hff; [discriminate |].
  intros H. inversion H; subst x c'. clear H.
  apply NoDup_cons in W1 as [Hf0 Hrest].
  assert (HxA : f0 ∉ A).
  { intros Hin. apply (W2 f0 Hin). left. }
  split; [exact HxA |]. split; [| split].
  - apply (quiet_same c1); [reflexivity | reflexivity | exact Q1].
  - split; [exact Hrest |]. split; [| split; [exact W3 |]].
    + intros y Hy. simpl. apply elem_of_cons in Hy as [-> | Hy]; [exact Hf0 |].
      intros Hin. apply (W2 y Hy). right. exact Hin.
    + intros b y Hb Hy. simpl in Hb. simpl.
      destruct (W4 b y Hb Hy) as [Hn Hf]. split.
      * intros Hin. apply elem_of_cons in Hin as [-> | Hin]; [| contradiction].
        apply Hf. left.
      * intros Hin. apply Hf. right. exact Hin.
  - intros y Hy.
    match goal with
    | |- fcache_at (write_fcache f0 ?v ?c0) y = _ =>
        rewrite (fcache_at_write_ne c0 f0 y v) by (intros ->; contradiction)
    end.
    apply F1. exact Hy.
Qed.


Lemma reads_back_mono c x f T T' :
  (forall y, y ∈ T -> y ∈ T') -> reads_back c x f T -> reads_back c x f T'.
Proof.
  intros Hsub H c' Hc'. apply H. intros y Hy. apply Hc', Hsub, Hy.
Qed.

Lemma reads_back_transfer c1 c2 x f T :
  (forall y, y ∈ T -> fcache_at c2 y = fcache_at c1 y) ->
  reads_back c1 x f T -> reads_back c2 x f T.
Proof.
  intros Hag H c' Hc'. apply H. intros y Hy. rewrite (Hc' y Hy). apply Hag, Hy.
Qed.

(** The [dlist_foreach] of the copy out of the cache, over entries that
    read back as [cs]. *)
Lemma children_by_cache_spec by_cache nch ids cs :
  Forall2 (fun id child => by_cache id = Done child) ids cs ->
  forall j, nch = j + Z.of_nat (length ids) ->
  children_by_cache by_cache nch ids j = Done cs.
Proof.
  induction 1 as [|id child ids cs Hid _ IH]; intros j Hn; simpl in *.
  - replace (nch - j) with 0 by lia. reflexivity.
  - destruct (Z.leb_spec nch j) as [Hle | _]; [lia |].
    rewrite Hid. simpl. rewrite (IH (j + 1)) by lia. reflexivity.
Qed.

Lemma fstate_nested_ind (P : RecordBatchFieldState -> Prop) :
  (forall typid typmod o n nc no nl vo vl eo el smin smax snull nch cs,
     Forall P cs ->
     P (mkRecordBatchFieldState typid typmod o n nc no nl vo vl eo el
          smin smax snull nch cs)) ->
  forall fstate, P fstate.
Proof.
  intros H. fix IH 1. intros [typid typmod o n nc no nl vo vl eo el smin smax snull nch cs].
  apply H. induction cs as [|child cs IHcs]; constructor; [apply IH | exact IHcs].
Qed.

Lemma set_fc_children_app_nil e : set_fc_children (fc_children e ++ []) e = e.
Proof. destruct e. simpl. rewrite app_nil_r. reflexivity. Qed.

Lemma quiet_write_fcache c x v : quiet c -> quiet (write_fcache x v c).
Proof. apply quiet_same; reflexivity. Qed.

Lemma slab_wf_write_fcache c x v A : slab_wf c A -> slab_wf (write_fcache x v c) A.
Proof. intros H. exact H. Qed.

(** The loop over [fstate->children] of [__buildArrowMetadataFieldCache]:
    it appends one entry per child to the [children] list of [x], and
    each of them reads back as its child. *)
Lemma cache_children_spec fuel x nch : forall cs,
  Forall (field_cached sizeof_arrowMetadataFieldCache gettimeofday) cs ->
  forall j c A r c',
  x ∈ A -> quiet c -> slab_wf c A ->
  forallb fstate_wf cs = true -> nch = j + Z.of_nat (length cs) ->
  cache_children
    (fun c child =>
       __buildArrowMetadataFieldCache sizeof_arrowMetadataFieldCache gettimeofday
         fuel c child) fuel x nch cs j c = Done (Some r, c') ->
  r = x /\ exists ids T,
    fcache_at c' x = set_fc_children (fc_children (fcache_at c x) ++ ids) (fcache_at c x)
    /\ (forall y, y ∈ T -> y ∉ A)
    /\ quiet c' /\ slab_wf c' (T ++ A)
    /\ (forall y, y ∈ A -> y <> x -> fcache_at c' y = fcache_at c y)
    /\ Forall2 (fun id child => reads_back c' id child T) ids cs.
Proof.
  induction 1 as [|child cs Hchild _ IH]; intros j c A r c' HxA Hq Hwf Hcs Hn H.
  - simpl in H, Hn. destruct (Z.ltb_spec j nch) as [Hlt | _]; [lia |].
    inversion H; subst r c'. split; [reflexivity |]. exists [], [].
    split; [symmetry; apply set_fc_children_app_nil |].
    split; [intros y Hy; inversion Hy |].
    split; [exact Hq |]. split; [exact Hwf |]. split; [reflexivity | constructor].
  - simpl in H, Hn, Hcs. apply andb_true_iff in Hcs as [Hc1 Hcs].
    destruct (Z.ltb_spec j nch) as [_ | Hge]; [| lia].
    destruct (__buildArrowMetadataFieldCache sizeof_arrowMetadataFieldCache
                gettimeofday fuel c child) as [[r1 c1] | | |] eqn:Hb;
      simpl in H; try discriminate.
    destruct r1 as [id|].
    2:{ destruct (__releaseMetadataFieldCache fuel c1 x); simpl in H; discriminate. }
    destruct (Hchild fuel c A id c1 Hq Hwf Hc1 Hb) as (T1 & Hid & Hd1 & Q1 & W1 & F1 & R1).
    assert (HxT1 : x ∉ T1) by (intros Hin; exact (Hd1 x Hin HxA)).
    set (c2 := write_fcache x
                 (set_fc_children (dlist_push_tail (fc_children (fcache_at c1 x)) id)
                    (fcache_at c1 x)) c1) in H.
    apply (IH (j + 1) c2 (T1 ++ A)) in H;
      [| apply elem_of_app; right; exact HxA
       | apply quiet_write_fcache; exact Q1
       | exact W1 | exact Hcs | lia].
    destruct H as (-> & ids & T & Hx & Hd & Q & W & F & R).
    split; [reflexivity |]. exists (id :: ids), (T1 ++ T).
    assert (Hag : forall y, y ∈ T1 -> fcache_at c' y = fcache_at c1 y).
    { intros y Hy. rewrite F.
      - unfold c2. apply fcache_at_write_ne. intros ->. contradiction.
      - apply elem_of_app. left. exact Hy.
      - intros ->. contradiction. }
    split; [| split; [| split; [exact Q | split; [| split]]]].
    + rewrite Hx. unfold c2. rewrite fcache_at_write_eq. rewrite (F1 x HxA).
      unfold dlist_push_tail. simpl. rewrite <- app_assoc. reflexivity.
    + intros y Hy HyA. apply elem_of_app in Hy as [Hy | Hy].
      * exact (Hd1 y Hy HyA).
      * apply (Hd y Hy). apply elem_of_app. right. exact HyA.
    + apply (slab_wf_equiv c' (T ++ T1 ++ A)); [| exact W].
      intros y. rewrite !elem_of_app. tauto.
    + intros y Hy Hne. rewrite F; [| apply elem_of_app; right; exact Hy | exact Hne].
      unfold c2. rewrite fcache_at_write_ne by (intros E; apply Hne; symmetry; exact E).
      apply F1. exact Hy.
    + constructor.
      * apply (reads_back_mono c' id child T1); [intros y Hy; apply elem_of_app; left; exact Hy |].
        apply (reads_back_transfer c1); [exact Hag | exact R1].
      * eapply Forall2_impl; [exact R |]. intros i f Hr.
        apply (reads_back_mono c' i f T); [| exact Hr].
        intros y Hy. apply elem_of_app. right. exact Hy.
Qed.


Lemma build_field_cache_eq fuel c typid typmod o n nc no nl vo vl eo el
    smin smax snull nch cs :
  __buildArrowMetadataFieldCache sizeof_arrowMetadataFieldCache gettimeofday fuel c
    (mkRecordBatchFieldState typid typmod o n nc no nl vo vl eo el smin smax snull nch cs)
  = ('(r, c) ← __allocMetadataFieldCache sizeof_arrowMetadataFieldCache
                  gettimeofday fuel c;
     match r with
     | None => Done (None, c)
     | Some fcache =>
         let e := fcache_at c fcache in
         let c := write_fcache fcache
                    (mkFieldCache (fc_owner e) typid typmod o n nc no nl vo vl eo el
                       smin smax snull nch [] (fc_magic e)) c in
         cache_children
           (fun c child =>
              __buildArrowMetadataFieldCache sizeof_arrowMetadataFieldCache
                gettimeofday fuel c child) fuel fcache nch cs 0 c
     end).
Proof. reflexivity. Qed.

Lemma fstate_depth_child child cs fuel :
  (foldr (fun c acc => Nat.max (fstate_depth c) acc) 0%nat cs <= fuel)%nat ->
  child ∈ cs -> (fstate_depth child <= fuel)%nat.
Proof.
  induction cs as [|c0 cs IH]; intros Hle Hin; [inversion Hin |].
  simpl in Hle. apply elem_of_cons in Hin as [-> | Hin]; [lia |].
  apply IH; [lia | exact Hin].
Qed.

(** Every field state whose [num_children] counts its children is
    cached so that it reads back. *)
Lemma build_field_cached fstate :
  field_cached sizeof_arrowMetadataFieldCache gettimeofday fstate.
Proof.
  induction fstate as [typid typmod o n nc no nl vo vl eo el smin smax snull nch cs IHcs]
    using fstate_nested_ind.
  intros fuel c A x c' Hq Hwf Hf H.
  rewrite build_field_cache_eq in H.
  simpl in Hf. apply andb_true_iff in Hf as [Hnch Hcs]. apply Z.eqb_eq in Hnch.
  destruct (__allocMetadataFieldCache sizeof_arrowMetadataFieldCache gettimeofday fuel c)
    as [[r1 c1] | | |] eqn:Ha; simpl in H; try discriminate.
  destruct r1 as [x0|]; [| discriminate].
  destruct (alloc_field_spec _ _ _ _ _ Hq Hwf Ha) as (Hx0 & Q1 & W1 & F1).
  set (e0 := mkFieldCache (fc_owner (fcache_at c1 x0)) typid typmod o n nc no nl vo vl
               eo el smin smax snull nch [] (fc_magic (fcache_at c1 x0))) in H.
  apply (cache_children_spec fuel x0 nch cs IHcs 0 (write_fcache x0 e0 c1) (x0 :: A)) in H;
    [| left | apply quiet_write_fcache; exact Q1 | exact W1 | exact Hcs | lia].
  destruct H as (-> & ids & T & Hx & Hd & Q & W & F & R).
  rewrite fcache_at_write_eq in Hx. simpl in Hx.
  exists (x0 :: T).
  split; [left |]. split; [| split; [exact Q | split; [| split]]].
  - intros y Hy HyA. apply elem_of_cons in Hy as [-> | Hy]; [contradiction |].
    apply (Hd y Hy). right. exact HyA.
  - apply (slab_wf_equiv c' (T ++ x0 :: A)); [| exact W].
    intros y. simpl. rewrite elem_of_app, !elem_of_cons, elem_of_app. tauto.
  - intros y Hy. assert (y <> x0) by (intros ->; contradiction).
    rewrite F; [| right; exact Hy | assumption].
    rewrite fcache_at_write_ne by (intros E; subst; contradiction).
    apply F1. exact Hy.
  - intros c'' Hag fuel' Hfuel. simpl in Hfuel.
    destruct fuel' as [|fuel']; [lia |]. simpl.
    rewrite (Hag x0) by left. rewrite Hx. simpl.
    assert (Hlen : length ids = length cs) by (eapply Forall2_length; exact R).
    destruct (Z.ltb_spec 0 nch) as [Hpos | Hzero].
    + rewrite (children_by_cache_spec _ nch ids cs); [reflexivity | | lia].
      apply Forall2_same_length_lookup. split; [exact Hlen |].
      intros i id child Hi Hc.
      assert (Hr : reads_back c' id child T).
      { apply Forall2_same_length_lookup in R as [_ R]. exact (R i id child Hi Hc). }
      apply Hr.
      * intros y Hy. apply Hag. right. exact Hy.
      * apply (fstate_depth_child child cs); [lia |].
        apply list_elem_of_lookup. exists i. exact Hc.
    + assert (cs = []) by (destruct cs; [reflexivity | simpl in Hnch; lia]).
      subst cs. simpl in Hnch. subst nch. reflexivity.
Qed.

End RoundTrip.

(* ------------------------------------------------------------------ *)
(** ** The field states of the raw builder *)
(* ------------------------------------------------------------------ *)

Lemma fstate_wf_same f f' :
  children f' = children f -> num_children f' = num_children f ->
  fstate_wf f' = fstate_wf f.
Proof. destruct f, f'; simpl; intros -> ->; reflexivity. Qed.

Lemma assign_buffer_wf fstate con has_extra fstate' con' :
  __assignRecordBatchFieldStateBuffer fstate con has_extra = Ok (fstate', con') ->
  fstate_wf fstate' = fstate_wf fstate.
Proof.
  intros H. apply assign_buffer_keeps in H. destruct H as (_ & _ & _ & _ & _ & Hc & Hn).
  apply fstate_wf_same; assumption.
Qed.

Lemma bind_buffers_wf fstate con o typid has_extra fstate' con' :
  bind_buffers fstate con o typid has_extra = Ok (fstate', con') ->
  fstate_wf fstate = true -> fstate_wf fstate' = true.
Proof.
  unfold bind_buffers. intros H Hwf. apply assign_buffer_wf in H. rewrite H.
  destruct fstate; exact Hwf.
Qed.

Lemma field_nested_ind (P : ArrowField -> Prop) :
  (forall name t metadata fchildren,
     Forall P fchildren -> P (mkArrowField name t metadata fchildren)) ->
  forall field, P field.
Proof.
  intros H. fix IH 1. intros [name t metadata fchildren].
  apply H. induction fchildren as [|f fs IHfs]; constructor; [apply IH | exact IHfs].
Qed.

Lemma build_children_wf build fs :
  Forall (fun f => forall con c con', build con f = Ok (c, con') -> fstate_wf c = true) fs ->
  forall con cs con',
    build_children build fs con = Ok (cs, con') ->
    length cs = length fs /\ forallb fstate_wf cs = true.
Proof.
  induction 1 as [|f fs Hf _ IH]; intros con cs con' H; simpl in H.
  - inversion H; subst. split; reflexivity.
  - destruct (build con f) as [[c1 con1] | k m] eqn:E1; simpl in H; [| discriminate].
    destruct (build_children build fs con1) as [[cs1 con2] | k m] eqn:E2; simpl in H;
      [| discriminate].
    inversion H; subst. destruct (IH _ _ _ E2) as [Hl Hw]. simpl.
    rewrite Hl, Hw, (Hf _ _ _ E1). split; reflexivity.
Qed.

Lemma init_fstate_wf fnode : fstate_wf (init_fstate fnode) = true.
Proof. reflexivity. Qed.

Lemma raw_field_wf cat field :
  forall con depth fstate con',
    __buildRecordBatchFieldState cat con field depth = Ok (fstate, con') ->
    fstate_wf fstate = true.
Proof.
  induction field as [name t metadata fchildren IHc] using field_nested_ind.
  intros con depth fstate con' H. simpl in H.
  destruct (next_fnode con) as [[fnode con0] | k m]; simpl in H; [| discriminate].
  pose proof (init_fstate_wf fnode) as Hinit.
  destruct t; simpl in H;
    try (lazymatch type of IHc with Forall _ ?l =>
           lazymatch type of H with context [l] => fail | _ => idtac end end;
         repeat match type of H with
           | context [if ?b then _ else _] => destruct b
           | context [match ?u with _ => _ end] =>
               match type of u with
               | ArrowPrecision => destruct u
               | ArrowDateUnit => destruct u
               | ArrowTimeUnit => destruct u
               | ArrowIntervalUnit => destruct u
               end
           end; try discriminate;
         (eapply bind_buffers_wf; [exact H | first [exact Hinit | reflexivity]])).
  - destruct fchildren as [|child [|? ?]]; try discriminate.
    destruct (0 <? depth); [discriminate |].
    match type of H with
    | context [__assignRecordBatchFieldStateBuffer ?f ?c ?b] =>
        destruct (__assignRecordBatchFieldStateBuffer f c b) as [[f1 c1] | k m] eqn:E1
    end; simpl in H; [| discriminate].
    destruct (__buildRecordBatchFieldState cat c1 child (depth + 1))
      as [[cstate c2] | k m] eqn:E2; simpl in H; [| discriminate].
    destruct (negb _); [discriminate |]. inversion H; subst.
    apply Forall_cons in IHc as [Hchild _].
    destruct f1; simpl. rewrite (Hchild _ _ _ _ E2). reflexivity.
  - destruct fchildren as [|child [|? ?]]; try discriminate.
    destruct (0 <? depth); [discriminate |].
    match type of H with
    | context [__assignRecordBatchFieldStateBuffer ?f ?c ?b] =>
        destruct (__assignRecordBatchFieldStateBuffer f c b) as [[f1 c1] | k m] eqn:E1
    end; simpl in H; [| discriminate].
    destruct (__buildRecordBatchFieldState cat c1 child (depth + 1))
      as [[cstate c2] | k m] eqn:E2; simpl in H; [| discriminate].
    destruct (negb _); [discriminate |]. inversion H; subst.
    apply Forall_cons in IHc as [Hchild _].
    destruct f1; simpl. rewrite (Hchild _ _ _ _ E2). reflexivity.
  - destruct (0 <? depth); [discriminate |].
    match type of H with
    | context [__assignRecordBatchFieldStateBuffer ?f ?c ?b] =>
        destruct (__assignRecordBatchFieldStateBuffer f c b) as [[f1 c1] | k m] eqn:E1
    end; simpl in H; [| discriminate].
    match type of H with
    | context [build_children ?g ?l ?c] =>
        destruct (build_children g l c) as [[cs c2] | k m] eqn:E2
    end; simpl in H; [| discriminate].
    apply build_children_wf in E2 as [Hl Hw].
    2:{ eapply Forall_impl; [exact IHc |]. intros f Hf con1 c con2 E. exact (Hf _ _ _ _ E). }
    unfold __assignRecordBatchFieldStateComposite in H.
    destruct (List.find _ _); simpl in H; [| discriminate].
    inversion H; subst. destruct f1; simpl.
    rewrite Hl, Z.eqb_refl, Hw. reflexivity.
Qed.

Lemma apply_children_wf apply cs :
  Forall (fun c => forall b, fstate_wf c = true -> fstate_wf (apply c b) = true) cs ->
  forall bs, forallb fstate_wf cs = true ->
    length (apply_children apply cs bs) = length cs
    /\ forallb fstate_wf (apply_children apply cs bs) = true.
Proof.
  induction 1 as [|c cs Hc _ IH]; intros bs Hw; simpl in *.
  - split; reflexivity.
  - apply andb_true_iff in Hw as [Hw1 Hw2]. destruct bs as [|b bs]; simpl.
    + rewrite Hw1, Hw2. split; reflexivity.
    + destruct (IH bs Hw2) as [Hl Hf]. rewrite Hl, Hf, (Hc b Hw1). split; reflexivity.
Qed.

Lemma apply_stats_wf fstate :
  forall bstats rb_index,
    fstate_wf fstate = true ->
    fstate_wf (__applyArrowFieldStatsBinary fstate bstats rb_index) = true.
Proof.
  induction fstate as [typid typmod o n nc no nl vo vl eo el smin smax snull nch cs IHcs]
    using fstate_nested_ind.
  intros bstats rb_index Hw. simpl in Hw. apply andb_true_iff in Hw as [Hn Hw].
  destruct (apply_children_wf
              (fun c b => __applyArrowFieldStatsBinary c b rb_index) cs) with (bs := subfields bstats)
    as [Hl Hf]; [| exact Hw |].
  - eapply Forall_impl; [exact IHcs |]. intros c Hc b. apply Hc.
  - simpl.
    destruct (bs_isnull bstats), (bs_min_values bstats), (bs_max_values bstats),
      (0 <? bs_unitsz bstats); simpl; rewrite Hl, Hn, Hf; reflexivity.
Qed.

Lemma apply_fields_wf fs : forall n j bs rb_index,
  forallb fstate_wf fs = true ->
  forallb fstate_wf (apply_fields n j fs bs rb_index) = true.
Proof.
  induction fs as [|f fs IH]; intros n j bs rb_index Hw; simpl.
  - destruct (j <? n); exact Hw.
  - destruct (j <? n); [| exact Hw].
    simpl in Hw. apply andb_true_iff in Hw as [Hw1 Hw2].
    destruct bs as [|b bs]; simpl.
    + rewrite Hw1, Hw2. reflexivity.
    + rewrite (apply_stats_wf f b rb_index Hw1), (IH n (j + 1) bs rb_index Hw2).
      reflexivity.
Qed.

Lemma build_fields_wf cat fs : forall con fstates con',
  build_fields cat con fs = Ok (fstates, con') ->
  forallb fstate_wf fstates = true.
Proof.
  induction fs as [|f fs IH]; intros con fstates con' H; simpl in H.
  - inversion H; subst. reflexivity.
  - destruct (__buildRecordBatchFieldState cat con f 0) as [[f1 con1] | k m] eqn:E1;
      simpl in H; [| discriminate].
    destruct (build_fields cat con1 fs) as [[fs1 con2] | k m] eqn:E2;
      simpl in H; [| discriminate].
    inversion H; subst. simpl.
    rewrite (raw_field_wf _ _ _ _ _ _ E1), (IH _ _ _ E2). reflexivity.
Qed.

Lemma record_batch_state_wf cat schema_fields rb_index block rbatch rb_state :
  __buildRecordBatchStateOne cat schema_fields rb_index block rbatch = Ok rb_state ->
  forallb fstate_wf (fields rb_state) = true.
Proof.
  unfold __buildRecordBatchStateOne. intros H.
  destruct (rbatch_compression rbatch); [discriminate |].
  match type of H with
  | context [build_fields cat ?c ?l] =>
      destruct (build_fields cat c l) as [[fstates con] | k m] eqn:E
  end; simpl in H; [| discriminate].
  destruct (buffers con); [| discriminate]. destruct (fnodes con); [| discriminate].
  inversion H; subst. simpl. eapply build_fields_wf. exact E.
Qed.

Lemma build_batches_wf cat schema_fields arrow_bstats blocks :
  forall i rbatches rbs,
    build_batches cat schema_fields arrow_bstats i blocks rbatches = Ok rbs ->
    Forall (fun rb => forallb fstate_wf (fields rb) = true) rbs.
Proof.
  induction blocks as [|block blocks IH]; intros i rbatches rbs H; simpl in H.
  - inversion H; subst. constructor.
  - destruct rbatches as [|rbatch rbatches]; [discriminate |].
    destruct (__buildRecordBatchStateOne cat schema_fields i block rbatch)
      as [rb | k m] eqn:E1; simpl in H; [| discriminate].
    destruct (build_batches cat schema_fields arrow_bstats (i + 1) blocks rbatches)
      as [rest | k m] eqn:E2; simpl in H; [| discriminate].
    inversion H; subst. constructor; [| eapply IH; exact E2].
    apply record_batch_state_wf in E1.
    destruct arrow_bstats as [bstats|]; [| exact E1].
    simpl. apply apply_fields_wf. exact E1.
Qed.

(** In every field state of a file state built from the file,
    [num_children] counts the children. *)
Lemma file_state_wf __trim cat files name af_state notes :
  __buildArrowFileStateByFile __trim cat files name = Ok (Some af_state, notes) ->
  Forall (fun rb => forallb fstate_wf (fields rb) = true) (rb_list af_state).
Proof.
  unfold __buildArrowFileStateByFile. intros H.
  destruct (open_arrow_file files name) as [e | r].
  { destruct (negb e); discriminate. }
  destruct r as [af_info | k m]; simpl in H; [| discriminate].
  destruct (af_dictionaries af_info); [discriminate |].
  destruct (af_recordBatches af_info) as [rbatches|]; [| discriminate].
  match type of H with
  | context [build_batches ?a ?b ?c ?d ?e ?f] =>
      destruct (build_batches a b c d e f) as [rbs | k m] eqn:E
  end; simpl in H; [| discriminate].
  inversion H; subst. simpl. eapply build_batches_wf. exact E.
Qed.

Lemma forallb_elem_of {A} (f : A -> bool) l x :
  forallb f l = true -> x ∈ l -> f x = true.
Proof.
  induction l as [|a l IH]; intros H Hin; [inversion Hin |].
  simpl in H. apply andb_true_iff in H as [H1 H2].
  apply elem_of_cons in Hin as [-> | Hin]; [exact H1 | exact (IH H2 Hin)].
Qed.

Lemma startup_cache_quiet gettimeofday kb :
  cache_quiet gettimeofday (pgstrom_startup_arrow_fdw kb).
Proof.
  split; [exact I |]. unfold slab_wf, pgstrom_startup_arrow_fdw. simpl.
  split; [constructor |]. split; [intros y Hy; inversion Hy |].
  split; [apply NoDup_seqZ |]. intros b y _ _. split; apply not_elem_of_nil.
Qed.

(** C3: a field state that [__buildArrowFileStateByFile] builds from the
    file, once [__buildArrowMetadataFieldCache] has put it into a cache in
    which nothing is evicted meanwhile, is given back by
    [__buildRecordBatchFieldStateByCache] as the equal tree: the scalar
    members and the number, order and contents of the children. *)
Theorem C3_field_state_by_cache_equals_by_file
    (sizeof_arrowMetadataFieldCache : Z) (gettimeofday : nat -> timeval)
    (__trim : string -> string) (cat : HostCatalog) (files : ArrowFiles)
    (name : string) (af_state : ArrowFileState) (notes : debug_notes)
    (rb_state : RecordBatchState) (fstate : RecordBatchFieldState)
    (fuel : nat) (c c' : arrowMetadataCacheHead) (fcache : slot_id) :
  __buildArrowFileStateByFile __trim cat files name = Ok (Some af_state, notes) ->
  rb_state ∈ rb_list af_state ->
  fstate ∈ fields rb_state ->
  cache_quiet gettimeofday c ->
  __buildArrowMetadataFieldCache sizeof_arrowMetadataFieldCache gettimeofday fuel c fstate
  = Done (Some fcache, c') ->
  forall fuel', (fstate_depth fstate <= fuel')%nat ->
    __buildRecordBatchFieldStateByCache fuel' c' fcache = Done fstate.
Proof.
  intros Hfile Hrb Hf [Hq Hwf] Hbuild fuel' Hfuel.
  assert (Hw : fstate_wf fstate = true).
  { apply file_state_wf in Hfile. rewrite Forall_forall in Hfile.
    exact (forallb_elem_of _ _ _ (Hfile rb_state Hrb) Hf). }
  destruct (build_field_cached sizeof_arrowMetadataFieldCache gettimeofday fstate
              fuel c [] fcache c' Hq Hwf Hw Hbuild) as (T & _ & _ & _ & _ & _ & R).
  apply R; [reflexivity | exact Hfuel].
Qed.

Lemma C3_field_state_by_cache_equals_by_file_witness :
  exists fcache c',
    __buildArrowMetadataFieldCache 200 demo_gettimeofday 10
      (pgstrom_startup_arrow_fdw 1024) list_fstate = Done (Some fcache, c')
    /\ __buildRecordBatchFieldStateByCache 2 c' fcache = Done list_fstate.
Proof.
  assert (H : match __buildArrowMetadataFieldCache 200 demo_gettimeofday 10
                      (pgstrom_startup_arrow_fdw 1024) list_fstate with
              | Done (Some _, _) => true
              | _ => false
              end = true) by (vm_compute; reflexivity).
  revert H.
  destruct (__buildArrowMetadataFieldCache 200 demo_gettimeofday 10
              (pgstrom_startup_arrow_fdw 1024) list_fstate)
    as [[[fcache|] c'] | | |] eqn:E; intros H; try discriminate H.
  exists fcache, c'. split; [reflexivity |].
  apply (C3_field_state_by_cache_equals_by_file 200 demo_gettimeofday trim_blanks
             demo_catalog list_files "/arr/xs.arrow" list_af_state [] list_rb_state
             list_fstate 10 (pgstrom_startup_arrow_fdw 1024) c' fcache).
  - vm_compute; reflexivity.
  - left.
  - left.
  - apply startup_cache_quiet.
  - exact E.
  - simpl; lia.
Defined.

From Stdlib Require DecimalString DecimalPos.

(* ================================================================== *)
(** * Layout of a record batch *)
(* ================================================================== *)

Lemma assign_nullmap_takes fstate con fstate' con' :
  assign_nullmap fstate con = Ok (fstate', con') ->
  fnodes con' = fnodes con
  /\ exists b, buffers con = b :: buffers con'.
Proof.
  unfold assign_nullmap, next_buffer. destruct con as [bs ns]. simpl.
  destruct bs as [|b rest]; simpl; [discriminate |]. intros H.
  case_result H; try discriminate; inversion H; subst; simpl; eauto.
Qed.

Lemma assign_values_takes fstate con has_extra fstate' con' :
  assign_values fstate con has_extra = Ok (fstate', con') ->
  fnodes con' = fnodes con
  /\ exists bs, buffers con = bs ++ buffers con'
       /\ length bs = if unitsz (attopts fstate) =? 0 then 0%nat else 1%nat.
Proof.
  unfold assign_values, next_buffer. destruct con as [bs ns]. simpl.
  destruct (unitsz (attopts fstate) =? 0).
  - intros H. inversion H; subst. split; [reflexivity |]. exists []. auto.
  - destruct bs as [|b rest]; simpl; [discriminate |]. intros H.
    case_result H; try discriminate; inversion H; subst; simpl.
    split; [reflexivity |]. exists [b]. auto.
Qed.

Lemma assign_extra_takes fstate con has_extra fstate' con' :
  assign_extra fstate con has_extra = Ok (fstate', con') ->
  fnodes con' = fnodes con
  /\ exists bs, buffers con = bs ++ buffers con'
       /\ length bs = if has_extra then 1%nat else 0%nat.
Proof.
  unfold assign_extra, next_buffer. destruct con as [bs ns]. simpl.
  destruct has_extra.
  - destruct bs as [|b rest]; simpl; [discriminate |]. intros H.
    case_result H; try discriminate; inversion H; subst; simpl.
    split; [reflexivity |]. exists [b]. auto.
  - intros H. inversion H; subst. split; [reflexivity |]. exists []. auto.
Qed.

(** [__assignRecordBatchFieldStateBuffer] takes the nullmap buffer, the
    values buffer unless the unit size is zero, and the extra buffer
    when there is one; the field nodes stay. *)
Lemma assign_buffer_takes fstate con has_extra fstate' con' :
  __assignRecordBatchFieldStateBuffer fstate con has_extra = Ok (fstate', con') ->
  fnodes con' = fnodes con
  /\ exists bs, buffers con = bs ++ buffers con'
       /\ length bs = (1 + (if (unitsz (attopts fstate) =? 0)%Z then 0 else 1)
                       + (if has_extra then 1 else 0))%nat.
Proof.
  unfold __assignRecordBatchFieldStateBuffer. intros H.
  destruct (assign_nullmap fstate con) as [[f1 c1] | k1 m1] eqn:E1; simpl in H;
    [| discriminate].
  destruct (assign_values f1 c1 has_extra) as [[f2 c2] | k2 m2] eqn:E2; simpl in H;
    [| discriminate].
  pose proof (assign_nullmap_keeps _ _ _ _ E1) as (_ & _ & Ho & _).
  destruct (assign_nullmap_takes _ _ _ _ E1) as (N1 & b & B1).
  destruct (assign_values_takes _ _ _ _ _ E2) as (N2 & bs2 & B2 & L2).
  destruct (assign_extra_takes _ _ _ _ _ H) as (N3 & bs3 & B3 & L3).
  split; [congruence |].
  exists (b :: bs2 ++ bs3). split.
  - rewrite B1, B2, B3. simpl. rewrite app_assoc. reflexivity.
  - simpl. rewrite length_app, L2, L3, Ho. lia.
Qed.

Lemma assign_nullmap_aligned fstate con fstate' con' :
  assign_nullmap fstate con = Ok (fstate', con') ->
  nullmap_offset fstate mod 8 = 0 ->
  nullmap_offset fstate' mod 8 = 0
  /\ values_offset fstate' = values_offset fstate
  /\ extra_offset fstate' = extra_offset fstate.
Proof.
  unfold assign_nullmap, next_buffer. destruct (buffers con) as [|b rest]; simpl;
    [discriminate |]. intros H H0.
  destruct (0 <? null_count fstate).
  - destruct (_ <? _); [discriminate |].
    destruct (is_maxaligned _) eqn:Ha; simpl in H; [| discriminate].
    inversion H; subst. simpl. apply is_maxaligned_spec in Ha. simpl in Ha. auto.
  - inversion H; subst. auto.
Qed.

Lemma assign_values_aligned fstate con has_extra fstate' con' :
  assign_values fstate con has_extra = Ok (fstate', con') ->
  values_offset fstate mod 8 = 0 ->
  values_offset fstate' mod 8 = 0
  /\ nullmap_offset fstate' = nullmap_offset fstate
  /\ extra_offset fstate' = extra_offset fstate.
Proof.
  unfold assign_values, next_buffer. intros H H0.
  destruct (unitsz (attopts fstate) =? 0); [inversion H; subst; auto |].
  destruct (buffers con) as [|b rest]; simpl in H; [discriminate |].
  destruct (_ <? _); [discriminate |].
  destruct (is_maxaligned _) eqn:Ha; simpl in H; [| discriminate].
  inversion H; subst. simpl. apply is_maxaligned_spec in Ha. simpl in Ha. auto.
Qed.

Lemma assign_extra_aligned fstate con has_extra fstate' con' :
  assign_extra fstate con has_extra = Ok (fstate', con') ->
  extra_offset fstate mod 8 = 0 ->
  extra_offset fstate' mod 8 = 0
  /\ nullmap_offset fstate' = nullmap_offset fstate
  /\ values_offset fstate' = values_offset fstate.
Proof.
  unfold assign_extra, next_buffer. intros H H0.
  destruct has_extra; [| inversion H; subst; auto].
  destruct (buffers con) as [|b rest]; simpl in H; [discriminate |].
  destruct (is_maxaligned _) eqn:Ha; simpl in H; [| discriminate].
  inversion H; subst. simpl. apply is_maxaligned_spec in Ha. simpl in Ha. auto.
Qed.

Lemma assign_buffer_aligned fstate con has_extra fstate' con' :
  __assignRecordBatchFieldStateBuffer fstate con has_extra = Ok (fstate', con') ->
  nullmap_offset fstate mod 8 = 0 -> values_offset fstate mod 8 = 0 ->
  extra_offset fstate mod 8 = 0 ->
  nullmap_offset fstate' mod 8 = 0 /\ values_offset fstate' mod 8 = 0
  /\ extra_offset fstate' mod 8 = 0.
Proof.
  unfold __assignRecordBatchFieldStateBuffer. intros H Hn Hv He.
  destruct (assign_nullmap fstate con) as [[f1 c1] | k1 m1] eqn:E1; simpl in H;
    [| discriminate].
  destruct (assign_values f1 c1 has_extra) as [[f2 c2] | k2 m2] eqn:E2; simpl in H;
    [| discriminate].
  destruct (assign_nullmap_aligned _ _ _ _ E1 Hn) as (A1 & A2 & A3).
  destruct (assign_values_aligned _ _ _ _ _ E2 ltac:(congruence)) as (B1 & B2 & B3).
  destruct (assign_extra_aligned _ _ _ _ _ H ltac:(congruence)) as (C1 & C2 & C3).
  repeat split; congruence.
Qed.

Lemma assign_buffer_stats fstate con has_extra fstate' con' :
  __assignRecordBatchFieldStateBuffer fstate con has_extra = Ok (fstate', con') ->
  stat_min fstate' = stat_min fstate /\ stat_max fstate' = stat_max fstate
  /\ stat_isnull fstate' = stat_isnull fstate.
Proof.
  unfold __assignRecordBatchFieldStateBuffer. intros H.
  destruct (assign_nullmap fstate con) as [[f1 c1] | k1 m1] eqn:E1; simpl in H;
    [| discriminate].
  destruct (assign_values f1 c1 has_extra) as [[f2 c2] | k2 m2] eqn:E2; simpl in H;
    [| discriminate].
  assert (A : stat_min f1 = stat_min fstate /\ stat_max f1 = stat_max fstate
              /\ stat_isnull f1 = stat_isnull fstate).
  { revert E1. unfold assign_nullmap, next_buffer, mbind, result_bind. intros E1.
    case_result E1; try discriminate; inversion E1; subst; repeat split. }
  assert (B : stat_min f2 = stat_min f1 /\ stat_max f2 = stat_max f1
              /\ stat_isnull f2 = stat_isnull f1).
  { revert E2. unfold assign_values, next_buffer, mbind, result_bind. intros E2.
    case_result E2; try discriminate; inversion E2; subst; repeat split. }
  assert (C : stat_min fstate' = stat_min f2 /\ stat_max fstate' = stat_max f2
              /\ stat_isnull fstate' = stat_isnull f2).
  { revert H. unfold assign_extra, next_buffer, mbind, result_bind. intros H.
    case_result H; try discriminate; inversion H; subst; repeat split. }
  destruct A as (?&?&?), B as (?&?&?), C as (?&?&?). repeat split; congruence.
Qed.

(** A field state with the given members and no children passes the
    three tree predicates. *)
Lemma leaf_state_facts f :
  children f = [] ->
  nullmap_offset f mod 8 = 0 -> values_offset f mod 8 = 0 -> extra_offset f mod 8 = 0 ->
  stat_isnull f = true -> stat_min f = 0 -> stat_max f = 0 ->
  fstate_aligned f = true /\ fstate_no_stats f = true.
Proof.
  destruct f; simpl. intros -> Hn Hv He -> -> ->.
  unfold MAXIMUM_ALIGNOF. rewrite Hn, Hv, He. split; reflexivity.
Qed.

(** A branch of the switch that binds a field without sub-fields. *)
Lemma leaf_bound name t md ch depth con fnode con0 typmod o typid has_extra fstate con' :
  fnodes con = fnode :: fnodes con0 -> buffers con0 = buffers con ->
  bind_buffers (set_atttypmod typmod (init_fstate fnode)) con0 o typid has_extra
  = Ok (fstate, con') ->
  unitsz o <> 0 ->
  has_subfields t = false ->
  own_buffers t = (if has_extra then 3 else 2)%nat ->
  bound_from con (mkArrowField name t md ch) depth fstate con'.
Proof.
  intros Hn Hb H Hu Ht Ho. unfold bind_buffers in H.
  destruct (assign_buffer_takes _ _ _ _ _ H) as (N & bs & B & L).
  pose proof (assign_buffer_keeps _ _ _ _ _ H) as (_ & _ & _ & Hni & Hnc & Hch & Hnch).
  destruct (assign_buffer_stats _ _ _ _ _ H) as (S1 & S2 & S3).
  destruct (assign_buffer_aligned _ _ _ _ _ H eq_refl eq_refl eq_refl) as (A1 & A2 & A3).
  simpl in L, Hni, Hnc, Hch, Hnch, S1, S2, S3.
  destruct (Z.eqb_spec (unitsz o) 0) as [E | _]; [contradiction |].
  destruct (leaf_state_facts fstate Hch A1 A2 A3 S3 S1 S2) as [Fa Fs].
  split; [| split; [exact Fa | split; [exact Fs | intros _; auto]]].
  exists fnode, [], bs. simpl. rewrite Ht, Ho.
  repeat split; try assumption.
  - rewrite Hn, N. reflexivity.
  - rewrite <- Hb. exact B.
  - rewrite L. destruct has_extra; reflexivity.
Qed.

Lemma build_children_bound cat d fs :
  Forall (fun field => forall con depth fstate con',
            __buildRecordBatchFieldState cat con field depth = Ok (fstate, con') ->
            bound_from con field depth fstate con') fs ->
  forall con cs con',
    build_children (fun con f => __buildRecordBatchFieldState cat con f d) fs con
    = Ok (cs, con') ->
    (exists ns bs,
        fnodes con = ns ++ fnodes con' /\ buffers con = bs ++ buffers con'
        /\ length ns = foldr (fun f acc => (layout_nodes f + acc)%nat) 0%nat fs
        /\ length bs = foldr (fun f acc => (layout_buffers f + acc)%nat) 0%nat fs)
    /\ forallb fstate_aligned cs = true
    /\ forallb fstate_no_stats cs = true
    /\ (0 < d -> Forall (fun c => children c = []) cs).
Proof.
  intros HF. induction HF as [|f fs Hf _ IH]; intros con cs con' H; simpl in H.
  - inversion H; subst. split; [exists [], []; auto | auto].
  - destruct (__buildRecordBatchFieldState cat con f d) as [[c1 con1] | k m] eqn:E1;
      simpl in H; [| discriminate].
    destruct (build_children _ fs con1) as [[cs1 con2] | k m] eqn:E2;
      simpl in H; [| discriminate].
    inversion H; subst.
    destruct (Hf _ _ _ _ E1) as ((n & ns & bs & N & B & Ln & Lb & _) & Fa & Fs & Fl).
    destruct (IH _ _ _ E2) as ((ns' & bs' & N' & B' & Ln' & Lb') & Fa' & Fs' & Fl').
    split.
    + exists (n :: ns ++ ns'), (bs ++ bs'). simpl.
      rewrite N, N', B, B', !length_app, <- !app_assoc, Ln', Lb', <- Ln, Lb.
      repeat split; simpl; lia.
    + simpl. rewrite Fa, Fa', Fs, Fs'. repeat split.
      intros Hd. constructor; [apply Fl; exact Hd | apply Fl'; exact Hd].
Qed.

(** The [List] and [LargeList] branches. *)
Lemma list_bound name t md child depth con fnode con0 o f1 c1 cstate c2 typid :
  fnodes con = fnode :: fnodes con0 -> buffers con0 = buffers con ->
  (0 <? depth) = false ->
  __assignRecordBatchFieldStateBuffer (set_attopts o (init_fstate fnode)) con0 false
  = Ok (f1, c1) ->
  unitsz o <> 0 ->
  bound_from c1 child (depth + 1) cstate c2 ->
  has_subfields t = true -> own_buffers t = 2%nat ->
  bound_from con (mkArrowField name t md [child]) depth
    (set_atttypid typid (set_children 1 [cstate] f1)) c2.
Proof.
  intros Hn Hb Hd H Hu ((n & ns & bs' & N' & B' & Ln & Lb & _) & Fa & Fs & _) Ht Ho.
  destruct (assign_buffer_takes _ _ _ _ _ H) as (N & bs & B & L).
  pose proof (assign_buffer_keeps _ _ _ _ _ H) as (_ & _ & _ & Hni & Hnc & _ & _).
  destruct (assign_buffer_stats _ _ _ _ _ H) as (S1 & S2 & S3).
  destruct (assign_buffer_aligned _ _ _ _ _ H eq_refl eq_refl eq_refl) as (A1 & A2 & A3).
  simpl in L, Hni, Hnc, S1, S2, S3.
  destruct (Z.eqb_spec (unitsz o) 0) as [E | _]; [contradiction |].
  split; [| split; [| split]].
  - exists fnode, (n :: ns), (bs ++ bs'). simpl. rewrite Ht, Ho.
    rewrite Hn, <- N, N', <- Hb, B, B', length_app, <- app_assoc, L, Lb, <- Ln.
    repeat split; try assumption; simpl; lia.
  - destruct f1; simpl in *. unfold MAXIMUM_ALIGNOF. rewrite A1, A2, A3, Fa. reflexivity.
  - destruct f1; simpl in *. subst. rewrite Fs. reflexivity.
  - intros Hpos. apply Z.ltb_ge in Hd. lia.
Qed.

(** What [__buildRecordBatchFieldState] has done when it returns. *)
Lemma raw_field_bound cat field :
  forall con depth fstate con',
    __buildRecordBatchFieldState cat con field depth = Ok (fstate, con') ->
    bound_from con field depth fstate con'.
Proof.
  induction field as [name t metadata fchildren IHc] using field_nested_ind.
  intros con depth fstate con' H. simpl in H.
  destruct (next_fnode con) as [[fnode con0] | k m] eqn:En; simpl in H; [| discriminate].
  assert (Hn : fnodes con = fnode :: fnodes con0 /\ buffers con0 = buffers con).
  { unfold next_fnode in En. destruct (fnodes con); [discriminate |].
    inversion En; subst. auto. }
  destruct Hn as [Hn Hb].
  destruct t; simpl in H;
    try (lazymatch type of IHc with Forall _ ?l =>
           lazymatch type of H with context [l] => fail | _ => idtac end end;
         repeat match type of H with
           | context [if ?b then _ else _] => destruct b eqn:?
           | context [match ?u with _ => _ end] =>
               match type of u with
               | ArrowPrecision => destruct u
               | ArrowDateUnit => destruct u
               | ArrowTimeUnit => destruct u
               | ArrowIntervalUnit => destruct u
               end
           end; try discriminate;
         (eapply (leaf_bound _ _ _ _ _ _ _ _ _ _ _ _ _ _ Hn Hb H);
          [ simpl; lia | reflexivity | reflexivity ])).
  - destruct fchildren as [|child [|? ?]]; try discriminate.
    destruct (0 <? depth) eqn:Hd; [discriminate |].
    match type of H with
    | context [__assignRecordBatchFieldStateBuffer ?f ?c ?b] =>
        destruct (__assignRecordBatchFieldStateBuffer f c b) as [[f1 c1] | k m] eqn:E1
    end; simpl in H; [| discriminate].
    destruct (__buildRecordBatchFieldState cat c1 child (depth + 1))
      as [[cstate c2] | k m] eqn:E2; simpl in H; [| discriminate].
    destruct (negb _); [discriminate |]. inversion H; subst.
    apply Forall_cons in IHc as [Hchild _].
    eapply list_bound; try eassumption; try reflexivity.
    + simpl. lia.
    + apply Hchild. exact E2.
  - destruct fchildren as [|child [|? ?]]; try discriminate.
    destruct (0 <? depth) eqn:Hd; [discriminate |].
    match type of H with
    | context [__assignRecordBatchFieldStateBuffer ?f ?c ?b] =>
        destruct (__assignRecordBatchFieldStateBuffer f c b) as [[f1 c1] | k m] eqn:E1
    end; simpl in H; [| discriminate].
    destruct (__buildRecordBatchFieldState cat c1 child (depth + 1))
      as [[cstate c2] | k m] eqn:E2; simpl in H; [| discriminate].
    destruct (negb _); [discriminate |]. inversion H; subst.
    apply Forall_cons in IHc as [Hchild _].
    eapply list_bound; try eassumption; try reflexivity.
    + simpl. lia.
    + apply Hchild. exact E2.
  - destruct (0 <? depth) eqn:Hd; [discriminate |].
    match type of H with
    | context [__assignRecordBatchFieldStateBuffer ?f ?c ?b] =>
        destruct (__assignRecordBatchFieldStateBuffer f c b) as [[f1 c1] | k m] eqn:E1
    end; simpl in H; [| discriminate].
    match type of H with
    | context [build_children ?g ?l ?c] =>
        destruct (build_children g l c) as [[cs c2] | k m] eqn:E2
    end; simpl in H; [| discriminate].
    apply Z.ltb_ge in Hd.
    destruct (build_children_bound cat (depth + 1) fchildren IHc _ _ _ E2)
      as ((ns & bs' & N' & B' & Ln & Lb) & Fa & Fs & _).
    unfold __assignRecordBatchFieldStateComposite in H.
    destruct (List.find _ _); simpl in H; [| discriminate].
    inversion H; subst.
    destruct (assign_buffer_takes _ _ _ _ _ E1) as (N & bs & B & L).
    pose proof (assign_buffer_keeps _ _ _ _ _ E1) as (_ & _ & _ & Hni & Hnc & _ & _).
    destruct (assign_buffer_stats _ _ _ _ _ E1) as (S1 & S2 & S3).
    destruct (assign_buffer_aligned _ _ _ _ _ E1 eq_refl eq_refl eq_refl) as (A1 & A2 & A3).
    simpl in L, Hni, Hnc, S1, S2, S3.
    split; [| split; [| split]].
    + exists fnode, ns, (bs ++ bs'). simpl.
      rewrite Hn, <- N, N', <- Hb, B, B', length_app, <- app_assoc, L, Lb, Ln.
      repeat split; try assumption; simpl; lia.
    + destruct f1; simpl in *. unfold MAXIMUM_ALIGNOF. rewrite A1, A2, A3, Fa. reflexivity.
    + destruct f1; simpl in *. subst. rewrite Fs. reflexivity.
    + intros Hpos. lia.
Qed.

(** The depth only matters for the types with sub-fields. *)
Lemma leaf_depth_irrelevant cat con name t md ch d d' :
  has_subfields t = false ->
  __buildRecordBatchFieldState cat con (mkArrowField name t md ch) d
  = __buildRecordBatchFieldState cat con (mkArrowField name t md ch) d'.
Proof. destruct t; try discriminate; reflexivity. Qed.

Lemma fstate_depth_leaf f : children f = [] -> fstate_depth f = 1%nat.
Proof. destruct f; simpl. intros ->. reflexivity. Qed.

Lemma fstate_depth_flat f :
  Forall (fun c => children c = []) (children f) -> (fstate_depth f <= 2)%nat.
Proof.
  destruct f as [? ? ? ? ? ? ? ? ? ? ? ? ? ? ? cs]; simpl. intros H.
  assert (foldr (fun c acc => Nat.max (fstate_depth c) acc) 0%nat cs <= 1)%nat; [| lia].
  induction H as [|c cs Hc _ IH]; simpl; [lia |].
  rewrite (fstate_depth_leaf c Hc). lia.
Qed.

(** A field state built at the top level has sub-fields at one level
    only. *)
Lemma raw_field_height cat field con fstate con' :
  __buildRecordBatchFieldState cat con field 0 = Ok (fstate, con') ->
  (fstate_depth fstate <= 2)%nat.
Proof.
  destruct field as [name t md ch]. intros H.
  destruct (has_subfields t) eqn:Ht.
  2:{ rewrite (leaf_depth_irrelevant _ _ _ _ _ _ 0 1 Ht) in H.
      destruct (raw_field_bound _ _ _ _ _ _ H) as (_ & _ & _ & Hl).
      destruct (Hl ltac:(lia)) as [Hc _]. rewrite (fstate_depth_leaf _ Hc). lia. }
  apply fstate_depth_flat.
  simpl in H.
  destruct (next_fnode con) as [[fnode con0] | k m]; simpl in H; [| discriminate].
  destruct t; try discriminate; simpl in H.
  - destruct ch as [|child [|? ?]]; try discriminate.
    match type of H with
    | context [__assignRecordBatchFieldStateBuffer ?f ?c ?b] =>
        destruct (__assignRecordBatchFieldStateBuffer f c b) as [[f1 c1] | k m] eqn:E1
    end; simpl in H; [| discriminate].
    match type of H with
    | context [__buildRecordBatchFieldState cat c1 child ?d] =>
        destruct (__buildRecordBatchFieldState cat c1 child d)
          as [[cstate c2] | k m] eqn:E2
    end; simpl in H; [| discriminate].
    destruct (negb _); [discriminate |]. inversion H; subst. simpl.
    destruct (raw_field_bound _ _ _ _ _ _ E2) as (_ & _ & _ & Hl).
    constructor; [apply Hl; lia | constructor].
  - destruct ch as [|child [|? ?]]; try discriminate.
    match type of H with
    | context [__assignRecordBatchFieldStateBuffer ?f ?c ?b] =>
        destruct (__assignRecordBatchFieldStateBuffer f c b) as [[f1 c1] | k m] eqn:E1
    end; simpl in H; [| discriminate].
    match type of H with
    | context [__buildRecordBatchFieldState cat c1 child ?d] =>
        destruct (__buildRecordBatchFieldState cat c1 child d)
          as [[cstate c2] | k m] eqn:E2
    end; simpl in H; [| discriminate].
    destruct (negb _); [discriminate |]. inversion H; subst. simpl.
    destruct (raw_field_bound _ _ _ _ _ _ E2) as (_ & _ & _ & Hl).
    constructor; [apply Hl; lia | constructor].
  - match type of H with
    | context [__assignRecordBatchFieldStateBuffer ?f ?c ?b] =>
        destruct (__assignRecordBatchFieldStateBuffer f c b) as [[f1 c1] | k m] eqn:E1
    end; simpl in H; [| discriminate].
    match type of H with
    | context [build_children ?g ?l ?c] =>
        destruct (build_children g l c) as [[cs c2] | k m] eqn:E2
    end; simpl in H; [| discriminate].
    unfold __assignRecordBatchFieldStateComposite in H.
    destruct (List.find _ _); simpl in H; [| discriminate].
    inversion H; subst. simpl.
    eapply (build_children_bound cat _ ch); [| exact E2 | lia].
    apply Forall_forall. intros f _. apply raw_field_bound.
Qed.

(** [__applyArrowFieldStatsBinary] writes the statistics and nothing
    else: the shape of the tree and the offsets stay. *)
Lemma apply_children_length apply cs : forall bs,
  length (apply_children apply cs bs) = length cs.
Proof.
  induction cs as [|c cs IH]; intros [|b bs]; simpl; try reflexivity.
  rewrite IH. reflexivity.
Qed.

Lemma apply_children_Forall (P : RecordBatchFieldState -> Prop) apply cs :
  Forall (fun c => forall b, P c -> P (apply c b)) cs ->
  forall bs, Forall P cs -> Forall P (apply_children apply cs bs).
Proof.
  induction 1 as [|c cs Hc _ IH]; intros bs HP; [destruct bs; exact HP |].
  apply Forall_cons in HP as [HP1 HP2].
  destruct bs as [|b bs]; simpl; constructor; auto.
Qed.

Lemma forallb_Forall_true {A} (f : A -> bool) l :
  forallb f l = true <-> Forall (fun x => f x = true) l.
Proof.
  induction l as [|a l IH]; simpl.
  - split; [constructor | reflexivity].
  - rewrite andb_true_iff, Forall_cons, IH. reflexivity.
Qed.

Lemma apply_stats_aligned fstate :
  forall bstats rb_index,
    fstate_aligned fstate = true ->
    fstate_aligned (__applyArrowFieldStatsBinary fstate bstats rb_index) = true.
Proof.
  induction fstate as [typid typmod o n nc no nl vo vl eo el smin smax snull nch cs IHcs]
    using fstate_nested_ind.
  intros bstats rb_index Hw. simpl in Hw.
  apply andb_true_iff in Hw as [Hw Hcs].
  assert (Hcs' : forallb fstate_aligned
                   (apply_children (fun c b => __applyArrowFieldStatsBinary c b rb_index)
                      cs (subfields bstats)) = true).
  { apply forallb_Forall_true. apply forallb_Forall_true in Hcs.
    apply (apply_children_Forall (fun c => fstate_aligned c = true)); [| exact Hcs].
    eapply Forall_impl; [exact IHcs |]. intros c Hc b Hcb. apply Hc. exact Hcb. }
  simpl.
  destruct (bs_isnull bstats), (bs_min_values bstats), (bs_max_values bstats),
    (0 <? bs_unitsz bstats); simpl; rewrite Hw, Hcs'; reflexivity.
Qed.

Lemma apply_stats_depth fstate :
  forall bstats rb_index,
    fstate_depth (__applyArrowFieldStatsBinary fstate bstats rb_index)
    = fstate_depth fstate.
Proof.
  induction fstate as [typid typmod o n nc no nl vo vl eo el smin smax snull nch cs IHcs]
    using fstate_nested_ind.
  intros bstats rb_index.
  assert (Hcs : foldr (fun c acc => Nat.max (fstate_depth c) acc) 0%nat
                  (apply_children (fun c b => __applyArrowFieldStatsBinary c b rb_index)
                     cs (subfields bstats))
                = foldr (fun c acc => Nat.max (fstate_depth c) acc) 0%nat cs).
  { generalize (subfields bstats) as bs.
    induction IHcs as [|c cs Hc _ IH]; intros bs; [destruct bs; reflexivity |].
    destruct bs as [|b bs]; simpl; [reflexivity |]. rewrite Hc, IH. reflexivity. }
  simpl.
  destruct (bs_isnull bstats), (bs_min_values bstats), (bs_max_values bstats),
    (0 <? bs_unitsz bstats); simpl; rewrite Hcs; reflexivity.
Qed.

(* ------------------------------------------------------------------ *)
(** ** From the field to the record batch and the file *)
(* ------------------------------------------------------------------ *)

Lemma apply_fields_Forall (P : RecordBatchFieldState -> Prop) fs :
  (forall f b i, P f -> P (__applyArrowFieldStatsBinary f b i)) ->
  forall n j bs rb_index, Forall P fs -> Forall P (apply_fields n j fs bs rb_index).
Proof.
  intros Hap. induction fs as [|f fs IH]; intros n j bs rb_index HP; simpl.
  - destruct (j <? n); exact HP.
  - destruct (j <? n); [| exact HP].
    apply Forall_cons in HP as [HP1 HP2].
    destruct bs as [|b bs]; simpl; constructor; auto.
Qed.

Lemma build_fields_Forall (P : RecordBatchFieldState -> Prop) cat fs :
  (forall con field f con',
     __buildRecordBatchFieldState cat con field 0 = Ok (f, con') -> P f) ->
  forall con fstates con',
    build_fields cat con fs = Ok (fstates, con') -> Forall P fstates.
Proof.
  intros Hraw. induction fs as [|f fs IH]; intros con fstates con' H; simpl in H.
  - inversion H; subst. constructor.
  - destruct (__buildRecordBatchFieldState cat con f 0) as [[f1 con1] | k m] eqn:E1;
      simpl in H; [| discriminate].
    destruct (build_fields cat con1 fs) as [[fs1 con2] | k m] eqn:E2;
      simpl in H; [| discriminate].
    inversion H; subst. constructor; [exact (Hraw _ _ _ _ E1) | exact (IH _ _ _ E2)].
Qed.

(** The columns of a record batch take the field nodes and the buffers
    of their layouts, one column after the other. *)
Lemma build_fields_takes cat fs : forall con fstates con',
  build_fields cat con fs = Ok (fstates, con') ->
  length fstates = length fs
  /\ exists ns bs,
       fnodes con = ns ++ fnodes con' /\ buffers con = bs ++ buffers con'
       /\ length ns = foldr (fun f acc => (layout_nodes f + acc)%nat) 0%nat fs
       /\ length bs = foldr (fun f acc => (layout_buffers f + acc)%nat) 0%nat fs.
Proof.
  induction fs as [|f fs IH]; intros con fstates con' H; simpl in H.
  - inversion H; subst. split; [reflexivity |]. exists [], []. auto.
  - destruct (__buildRecordBatchFieldState cat con f 0) as [[f1 con1] | k m] eqn:E1;
      simpl in H; [| discriminate].
    destruct (build_fields cat con1 fs) as [[fs1 con2] | k m] eqn:E2;
      simpl in H; [| discriminate].
    inversion H; subst.
    destruct (raw_field_bound _ _ _ _ _ _ E1) as ((n & ns & bs & N & B & Ln & Lb & _) & _).
    destruct (IH _ _ _ E2) as (Hl & ns' & bs' & N' & B' & Ln' & Lb').
    split; [simpl; rewrite Hl; reflexivity |].
    exists (n :: ns ++ ns'), (bs ++ bs'). simpl.
    rewrite N, N', B, B', !length_app, <- !app_assoc, Ln', Lb', <- Ln, Lb.
    repeat split; simpl; lia.
Qed.

Lemma record_batch_Forall (P : RecordBatchFieldState -> Prop) cat
    schema_fields rb_index block rbatch rb_state :
  (forall con field f con',
     __buildRecordBatchFieldState cat con field 0 = Ok (f, con') -> P f) ->
  __buildRecordBatchStateOne cat schema_fields rb_index block rbatch = Ok rb_state ->
  Forall P (fields rb_state).
Proof.
  unfold __buildRecordBatchStateOne. intros Hraw H.
  destruct (rbatch_compression rbatch); [discriminate |].
  match type of H with
  | context [build_fields cat ?c ?l] =>
      destruct (build_fields cat c l) as [[fstates con] | k m] eqn:E
  end; simpl in H; [| discriminate].
  destruct (buffers con); [| discriminate]. destruct (fnodes con); [| discriminate].
  inversion H; subst. simpl. eapply build_fields_Forall; [exact Hraw | exact E].
Qed.

Lemma build_batches_Forall (P : RecordBatchFieldState -> Prop) cat
    schema_fields arrow_bstats blocks :
  (forall con field f con',
     __buildRecordBatchFieldState cat con field 0 = Ok (f, con') -> P f) ->
  (arrow_bstats <> None ->
   forall f b i, P f -> P (__applyArrowFieldStatsBinary f b i)) ->
  forall i rbatches rbs,
    build_batches cat schema_fields arrow_bstats i blocks rbatches = Ok rbs ->
    Forall (fun rb => Forall P (fields rb)) rbs.
Proof.
  intros Hraw Hap.
  induction blocks as [|block blocks IH]; intros i rbatches rbs H; simpl in H.
  - inversion H; subst. constructor.
  - destruct rbatches as [|rbatch rbatches]; [discriminate |].
    destruct (__buildRecordBatchStateOne cat schema_fields i block rbatch)
      as [rb | k m] eqn:E1; simpl in H; [| discriminate].
    destruct (build_batches cat schema_fields arrow_bstats (i + 1) blocks rbatches)
      as [rest | k m] eqn:E2; simpl in H; [| discriminate].
    inversion H; subst. constructor; [| eapply IH; exact E2].
    pose proof (record_batch_Forall P _ _ _ _ _ _ Hraw E1) as HP.
    destruct arrow_bstats as [bstats|]; [| exact HP].
    simpl. apply apply_fields_Forall; [apply Hap; discriminate | exact HP].
Qed.

Lemma file_state_Forall (P : RecordBatchFieldState -> Prop) __trim cat files
    name af_state notes :
  (forall con field f con',
     __buildRecordBatchFieldState cat con field 0 = Ok (f, con') -> P f) ->
  (forall f b i, P f -> P (__applyArrowFieldStatsBinary f b i)) ->
  __buildArrowFileStateByFile __trim cat files name = Ok (Some af_state, notes) ->
  Forall (fun rb => Forall P (fields rb)) (rb_list af_state).
Proof.
  unfold __buildArrowFileStateByFile. intros Hraw Hap H.
  destruct (open_arrow_file files name) as [e | r].
  { destruct (negb e); discriminate. }
  destruct r as [af_info | k m]; simpl in H; [| discriminate].
  destruct (af_dictionaries af_info); [discriminate |].
  destruct (af_recordBatches af_info) as [rbatches|]; [| discriminate].
  match type of H with
  | context [build_batches ?a ?b ?c ?d ?e ?f] =>
      destruct (build_batches a b c d e f) as [rbs | k m] eqn:E
  end; simpl in H; [| discriminate].
  inversion H; subst. simpl.
  eapply build_batches_Forall; [exact Hraw | intros _; exact Hap | exact E].
Qed.

(** X1: when [__buildRecordBatchFieldState] returns, it has taken from
    the front of the two cursors exactly the field nodes and the buffers
    of the Arrow layout of the field (one node per field visited; two
    buffers for a fixed-width field, three for a variable-length one,
    one for a [Struct], plus those of the sub-fields), and [nitems] and
    [null_count] of the field state are those of the first node. *)
Theorem X1_field_state_takes_layout cat con field depth fstate con' :
  __buildRecordBatchFieldState cat con field depth = Ok (fstate, con') ->
  exists n ns bs,
    fnodes con = n :: ns ++ fnodes con'
    /\ buffers con = bs ++ buffers con'
    /\ length (n :: ns) = layout_nodes field
    /\ length bs = layout_buffers field
    /\ nitems fstate = fnode_length n
    /\ null_count fstate = fnode_null_count n.
Proof.
  intros H. destruct (raw_field_bound _ _ _ _ _ _ H) as (Hb & _). exact Hb.
Qed.

Lemma X1_field_state_takes_layout_witness :
  exists n ns bs,
    fnodes list_batch = n :: ns ++ []
    /\ buffers list_batch = bs ++ []
    /\ length (n :: ns) = layout_nodes list_field
    /\ length bs = layout_buffers list_field
    /\ nitems list_fstate = fnode_length n
    /\ null_count list_fstate = fnode_null_count n.
Proof.
  apply (X1_field_state_takes_layout demo_catalog list_batch list_field 0
           list_fstate (mkContext [] [])).
  vm_compute. reflexivity.
Defined.

(** X2: [__buildRecordBatchStateOne] accepts a record batch only when it
    is not compressed and holds exactly the field nodes and the buffers
    of the layouts of the columns of the schema; the state it returns
    has one field state per column, while its [nfields] is 0: the
    function never assigns that member of the zeroed state. *)
Theorem X2_record_batch_matches_layout cat schema_fields rb_index block rbatch rb_state :
  __buildRecordBatchStateOne cat schema_fields rb_index block rbatch = Ok rb_state ->
  length (rbatch_nodes rbatch)
  = foldr (fun f acc => (layout_nodes f + acc)%nat) 0%nat schema_fields
  /\ length (rbatch_buffers rbatch)
     = foldr (fun f acc => (layout_buffers f + acc)%nat) 0%nat schema_fields
  /\ length (fields rb_state) = length schema_fields
  /\ nfields rb_state = 0
  /\ rbatch_compression rbatch = false.
Proof.
  unfold __buildRecordBatchStateOne. intros H.
  destruct (rbatch_compression rbatch); [discriminate |].
  match type of H with
  | context [build_fields cat ?c ?l] =>
      destruct (build_fields cat c l) as [[fstates con] | k m] eqn:E
  end; simpl in H; [| discriminate].
  destruct (buffers con) eqn:Eb; [| discriminate].
  destruct (fnodes con) eqn:En; [| discriminate].
  inversion H; subst. simpl.
  destruct (build_fields_takes _ _ _ _ _ E) as (Hl & ns & bs & N & B & Ln & Lb).
  simpl in N, B. rewrite En, app_nil_r in N. rewrite Eb, app_nil_r in B.
  subst. auto.
Qed.

Lemma X2_record_batch_matches_layout_witness :
  length (fnodes list_batch) = (layout_nodes list_field + 0)%nat
  /\ length (buffers list_batch) = (layout_buffers list_field + 0)%nat
  /\ length (fields list_rb_state) = 1%nat
  /\ nfields list_rb_state = 0
  /\ false = false.
Proof.
  apply (X2_record_batch_matches_layout demo_catalog [list_field] 0
           (mkArrowBlock 8 256 64)
           (mkArrowRecordBatch 3 (fnodes list_batch) (buffers list_batch) false)
           list_rb_state).
  vm_compute. reflexivity.
Defined.

(* ------------------------------------------------------------------ *)
(** ** Statistics that are not there *)
(* ------------------------------------------------------------------ *)

Lemma build_field_stats_without_keys __trim n field :
  carries_stats_keys field = false ->
  fst (__buildArrowFieldStatsBinary __trim field n) = false.
Proof.
  induction field as [name t md ch IHc] using field_nested_ind.
  simpl. intros H. apply orb_false_iff in H as [Hown Hch].
  assert (Hsubs : forall l,
            Forall (fun f => carries_stats_keys f = false ->
                             fst (__buildArrowFieldStatsBinary __trim f n) = false) l ->
            existsb carries_stats_keys l = false ->
            existsb fst
              ((fix build_subfields (fs : list ArrowField)
                  : list (bool * arrowFieldStatsBinary) :=
                  match fs with
                  | [] => []
                  | f :: fs' => __buildArrowFieldStatsBinary __trim f n
                                :: build_subfields fs'
                  end) l) = false).
  { induction 1 as [|f l Hf _ IH]; simpl; [reflexivity |].
    intros E. apply orb_false_iff in E as [E1 E2]. rewrite (Hf E1), (IH E2). reflexivity. }
  destruct (find_stats_tokens md None None) as [[mt|] [xt|]]; try discriminate;
    destruct ch; simpl; try reflexivity; apply (Hsubs _ IHc Hch).
Qed.

Lemma build_stats_without_keys __trim schema_fields n :
  existsb carries_stats_keys schema_fields = false ->
  buildArrowStatsBinary __trim schema_fields n = None.
Proof.
  unfold buildArrowStatsBinary. intros H.
  assert (E : existsb fst (map (fun f => __buildArrowFieldStatsBinary __trim f n)
                             schema_fields) = false).
  { induction schema_fields as [|f fs IH]; simpl; [reflexivity |].
    simpl in H. apply orb_false_iff in H as [H1 H2].
    rewrite (build_field_stats_without_keys _ _ _ H1), (IH H2). reflexivity. }
  rewrite E. reflexivity.
Qed.

Lemma list_files_state :
  __buildArrowFileStateByFile trim_blanks demo_catalog list_files "/arr/xs.arrow"
  = Ok (Some list_af_state, []).
Proof. vm_compute. reflexivity. Qed.

(** X3: in a file state built from the raw file, the nullmap, values
    and extra offsets of every field state, at every level, are
    multiples of the maximum alignment (an offset that was not taken
    from a buffer is zero). *)
Theorem X3_offsets_aligned __trim cat files name af_state notes rb_state fstate :
  __buildArrowFileStateByFile __trim cat files name = Ok (Some af_state, notes) ->
  rb_state ∈ rb_list af_state ->
  fstate ∈ fields rb_state ->
  fstate_aligned fstate = true.
Proof.
  intros H Hrb Hf.
  pose proof (file_state_Forall (fun f => fstate_aligned f = true) _ _ _ _ _ _
                (fun con field f con' E =>
                   proj1 (proj2 (raw_field_bound _ _ _ _ _ _ E)))
                (fun f b i => apply_stats_aligned f b i) H) as HF.
  rewrite Forall_forall in HF. specialize (HF _ Hrb).
  rewrite Forall_forall in HF. exact (HF _ Hf).
Qed.

Lemma X3_offsets_aligned_witness : fstate_aligned list_fstate = true.
Proof.
  apply (X3_offsets_aligned trim_blanks demo_catalog list_files "/arr/xs.arrow"
           list_af_state [] list_rb_state list_fstate).
  - exact list_files_state.
  - left.
  - left.
Defined.

(** X4: below the top level the binder takes no field with sub-fields:
    with a field node at hand, a [Struct], and a [List] or [LargeList]
    with its one child, is refused with the error for unsupported
    nesting. *)
Theorem X4_nested_subfields_rejected cat con field depth :
  0 < depth ->
  fnodes con <> [] ->
  has_subfields (field_type field) = true ->
  field_type field = ArrowNodeTag__Struct \/ length (field_children field) = 1%nat ->
  error_kind (__buildRecordBatchFieldState cat con field depth)
  = Some UnsupportedNesting.
Proof.
  intros Hd Hn Ht Hc. destruct field as [name t md ch]. simpl in *.
  unfold next_fnode. destruct (fnodes con) as [|n ns]; [contradiction |]. simpl.
  apply Z.ltb_lt in Hd.
  destruct t; try discriminate; simpl.
  - destruct Hc as [Hc | Hc]; [discriminate |].
    destruct ch as [|c [|? ?]]; try discriminate. rewrite Hd. reflexivity.
  - destruct Hc as [Hc | Hc]; [discriminate |].
    destruct ch as [|c [|? ?]]; try discriminate. rewrite Hd. reflexivity.
  - rewrite Hd. reflexivity.
Qed.

Lemma X4_nested_subfields_rejected_witness :
  error_kind (__buildRecordBatchFieldState demo_catalog list_batch list_field 1)
  = Some UnsupportedNesting.
Proof.
  apply (X4_nested_subfields_rejected demo_catalog list_batch list_field 1).
  - lia.
  - discriminate.
  - reflexivity.
  - right. reflexivity.
Defined.

Lemma depth_le_2_flat f :
  (fstate_depth f <= 2)%nat -> forall c, c ∈ children f -> children c = [].
Proof.
  destruct f as [? ? ? ? ? ? ? ? ? ? ? ? ? ? ? cs]; simpl. intros H c Hc.
  induction cs as [|c0 cs IH]; [inversion Hc |].
  simpl in H. apply elem_of_cons in Hc as [-> | Hc].
  - destruct c0 as [? ? ? ? ? ? ? ? ? ? ? ? ? ? ? [|g gs]]; [reflexivity |].
    simpl in H. destruct g; simpl in H. lia.
  - apply IH; [lia | exact Hc].
Qed.

(** X5: a file state built from the raw file has sub-fields at one level
    only: the children of a column have no children. *)
Theorem X5_one_level_of_subfields __trim cat files name af_state notes rb_state
    fstate child :
  __buildArrowFileStateByFile __trim cat files name = Ok (Some af_state, notes) ->
  rb_state ∈ rb_list af_state ->
  fstate ∈ fields rb_state ->
  child ∈ children fstate ->
  children child = [].
Proof.
  intros H Hrb Hf Hc.
  pose proof (file_state_Forall (fun f => (fstate_depth f <= 2)%nat) _ _ _ _ _ _
                (fun con field f con' E => raw_field_height _ _ _ _ _ E)
                (fun f b i Hle => eq_ind_r (fun d => (d <= 2)%nat) Hle
                                    (apply_stats_depth f b i)) H) as HF.
  rewrite Forall_forall in HF. specialize (HF _ Hrb).
  rewrite Forall_forall in HF. exact (depth_le_2_flat _ (HF _ Hf) _ Hc).
Qed.

Lemma X5_one_level_of_subfields_witness : children list_item_fstate = [].
Proof.
  apply (X5_one_level_of_subfields trim_blanks demo_catalog list_files "/arr/xs.arrow"
           list_af_state [] list_rb_state list_fstate list_item_fstate).
  - exact list_files_state.
  - left.
  - left.
  - left.
Defined.

(** X6: when no field of the schema, at any level, carries both a
    [min_values] and a [max_values] entry, the file state built from the
    raw file has no statistics: in every field state, at every level,
    [stat_isnull] is up and the two bounds are zero. *)
Theorem X6_no_statistics_without_keys __trim cat files name af_info af_state notes
    rb_state fstate :
  open_arrow_file files name = OpenRead (Ok af_info) ->
  existsb carries_stats_keys (footer_schema_fields af_info) = false ->
  __buildArrowFileStateByFile __trim cat files name = Ok (Some af_state, notes) ->
  rb_state ∈ rb_list af_state ->
  fstate ∈ fields rb_state ->
  fstate_no_stats fstate = true.
Proof.
  unfold __buildArrowFileStateByFile. intros Hopen Hkeys H Hrb Hf.
  rewrite Hopen in H. simpl in H.
  destruct (af_dictionaries af_info); [discriminate |].
  destruct (af_recordBatches af_info) as [rbatches|]; [| discriminate].
  rewrite (build_stats_without_keys _ _ _ Hkeys) in H.
  match type of H with
  | context [build_batches ?a ?b ?c ?d ?e ?f] =>
      destruct (build_batches a b c d e f) as [rbs | k m] eqn:E
  end; simpl in H; [| discriminate].
  inversion H; subst. simpl in Hrb.
  pose proof (build_batches_Forall (fun f => fstate_no_stats f = true) _ _ _ _
                (fun con field f con' E0 =>
                   proj1 (proj2 (proj2 (raw_field_bound _ _ _ _ _ _ E0))))
                (fun Hne => False_ind _ (Hne eq_refl)) _ _ _ E) as HF.
  rewrite Forall_forall in HF. specialize (HF _ Hrb).
  rewrite Forall_forall in HF. exact (HF _ Hf).
Qed.

Lemma X6_no_statistics_without_keys_witness : fstate_no_stats list_fstate = true.
Proof.
  apply (X6_no_statistics_without_keys trim_blanks demo_catalog list_files
           "/arr/xs.arrow"
           (mkArrowFileInfo (mkStat 8 78 1024 (mkTimespec 700 0)) [list_field]
              [mkArrowBlock 8 256 64] None
              (Some [mkArrowRecordBatch 3 (fnodes list_batch) (buffers list_batch) false]))
           list_af_state [] list_rb_state list_fstate).
  - reflexivity.
  - reflexivity.
  - exact list_files_state.
  - left.
  - left.
Defined.

(* ------------------------------------------------------------------ *)
(** ** Statistics that are there *)
(* ------------------------------------------------------------------ *)






Example stats_files_state :
  __buildArrowFileStateByFile trim_blanks demo_catalog stats_files "/arr/stats.arrow"
  = Ok (Some (mkArrowFileState "/arr/stats.arrow" (mkStat 8 80 2048 (mkTimespec 800 0))
                [pair_rb0; pair_rb1]), []).
Proof. vm_compute. reflexivity. Qed.


(* ------------------------------------------------------------------ *)
(** ** The composite type of a [Struct] field *)
(* ------------------------------------------------------------------ *)

Lemma attrs_match_spec attrs : forall cs,
  attrs_match attrs cs = true <-> attrs = map atttypid cs.
Proof.
  induction attrs as [|a attrs IH]; intros [|c cs]; simpl;
    try (split; [discriminate | discriminate]); [tauto |].
  rewrite andb_true_iff, Z.eqb_eq, IH. split.
  - intros [-> ->]. reflexivity.
  - intros E. inversion E. auto.
Qed.

Lemma find_some_elem_of {A} (f : A -> bool) l x :
  List.find f l = Some x -> x ∈ l /\ f x = true.
Proof.
  induction l as [|a l IH]; simpl; [discriminate |].
  destruct (f a) eqn:E.
  - intros H. inversion H; subst. split; [left | exact E].
  - intros H. destruct (IH H) as [Hin Hf]. split; [right; exact Hin | exact Hf].
Qed.

(** X7: a [Struct] field is only ever bound to a composite type that the
    user may use and whose attributes are, in number, order and type,
    the host types of the children of the field; the type is the hinted
    one or a row of the catalog scan. *)
Theorem X7_struct_bound_to_matching_composite cat con field depth fstate con' :
  field_type field = ArrowNodeTag__Struct ->
  __buildRecordBatchFieldState cat con field depth = Ok (fstate, con') ->
  pg_type_aclcheck_ok cat (atttypid fstate) = true
  /\ lookup_rowtype_tupdesc_noerror cat (atttypid fstate)
     = Some (map atttypid (children fstate))
  /\ length (children fstate) = length (field_children field)
  /\ num_children fstate = Z.of_nat (length (field_children field))
  /\ (atttypid fstate = arrowFieldGetPGTypeHint cat field
      \/ atttypid fstate ∈ systable_composite_scan cat
                             (to_i16 (Z.of_nat (length (field_children field))))
                             (arrowFieldGetPGTypeHint cat field)).
Proof.
  destruct field as [name t md fchildren]. unfold arrowFieldGetPGTypeHint.
  simpl field_type. simpl field_children. simpl custom_metadata.
  intros -> H. simpl in H.
  destruct (next_fnode con) as [[fnode con0] | k m]; simpl in H; [| discriminate].
  destruct (0 <? depth); [discriminate |].
  match type of H with
  | context [__assignRecordBatchFieldStateBuffer ?f ?c ?b] =>
      destruct (__assignRecordBatchFieldStateBuffer f c b) as [[f1 c1] | k m] eqn:E1
  end; simpl in H; [| discriminate].
  match type of H with
  | context [build_children ?g ?l ?c] =>
      destruct (build_children g l c) as [[cs c2] | k m] eqn:E2
  end; simpl in H; [| discriminate].
  assert (Hlen : length cs = length fchildren).
  { eapply (build_children_wf _ fchildren); [| exact E2].
    apply Forall_forall. intros f _ c0 c cn E. eapply raw_field_wf. exact E. }
  unfold __assignRecordBatchFieldStateComposite in H.
  destruct (List.find _ _) as [oid|] eqn:Ef; simpl in H; [| discriminate].
  inversion H; subst. clear H.
  apply find_some_elem_of in Ef as [Hin Hm].
  unfold composite_matches in Hm. simpl in Hm.
  destruct (pg_type_aclcheck_ok cat oid) eqn:Hacl; simpl in Hm; [| discriminate].
  destruct (lookup_rowtype_tupdesc_noerror cat oid) as [attrs|] eqn:Hrow; [| discriminate].
  apply andb_true_iff in Hm as [_ Hm]. apply attrs_match_spec in Hm. subst attrs.
  simpl. split; [exact Hacl |]. split; [exact Hrow |]. split; [exact Hlen |].
  split; [reflexivity |].
  unfold composite_candidates in Hin. simpl in Hin.
  apply elem_of_app in Hin as [Hin | Hin].
  - left. destruct (OidIsValid _); [| inversion Hin].
    apply elem_of_cons in Hin as [Hin | Hin]; [exact Hin | inversion Hin].
  - right. exact Hin.
Qed.

Lemma X7_struct_bound_to_matching_composite_witness :
  exists fstate,
    atttypid fstate = 16400
    /\ lookup_rowtype_tupdesc_noerror demo_catalog (atttypid fstate)
       = Some (map atttypid (children fstate)).
Proof.
  destruct (__buildRecordBatchFieldState demo_catalog
              (mkContext [mkArrowBuffer 0 0; mkArrowBuffer 0 0; mkArrowBuffer 0 16;
                          mkArrowBuffer 0 0; mkArrowBuffer 16 16]
                 [mkArrowFieldNode 3 0; mkArrowFieldNode 3 0; mkArrowFieldNode 3 0])
              struct_field 0) as [[fstate con'] | k m] eqn:E.
  - exists fstate.
    destruct (X7_struct_bound_to_matching_composite demo_catalog _ struct_field _ _ _
                eq_refl E) as (_ & Hrow & _).
    split; [| exact Hrow].
    vm_compute in E. inversion E. reflexivity.
  - vm_compute in E. discriminate E.
Defined.

(* ------------------------------------------------------------------ *)
(** ** Statistics of a slot that does not parse *)
(* ------------------------------------------------------------------ *)

(** X8: [__applyArrowFieldStatsBinary] does not read the per-slot flag
    that the parser raises.  When both lists hold one token per record
    batch, a batch whose pair of tokens does not parse still gets
    [stat_isnull = false], with the zeroes of its untouched slot as
    bounds. *)
Theorem X8_malformed_slot_is_applied __trim field n min_tokens max_tokens u i tok1 tok2
    fstate :
  0 <= n ->
  find_stats_tokens (custom_metadata field) None None = (Some min_tokens, Some max_tokens) ->
  stats_unitsz (field_type field) = Some u ->
  Z.of_nat (length (strtok_tokens "," min_tokens)) = n ->
  Z.of_nat (length (strtok_tokens "," max_tokens)) = n ->
  strtok_tokens "," min_tokens !! i = Some tok1 ->
  strtok_tokens "," max_tokens !! i = Some tok2 ->
  token_pair_ok __trim tok1 tok2 = false ->
  let bstats := snd (__buildArrowFieldStatsBinary __trim field n) in
  let f' := __applyArrowFieldStatsBinary fstate bstats (Z.of_nat i) in
  stat_isnull f' = false
  /\ stat_min f' = memcpy_datum u (stat_min fstate) 0
  /\ stat_max f' = memcpy_datum u (stat_max fstate) 0.
Proof.
  intros Hn Htok Hu Hc1 Hc2 Ht1 Ht2 Hbad bstats f'.
  pose proof (build_stats_own __trim field n) as Hown. simpl in Hown.
  fold bstats in Hown. rewrite Htok in Hown.
  unfold __parseArrowFieldStatsBinary in Hown. simpl nrooms in Hown.
  rewrite Hu in Hown.
  pose proof (stats_unitsz_pos _ _ Hu) as Hupos.
  set (toks1 := strtok_tokens "," min_tokens) in *.
  set (toks2 := strtok_tokens "," max_tokens) in *.
  destruct (parse_stats_loop __trim u n toks1 toks2 0
              (replicate (Z.to_nat n) false) (replicate (Z.to_nat n) 0)
              (replicate (Z.to_nat n) 0))
    as [[[[[r1 r2] idx] isn'] mn'] mx'] eqn:Hloop.
  pose proof (parse_stats_loop_exact __trim u n toks1 toks2 0 _ _ _ _ _ _ _ _ _ Hn Hloop)
    as Hexact. rewrite Z.sub_0_r in Hexact.
  destruct (proj2 Hexact (conj Hc1 Hc2)) as (-> & -> & ->).
  rewrite Z.eqb_refl in Hown. simpl in Hown. injection Hown as E1 E2 E3 E4.
  pose proof (parse_stats_loop_slots __trim u n toks1 toks2 0 _ _ _ _ _ _ _ _ _
                ltac:(lia) ltac:(lia) ltac:(lia)
                (length_replicate _ _) (length_replicate _ _) (length_replicate _ _)
                Hloop) as (Hlen & _ & Hslots).
  specialize (Hslots i tok1 tok2 Ht1 Ht2). simpl in Hslots. rewrite Hbad in Hslots.
  destruct Hslots as (_ & B & C).
  assert (Hi : (i < Z.to_nat n)%nat).
  { apply lookup_lt_Some in Ht1. lia. }
  rewrite (lookup_replicate_2 _ _ _ Hi) in B, C.
  pose proof (apply_stats_own fstate bstats (Z.of_nat i)) as Ha. simpl in Ha.
  rewrite E1, E2, E3, E4 in Ha.
  destruct (Z.ltb_spec 0 u); [| lia].
  rewrite Nat2Z.id in Ha.
  rewrite (list_lookup_total_correct _ _ _ B) in Ha.
  rewrite (list_lookup_total_correct _ _ _ C) in Ha.
  exact Ha.
Qed.

Lemma X8_malformed_slot_is_applied_witness :
  let bstats := snd (__buildArrowFieldStatsBinary trim_blanks (stats_field "1,x" "2,3") 2) in
  let f' := __applyArrowFieldStatsBinary (init_fstate (mkArrowFieldNode 100 0)) bstats 1 in
  stat_isnull f' = false
  /\ stat_min f' = memcpy_datum 4 0 0
  /\ stat_max f' = memcpy_datum 4 0 0.
Proof.
  apply (X8_malformed_slot_is_applied trim_blanks (stats_field "1,x" "2,3") 2
           "1,x" "2,3" 4 1 "x" "3" (init_fstate (mkArrowFieldNode 100 0)));
    first [lia | reflexivity].
Defined.

(* ------------------------------------------------------------------ *)
(** ** [__atoi128] on the decimal notation of a number *)
(* ------------------------------------------------------------------ *)

Lemma to_i128_small z : - 2 ^ 127 <= z < 2 ^ 127 -> to_i128 z = z.
Proof.
  intros H. unfold to_i128. rewrite Z.mod_small by lia. lia.
Qed.

Lemma of_uint_acc_ge d : forall acc, (acc <= Pos.of_uint_acc d acc)%positive.
Proof.
  induction d; intros acc; simpl; try lia;
    match goal with
    | |- (_ <= Pos.of_uint_acc _ ?a)%positive => specialize (IHd a); lia
    end.
Qed.

Lemma atoi128_digits_acc d : forall acc,
  Z.pos (Pos.of_uint_acc d acc) < 2 ^ 127 ->
  atoi128_digits (DecimalString.NilEmpty.string_of_uint d) (Z.pos acc)
  = (Z.pos (Pos.of_uint_acc d acc), EmptyString).
Proof.
  induction d; intros acc H; simpl in *; [reflexivity | ..];
    match type of H with
    | Z.pos (Pos.of_uint_acc _ ?a) < _ =>
        pose proof (of_uint_acc_ge d a) as Hge;
        rewrite <- (IHd a H); f_equal;
        match goal with
        | |- to_i128 (_ + ?k) = _ =>
            let v := eval vm_compute in k in change k with v
        end;
        rewrite to_i128_small; lia
    end.
Qed.

Lemma atoi128_digits_uint d :
  Z.of_N (Pos.of_uint d) < 2 ^ 127 ->
  atoi128_digits (DecimalString.NilEmpty.string_of_uint d) 0
  = (Z.of_N (Pos.of_uint d), EmptyString).
Proof.
  induction d; intros H; simpl in *; [reflexivity | exact (IHd H) | ..];
    match type of H with
    | Z.pos (Pos.of_uint_acc _ ?a) < _ => exact (atoi128_digits_acc d a H)
    end.
Qed.

Lemma string_of_uint_first d :
  match DecimalString.NilEmpty.string_of_uint d with
  | String "-"%char _ => False
  | _ => True
  end.
Proof. destruct d; exact I. Qed.

Lemma atoi128_of_digits d b :
  Z.of_N (Pos.of_uint d) < 2 ^ 127 ->
  __atoi128 (DecimalString.NilEmpty.string_of_uint d) b = (Z.of_N (Pos.of_uint d), b).
Proof.
  intros H. unfold __atoi128.
  pose proof (string_of_uint_first d) as Hf.
  pose proof (atoi128_digits_uint d H) as Hd.
  destruct (DecimalString.NilEmpty.string_of_uint d) as [|c rest] eqn:E.
  - rewrite Hd. reflexivity.
  - destruct (Ascii.eqb_spec c "-"%char) as [-> | Hne]; [contradiction |].
    assert (Em : forall (X : Type) (x y : X),
               match c with "-"%char => x | _ => y end = y).
    { intros X x y. destruct c as [[] [] [] [] [] [] [] []]; try reflexivity.
      exfalso. apply Hne. reflexivity. }
    rewrite Em, Hd. reflexivity.
Qed.

(** X9: [__atoi128] reads the decimal notation of every number of the
    [int128] range but its least one back as that number, and leaves the
    flag as it was. *)
Theorem X9_atoi128_reads_decimal_notation (z : Z) (b : bool) :
  - 2 ^ 127 < z < 2 ^ 127 ->
  __atoi128 (DecimalString.NilZero.string_of_int (Z.to_int z)) b = (z, b).
Proof.
  intros H. destruct z as [|p|p]; simpl.
  - reflexivity.
  - pose proof (DecimalPos.Unsigned.of_to p) as Hp.
    pose proof (DecimalPos.Unsigned.to_uint_nonnil p) as Hn.
    assert (E : DecimalString.NilZero.string_of_uint (Pos.to_uint p)
                = DecimalString.NilEmpty.string_of_uint (Pos.to_uint p)).
    { destruct (Pos.to_uint p); [contradiction | reflexivity ..]. }
    rewrite E, atoi128_of_digits; rewrite Hp; [reflexivity | exact (proj2 H)].
  - pose proof (DecimalPos.Unsigned.of_to p) as Hp.
    pose proof (DecimalPos.Unsigned.to_uint_nonnil p) as Hn.
    assert (E : DecimalString.NilZero.string_of_uint (Pos.to_uint p)
                = DecimalString.NilEmpty.string_of_uint (Pos.to_uint p)).
    { destruct (Pos.to_uint p); [contradiction | reflexivity ..]. }
    rewrite E. unfold __atoi128.
    rewrite atoi128_digits_uint; rewrite Hp; [| lia].
    simpl. rewrite to_i128_small by lia. reflexivity.
Qed.

Lemma X9_atoi128_reads_decimal_notation_witness :
  __atoi128 "-170141183460469231731687303715884105727" false
  = (- 170141183460469231731687303715884105727, false).
Proof.
  apply (X9_atoi128_reads_decimal_notation
           (- 170141183460469231731687303715884105727) false).
  lia.
Defined.


(* ================================================================== *)
(** * Metadata cache: lookups *)
(* ================================================================== *)

Section LookupFacts.

Variable gettimeofday : nat -> timeval.
Variable hash_bytes : Z -> Z -> Z.

(** X10: a lookup that finds no entry of the file (same device and
    inode) in the hash slot of the file returns not-found and leaves the
    cache as it was, whatever the lock the caller holds. *)
Theorem X10_lookup_miss_leaves_cache fuel c file_stat has_exclusive :
  (forall m, m ∈ hash_slot_at c (arrowMetadataHashIndex hash_bytes file_stat) ->
             same_file file_stat (mcache_at c m) = false) ->
  lookupArrowMetadataCache gettimeofday hash_bytes fuel c file_stat has_exclusive
  = LookupNotFound c.
Proof.
  intros H. unfold lookupArrowMetadataCache.
  rewrite <- (app_nil_r (hash_slot_at c _)).
  rewrite (lookup_walk_skip gettimeofday fuel c file_stat has_exclusive _ [] H).
  reflexivity.
Qed.

(** The state a hit leaves: the clock was read into [lru_tv] of the
    entry and the entry moved to the head of the LRU list. *)
Lemma lookup_hit_state fuel c file_stat has_exclusive pre e post :
  hash_slot_at c (arrowMetadataHashIndex hash_bytes file_stat) = pre ++ e :: post ->
  (forall m, m ∈ pre -> same_file file_stat (mcache_at c m) = false) ->
  same_file file_stat (mcache_at c e) = true ->
  mtime_not_after (st_mtim file_stat) (st_mtim (mc_stat_buf (mcache_at c e))) = true ->
  lookupArrowMetadataCache gettimeofday hash_bytes fuel c file_stat has_exclusive
  = LookupFound e
      (set_lru_list (dlist_move_head (lru_list c) e)
         (write_mcache e (set_mc_lru_tv (gettimeofday (ticks c)) (mcache_at c e))
            (set_ticks (S (ticks c)) c))).
Proof.
  intros Hslot Hpre Hsame Hm. unfold lookupArrowMetadataCache.
  rewrite Hslot, (lookup_walk_skip gettimeofday fuel c file_stat has_exclusive pre _ Hpre).
  simpl. unfold same_file in Hsame. rewrite Hsame, Hm. reflexivity.
Qed.

(** X11: a hit refreshes the entry and nothing else: the entry moves to
    the head of the LRU list with the time of the clock, the hash slots,
    the free lists and every other entry stay, and so does the file
    stamp of the entry; hence the same lookup hits the same entry
    again. *)
Theorem X11_lookup_hit_refreshes fuel c file_stat has_exclusive pre e post :
  hash_slot_at c (arrowMetadataHashIndex hash_bytes file_stat) = pre ++ e :: post ->
  (forall m, m ∈ pre -> same_file file_stat (mcache_at c m) = false) ->
  same_file file_stat (mcache_at c e) = true ->
  mtime_not_after (st_mtim file_stat) (st_mtim (mc_stat_buf (mcache_at c e))) = true ->
  exists c',
    lookupArrowMetadataCache gettimeofday hash_bytes fuel c file_stat has_exclusive
    = LookupFound e c'
    /\ lru_list c' = e :: dlist_delete (lru_list c) e
    /\ mc_lru_tv (mcache_at c' e) = gettimeofday (ticks c)
    /\ mc_stat_buf (mcache_at c' e) = mc_stat_buf (mcache_at c e)
    /\ mc_next (mcache_at c' e) = mc_next (mcache_at c e)
    /\ mc_fields (mcache_at c' e) = mc_fields (mcache_at c e)
    /\ (forall m, m <> e -> mcache_at c' m = mcache_at c m)
    /\ hash_slots c' = hash_slots c
    /\ fcaches c' = fcaches c
    /\ free_blocks c' = free_blocks c
    /\ free_mcaches c' = free_mcaches c
    /\ free_fcaches c' = free_fcaches c
    /\ (forall fuel' has_exclusive',
          exists c'',
            lookupArrowMetadataCache gettimeofday hash_bytes fuel' c' file_stat
              has_exclusive' = LookupFound e c'').
Proof.
  intros Hslot Hpre Hsame Hm.
  eexists. split; [apply (lookup_hit_state _ _ _ _ pre e post); assumption |].
  set (c' := set_lru_list _ _).
  assert (He : mcache_at c' e = set_mc_lru_tv (gettimeofday (ticks c)) (mcache_at c e)).
  { unfold c'. apply mcache_at_write_eq. }
  assert (Hne : forall m, m <> e -> mcache_at c' m = mcache_at c m).
  { intros m Hm'. unfold c'.
    change (mcache_at (set_lru_list ?l ?c0) m) with (mcache_at c0 m).
    rewrite mcache_at_write_ne by (intros E; apply Hm'; symmetry; exact E).
    reflexivity. }
  repeat match goal with |- _ /\ _ => split end;
    try reflexivity; try (rewrite He; reflexivity); try exact Hne.
  intros fuel' has_exclusive'. eexists.
  apply (lookup_hit_state _ _ _ _ pre e post).
  - exact Hslot.
  - intros m Hin. destruct (decide (m = e)) as [-> | Hd].
    + rewrite He. exact (Hpre e Hin).
    + rewrite (Hne m Hd). exact (Hpre m Hin).
  - rewrite He. exact Hsame.
  - rewrite He. exact Hm.
Qed.

End LookupFacts.

Lemma X10_lookup_miss_leaves_cache_witness :
  lookupArrowMetadataCache demo_gettimeofday demo_hash_bytes 5
    (pgstrom_startup_arrow_fdw 1024) (demo_stat 500) true
  = LookupNotFound (pgstrom_startup_arrow_fdw 1024).
Proof.
  apply (X10_lookup_miss_leaves_cache demo_gettimeofday demo_hash_bytes 5
           (pgstrom_startup_arrow_fdw 1024) (demo_stat 500) true).
  intros m Hm. vm_compute in Hm. inversion Hm.
Defined.

Lemma X11_lookup_hit_refreshes_witness :
  exists c',
    lookupArrowMetadataCache demo_gettimeofday demo_hash_bytes 5 demo_cache
      (demo_stat 400) false = LookupFound (0, 0) c'
    /\ lru_list c' = (0, 0) :: dlist_delete (lru_list demo_cache) (0, 0)
    /\ mc_lru_tv (mcache_at c' (0, 0)) = demo_gettimeofday 0.
Proof.
  destruct (X11_lookup_hit_refreshes demo_gettimeofday demo_hash_bytes 5 demo_cache
              (demo_stat 400) false [] (0, 0) [])
    as (c' & H1 & H2 & H3 & _).
  - reflexivity.
  - intros m Hm. inversion Hm.
  - reflexivity.
  - reflexivity.
  - exists c'. auto.
Defined.

(* ================================================================== *)
(** * Metadata cache: the slab allocator *)
(* ================================================================== *)

Lemma block_at_write_eq c b v : block_at (write_block b v c) b = v.
Proof. unfold block_at, write_block. simpl. rewrite lookup_insert_eq. reflexivity. Qed.

(** Unlinking every item of [ks] from a list that holds no other item
    empties the list. *)
Lemma foldl_dlist_delete_all {A} `{EqDecision A} (ks : list A) : forall l,
  (forall y, y ∈ l -> y ∈ ks) -> foldl dlist_delete l ks = [].
Proof.
  induction ks as [|k ks IH]; intros l H; simpl.
  - destruct l as [|y l]; [reflexivity |]. specialize (H y ltac:(left)). inversion H.
  - apply IH. intros y Hy. apply elem_of_dlist_delete in Hy as [Hy Hne].
    specialize (H y Hy). apply elem_of_cons in H as [-> | H]; [contradiction | exact H].
Qed.

Section SlabFacts.

Variable sizeof_arrowMetadataFieldCache : Z.
Variable gettimeofday : nat -> timeval.

Local Abbreviation u := (fcache_unitsz sizeof_arrowMetadataFieldCache).

(** The items of a block that was carved: each of them carries the
    block as its owner and the [FREE] magic. *)
Lemma carve_items_written l : forall c b,
  NoDup l ->
  let c' := foldl (fun c fcache =>
                     let c := write_fcache fcache
                                (set_fc_magic ARROW_METADATA_CACHE_FREE_MAGIC
                                   (set_fc_owner b (fcache_at c fcache))) c in
                     set_free_fcaches (dlist_push_tail (free_fcaches c) fcache) c) c l in
  forall y, y ∈ l ->
    fcache_at c' y = set_fc_magic ARROW_METADATA_CACHE_FREE_MAGIC
                       (set_fc_owner b (fcache_at c y)).
Proof.
  induction l as [|x l IH]; intros c b Hnd; simpl; intros y Hy; [inversion Hy |].
  apply NoDup_cons in Hnd as [Hx Hnd].
  match goal with
  | |- context [foldl ?f ?c0 l] =>
      pose proof (carve_items l c0 b) as (_ & _ & _ & _ & _ & F);
      pose proof (IH c0 b Hnd) as G
  end.
  simpl in F, G.
  apply elem_of_cons in Hy as [-> | Hy].
  - rewrite F by exact Hx.
    change (fcache_at (set_free_fcaches ?l0 ?c0) x) with (fcache_at c0 x).
    apply fcache_at_write_eq.
  - rewrite (G y Hy).
    change (fcache_at (set_free_fcaches ?l0 ?c0) y) with (fcache_at c0 y).
    rewrite fcache_at_write_ne by (intros ->; contradiction). reflexivity.
Qed.


Lemma carve_items_rest l : forall c b,
  let c' := foldl (fun c fcache =>
                     let c := write_fcache fcache
                                (set_fc_magic ARROW_METADATA_CACHE_FREE_MAGIC
                                   (set_fc_owner b (fcache_at c fcache))) c in
                     set_free_fcaches (dlist_push_tail (free_fcaches c) fcache) c) c l in
  hash_slots c' = hash_slots c /\ free_mcaches c' = free_mcaches c
  /\ ticks c' = ticks c /\ blocks c' = blocks c.
Proof.
  induction l as [|x l IH]; intros c b; simpl; [auto |].
  match goal with
  | |- context [foldl ?f ?c0 l] => destruct (IH c0 b) as (A & B & C & D)
  end.
  simpl in *. rewrite A, B, C, D. auto.
Qed.

(** What allocating from an empty free list does, step by step. *)
Lemma alloc_from_fresh_block f c b rest :
  free_fcaches c = [] ->
  free_blocks c = b :: rest ->
  0 < u <= ARROW_METADATA_BLOCKSZ - offsetof_block_data ->
  let c1 := carve_fcache_block sizeof_arrowMetadataFieldCache (set_free_blocks rest c) b in
  let tl := map (fun k => (b, k))
              (seqZ 1 (Z.pred ((ARROW_METADATA_BLOCKSZ - offsetof_block_data) / u))) in
  free_fcaches c1 = (b, 0) :: tl
  /\ fc_owner (fcache_at c1 (b, 0)) = b
  /\ block_at c1 b = mkBlock u 0
  /\ __allocMetadataFieldCache sizeof_arrowMetadataFieldCache gettimeofday (S (S f)) c
     = Done (Some (b, 0),
             write_fcache (b, 0)
               (set_fc_magic ARROW_METADATA_CACHE_ACTIVE_MAGIC (set_fc_owner b fcache0))
               (write_block b (mkBlock u 1) (set_free_fcaches tl c1))).
Proof.
  intros Hff Hfb Hu c1 tl.
  assert (Hn : 0 < (ARROW_METADATA_BLOCKSZ - offsetof_block_data) / u)
    by (apply Z.div_str_pos; lia).
  assert (Hslots : slots_of_block b u = (b, 0) :: tl).
  { unfold slots_of_block. rewrite seqZ_cons by exact Hn. reflexivity. }
  pose proof (slots_of_block_NoDup b u) as Hnd.
  set (c0 := set_free_blocks rest c) in *.
  destruct (carve_fcache_block_spec sizeof_arrowMetadataFieldCache c0 b)
    as (S1 & S2 & _).
  fold c1 in S1, S2. simpl in S1, S2. rewrite Hff, Hslots in S1. simpl in S1.
  pose proof (carve_items_written (slots_of_block b u)
                (write_block b (mkBlock u 0) c0) b Hnd) as W.
  destruct (carve_items_rest (slots_of_block b u)
              (write_block b (mkBlock u 0) c0) b) as (_ & _ & _ & R).
  simpl in W, R.
  change (foldl _ (write_block b (mkBlock u 0) c0) (slots_of_block b u)) with c1 in W, R.
  assert (Ho : fc_owner (fcache_at c1 (b, 0)) = b).
  { rewrite W by (rewrite Hslots; left). reflexivity. }
  assert (Hb : block_at c1 b = mkBlock u 0).
  { unfold block_at. rewrite R. simpl. rewrite lookup_insert_eq. reflexivity. }
  split; [exact S1 |]. split; [exact Ho |]. split; [exact Hb |].
  unfold __allocMetadataFieldCache.
  assert (Hr : refill_free_fcaches sizeof_arrowMetadataFieldCache gettimeofday (S (S f)) c
               = Done (true, c1)).
  { simpl. rewrite Hff, Hfb. simpl. rewrite Hfb. fold c0. fold c1.
    rewrite S1. reflexivity. }
  rewrite Hr. simpl. rewrite S1.
  change (fcache_at (set_free_fcaches tl c1) (b, 0)) with (fcache_at c1 (b, 0)).
  rewrite Ho.
  change (block_at (set_free_fcaches tl c1) b) with (block_at c1 b).
  rewrite Hb. reflexivity.
Qed.

(** Releasing an entry that has no children. *)
Lemma release_leaf g c x :
  fc_children (fcache_at c x) = [] ->
  __releaseMetadataFieldCache (S (S g)) c x
  = Done (back_fcache_block
            (set_free_fcaches (dlist_push_tail (free_fcaches c) x)
               (write_fcache x
                  (set_fc_magic ARROW_METADATA_CACHE_FREE_MAGIC (fcache_at c x)) c))
            (fc_owner (fcache_at c x))).
Proof. intros H. simpl. rewrite H. reflexivity. Qed.

(** X12.  A field entry allocated from an empty free list comes from the
    first free block, which is carved for it; the entry is the first item
    of that block, marked active, and the block counts one active item.
    Releasing that entry gives everything back: the block returns to the
    tail of the free blocks with no active item, none of its items stays
    on the free list, the entry carries the free magic again, and the LRU
    list, the hash slots and the file entries are as before. *)
Theorem X12_field_entry_alloc_release fuel fuel' c b rest :
  free_fcaches c = [] ->
  free_blocks c = b :: rest ->
  0 < u <= ARROW_METADATA_BLOCKSZ - offsetof_block_data ->
  (2 <= fuel)%nat -> (2 <= fuel')%nat ->
  exists c1 c2,
    __allocMetadataFieldCache sizeof_arrowMetadataFieldCache gettimeofday fuel c
      = Done (Some (b, 0), c1)
    /\ fc_magic (fcache_at c1 (b, 0)) = ARROW_METADATA_CACHE_ACTIVE_MAGIC
    /\ fc_owner (fcache_at c1 (b, 0)) = b
    /\ block_at c1 b = mkBlock u 1
    /\ free_blocks c1 = rest
    /\ __releaseMetadataFieldCache fuel' c1 (b, 0) = Done c2
    /\ fc_magic (fcache_at c2 (b, 0)) = ARROW_METADATA_CACHE_FREE_MAGIC
    /\ block_at c2 b = mkBlock u 0
    /\ free_fcaches c2 = []
    /\ free_blocks c2 = rest ++ [b]
    /\ lru_list c2 = lru_list c
    /\ hash_slots c2 = hash_slots c
    /\ mcaches c2 = mcaches c
    /\ free_mcaches c2 = free_mcaches c
    /\ ticks c2 = ticks c.
Proof.
  intros Hff Hfb Hu Hf Hf'.
  destruct fuel as [|[|f]]; [lia | lia |].
  destruct fuel' as [|[|g]]; [lia | lia |].
  destruct (alloc_from_fresh_block f c b rest Hff Hfb Hu) as (S1 & Ho & Hb & Ha).
  assert (Hn : 0 < (ARROW_METADATA_BLOCKSZ - offsetof_block_data) / u)
    by (apply Z.div_str_pos; lia).
  assert (Hslots : slots_of_block b u
                   = (b, 0) :: map (fun k => (b, k))
                       (seqZ 1 (Z.pred ((ARROW_METADATA_BLOCKSZ - offsetof_block_data) / u)))).
  { unfold slots_of_block. rewrite seqZ_cons by exact Hn. reflexivity. }
  set (tl := map (fun k => (b, k))
               (seqZ 1 (Z.pred ((ARROW_METADATA_BLOCKSZ - offsetof_block_data) / u)))) in *.
  set (c0 := set_free_blocks rest c) in *.
  destruct (carve_fcache_block_spec sizeof_arrowMetadataFieldCache c0 b)
    as (_ & S2 & S3 & S4 & _).
  destruct (carve_items_rest (slots_of_block b u)
              (write_block b (mkBlock u 0) c0) b) as (R1 & R2 & R3 & _).
  simpl in S2, S3, S4, R1, R2, R3.
  change (foldl _ (write_block b (mkBlock u 0) c0) (slots_of_block b u))
    with (carve_fcache_block sizeof_arrowMetadataFieldCache c0 b) in R1, R2, R3.
  set (c1 := carve_fcache_block sizeof_arrowMetadataFieldCache c0 b) in *.
  set (c2 := write_fcache (b, 0)
                (set_fc_magic ARROW_METADATA_CACHE_ACTIVE_MAGIC (set_fc_owner b fcache0))
                (write_block b (mkBlock u 1) (set_free_fcaches tl c1))) in *.
  assert (E2 : fcache_at c2 (b, 0)
               = set_fc_magic ARROW_METADATA_CACHE_ACTIVE_MAGIC (set_fc_owner b fcache0))
    by apply fcache_at_write_eq.
  assert (B2 : block_at c2 b = mkBlock u 1) by apply block_at_write_eq.
  exists c2. eexists.
  split; [exact Ha |].
  split; [rewrite E2; reflexivity |].
  split; [rewrite E2; reflexivity |].
  split; [exact B2 |].
  split; [exact S2 |].
  split.
  { rewrite release_leaf by (rewrite E2; reflexivity). reflexivity. }
  rewrite E2. simpl fc_owner. unfold back_fcache_block.
  match goal with
  | |- context [block_at ?c' b] => change (block_at c' b) with (block_at c2 b)
  end.
  rewrite B2. simpl.
  split; [unfold fcache_at; simpl; rewrite lookup_insert_eq; reflexivity |].
  split; [unfold block_at; simpl; rewrite lookup_insert_eq; reflexivity |].
  split.
  { apply foldl_dlist_delete_all. intros y Hy. rewrite Hslots.
    unfold dlist_push_tail in Hy. apply elem_of_app in Hy as [Hy | Hy].
    - right. exact Hy.
    - apply elem_of_cons in Hy as [-> | Hy]; [left | inversion Hy]. }
  split; [rewrite S2; reflexivity |].
  split; [exact S3 |].
  split; [exact R1 |].
  split; [exact S4 |].
  split; [exact R2 | exact R3].
Qed.

End SlabFacts.

Lemma X12_field_entry_alloc_release_witness :
  exists c1 c2,
    __allocMetadataFieldCache 200 demo_gettimeofday 2 demo_cache = Done (Some (1, 0), c1)
    /\ __releaseMetadataFieldCache 2 c1 (1, 0) = Done c2
    /\ free_fcaches c2 = []
    /\ free_blocks c2 = [2; 3; 1].
Proof.
  destruct (X12_field_entry_alloc_release 200 demo_gettimeofday 2 2 demo_cache 1 [2; 3]
              eq_refl eq_refl ltac:(vm_compute; split; [reflexivity | discriminate])
              ltac:(lia) ltac:(lia))
    as (c1 & c2 & Ha & _ & _ & _ & _ & Hr & _ & _ & Hf & Hb & _).
  exists c1, c2. repeat split; assumption.
Defined.

(* ================================================================== *)
(** * Metadata cache: reclaiming the least recently used entry *)
(* ================================================================== *)

Lemma to_u64_negative z : - 2 ^ 63 <= z < 0 -> to_u64 z = z + 2 ^ 64.
Proof.
  intros H. unfold to_u64. rewrite <- (Z.mod_add z 1) by lia.
  apply Z.mod_small. lia.
Qed.

Section ReclaimFacts.

Variable gettimeofday : nat -> timeval.

(** X13.  [__reclaimMetadataCache] looks at the tail of the LRU list
    only.  While the clock is at most 30 seconds past the tail's stamp
    the routine returns false and nothing but the clock has moved.  When
    more than 30 seconds have passed, and also when the clock reads
    earlier than the stamp (the signed difference is compared as an
    unsigned number), the tail entry is evicted: the routine returns
    true, the entry has left the LRU list and every hash slot and
    carries the free magic. *)
Theorem X13_reclaim_by_idle_time fuel c m :
  last (lru_list c) = Some m ->
  let elapsed := lru_elapsed (gettimeofday (ticks c)) (mc_lru_tv (mcache_at c m)) in
  - 2 ^ 63 <= elapsed < 2 ^ 63 ->
  (0 <= elapsed <= 30000000 ->
     __reclaimMetadataCache gettimeofday fuel c = Done (false, set_ticks (S (ticks c)) c))
  /\ (elapsed < 0 \/ 30000000 < elapsed ->
      forall n, next_chain_ends c n (Some m) ->
        (n + 2 * links c + 2 <= fuel)%nat ->
        exists c',
          __reclaimMetadataCache gettimeofday fuel c = Done (true, c')
          /\ lru_list c' = dlist_delete (lru_list c) m
          /\ (forall h, m ∉ hash_slot_at c' h)
          /\ mc_magic (mcache_at c' m) = ARROW_METADATA_CACHE_FREE_MAGIC
          /\ ticks c' = S (ticks c)).
Proof.
  intros Hlast elapsed Hrange. unfold __reclaimMetadataCache. rewrite Hlast.
  change (mcache_at (set_ticks (S (ticks c)) c) m) with (mcache_at c m).
  fold elapsed. split.
  - intros He. rewrite to_u64_small by lia.
    destruct (30000000 <? elapsed) eqn:E; [apply Z.ltb_lt in E; lia | reflexivity].
  - intros He n Hchain Hfuel.
    assert (E : (30000000 <? to_u64 elapsed) = true).
    { apply Z.ltb_lt. destruct (Z_lt_dec elapsed 0) as [Hneg | Hpos].
      - rewrite to_u64_negative by lia. lia.
      - rewrite to_u64_small by lia. lia. }
    rewrite E.
    set (c0 := unlink_from_hash
                 (set_lru_list (dlist_delete (lru_list (set_ticks (S (ticks c)) c)) m)
                    (set_ticks (S (ticks c)) c)) m).
    destruct (release_mcache_terminates fuel c0 (Some m) n) as (c' & Hrel).
    { apply (next_chain_ends_frame c); [reflexivity | exact Hchain]. }
    { change (links c0) with (links c). exact Hfuel. }
    rewrite Hrel. simpl.
    destruct (release_mcache_frame _ _ _ _ Hrel) as ((F1 & F2 & F3 & _) & Hmagic).
    exists c'. split; [reflexivity |].
    split; [rewrite F1; reflexivity |].
    split.
    { intros h. unfold hash_slot_at. rewrite F2.
      apply (unlink_from_hash_not_elem
               (set_lru_list (dlist_delete (lru_list (set_ticks (S (ticks c)) c)) m)
                  (set_ticks (S (ticks c)) c)) m h). }
    split; [apply Hmagic; reflexivity |].
    rewrite F3. reflexivity.
Qed.

End ReclaimFacts.

Lemma X13_reclaim_by_idle_time_witness :
  __reclaimMetadataCache demo_gettimeofday 10 demo_cache
  = Done (false, set_ticks 1 demo_cache).
Proof.
  apply (X13_reclaim_by_idle_time demo_gettimeofday 10 demo_cache (0, 0) eq_refl).
  - vm_compute. split; [discriminate | reflexivity].
  - vm_compute. split; discriminate.
Defined.

(* ================================================================== *)
(** * File-set resolver: which options are accepted *)
(* ================================================================== *)

Lemma known_option_is_not_files options_list :
  forallb option_known options_list = true -> has_option "files" options_list = false.
Proof.
  induction options_list as [|d rest IH]; simpl; [reflexivity |].
  intros H. apply andb_true_iff in H as [Hd Hrest]. rewrite (IH Hrest), orb_false_r.
  unfold option_known in Hd.
  destruct (String.eqb_spec (defname d) "files") as [E | _]; [| reflexivity].
  rewrite E in Hd. discriminate Hd.
Qed.

Section ResolverAccepts.

Variable __trim : string -> string.
Variable __trim_inplace : string -> string.
Variable atoi : string -> Z.
Variable fs : FileSystem.

Local Abbreviation options_loop' := (options_loop __trim __trim_inplace atoi fs).
Local Abbreviation resolver := (arrowFdwExtractFilesList __trim __trim_inplace atoi fs).


Lemma options_loop_accepts options_list : forall fuel st,
  forallb option_known options_list = true ->
  forallb (access_R_OK fs) (spec_literal_files options_list) = true ->
  (parallel_values options_list = []
   \/ (parallel_nworkers st < 0
       /\ forallb (fun v => atoi v <? 0) (removelast (parallel_values options_list))
          = true)) ->
  exists trace st',
    options_loop' fuel options_list st = FlReturn trace st'
    /\ parallel_nworkers st'
       = match last (parallel_values options_list) with
         | Some v => atoi v
         | None => parallel_nworkers st
         end.
Proof.
  induction options_list as [|d rest IH]; intros fuel st Hk Ha Hw.
  - simpl. eauto.
  - simpl in Hk. apply andb_true_iff in Hk as [Hd Hk].
    unfold spec_literal_files, parallel_values in *. simpl in *.
    unfold option_known in Hd.
    destruct (String.eqb_spec (defname d) "file") as [Ef | Nf].
    + rewrite Ef in *. simpl in *. apply andb_true_iff in Ha as [Ha1 Ha2].
      rewrite Ha1. simpl.
      match goal with
      | |- context [options_loop' fuel rest ?s] =>
          destruct (IH fuel s Hk Ha2 Hw) as (trace & st' & Hl & Hp)
      end.
      eauto.
    + destruct (String.eqb_spec (defname d) "files") as [Efs | Nfs];
        [rewrite Efs in Hd; discriminate Hd |].
      destruct (String.eqb_spec (defname d) "dir") as [Ed | Nd].
      * rewrite Ed in *. simpl in *.
        match goal with
        | |- context [options_loop' fuel rest ?s] =>
            destruct (IH fuel s Hk Ha Hw) as (trace & st' & Hl & Hp)
        end.
        eauto.
      * destruct (String.eqb_spec (defname d) "suffix") as [Es | Ns].
        -- rewrite Es in *. simpl in *.
           match goal with
           | |- context [options_loop' fuel rest ?s] =>
               destruct (IH fuel s Hk Ha Hw) as (trace & st' & Hl & Hp)
           end.
           eauto.
        -- destruct (String.eqb_spec (defname d) "parallel_workers") as [Ep | Np];
             [| discriminate Hd].
           simpl in *.
           destruct Hw as [Hw | [Hp Hw]]; [discriminate Hw |].
           destruct (0 <=? parallel_nworkers st) eqn:E; [apply Z.leb_le in E; lia |].
           assert (Hw' : map arg (List.filter
                                    (fun d0 => String.eqb (defname d0) "parallel_workers")
                                    rest) = []
                         \/ (atoi (arg d) < 0
                             /\ forallb (fun v => atoi v <? 0)
                                  (removelast
                                     (map arg (List.filter
                                        (fun d0 => String.eqb (defname d0) "parallel_workers")
                                        rest))) = true)).
           { remember (map arg (List.filter
                                  (fun d0 => String.eqb (defname d0) "parallel_workers")
                                  rest)) as pv eqn:Epv.
             clear IH. destruct pv as [|v vals']; [left; reflexivity |].
             right. simpl in Hw. apply andb_true_iff in Hw as [Hw1 Hw2].
             apply Z.ltb_lt in Hw1. split; [exact Hw1 | exact Hw2]. }
           destruct (IH fuel (mkResolverState (rs_trace st) (filesList st) (dir_path st)
                                (dir_suffix st) (atoi (arg d))) Hk Ha Hw')
             as (trace & st' & Hl & Hp').
           exists trace, st'. split; [exact Hl |]. rewrite Hp'. simpl.
           destruct (map arg (List.filter
                                (fun d0 => String.eqb (defname d0) "parallel_workers")
                                rest)) as [|v vals']; [reflexivity |].
           rewrite last_cons_cons.
           destruct (last (v :: vals')) eqn:El; [reflexivity |].
           apply last_None in El. discriminate El.
Qed.


Lemma options_loop_returned options_list : forall fuel st trace st',
  has_option "files" options_list = false ->
  options_loop' fuel options_list st = FlReturn trace st' ->
  forallb option_known options_list = true
  /\ forallb (access_R_OK fs) (spec_literal_files options_list) = true
  /\ (parallel_values options_list = []
      \/ (parallel_nworkers st < 0
          /\ forallb (fun v => atoi v <? 0) (removelast (parallel_values options_list))
             = true)).
Proof.
  induction options_list as [|d rest IH]; intros fuel st trace st' Hno H.
  - simpl. auto.
  - simpl in Hno. apply orb_false_iff in Hno as [Hd Hrest].
    simpl in H. rewrite Hd in H.
    unfold spec_literal_files, parallel_values, option_known in *. simpl.
    destruct (String.eqb_spec (defname d) "file") as [Ef | Nf].
    + rewrite Ef in *. simpl.
      destruct (access_R_OK fs (arg d)); simpl in H; [| discriminate H].
      apply IH in H as (A & B & C); auto.
    + destruct (String.eqb_spec (defname d) "dir") as [Ed | Nd].
      * rewrite Ed in *. simpl. apply IH in H as (A & B & C); auto.
      * destruct (String.eqb_spec (defname d) "suffix") as [Es | Ns].
        -- rewrite Es in *. simpl. apply IH in H as (A & B & C); auto.
        -- destruct (String.eqb_spec (defname d) "parallel_workers") as [Ep | Np];
             [| discriminate H].
           simpl.
           destruct (0 <=? parallel_nworkers st) eqn:E; [discriminate H |].
           apply Z.leb_gt in E.
           apply IH in H as (A & B & C); auto. simpl in C.
           split; [exact A |]. split; [exact B |]. right. split; [exact E |].
           destruct (map arg (List.filter
                                (fun d0 => String.eqb (defname d0) "parallel_workers")
                                rest)) as [|v vals']; [reflexivity |].
           destruct C as [C | [C1 C2]]; [discriminate C |].
           simpl. apply andb_true_iff. split; [apply Z.ltb_lt; exact C1 | exact C2].
Qed.

(** X14.  On options without a [files] option the resolver always comes
    to an end, whatever the fuel.  It returns exactly when every option
    name is known, every [file] path is readable, every
    [parallel_workers] value but the last reads as a negative number, a
    [suffix] comes with a [dir], and the last [dir] can be opened.  It
    then returns the [file] paths in source order followed by the kept
    entries of the last [dir] under the last [suffix], and the number of
    workers of the last [parallel_workers] option ([-1] without one).
    Otherwise it raises an error. *)
Theorem X14_resolver_accepts fuel options_list :
  has_option "files" options_list = false ->
  if options_accepted atoi fs options_list
  then exists trace,
         resolver fuel options_list
         = FlReturn trace
             (spec_literal_files options_list ++
              match last_option "dir" options_list with
              | None => []
              | Some dir =>
                  match ReadDir fs dir with
                  | Some entries =>
                      spec_kept_entries fs dir (last_option "suffix" options_list) entries
                  | None => []
                  end
              end,
              resolved_workers atoi options_list)
  else exists trace kind msg, resolver fuel options_list = FlError trace kind msg.
Proof.
  intros Hno. unfold options_accepted, resolved_workers.
  unfold arrowFdwExtractFilesList.
  set (st0 := mkResolverState [] [] None None (-1)).
  destruct (options_loop' fuel options_list st0) as [trace st' | trace kind msg |] eqn:Hl.
  - destruct (options_loop_returned _ _ _ _ _ Hno Hl) as (Hk & Ha & Hw).
    destruct (options_loop_accepts options_list fuel st0 Hk Ha Hw) as (t2 & st2 & Hl2 & Hp).
    rewrite Hl in Hl2. inversion Hl2; subst t2 st2. clear Hl2.
    destruct (options_loop_returns __trim __trim_inplace atoi fs _ _ _ _ _ Hno Hl)
      as (Hf & Hd & Hs & _).
    simpl in Hf, Hd, Hs, Hp. fold (last_option "dir" options_list) in Hd.
    fold (last_option "suffix" options_list) in Hs.
    rewrite Hk, Ha. simpl.
    assert (Hw' : forallb (fun v => atoi v <? 0) (removelast (parallel_values options_list))
                  = true).
    { destruct Hw as [-> | [_ Hw]]; [reflexivity | exact Hw]. }
    rewrite Hw'. simpl. rewrite Hd, Hs, Hp.
    destruct (last_option "dir" options_list) as [dir|].
    + destruct (ReadDir fs dir) as [entries|].
      * pose proof (dir_loop_spec fs dir (last_option "suffix" options_list) entries
                      (rs_trace st' ++ [EvReadDir dir]) (filesList st')) as Hdl.
        destruct (dir_loop fs dir (last_option "suffix" options_list) entries _ _)
          as [t f].
        simpl in Hdl. rewrite Hdl, Hf.
        destruct (last_option "suffix" options_list); eauto.
      * destruct (last_option "suffix" options_list); eauto.
    + destruct (has_option "suffix" options_list) eqn:Hsx; simpl.
      * destruct (fold_left_has_option _ _ Hsx) as (w & Hw2).
        fold (last_option "suffix" options_list) in Hw2. rewrite Hw2. eauto.
      * pose proof (fold_left_no_option _ _ Hsx) as Hw2.
        fold (last_option "suffix" options_list) in Hw2. rewrite Hw2.
        rewrite Hf, app_nil_r. eauto.
  - destruct (_ && _ && _ && _) eqn:Hacc; [| eauto].
    exfalso.
    apply andb_true_iff in Hacc as [Hacc _].
    apply andb_true_iff in Hacc as [Hacc Hw].
    apply andb_true_iff in Hacc as [Hk Ha].
    destruct (options_loop_accepts options_list fuel st0 Hk Ha) as (t2 & st2 & Hl2 & _).
    { right. split; [reflexivity | exact Hw]. }
    rewrite Hl in Hl2. discriminate Hl2.
  - exfalso. eapply options_loop_no_fuel; eauto.
Qed.

End ResolverAccepts.

Lemma X14_resolver_accepts_witness :
  exists trace,
    arrowFdwExtractFilesList trim_blanks drop_trailing_blanks demo_atoi demo_fs 0
      [mkDefElem "file" "/data/x.arrow"; mkDefElem "parallel_workers" "-1";
       mkDefElem "dir" "/arr"; mkDefElem "suffix" "arrow";
       mkDefElem "parallel_workers" "4"]
    = FlReturn trace (["/data/x.arrow"; "/arr/a.arrow"; "/arr/b.arrow"]%string, 4).
Proof.
  exact (X14_resolver_accepts trim_blanks drop_trailing_blanks demo_atoi demo_fs 0
           [mkDefElem "file" "/data/x.arrow"; mkDefElem "parallel_workers" "-1";
            mkDefElem "dir" "/arr"; mkDefElem "suffix" "arrow";
            mkDefElem "parallel_workers" "4"] eq_refl).
Defined.

(* ================================================================== *)
(** * The type binder decides by the field alone *)
(* ================================================================== *)

Lemma binding_atttypid f1 f2 :
  fstate_binding f1 = fstate_binding f2 -> atttypid f1 = atttypid f2.
Proof. destruct f1, f2; simpl. intros H. inversion H. reflexivity. Qed.

Lemma bindings_atttypid cs1 : forall cs2,
  map fstate_binding cs1 = map fstate_binding cs2 -> map atttypid cs1 = map atttypid cs2.
Proof.
  induction cs1 as [|c cs1 IH]; intros [|c2 cs2] H; simpl in *; try discriminate;
    [reflexivity |].
  inversion H. rewrite (binding_atttypid _ _ H1), (IH _ H2). reflexivity.
Qed.

Lemma binding_of_kept f f' :
  same_binding f f' ->
  fstate_binding f'
  = mkFieldBinding (atttypid f) (atttypmod f) (attopts f) (num_children f)
      (map fstate_binding (children f)).
Proof.
  intros (A & B & C & _ & _ & D & E). destruct f, f'; simpl in *. subst. reflexivity.
Qed.

(** A branch of the switch that binds a field without sub-fields. *)
Lemma leaf_binding typmod fnode con o typid has_extra fstate con' :
  bind_buffers (set_atttypmod typmod (init_fstate fnode)) con o typid has_extra
  = Ok (fstate, con') ->
  fstate_binding fstate = mkFieldBinding typid typmod o 0 [].
Proof.
  unfold bind_buffers. intros H. apply assign_buffer_keeps in H.
  rewrite (binding_of_kept _ _ H). reflexivity.
Qed.

Lemma build_children_binding cat d fs :
  Forall (fun field => forall depth con1 f1 c1 con2 f2 c2,
            __buildRecordBatchFieldState cat con1 field depth = Ok (f1, c1) ->
            __buildRecordBatchFieldState cat con2 field depth = Ok (f2, c2) ->
            fstate_binding f1 = fstate_binding f2) fs ->
  forall con1 cs1 c1 con2 cs2 c2,
    build_children (fun con f => __buildRecordBatchFieldState cat con f d) fs con1
    = Ok (cs1, c1) ->
    build_children (fun con f => __buildRecordBatchFieldState cat con f d) fs con2
    = Ok (cs2, c2) ->
    map fstate_binding cs1 = map fstate_binding cs2.
Proof.
  induction 1 as [|f fs Hf _ IH]; intros con1 cs1 c1 con2 cs2 c2 H1 H2;
    simpl in H1, H2.
  - inversion H1; inversion H2; subst. reflexivity.
  - destruct (__buildRecordBatchFieldState cat con1 f d) as [[x1 k1] | ? ?] eqn:E1;
      simpl in H1; [| discriminate].
    destruct (build_children _ fs k1) as [[xs1 k1'] | ? ?] eqn:F1;
      simpl in H1; [| discriminate].
    destruct (__buildRecordBatchFieldState cat con2 f d) as [[x2 k2] | ? ?] eqn:E2;
      simpl in H2; [| discriminate].
    destruct (build_children _ fs k2) as [[xs2 k2'] | ? ?] eqn:F2;
      simpl in H2; [| discriminate].
    inversion H1; inversion H2; subst. simpl.
    rewrite (Hf _ _ _ _ _ _ _ E1 E2), (IH _ _ _ _ _ _ F1 F2). reflexivity.
Qed.

Lemma composite_matches_binding cat f1 f2 oid :
  num_children f1 = num_children f2 ->
  map atttypid (children f1) = map atttypid (children f2) ->
  composite_matches cat f1 oid = composite_matches cat f2 oid.
Proof.
  intros Hn Hc. unfold composite_matches. rewrite Hn.
  destruct (negb _); [reflexivity |].
  destruct (lookup_rowtype_tupdesc_noerror cat oid) as [attrs|]; [| reflexivity].
  f_equal.
  destruct (attrs_match attrs (children f1)) eqn:E1.
  - apply attrs_match_spec in E1. rewrite Hc in E1. apply attrs_match_spec in E1.
    rewrite E1. reflexivity.
  - destruct (attrs_match attrs (children f2)) eqn:E2; [| reflexivity].
    apply attrs_match_spec in E2. rewrite <- Hc in E2. apply attrs_match_spec in E2.
    congruence.
Qed.

Lemma find_ext {A} (f g : A -> bool) l :
  (forall x, f x = g x) -> List.find f l = List.find g l.
Proof.
  intros H. induction l as [|a l IH]; simpl; [reflexivity |].
  rewrite H, IH. reflexivity.
Qed.

(** Two runs of the type binder on the same field, on whatever record
    batches, decide the same. *)
Lemma raw_field_binding cat field :
  forall depth con1 f1 c1 con2 f2 c2,
    __buildRecordBatchFieldState cat con1 field depth = Ok (f1, c1) ->
    __buildRecordBatchFieldState cat con2 field depth = Ok (f2, c2) ->
    fstate_binding f1 = fstate_binding f2.
Proof.
  induction field as [name t metadata fchildren IHc] using field_nested_ind.
  intros depth con1 f1 c1 con2 f2 c2 H1 H2. simpl in H1, H2.
  destruct (next_fnode con1) as [[n1 k1] | ? ?]; simpl in H1; [| discriminate].
  destruct (next_fnode con2) as [[n2 k2] | ? ?]; simpl in H2; [| discriminate].
  destruct t; simpl in H1, H2;
    try (lazymatch type of IHc with Forall _ ?l =>
           lazymatch type of H1 with context [l] => fail | _ => idtac end end;
         repeat match type of H1 with
           | context [if ?b then _ else _] => destruct b eqn:?
           | context [match ?u with _ => _ end] =>
               match type of u with
               | ArrowPrecision => destruct u
               | ArrowDateUnit => destruct u
               | ArrowTimeUnit => destruct u
               | ArrowIntervalUnit => destruct u
               end
           end; try discriminate;
         (rewrite (leaf_binding _ _ _ _ _ _ _ _ H1), (leaf_binding _ _ _ _ _ _ _ _ H2);
          reflexivity)).
  - destruct fchildren as [|child [|? ?]]; try discriminate.
    destruct (0 <? depth); [discriminate |].
    match type of H1 with
    | context [__assignRecordBatchFieldStateBuffer ?f ?c ?b] =>
        destruct (__assignRecordBatchFieldStateBuffer f c b) as [[a1 k1'] | ? ?] eqn:A1
    end; simpl in H1; [| discriminate].
    match type of H2 with
    | context [__assignRecordBatchFieldStateBuffer ?f ?c ?b] =>
        destruct (__assignRecordBatchFieldStateBuffer f c b) as [[a2 k2'] | ? ?] eqn:A2
    end; simpl in H2; [| discriminate].
    destruct (__buildRecordBatchFieldState cat k1' child (depth + 1))
      as [[x1 k1''] | ? ?] eqn:E1; simpl in H1; [| discriminate].
    destruct (__buildRecordBatchFieldState cat k2' child (depth + 1))
      as [[x2 k2''] | ? ?] eqn:E2; simpl in H2; [| discriminate].
    destruct (negb _); [discriminate |]. destruct (negb _); [discriminate |].
    inversion H1; inversion H2; subst.
    apply Forall_cons in IHc as [Hchild _].
    pose proof (Hchild _ _ _ _ _ _ _ E1 E2) as Hx.
    apply assign_buffer_keeps in A1, A2.
    destruct A1 as (_ & T1 & O1 & _). destruct A2 as (_ & T2 & O2 & _).
    destruct a1, a2; simpl in *. subst.
    rewrite Hx, (binding_atttypid _ _ Hx). reflexivity.
  - destruct fchildren as [|child [|? ?]]; try discriminate.
    destruct (0 <? depth); [discriminate |].
    match type of H1 with
    | context [__assignRecordBatchFieldStateBuffer ?f ?c ?b] =>
        destruct (__assignRecordBatchFieldStateBuffer f c b) as [[a1 k1'] | ? ?] eqn:A1
    end; simpl in H1; [| discriminate].
    match type of H2 with
    | context [__assignRecordBatchFieldStateBuffer ?f ?c ?b] =>
        destruct (__assignRecordBatchFieldStateBuffer f c b) as [[a2 k2'] | ? ?] eqn:A2
    end; simpl in H2; [| discriminate].
    destruct (__buildRecordBatchFieldState cat k1' child (depth + 1))
      as [[x1 k1''] | ? ?] eqn:E1; simpl in H1; [| discriminate].
    destruct (__buildRecordBatchFieldState cat k2' child (depth + 1))
      as [[x2 k2''] | ? ?] eqn:E2; simpl in H2; [| discriminate].
    destruct (negb _); [discriminate |]. destruct (negb _); [discriminate |].
    inversion H1; inversion H2; subst.
    apply Forall_cons in IHc as [Hchild _].
    pose proof (Hchild _ _ _ _ _ _ _ E1 E2) as Hx.
    apply assign_buffer_keeps in A1, A2.
    destruct A1 as (_ & T1 & O1 & _). destruct A2 as (_ & T2 & O2 & _).
    destruct a1, a2; simpl in *. subst.
    rewrite Hx, (binding_atttypid _ _ Hx). reflexivity.
  - destruct (0 <? depth); [discriminate |].
    match type of H1 with
    | context [__assignRecordBatchFieldStateBuffer ?f ?c ?b] =>
        destruct (__assignRecordBatchFieldStateBuffer f c b) as [[a1 k1'] | ? ?] eqn:A1
    end; simpl in H1; [| discriminate].
    match type of H2 with
    | context [__assignRecordBatchFieldStateBuffer ?f ?c ?b] =>
        destruct (__assignRecordBatchFieldStateBuffer f c b) as [[a2 k2'] | ? ?] eqn:A2
    end; simpl in H2; [| discriminate].
    match type of H1 with
    | context [build_children ?g ?l ?c] =>
        destruct (build_children g l c) as [[xs1 k1''] | ? ?] eqn:E1
    end; simpl in H1; [| discriminate].
    match type of H2 with
    | context [build_children ?g ?l ?c] =>
        destruct (build_children g l c) as [[xs2 k2''] | ? ?] eqn:E2
    end; simpl in H2; [| discriminate].
    pose proof (build_children_binding cat (depth + 1) fchildren IHc _ _ _ _ _ _ E1 E2)
      as Hxs.
    apply assign_buffer_keeps in A1, A2.
    destruct A1 as (_ & T1 & O1 & _). destruct A2 as (_ & T2 & O2 & _).
    simpl in T1, O1, T2, O2.
    unfold __assignRecordBatchFieldStateComposite in H1, H2.
    set (s1 := set_children (Z.of_nat (length fchildren)) xs1 a1) in *.
    set (s2 := set_children (Z.of_nat (length fchildren)) xs2 a2) in *.
    assert (Hn : num_children s1 = num_children s2) by reflexivity.
    assert (Hc : map atttypid (children s1) = map atttypid (children s2)).
    { simpl. apply bindings_atttypid. exact Hxs. }
    assert (Hcand : composite_candidates cat s1 (pg_type_hint_loop cat metadata)
                    = composite_candidates cat s2 (pg_type_hint_loop cat metadata)).
    { unfold composite_candidates. rewrite Hn. reflexivity. }
    rewrite Hcand in H1.
    rewrite (find_ext _ _ _ (fun oid => composite_matches_binding cat s1 s2 oid Hn Hc))
      in H1.
    destruct (List.find _ _) as [oid|]; simpl in H1, H2; [| discriminate].
    inversion H1; inversion H2; subst.
    destruct a1, a2; simpl in *. subst. rewrite Hxs. reflexivity.
Qed.

Lemma apply_stats_binding fstate :
  forall bstats rb_index,
    fstate_binding (__applyArrowFieldStatsBinary fstate bstats rb_index)
    = fstate_binding fstate.
Proof.
  induction fstate as [typid typmod o n nc no nl vo vl eo el smin smax snull nch cs IHcs]
    using fstate_nested_ind.
  intros bstats rb_index.
  assert (Hcs : map fstate_binding
                  (apply_children (fun c b => __applyArrowFieldStatsBinary c b rb_index)
                     cs (subfields bstats))
                = map fstate_binding cs).
  { generalize (subfields bstats) as bs.
    induction IHcs as [|c cs Hc _ IH]; intros bs; [destruct bs; reflexivity |].
    destruct bs as [|b bs]; simpl; [reflexivity |]. rewrite Hc, IH. reflexivity. }
  simpl.
  destruct (bs_isnull bstats), (bs_min_values bstats), (bs_max_values bstats),
    (0 <? bs_unitsz bstats); simpl; rewrite Hcs; reflexivity.
Qed.

Section BindingOfBatches.

Variable __trim : string -> string.
Variable cat : HostCatalog.
Variable files : ArrowFiles.

(** The field state carries the binding of a run of the type binder on
    the field. *)
Local Abbreviation bound_as :=
  (fun field f => exists con f0 con',
     __buildRecordBatchFieldState cat con field 0 = Ok (f0, con')
     /\ fstate_binding f = fstate_binding f0).

Lemma build_fields_bound_as fs : forall con fstates con',
  build_fields cat con fs = Ok (fstates, con') -> Forall2 bound_as fs fstates.
Proof.
  induction fs as [|f fs IH]; intros con fstates con' H; simpl in H.
  - inversion H; subst. constructor.
  - destruct (__buildRecordBatchFieldState cat con f 0) as [[f1 con1] | k m] eqn:E1;
      simpl in H; [| discriminate].
    destruct (build_fields cat con1 fs) as [[fs1 con2] | k m] eqn:E2;
      simpl in H; [| discriminate].
    inversion H; subst. constructor; [| exact (IH _ _ _ E2)].
    exists con, f1, con1. auto.
Qed.

Lemma apply_fields_bound_as schema : forall fstates n j bs rb_index,
  Forall2 bound_as schema fstates ->
  Forall2 bound_as schema (apply_fields n j fstates bs rb_index).
Proof.
  induction schema as [|field schema IH]; intros fstates n j bs rb_index H;
    inversion H; subst; simpl.
  - destruct (j <? n); [destruct bs |]; constructor.
  - destruct (j <? n); [| exact H].
    destruct bs as [|b bs]; [exact H |].
    constructor; [| apply IH; assumption].
    match goal with Hb : exists _ _ _, _ |- _ => destruct Hb as (con & f0 & con' & Hb1 & Hb2) end.
    exists con, f0, con'. split; [exact Hb1 |]. rewrite apply_stats_binding. exact Hb2.
Qed.

Lemma record_batch_bound_as schema_fields rb_index block rbatch rb_state :
  __buildRecordBatchStateOne cat schema_fields rb_index block rbatch = Ok rb_state ->
  Forall2 bound_as schema_fields (fields rb_state)
  /\ nfields rb_state = 0.
Proof.
  unfold __buildRecordBatchStateOne. intros H.
  destruct (rbatch_compression rbatch); [discriminate |].
  match type of H with
  | context [build_fields cat ?c ?l] =>
      destruct (build_fields cat c l) as [[fstates con] | k m] eqn:E
  end; simpl in H; [| discriminate].
  destruct (buffers con); [| discriminate]. destruct (fnodes con); [| discriminate].
  inversion H; subst. simpl. split; [| reflexivity].
  eapply build_fields_bound_as. exact E.
Qed.

Lemma build_batches_bound_as schema_fields arrow_bstats blocks :
  forall i rbatches rbs,
    build_batches cat schema_fields arrow_bstats i blocks rbatches = Ok rbs ->
    Forall (fun rb => Forall2 bound_as schema_fields (fields rb)
                      /\ nfields rb = 0) rbs.
Proof.
  induction blocks as [|block blocks IH]; intros i rbatches rbs H; simpl in H.
  - inversion H; subst. constructor.
  - destruct rbatches as [|rbatch rbatches]; [discriminate |].
    destruct (__buildRecordBatchStateOne cat schema_fields i block rbatch)
      as [rb | k m] eqn:E1; simpl in H; [| discriminate].
    destruct (build_batches cat schema_fields arrow_bstats (i + 1) blocks rbatches)
      as [rest | k m] eqn:E2; simpl in H; [| discriminate].
    inversion H; subst. constructor; [| exact (IH _ _ _ E2)].
    destruct (record_batch_bound_as _ _ _ _ _ E1) as [Hb Hn].
    destruct arrow_bstats as [bstats|]; simpl; [| auto].
    split; [apply apply_fields_bound_as; exact Hb | exact Hn].
Qed.

Lemma bound_as_agree schema : forall fs1 fs2,
  Forall2 bound_as schema fs1 -> Forall2 bound_as schema fs2 ->
  map fstate_binding fs1 = map fstate_binding fs2.
Proof.
  induction schema as [|field schema IH]; intros fs1 fs2 H1 H2;
    inversion H1; inversion H2; subst; [reflexivity |].
  simpl. f_equal; [| apply IH; assumption].
  repeat match goal with
         | Hb : exists _ _ _, _ |- _ => destruct Hb as (? & ? & ? & ? & ?)
         end.
  etransitivity; [eassumption |]. etransitivity; [| symmetry; eassumption].
  eapply raw_field_binding; eassumption.
Qed.

Lemma by_file_bound_as name af_state notes :
  __buildArrowFileStateByFile __trim cat files name = Ok (Some af_state, notes) ->
  exists schema_fields,
    Forall (fun rb => Forall2 bound_as schema_fields (fields rb)
                      /\ nfields rb = 0)
      (rb_list af_state).
Proof.
  unfold __buildArrowFileStateByFile. intros H.
  destruct (open_arrow_file files name) as [e | r].
  { destruct (negb e); discriminate. }
  destruct r as [af_info | k m]; simpl in H; [| discriminate].
  destruct (af_dictionaries af_info); [discriminate |].
  destruct (af_recordBatches af_info) as [rbatches|]; [| discriminate].
  match type of H with
  | context [build_batches ?a ?b ?c ?d ?e ?f] =>
      destruct (build_batches a b c d e f) as [rbs | k m] eqn:E
  end; simpl in H; [| discriminate].
  inversion H; subst. simpl.
  exists (footer_schema_fields af_info).
  exact (build_batches_bound_as _ _ _ _ _ _ E).
Qed.

(** X15.  In a file state built from the raw file, every record batch
    binds the columns alike: column by column and at every level, the
    host type, the type modifier, the type options and the number of
    sub-fields are the same in all record batches, and so is the number
    of columns.  What the type binder decides depends on the schema and
    the catalog, not on the record batch. *)
Theorem X15_batches_bind_alike name af_state notes rb rb' :
  __buildArrowFileStateByFile __trim cat files name = Ok (Some af_state, notes) ->
  rb ∈ rb_list af_state -> rb' ∈ rb_list af_state ->
  map fstate_binding (fields rb) = map fstate_binding (fields rb')
  /\ map atttypid (fields rb) = map atttypid (fields rb')
  /\ nfields rb = nfields rb'.
Proof.
  intros H Hin Hin'.
  destruct (by_file_bound_as _ _ _ H) as (schema_fields & HF).
  rewrite Forall_forall in HF.
  destruct (HF _ Hin) as [B1 N1]. destruct (HF _ Hin') as [B2 N2].
  pose proof (bound_as_agree _ _ _ B1 B2) as Hb.
  split; [exact Hb |].
  split; [apply bindings_atttypid; exact Hb |].
  rewrite N1, N2. reflexivity.
Qed.

End BindingOfBatches.

Lemma X15_batches_bind_alike_witness :
  map fstate_binding (fields pair_rb0) = map fstate_binding (fields pair_rb1)
  /\ map atttypid (fields pair_rb0) = map atttypid (fields pair_rb1)
  /\ nfields pair_rb0 = nfields pair_rb1.
Proof.
  apply (X15_batches_bind_alike trim_blanks demo_catalog pair_files "/arr/pair.arrow"
           pair_af_state [] pair_rb0 pair_rb1).
  - vm_compute. reflexivity.
  - left.
  - right. left.
Defined.

(* ================================================================== *)
(** * The file state fits the foreign table *)
(* ================================================================== *)

Lemma columns_match_spec atts : forall fs,
  columns_match atts fs = true -> length fs = length atts -> map atttypid fs = atts.
Proof.
  induction atts as [|a atts IH]; intros [|f fs] H L; simpl in *; try discriminate;
    [reflexivity |].
  apply andb_true_iff in H as [Ha H]. apply Z.eqb_eq in Ha.
  rewrite <- Ha, (IH fs H) by lia. reflexivity.
Qed.

Lemma check_compatible_spec frel af_state :
  check_compatible frel af_state = Done () ->
  exists rb rest,
    rb_list af_state = rb :: rest
    /\ nfields rb = Z.of_nat (length (tupdesc_atttypid frel))
    /\ columns_match (tupdesc_atttypid frel) (fields rb) = true.
Proof.
  unfold check_compatible. intros H.
  destruct (rb_list af_state) as [|rb rest]; [discriminate |].
  destruct (Z.eqb_spec (Z.of_nat (length (tupdesc_atttypid frel))) (nfields rb))
    as [E | _]; simpl in H; [| discriminate].
  destruct (columns_match _ _) eqn:Hc; simpl in H; [| discriminate].
  exists rb, rest. auto.
Qed.

Lemma fields_by_cache_length fuel c n l : forall j fs,
  fields_by_cache fuel c n l j = Done fs -> length fs = Z.to_nat (n - j).
Proof.
  induction l as [|x l IH]; intros j fs H; simpl in H.
  - inversion H; subst. apply length_replicate.
  - destruct (Z.leb_spec n j); [discriminate |].
    destruct (__buildRecordBatchFieldStateByCache fuel c x) as [f | | |];
      simpl in H; try discriminate.
    destruct (fields_by_cache fuel c n l (j + 1)) as [fs' | | |] eqn:E;
      simpl in H; try discriminate.
    inversion H; subst. simpl. rewrite (IH _ _ E). lia.
Qed.

Lemma batches_by_cache_lengths fuel : forall c mo rbs,
  batches_by_cache fuel c mo = Done rbs ->
  Forall (fun rb => length (fields rb) = Z.to_nat (nfields rb)) rbs.
Proof.
  induction fuel as [|fuel IH]; intros c [m|] rbs H; simpl in H;
    try discriminate; try (inversion H; subst; constructor).
  destruct (fields_by_cache fuel c _ _ 0) as [fs | | |] eqn:E; simpl in H;
    try discriminate.
  destruct (batches_by_cache fuel c _) as [rest | | |] eqn:E2; simpl in H;
    try discriminate.
  inversion H; subst. constructor; [| exact (IH _ _ _ E2)].
  simpl. rewrite (fields_by_cache_length _ _ _ _ _ _ E). f_equal. lia.
Qed.

Section FitsTheTable.

Variable sizeof_arrowMetadataCache : Z.
Variable sizeof_arrowMetadataFieldCache : Z.
Variable gettimeofday : nat -> timeval.
Variable hash_bytes : Z -> Z -> Z.
Variable __trim : string -> string.
Variable cat : HostCatalog.
Variable files : ArrowFiles.

Local Abbreviation BuildArrowFileState' :=
  (BuildArrowFileState sizeof_arrowMetadataCache sizeof_arrowMetadataFieldCache
     gettimeofday hash_bytes __trim cat files).

Lemma by_file_nfields name af_state notes :
  __buildArrowFileStateByFile __trim cat files name = Ok (Some af_state, notes) ->
  Forall (fun rb => nfields rb = 0) (rb_list af_state).
Proof.
  intros H. destruct (by_file_bound_as _ _ _ _ _ _ H) as (schema_fields & HF).
  eapply Forall_impl; [exact HF |]. intros rb [_ N]. exact N.
Qed.

(** X16.  [BuildArrowFileState] returns a file state only when the
    compatibility checks pass on its first record batch: the [nfields]
    of that batch is the number of columns of the foreign table and the
    field states it has carry, column by column, the host types of the
    table.  When the file state was taken from the cache, the first
    batch has exactly the column types of the table.  When the first
    lookup missed and the file state was built from the raw file, whose
    record batches keep [nfields] at 0, the foreign table has no
    column: for a table with columns the call does not return a file
    state on that path. *)
Theorem X16_file_state_fits_table fuel c frel name af_state notes c' :
  BuildArrowFileState' fuel c frel name = Done (Some af_state, notes, c') ->
  (exists rb rest,
      rb_list af_state = rb :: rest
      /\ nfields rb = Z.of_nat (length (tupdesc_atttypid frel))
      /\ columns_match (tupdesc_atttypid frel) (fields rb) = true)
  /\ (forall file_stat mcache c0,
        stat_file files name = Some file_stat ->
        lookupArrowMetadataCache gettimeofday hash_bytes fuel c file_stat false
        = LookupFound mcache c0 ->
        exists rb rest,
          rb_list af_state = rb :: rest
          /\ map atttypid (fields rb) = tupdesc_atttypid frel)
  /\ (forall file_stat c0,
        stat_file files name = Some file_stat ->
        lookupArrowMetadataCache gettimeofday hash_bytes fuel c file_stat false
        = LookupNotFound c0 ->
        tupdesc_atttypid frel = []).
Proof.
  unfold BuildArrowFileState. intros H.
  destruct (stat_file files name) as [file_stat|]; [| discriminate].
  destruct (lookupArrowMetadataCache gettimeofday hash_bytes fuel c file_stat false)
    as [mcache c1 | c1 | k m | why |] eqn:Hl; try discriminate.
  - unfold __buildArrowFileStateByCache in H.
    destruct (batches_by_cache fuel c1 (Some mcache)) as [rbs | | |] eqn:Hb;
      simpl in H; try discriminate.
    match type of H with
    | context [check_compatible frel ?a] =>
        destruct (check_compatible frel a) as [[] | | |] eqn:Hc
    end; simpl in H; try discriminate.
    inversion H; subst. clear H.
    destruct (check_compatible_spec _ _ Hc) as (rb & rest & Hrb & Hn & Hm).
    simpl in Hrb. subst rbs.
    pose proof (batches_by_cache_lengths _ _ _ _ Hb) as HL.
    apply Forall_cons in HL as [HL _].
    split; [exists rb, rest; auto |].
    split.
    + intros fs0 m0 c0 E _. exists rb, rest. split; [reflexivity |].
      apply columns_match_spec; [exact Hm |]. rewrite HL, Hn. apply Nat2Z.id.
    + intros fs0 c0 E. inversion E; subst. intros Hl'. congruence.
  - destruct (__buildArrowFileStateByFile __trim cat files name)
      as [[[af0|] notes0] | k m] eqn:Hf; simpl in H; try discriminate.
    match type of H with
    | context [mbind _ ?ins] =>
        destruct ins as [c2 | | |]
    end; simpl in H; try discriminate.
    destruct (check_compatible frel af0) as [[] | | |] eqn:Hc; simpl in H;
      try discriminate.
    inversion H; subst. clear H.
    destruct (check_compatible_spec _ _ Hc) as (rb & rest & Hrb & Hn & Hm).
    pose proof (by_file_nfields _ _ _ Hf) as HN.
    rewrite Hrb in HN. apply Forall_cons in HN as [HN _].
    split; [exists rb, rest; auto |].
    split.
    + intros fs0 m0 c0 E. inversion E; subst. intros Hl'. congruence.
    + intros fs0 c0 _ _. rewrite HN in Hn.
      destruct (tupdesc_atttypid frel); [reflexivity | simpl in Hn; lia].
Qed.

End FitsTheTable.

Lemma X16_file_state_fits_table_witness :
  (exists rb rest,
      rb_list chain_af_state = rb :: rest
      /\ nfields rb = Z.of_nat (length (tupdesc_atttypid pair_rel))
      /\ columns_match (tupdesc_atttypid pair_rel) (fields rb) = true)
  /\ (forall file_stat mcache c0,
        stat_file chain_files "/arr/a.arrow" = Some file_stat ->
        lookupArrowMetadataCache demo_gettimeofday demo_hash_bytes 10
          chain_cache file_stat false
        = LookupFound mcache c0 ->
        exists rb rest,
          rb_list chain_af_state = rb :: rest
          /\ map atttypid (fields rb) = tupdesc_atttypid pair_rel)
  /\ (forall file_stat c0,
        stat_file chain_files "/arr/a.arrow" = Some file_stat ->
        lookupArrowMetadataCache demo_gettimeofday demo_hash_bytes 10
          chain_cache file_stat false
        = LookupNotFound c0 ->
        tupdesc_atttypid pair_rel = []).
Proof.
  eapply (X16_file_state_fits_table 200 200 demo_gettimeofday demo_hash_bytes
            trim_blanks demo_catalog chain_files 10 chain_cache
            pair_rel "/arr/a.arrow" chain_af_state []).
  vm_compute. reflexivity.
Defined.

(* ================================================================== *)
(** * The file state out of the cache *)
(* ================================================================== *)

Lemma fields_by_cache_reads fuel c n l fs :
  Forall2 (field_reads c) l fs ->
  Forall (fun f => (fstate_depth f <= fuel)%nat) fs ->
  forall j, n = j + Z.of_nat (length fs) ->
    fields_by_cache fuel c n l j = Done fs.
Proof.
  induction 1 as [|x f l fs Hx _ IH]; intros Hd j Hn; simpl.
  - simpl in Hn. replace (n - j) with 0 by lia. reflexivity.
  - apply Forall_cons in Hd as [Hd1 Hd2].
    destruct (Z.leb_spec n j) as [Hle | _]; [simpl in Hn; lia |].
    rewrite (Hx fuel Hd1). simpl.
    rewrite (IH Hd2 (j + 1)) by (simpl in Hn; lia). reflexivity.
Qed.

Lemma batches_by_cache_chain c D ms : forall fuel mo fss,
  next_chain c mo ms ->
  Forall2 (entry_holds c) ms fss ->
  Forall (Forall (fun f => (fstate_depth f <= D)%nat)) fss ->
  (length ms + D <= fuel)%nat ->
  batches_by_cache fuel c mo = Done (zip_with (batch_of_entry c) ms fss).
Proof.
  induction ms as [|m ms IH]; intros fuel mo fss Hc Hh Hd Hf.
  - simpl in Hc. subst mo. inversion Hh; subst. destruct fuel; reflexivity.
  - simpl in Hc. destruct Hc as [-> Hc].
    inversion Hh as [|? fs ? fss' [Hn Hr] Hh']; subst.
    apply Forall_cons in Hd as [Hd1 Hd2].
    destruct fuel as [|fuel]; [simpl in Hf; lia |]. simpl.
    rewrite (fields_by_cache_reads fuel c _ _ fs Hr).
    + simpl. rewrite (IH fuel _ fss' Hc Hh' Hd2) by (simpl in Hf; lia). reflexivity.
    + eapply Forall_impl; [exact Hd1 |]. simpl. intros f Hfd. simpl in Hf. lia.
    + rewrite Hn. lia.
Qed.

(** X17.  [__buildArrowFileStateByCache] follows the [next] chain of
    the entry it is given: when the chain runs through the entries
    [ms], each of which holds field states (its [nfields] is their
    number and its field entries read as them), the file state has one
    record batch per entry, in chain order, with the numbers of that
    entry and those field states; the file name is the one passed and
    the stat buffer the one of the first entry.  Fuel for the length of
    the chain and the height of the field states is enough. *)
Theorem X17_file_state_follows_chain fuel c fname m ms fss D :
  next_chain c (Some m) ms ->
  Forall2 (entry_holds c) ms fss ->
  Forall (Forall (fun f => (fstate_depth f <= D)%nat)) fss ->
  (length ms + D <= fuel)%nat ->
  __buildArrowFileStateByCache fuel c fname m
  = Done (mkArrowFileState fname (mc_stat_buf (mcache_at c m))
            (zip_with (batch_of_entry c) ms fss)).
Proof.
  intros Hc Hh Hd Hf. unfold __buildArrowFileStateByCache.
  rewrite (batches_by_cache_chain c D ms fuel (Some m) fss Hc Hh Hd Hf). reflexivity.
Qed.

Lemma chain_cache_field_reads n x :
  fcache_at chain_cache x = chain_fcache n -> field_reads chain_cache x (chain_fstate n).
Proof.
  intros E fuel Hf. destruct fuel as [|fuel]; [simpl in Hf; lia |].
  simpl. rewrite E. reflexivity.
Qed.

Lemma X17_file_state_follows_chain_witness :
  __buildArrowFileStateByCache 3 chain_cache "/arr/a.arrow" (0, 0)
  = Done (mkArrowFileState "/arr/a.arrow" (demo_stat 500)
            [mkRecordBatchState 0 512 4096 100 1 [chain_fstate 100];
             mkRecordBatchState 1 4608 2048 50 1 [chain_fstate 50]]).
Proof.
  apply (X17_file_state_follows_chain 3 chain_cache "/arr/a.arrow" (0, 0)
           [(0, 0); (0, 1)] [[chain_fstate 100]; [chain_fstate 50]] 1).
  - simpl. split; [reflexivity |]. split; [reflexivity | reflexivity].
  - constructor; [| constructor; [| constructor]].
    + split; [reflexivity |].
      constructor; [apply chain_cache_field_reads; reflexivity | constructor].
    + split; [reflexivity |].
      constructor; [apply chain_cache_field_reads; reflexivity | constructor].
  - repeat constructor.
  - simpl. lia.
Defined.

(* ================================================================== *)
(** * The record batches of a file state built from the raw file *)
(* ================================================================== *)

Section BatchesOfTheFile.

Variable __trim : string -> string.
Variable cat : HostCatalog.
Variable files : ArrowFiles.

Lemma record_batch_numbers schema_fields i block rbatch rb :
  __buildRecordBatchStateOne cat schema_fields i block rbatch = Ok rb ->
  rb_index rb = i
  /\ rb_offset rb = blk_offset block + metaDataLength block
  /\ rb_length rb = bodyLength block
  /\ rb_nitems rb = rbatch_length rbatch.
Proof.
  unfold __buildRecordBatchStateOne. intros H.
  destruct (rbatch_compression rbatch); [discriminate |].
  match type of H with
  | context [build_fields cat ?c ?l] =>
      destruct (build_fields cat c l) as [[fstates con] | k m]
  end; simpl in H; [| discriminate].
  destruct (buffers con); [| discriminate]. destruct (fnodes con); [| discriminate].
  inversion H; subst. simpl. auto.
Qed.

Lemma build_batches_numbers schema_fields arrow_bstats blocks :
  forall i rbatches rbs,
    build_batches cat schema_fields arrow_bstats i blocks rbatches = Ok rbs ->
    length rbs = length blocks
    /\ forall k rb,
         rbs !! k = Some rb ->
         exists block rbatch,
           blocks !! k = Some block /\ rbatches !! k = Some rbatch
           /\ rb_index rb = i + Z.of_nat k
           /\ rb_offset rb = blk_offset block + metaDataLength block
           /\ rb_length rb = bodyLength block
           /\ rb_nitems rb = rbatch_length rbatch.
Proof.
  induction blocks as [|block blocks IH]; intros i rbatches rbs H; simpl in H.
  - inversion H; subst. split; [reflexivity |]. intros k rb Hk. inversion Hk.
  - destruct rbatches as [|rbatch rbatches]; [discriminate |].
    destruct (__buildRecordBatchStateOne cat schema_fields i block rbatch)
      as [rb0 | k m] eqn:E1; simpl in H; [| discriminate].
    destruct (build_batches cat schema_fields arrow_bstats (i + 1) blocks rbatches)
      as [rest | k m] eqn:E2; simpl in H; [| discriminate].
    inversion H; subst. clear H.
    destruct (IH _ _ _ E2) as [Hlen Hrest].
    destruct (record_batch_numbers _ _ _ _ _ E1) as (N1 & N2 & N3 & N4).
    split; [simpl; rewrite Hlen; reflexivity |].
    intros [|k] rb Hk; simpl in Hk.
    + inversion Hk; subst. exists block, rbatch. simpl.
      destruct arrow_bstats; simpl; repeat split; auto; lia.
    + destruct (Hrest k rb Hk) as (b & r & B & R & M1 & M2 & M3 & M4).
      exists b, r. simpl. repeat split; auto. lia.
Qed.

(** X18.  A file state built from the raw file mirrors the footer: it
    carries the file name it was asked for and the stat buffer of the
    reader, no debug note is written, and it has one record batch per
    block of the footer, in footer order.  The batch at position [k] has
    index [k]; its offset is the offset of block [k] plus the length of
    the block's metadata (the start of the body), its length is the body
    length of that block, and its row count is the length of the [k]-th
    record batch message. *)
Theorem X18_batches_mirror_footer name af_state notes :
  __buildArrowFileStateByFile __trim cat files name = Ok (Some af_state, notes) ->
  exists af_info rbatches,
    open_arrow_file files name = OpenRead (Ok af_info)
    /\ af_recordBatches af_info = Some rbatches
    /\ filename af_state = name
    /\ stat_buf af_state = af_stat_buf af_info
    /\ notes = []
    /\ length (rb_list af_state) = length (footer_recordBatches af_info)
    /\ forall k rb,
         rb_list af_state !! k = Some rb ->
         exists block rbatch,
           footer_recordBatches af_info !! k = Some block
           /\ rbatches !! k = Some rbatch
           /\ rb_index rb = Z.of_nat k
           /\ rb_offset rb = blk_offset block + metaDataLength block
           /\ rb_length rb = bodyLength block
           /\ rb_nitems rb = rbatch_length rbatch.
Proof.
  unfold __buildArrowFileStateByFile. intros H.
  destruct (open_arrow_file files name) as [e | r].
  { destruct (negb e); discriminate. }
  destruct r as [af_info | k m]; simpl in H; [| discriminate].
  destruct (af_dictionaries af_info); [discriminate |].
  destruct (af_recordBatches af_info) as [rbatches|] eqn:Hr; [| discriminate].
  match type of H with
  | context [build_batches ?a ?b ?c ?d ?e ?f] =>
      destruct (build_batches a b c d e f) as [rbs | k m] eqn:E
  end; simpl in H; [| discriminate].
  inversion H; subst. simpl.
  destruct (build_batches_numbers _ _ _ _ _ _ E) as [Hlen Hk].
  exists af_info, rbatches. repeat split; auto.
Qed.

End BatchesOfTheFile.

Lemma X18_batches_mirror_footer_witness :
  exists af_info rbatches,
    open_arrow_file pair_files "/arr/pair.arrow" = OpenRead (Ok af_info)
    /\ af_recordBatches af_info = Some rbatches
    /\ filename pair_af_state = "/arr/pair.arrow"%string
    /\ stat_buf pair_af_state = af_stat_buf af_info
    /\ @nil string = []
    /\ length (rb_list pair_af_state) = length (footer_recordBatches af_info)
    /\ forall k rb,
         rb_list pair_af_state !! k = Some rb ->
         exists block rbatch,
           footer_recordBatches af_info !! k = Some block
           /\ rbatches !! k = Some rbatch
           /\ rb_index rb = Z.of_nat k
           /\ rb_offset rb = blk_offset block + metaDataLength block
           /\ rb_length rb = bodyLength block
           /\ rb_nitems rb = rbatch_length rbatch.
Proof.
  apply (X18_batches_mirror_footer trim_blanks demo_catalog pair_files
           "/arr/pair.arrow" pair_af_state []).
  vm_compute. reflexivity.
Defined.

(* ================================================================== *)
(** * Planner: the length of a column stays within its buffers *)
(* ================================================================== *)

Lemma buffers_length_app bs1 bs2 :
  buffers_length (bs1 ++ bs2) = buffers_length bs1 + buffers_length bs2.
Proof.
  unfold buffers_length. induction bs1 as [|b bs1 IH]; simpl; [reflexivity |].
  rewrite IH. lia.
Qed.

Lemma buffers_length_nonneg bs : 0 <= buffers_length bs.
Proof.
  unfold buffers_length. induction bs as [|b bs IH]; simpl; [lia |].
  pose proof (to_u64_range (buf_length b)). lia.
Qed.

(** The bytes of the field state itself. *)
Local Abbreviation own_span f :=
  ((if 0 <? null_count f then nullmap_length f else 0)
   + values_length f + extra_length f).

Lemma assign_nullmap_lengths fstate con fstate' con' :
  assign_nullmap fstate con = Ok (fstate', con') ->
  exists b,
    buffers con = b :: buffers con'
    /\ null_count fstate' = null_count fstate
    /\ attopts fstate' = attopts fstate
    /\ values_length fstate' = values_length fstate
    /\ extra_length fstate' = extra_length fstate
    /\ nullmap_length fstate'
       = (if 0 <? null_count fstate then to_u64 (buf_length b)
          else nullmap_length fstate).
Proof.
  unfold assign_nullmap, next_buffer. destruct con as [bs ns]. simpl.
  destruct bs as [|b rest]; simpl; [discriminate |]. intros H.
  destruct (0 <? null_count fstate) eqn:E; simpl in H.
  - case_result H; try discriminate. inversion H; subst. simpl.
    exists b. repeat split; reflexivity.
  - inversion H; subst. simpl. exists b. repeat split; reflexivity.
Qed.

Lemma assign_values_lengths fstate con has_extra fstate' con' :
  assign_values fstate con has_extra = Ok (fstate', con') ->
  exists bs,
    buffers con = bs ++ buffers con'
    /\ length bs = (if unitsz (attopts fstate) =? 0 then 0%nat else 1%nat)
    /\ null_count fstate' = null_count fstate
    /\ nullmap_length fstate' = nullmap_length fstate
    /\ extra_length fstate' = extra_length fstate
    /\ values_length fstate'
       = (if unitsz (attopts fstate) =? 0 then values_length fstate
          else buffers_length bs).
Proof.
  unfold assign_values, next_buffer. destruct con as [bs ns]. simpl.
  destruct (unitsz (attopts fstate) =? 0).
  - intros H. inversion H; subst. exists []. repeat split; reflexivity.
  - destruct bs as [|b rest]; simpl; [discriminate |]. intros H.
    case_result H; try discriminate. inversion H; subst. simpl.
    exists [b]. unfold buffers_length. simpl. repeat split; try reflexivity. lia.
Qed.

Lemma assign_extra_lengths fstate con has_extra fstate' con' :
  assign_extra fstate con has_extra = Ok (fstate', con') ->
  exists bs,
    buffers con = bs ++ buffers con'
    /\ length bs = (if has_extra then 1%nat else 0%nat)
    /\ null_count fstate' = null_count fstate
    /\ nullmap_length fstate' = nullmap_length fstate
    /\ values_length fstate' = values_length fstate
    /\ extra_length fstate'
       = (if has_extra then buffers_length bs else extra_length fstate).
Proof.
  unfold assign_extra, next_buffer. destruct con as [bs ns]. simpl.
  destruct has_extra.
  - destruct bs as [|b rest]; simpl; [discriminate |]. intros H.
    case_result H; try discriminate. inversion H; subst. simpl.
    exists [b]. unfold buffers_length. simpl. repeat split; try reflexivity. lia.
  - intros H. inversion H; subst. exists []. repeat split; reflexivity.
Qed.

(** The lengths a fresh field state gets from
    [__assignRecordBatchFieldStateBuffer] are those of the buffers it
    takes; the null bitmap of a field without nulls is taken and not
    recorded. *)
Lemma assign_buffer_lengths fstate con has_extra fstate' con' :
  __assignRecordBatchFieldStateBuffer fstate con has_extra = Ok (fstate', con') ->
  nullmap_length fstate = 0 -> values_length fstate = 0 -> extra_length fstate = 0 ->
  exists bs,
    buffers con = bs ++ buffers con'
    /\ length bs = (1 + (if (unitsz (attopts fstate) =? 0)%Z then 0 else 1)
                    + (if has_extra then 1 else 0))%nat
    /\ 0 <= nullmap_length fstate' /\ 0 <= values_length fstate'
    /\ 0 <= extra_length fstate'
    /\ own_span fstate' <= buffers_length bs.
Proof.
  unfold __assignRecordBatchFieldStateBuffer. intros H Z1 Z2 Z3.
  destruct (assign_nullmap fstate con) as [[f1 c1] | k1 m1] eqn:E1; simpl in H;
    [| discriminate].
  destruct (assign_values f1 c1 has_extra) as [[f2 c2] | k2 m2] eqn:E2; simpl in H;
    [| discriminate].
  destruct (assign_nullmap_lengths _ _ _ _ E1) as (b & B1 & N1 & O1 & V1 & X1 & L1).
  destruct (assign_values_lengths _ _ _ _ _ E2) as (bs2 & B2 & Ln2 & N2 & L2 & X2 & V2).
  destruct (assign_extra_lengths _ _ _ _ _ H) as (bs3 & B3 & Ln3 & N3 & L3 & V3 & X3).
  exists (b :: bs2 ++ bs3).
  split; [rewrite B1, B2, B3; simpl; rewrite <- app_assoc; reflexivity |].
  simpl. rewrite length_app, Ln2, Ln3, O1.
  split; [lia |].
  rewrite N3, N2, N1, L3, L2, L1, V3, V2, V1, X3, X2, X1, O1, Z1, Z2, Z3.
  change (buffers_length (b :: bs2 ++ bs3))
    with (to_u64 (buf_length b) + buffers_length (bs2 ++ bs3)).
  rewrite buffers_length_app.
  pose proof (to_u64_range (buf_length b)).
  pose proof (buffers_length_nonneg bs2). pose proof (buffers_length_nonneg bs3).
  destruct (0 <? null_count fstate), (unitsz (attopts fstate) =? 0), has_extra;
    repeat split; lia.
Qed.

Lemma span_unfold f :
  fstate_span f
  = own_span f + foldr (fun c acc => fstate_span c + acc) 0 (children f).
Proof. destruct f; reflexivity. Qed.

Lemma lengths_nonneg_unfold f :
  lengths_nonneg f = true
  <-> 0 <= nullmap_length f /\ 0 <= values_length f /\ 0 <= extra_length f
      /\ forallb lengths_nonneg (children f) = true.
Proof.
  destruct f; simpl. rewrite !andb_true_iff, !Z.leb_le. tauto.
Qed.

Lemma children_span_nonneg cs :
  Forall (fun c => lengths_nonneg c = true -> 0 <= fstate_span c) cs ->
  forallb lengths_nonneg cs = true ->
  0 <= foldr (fun c acc => fstate_span c + acc) 0 cs.
Proof.
  induction 1 as [|c cs Hc _ IH]; simpl; [lia |].
  intros H. apply andb_true_iff in H as [H1 H2].
  specialize (Hc H1). specialize (IH H2). lia.
Qed.

Lemma span_nonneg f : lengths_nonneg f = true -> 0 <= fstate_span f.
Proof.
  induction f as [typid typmod o n nc no nl vo vl eo el smin smax snull nch cs IHcs]
    using fstate_nested_ind.
  intros H. pose proof (children_span_nonneg cs IHcs) as Hcs.
  apply lengths_nonneg_unfold in H. simpl in H. destruct H as (A & B & C & D).
  specialize (Hcs D). simpl. destruct (0 <? nc); lia.
Qed.

(** The buffers a run of the type binder takes cover the bytes of the
    field state it returns. *)
Local Abbreviation spans con field f con' :=
  (exists bs,
     buffers con = bs ++ buffers con'
     /\ length bs = layout_buffers field
     /\ lengths_nonneg f = true
     /\ fstate_span f <= buffers_length bs).

Lemma leaf_span name t md ch con fnode con0 typmod o typid has_extra fstate con' :
  buffers con0 = buffers con ->
  bind_buffers (set_atttypmod typmod (init_fstate fnode)) con0 o typid has_extra
  = Ok (fstate, con') ->
  unitsz o <> 0 ->
  has_subfields t = false ->
  own_buffers t = (if has_extra then 3 else 2)%nat ->
  spans con (mkArrowField name t md ch) fstate con'.
Proof.
  intros Hb H Hu Ht Ho. unfold bind_buffers in H.
  destruct (assign_buffer_lengths _ _ _ _ _ H eq_refl eq_refl eq_refl)
    as (bs & B & L & A1 & A2 & A3 & S).
  pose proof (assign_buffer_keeps _ _ _ _ _ H) as (_ & _ & _ & _ & _ & Hch & _).
  simpl in L, Hch.
  destruct (Z.eqb_spec (unitsz o) 0) as [E | _]; [contradiction |].
  exists bs. simpl. rewrite Ht, Ho, <- Hb.
  split; [exact B |]. split; [rewrite L; destruct has_extra; reflexivity |].
  split.
  - apply lengths_nonneg_unfold. rewrite Hch. auto.
  - rewrite span_unfold, Hch. simpl. lia.
Qed.

Lemma build_children_span cat d fs :
  Forall (fun field => forall con depth fstate con',
            __buildRecordBatchFieldState cat con field depth = Ok (fstate, con') ->
            spans con field fstate con') fs ->
  forall con cs con',
    build_children (fun con f => __buildRecordBatchFieldState cat con f d) fs con
    = Ok (cs, con') ->
    exists bs,
      buffers con = bs ++ buffers con'
      /\ length bs = foldr (fun f acc => (layout_buffers f + acc)%nat) 0%nat fs
      /\ forallb lengths_nonneg cs = true
      /\ foldr (fun c acc => fstate_span c + acc) 0 cs <= buffers_length bs.
Proof.
  intros HF. induction HF as [|f fs Hf _ IH]; intros con cs con' H; simpl in H.
  - inversion H; subst. exists []. simpl. unfold buffers_length. simpl.
    repeat split; auto. lia.
  - destruct (__buildRecordBatchFieldState cat con f d) as [[c1 con1] | k m] eqn:E1;
      simpl in H; [| discriminate].
    destruct (build_children _ fs con1) as [[cs1 con2] | k m] eqn:E2;
      simpl in H; [| discriminate].
    inversion H; subst.
    destruct (Hf _ _ _ _ E1) as (bs & B & L & N & S).
    destruct (IH _ _ _ E2) as (bs' & B' & L' & N' & S').
    exists (bs ++ bs'). rewrite B, B', <- app_assoc, length_app, L, L'.
    rewrite buffers_length_app. simpl. rewrite N, N'.
    repeat split; auto. lia.
Qed.

Lemma raw_field_span cat field :
  forall con depth fstate con',
    __buildRecordBatchFieldState cat con field depth = Ok (fstate, con') ->
    spans con field fstate con'.
Proof.
  induction field as [name t metadata fchildren IHc] using field_nested_ind.
  intros con depth fstate con' H. simpl in H.
  destruct (next_fnode con) as [[fnode con0] | k m] eqn:En; simpl in H; [| discriminate].
  assert (Hb : buffers con0 = buffers con).
  { unfold next_fnode in En. destruct (fnodes con); [discriminate |].
    inversion En; subst. reflexivity. }
  destruct t; simpl in H;
    try (lazymatch type of IHc with Forall _ ?l =>
           lazymatch type of H with context [l] => fail | _ => idtac end end;
         repeat match type of H with
           | context [if ?b then _ else _] => destruct b eqn:?
           | context [match ?u with _ => _ end] =>
               match type of u with
               | ArrowPrecision => destruct u
               | ArrowDateUnit => destruct u
               | ArrowTimeUnit => destruct u
               | ArrowIntervalUnit => destruct u
               end
           end; try discriminate;
         (eapply (leaf_span _ _ _ _ _ _ _ _ _ _ _ _ _ Hb H);
          [ simpl; lia | reflexivity | reflexivity ])).
  - destruct fchildren as [|child [|? ?]]; try discriminate.
    destruct (0 <? depth) eqn:Hd; [discriminate |].
    match type of H with
    | context [__assignRecordBatchFieldStateBuffer ?f ?c ?b] =>
        destruct (__assignRecordBatchFieldStateBuffer f c b) as [[f1 c1] | k m] eqn:E1
    end; simpl in H; [| discriminate].
    destruct (__buildRecordBatchFieldState cat c1 child (depth + 1))
      as [[cstate c2] | k m] eqn:E2; simpl in H; [| discriminate].
    destruct (negb _); [discriminate |]. inversion H; subst.
    apply Forall_cons in IHc as [Hchild _].
    destruct (Hchild _ _ _ _ E2) as (bs' & B' & L' & N' & S').
    destruct (assign_buffer_lengths _ _ _ _ _ E1 eq_refl eq_refl eq_refl)
      as (bs & B & L & A1 & A2 & A3 & S).
    simpl in L.
    exists (bs ++ bs').
    split; [rewrite <- Hb, B, B', <- app_assoc; reflexivity |].
    split; [rewrite length_app, L, L'; simpl; lia |].
    split.
    + apply lengths_nonneg_unfold. destruct f1; simpl in *. rewrite N'. auto.
    + rewrite span_unfold, buffers_length_app. destruct f1; simpl in *. lia.
  - destruct fchildren as [|child [|? ?]]; try discriminate.
    destruct (0 <? depth) eqn:Hd; [discriminate |].
    match type of H with
    | context [__assignRecordBatchFieldStateBuffer ?f ?c ?b] =>
        destruct (__assignRecordBatchFieldStateBuffer f c b) as [[f1 c1] | k m] eqn:E1
    end; simpl in H; [| discriminate].
    destruct (__buildRecordBatchFieldState cat c1 child (depth + 1))
      as [[cstate c2] | k m] eqn:E2; simpl in H; [| discriminate].
    destruct (negb _); [discriminate |]. inversion H; subst.
    apply Forall_cons in IHc as [Hchild _].
    destruct (Hchild _ _ _ _ E2) as (bs' & B' & L' & N' & S').
    destruct (assign_buffer_lengths _ _ _ _ _ E1 eq_refl eq_refl eq_refl)
      as (bs & B & L & A1 & A2 & A3 & S).
    simpl in L.
    exists (bs ++ bs').
    split; [rewrite <- Hb, B, B', <- app_assoc; reflexivity |].
    split; [rewrite length_app, L, L'; simpl; lia |].
    split.
    + apply lengths_nonneg_unfold. destruct f1; simpl in *. rewrite N'. auto.
    + rewrite span_unfold, buffers_length_app. destruct f1; simpl in *. lia.
  - destruct (0 <? depth) eqn:Hd; [discriminate |].
    match type of H with
    | context [__assignRecordBatchFieldStateBuffer ?f ?c ?b] =>
        destruct (__assignRecordBatchFieldStateBuffer f c b) as [[f1 c1] | k m] eqn:E1
    end; simpl in H; [| discriminate].
    match type of H with
    | context [build_children ?g ?l ?c] =>
        destruct (build_children g l c) as [[cs c2] | k m] eqn:E2
    end; simpl in H; [| discriminate].
    destruct (build_children_span cat (depth + 1) fchildren IHc _ _ _ E2)
      as (bs' & B' & L' & N' & S').
    unfold __assignRecordBatchFieldStateComposite in H.
    destruct (List.find _ _); simpl in H; [| discriminate].
    inversion H; subst.
    destruct (assign_buffer_lengths _ _ _ _ _ E1 eq_refl eq_refl eq_refl)
      as (bs & B & L & A1 & A2 & A3 & S).
    simpl in L.
    exists (bs ++ bs').
    split; [rewrite <- Hb, B, B', <- app_assoc; reflexivity |].
    split; [rewrite length_app, L, L'; simpl; lia |].
    split.
    + apply lengths_nonneg_unfold. destruct f1; simpl in *. auto.
    + rewrite span_unfold, buffers_length_app. destruct f1; simpl in *. lia.
Qed.

Lemma children_length_exact len_of nch cs :
  Forall (fun c => 0 <= fstate_span c
                   /\ (fstate_span c < 2 ^ 64 -> len_of c = Done (fstate_span c))) cs ->
  forall j len,
    nch = j + Z.of_nat (length cs) -> 0 <= len ->
    len + foldr (fun c acc => fstate_span c + acc) 0 cs < 2 ^ 64 ->
    children_length len_of nch cs j len
    = Done (len + foldr (fun c acc => fstate_span c + acc) 0 cs).
Proof.
  induction 1 as [|c cs [Hc0 Hc] HF IH]; intros j len Hn Hlen Hsum; simpl in *.
  - destruct (Z.ltb_spec j nch); [lia |]. f_equal. lia.
  - assert (Hrest : 0 <= foldr (fun c acc => fstate_span c + acc) 0 cs).
    { clear -HF. induction HF as [|x l [Hx _] _ IHl]; simpl; lia. }
    destruct (Z.ltb_spec j nch); [| lia].
    rewrite Hc by lia. simpl.
    rewrite to_u64_small by lia.
    rewrite (IH (j + 1) (len + fstate_span c)) by lia.
    f_equal. lia.
Qed.

(** On a field state as the builder makes it, and short of an overflow
    of [size_t], [__recordBatchFieldLength] adds up the bytes of the
    field state. *)
Lemma field_length_exact f :
  fstate_wf f = true -> lengths_nonneg f = true -> fstate_span f < 2 ^ 64 ->
  __recordBatchFieldLength f = Done (fstate_span f).
Proof.
  induction f as [typid typmod o n nc no nl vo vl eo el smin smax snull nch cs IHcs]
    using fstate_nested_ind.
  intros Hw Hn Hs. simpl in Hw.
  apply andb_true_iff in Hw as [Hnch Hwcs]. apply Z.eqb_eq in Hnch.
  apply lengths_nonneg_unfold in Hn. simpl in Hn. destruct Hn as (A & B & C & D).
  assert (HF : Forall (fun c => 0 <= fstate_span c
                                /\ (fstate_span c < 2 ^ 64 ->
                                    __recordBatchFieldLength c = Done (fstate_span c))) cs).
  { clear -IHcs Hwcs D. induction IHcs as [|c cs Hc _ IH]; [constructor |].
    simpl in Hwcs, D. apply andb_true_iff in Hwcs as [W1 W2].
    apply andb_true_iff in D as [D1 D2].
    constructor; [| exact (IH W2 D2)].
    split; [apply span_nonneg; exact D1 | intros Hlt; apply Hc; assumption]. }
  assert (Hrest : 0 <= foldr (fun c acc => fstate_span c + acc) 0 cs).
  { clear -HF. induction HF as [|x l [Hx _] _ IHl]; simpl; lia. }
  simpl in Hs |- *.
  assert (E1 : (if 0 <? nc then to_u64 (0 + nl) else 0) = (if 0 <? nc then nl else 0)).
  { destruct (0 <? nc); [| reflexivity]. apply to_u64_small. lia. }
  rewrite E1.
  rewrite (to_u64_small (vl + el)) by (destruct (0 <? nc); lia).
  rewrite to_u64_small by (destruct (0 <? nc); lia).
  rewrite (children_length_exact _ nch cs HF 0) by (destruct (0 <? nc); lia).
  f_equal. lia.
Qed.

(** X19.  The length the planner counts for a column of a record batch
    stays within the buffers of that column.  For a field state as
    [__buildRecordBatchFieldState] returns it, and as long as the
    lengths of the buffers of the field's layout add up below 2^64,
    [__recordBatchFieldLength] returns the values and extra lengths of
    the field and of its sub-fields, plus the null bitmap lengths of
    those that have nulls; this is never more than the lengths of the
    buffers taken for the field. *)
Theorem X19_column_length_within_buffers cat con field depth fstate con' :
  __buildRecordBatchFieldState cat con field depth = Ok (fstate, con') ->
  buffers_length (take (layout_buffers field) (buffers con)) < 2 ^ 64 ->
  __recordBatchFieldLength fstate = Done (fstate_span fstate)
  /\ 0 <= fstate_span fstate
     <= buffers_length (take (layout_buffers field) (buffers con)).
Proof.
  intros H Hlt.
  destruct (raw_field_span _ _ _ _ _ _ H) as (bs & B & L & N & S).
  rewrite B, <- L, take_app_length in Hlt |- *.
  pose proof (span_nonneg _ N) as Hpos.
  split; [| lia].
  apply field_length_exact; [eapply raw_field_wf; exact H | exact N | lia].
Qed.

Lemma X19_column_length_within_buffers_witness :
  __recordBatchFieldLength list_fstate = Done 64
  /\ 0 <= 64 <= buffers_length (buffers list_batch).
Proof.
  exact (X19_column_length_within_buffers demo_catalog list_batch list_field 0
           list_fstate (mkContext [] []) eq_refl eq_refl).
Defined.
